(* ===== verification/_CoqProject ===== *)
-Q . S2P
Prelude.v
Base36.v
ErrorCode.v
SqlState.v
Errors.v
Endian.v
Streams.v
PgTypes.v
TypeSystem.v
Chrono.v
BinaryIO.v
BinaryRecv.v
Messages.v
Overloads.v
BinaryQuery.v
QueryBuilder.v
X3.v
QueryConf.v
QueryGrammar.v
QueryLines.v
RequestOidMap.v
Result.v
Deadline.v
Cancel.v
Failover.v
Options.v
RoleSource.v
Operations.v
AsyncRequest.v
LibpqCalls.v
RequestRuns.v
Executors.v
TimedOperation.v
TimedRequest.v
Connection.v
TimedConnect.v
ConnectionPool.v
PoolMachine.v
Handles.v
Cancellation.v
Transaction.v
RowRequest.v
RowFailover.v
Providers.v
ConnectionInfo.v
