(* ===== verification/Prelude.v ===== *)
(** * A verification of bozo, an asynchronous client of PostgreSQL

    bozo is a header-only C++ library (all of it under [src/include/bozo]).  A user
    builds a query, gets a connection from a source or a pool, sends the query in
    the binary format of PostgreSQL through libpq, and receives the rows into C++
    objects; operations are asynchronous, can have a time limit, can be cancelled
    and can be repeated by a failover strategy.

    ** The parts and the files

    - [Prelude]: code that throws ([outcome]), machine integers with their wrap
      around, bytes, the automation of the development.
    - [Base36] ([detail/base36.h]), [ErrorCode], [SqlState], [Errors] ([error.h]):
      error codes as pairs of a category and a number, the table of SQL states with
      their messages and classes, and the conditions a user tests errors against.
    - [Endian], [Streams] ([detail/endian.h], [detail/typed_buffer.h],
      [io/istream.h], [io/ostream.h]): integers on the wire for hosts of both byte
      orders, streams with the failure of a short read.
    - [PgTypes] ([pg/definitions.h]): the table of the built-in types, their OIDs,
      the OIDs of their arrays and their sizes.  [TypeSystem] ([type_traits.h],
      [core/nullable.h], [core/unwrap.h], [ext/], [pg/types/]): the C++ types the
      library can send as the inductive type [ctype], their traits, OID maps.
    - [Chrono] ([ext/std/duration.h], [ext/std/time_point.h], [detail/epoch.h]): the
      arithmetic between intervals or timestamps and the types of [std::chrono]; an
      operation of signed integers that overflows has no result ([None]).
    - [BinaryIO] ([io/size_of.h], [io/send.h], [io/array.h], [io/composite.h]) and
      [BinaryRecv] ([io/recv.h] and the receiving half of the same files): values of
      a [ctype], their length, sending and receiving, with every exception.  [Messages]
      says which bytes are a value of a type, apart from the code.
    - [Overloads] ([core/concept.h], [core/strong_typedef.h], [io/type_traits.h], the
      overloads of the streams and the dispatchers of [io/]): the code the compiler
      chooses for a type, from what the traits of the language, of Hana and of Fusion say
      about it, and the order of the members in each adaptation.  [OverloadSet] is the interface of a set of overloads, with the rule of
      the language for the best of them.
    - [BinaryQuery] ([io/binary_query.h]), [QueryBuilder] ([query_builder.h],
      [impl/query.h], [detail/begin_statement_builder.h], [transaction_options.h]),
      [QueryConf], [QueryGrammar], [QueryLines] ([query_conf.h]): the texts of
      queries and the buffers of their parameters.  [X3] is the interface of the
      combinators of Boost.Spirit the grammars of [QueryGrammar] are written with.
    - [RequestOidMap] ([impl/request_oid_map.h]), [Result] ([result.h], the rows of
      [io/recv.h]): what is done with the answers of the server.
    - [Deadline] ([deadline.h], [connector.h]), [Cancel] ([detail/deadline.h],
      [impl/cancel.h]), [Failover] ([failover/]): time constraints, the race between
      an operation and its timer, strategies and the loop that drives them.
      [Options] ([core/options.h], the strategy factories of [failover/retry.h]) and
      [RoleSource] ([failover/role_based.h]): what strategies are built from, and
      connection sources with roles.  [Operations] ([asio.h], [request.h], [execute.h],
      the operations of [connection.h] and [transaction.h], [failover/strategy.h]): the
      function objects a user calls, the initiators strategies are nested in and the
      continuations that are the handlers of their tries.
    - [AsyncRequest] ([impl/async_request.h], [impl/io.h], [impl/result_status.h]),
      [LibpqCalls] (the calls of libpq with their C types, query texts as C strings,
      [query.h]), [RequestRuns] (its runs), [Connection] ([impl/connection.h],
      [impl/async_connect.h]), [ConnectionPool] ([connection_pool.h],
      [impl/connection_pool.h], [impl/transaction_status.h]): the state machines on
      top of libpq.  [PoolMachine]: all requests of one pool, over the interface
      [ResourcePool] of its storage.
    - [Executors] ([detail/bind.h], [detail/wrap_executor.h], [detail/post_handler.h],
      [detail/make_copyable.h], and [get_executor] of every operation): where handlers
      run.  [Handler] is the trait of handlers and their adapters, [HandlerLaws] what is
      promised of it, and each adapter is an instance for every handler it wraps.
    - [TimedOperation]: what [detail/deadline.h] makes of an operation that waits on a
      socket.  The class [Operation] is the interface of such operations and
      [OperationLaws] what they promise; [TimedRequest] ([async_request_op]) and
      [TimedConnect] ([async_connect] with the request for OIDs) are the instances.
      Its runs are those of [any_step], in which any ready handler may run next; those of
      [timed_step] are the ones of a strand, which runs them in order, without a write
      wait that fails after the request has succeeded.
    - [Cancellation] ([cancel.h], [impl/cancel.h]): the cancellation of a request on the
      server, on the executors and the timer it runs on.
    - [Handles] ([connection.h], [core/nullable.h], [core/recursive.h], the class of
      [transaction.h]): connections as the user holds them, in a store where two
      pointers may share one.  [Transaction] ([transaction.h], [impl/transaction.h],
      [impl/async_execute.h]): beginning and ending transactions.  [RowRequest]
      ([async_request_out_handler]): a request with the container of its rows.
      [RowFailover] ([failover/strategy.h] with [impl/async_request.h]): a request that is
      tried again with the same container; [StopsAt] is what it needs of a strategy.
      [Providers] ([connector.h], [impl/async_request.h]): where the connection of a
      request comes from, and in which time.  [ConnectionInfo] ([connection_info.h]):
      connections by a connection string, and a request from connecting to its end.

    A class of the code is a record, an enumeration an inductive type, a member
    function a definition with the name it has in the source.  Handlers that run on
    an executor are the steps of an inductive relation on the state they share, so
    that a theorem about reachable states covers every order in which the executor
    can run them.

    ** What is outside

    libpq is a parameter: the classes [PGresult_ops], [LibPQ], [LibPQConnect],
    [LibPQTransaction], [LibPQCancel] and [LibPQFunctions] hold the functions the code
    calls, and classes of laws hold what its documentation promises and a proof needs.
    So are the storage of a pool ([ResourcePool] with [ResourcePoolLaws]), the combinators of
    Boost.Spirit ([X3] with [X3Laws]), the error categories of Boost ([Boost]), the
    processor of results and the callbacks of strategies.  Each class has an
    instance, and each theorem with a hypothesis an application to concrete data.
    [LibPQProgress] says that libpq neither makes up input nor takes back output: no call
    makes the bytes to receive or to send more, and nothing is busy or unsent without
    such bytes; it does not say that a call of [PQconsumeInput] takes any.  Handlers of
    an operation run one at a time; only what is proved about time-outs
    ([timeout_delivered], [connect_timeout_delivered]) needs that they run in the order
    they became ready.

    ** What is proved

    - Data.  Sending appends exactly the bytes of the wire format, and the lengths in
      front of them are right ([send_refines_wire]); what one host sends another
      receives ([binary_roundtrip]), for all nestings of arrays, composites and
      nullables whose arrays do not mix nulls with values of a static size; receiving
      takes the messages of a type and nothing else ([recv_takes_messages]); the
      specializations and overloads the compiler chooses do the same, for structures
      adapted in the order of their members ([overloads_agree]).  Durations and
      timestamps make round trips with stated bounds ([interval_roundtrip],
      [timestamp_send_recv]).
    - Queries.  Placeholders name the right parameters
      ([placeholders_number_parameters], [repository_texts]), the query reaches libpq
      with its text and the types and bytes of its parameters ([libpq_given_query]),
      configurations are read as they are written ([text_grammar_correct], [lines_grammar_total],
      [conf_sections], [query_conf_roundtrip]) and checked completely
      ([repository_created_iff]), BEGIN says, in the grammar of
      PostgreSQL, what the options say ([begin_statement_faithful]).
    - Results.  Rows are received by name and in order, and a request appends exactly
      the rows of its result to the container ([request_delivers_rows]), also when it is tried
      again ([failover_request_rows], [failover_rows_once]); OIDs of the server are stored
      for the types they belong to ([oids_stored]).
    - Control.  Time limits, cancellation and failover call the handler of the user
      exactly once ([io_deadline_calls_once], [cancellation_calls_once],
      [failover_calls_handler_once]), however strategies are nested
      ([nested_failover_once]); requests and connecting, with or without a time limit,
      and the two after one another do so in every run but those in which a write wait
      fails after its request has succeeded ([timed_request_once],
      [timed_connect_once], [connected_request_once]); the handler is called when the
      time is up ([timeout_delivered], [connect_timeout_delivered]); requests end
      ([request_terminates]); handles of libpq are finished once
      ([connect_handles_balanced], [close_connection_shared]), and it is known which
      functions may be called with a null connection ([handle_functions_safe]); a pool gives out
      and takes back only connections that can be used, each to one user at a time
      ([pool_connections_exclusive]); handlers are called on the executor they ask for
      ([handler_called_on_its_executor]), and the waits of a request end on one
      strand ([request_waits_on_one_strand]); a transaction sends BEGIN,
      its queries and COMMIT ([transaction_session]); strategies make the tries they
      promise, with the sources of their roles and in the time they have
      ([retry_tries], [retry_strategy_runs], [fallback_picks_first_recovering],
      [role_based_asks_registered_source], [retry_time_shared],
      [request_time_limits]).
    - Errors.  The tables of SQL states agree with their documentation and conditions
      hold of exactly the errors they should.

    Some theorems show where the code does something else than it seems to mean:
    [message_names_every_code_but_one], [mixed_null_array_size_wrong],
    [empty_array_keeps_elements], [empty_string_sent_as_null],
    [interval_overflows], [timestamp_infinity_overflows],
    [late_write_calls_handler_twice], [timeout_can_be_missed],
    [nested_pointer_hides_null], [view_read_past_its_end],
    [oid_request_on_another_strand], [request_started_off_strand],
    [begin_not_failover_compatible], [timed_out_rows_duplicated], [library_roles_stop],
    [readable_by_conversion] and [doubly_adapted_exchanges].

    ** Fuel

    [Failover.run] takes the number of further tries as fuel: the theorems ask for
    [tries_bound] of the strategy, and [retry_tries] for one less than the tries the
    user gave, which is as many as are made.  The loop of [AsyncRequest.drain] takes
    the results that have arrived until libpq has no more: its fuel is their number
    ([results_ready]), which every result taken makes smaller.  Receiving and sending
    recurse on the type.  [Operations.run_operations] runs the handlers of operations with
    the product of the tries of the nested strategies as fuel, and [Operations.tries_course],
    the course it follows, with the bound of the first try; that they never run out is
    part of [nested_failover_once].  All other functions are total without fuel.

    ** What is not modelled

    Boost.Asio itself (its executors, timers, streams and completion tokens are what the
    steps of the machines stand for), allocators, the concepts of [core/concept.h] that
    only guard templates (iterators, connection providers) and the calls through
    [detail/functional.h], [cancel_io], which nothing uses, and the object for statistics,
    which connections carry and never use. *)

From Stdlib Require Import ZArith Lia List String Ascii Strings.Byte.
From stdpp Require Import base tactics list strings.

Open Scope Z_scope.

(** * Code that throws *)

(** A C++ expression of type [A] either yields a value or leaves by an
    exception of type [E]. *)
Inductive outcome (E A : Type) : Type :=
| Ok (a : A)
| Throw (e : E).
Arguments Ok {E A} a.
Arguments Throw {E A} e.

#[export] Instance outcome_ret {E} : MRet (outcome E) := fun _ a => Ok a.

#[export] Instance outcome_bind {E} : MBind (outcome E) := fun _ _ f m =>
  match m with Ok a => f a | Throw e => Throw e end.

#[export] Instance outcome_fmap {E} : FMap (outcome E) := fun _ _ f m =>
  match m with Ok a => Ok (f a) | Throw e => Throw e end.

(** The result of a run that did not throw. *)
Definition outcome_value {E A} (m : outcome E A) : option A :=
  match m with Ok a => Some a | Throw _ => None end.

Section Outcome.
Context {E A B : Type}.

Lemma bind_ok (a : A) (f : A -> outcome E B) : (Ok a ≫= f) = f a.
Proof. reflexivity. Qed.

Lemma bind_throw (e : E) (f : A -> outcome E B) : (Throw e ≫= f) = Throw e.
Proof. reflexivity. Qed.

Lemma bind_ok_inv (m : outcome E A) (f : A -> outcome E B) (b : B) :
  (m ≫= f) = Ok b -> exists a, m = Ok a /\ f a = Ok b.
Proof. destruct m; cbn; [eauto | discriminate]. Qed.
End Outcome.

(** A loop over a range whose body can throw: the state when it threw is lost, as
    the callers of such loops drop the object they were building. *)
Fixpoint foldM {E A B} (f : B -> A -> outcome E B) (b : B) (l : list A) : outcome E B :=
  match l with
  | [] => Ok b
  | a :: l => f b a ≫= fun b => foldM f b l
  end.

Lemma foldM_app {E A B} (f : B -> A -> outcome E B) b l1 l2 :
  foldM f b (l1 ++ l2) = foldM f b l1 ≫= fun b => foldM f b l2.
Proof.
  revert b. induction l1 as [|a l1 IH]; intros b; [done|]. cbn [app foldM].
  destruct (f b a); [apply IH | done].
Qed.

(** * Machine integers *)

Definition two_p (w : Z) : Z := 2 ^ w.

(** Conversion to an unsigned / two's complement integer of [w] bits. *)
Definition wrapU (w z : Z) : Z := z mod 2 ^ w.
Definition wrapS (w z : Z) : Z := (z + 2 ^ (w - 1)) mod 2 ^ w - 2 ^ (w - 1).

Definition in_U (w z : Z) : bool := (0 <=? z) && (z <? 2 ^ w).
Definition in_S (w z : Z) : bool := (- 2 ^ (w - 1) <=? z) && (z <? 2 ^ (w - 1)).

(** Undefined behaviour of signed overflow: the operation has a result only
    when the mathematical value fits. *)
Definition checkS (w z : Z) : option Z := if in_S w z then Some z else None.

Definition INT32_MAX : Z := 2147483647.
Definition INT64_MAX : Z := 9223372036854775807.
Definition INT64_MIN : Z := -9223372036854775808.

Section MachineIntegers.
Variable w : Z.
Hypothesis w_pos : 0 < w.

Lemma pow_half : 2 ^ w = 2 * 2 ^ (w - 1).
Proof. rewrite <- Z.pow_succ_r by lia. f_equal. lia. Qed.

Lemma pow_w_pos : 0 < 2 ^ w.
Proof. apply Z.pow_pos_nonneg; lia. Qed.

Lemma in_U_iff z : in_U w z = true <-> 0 <= z < 2 ^ w.
Proof. unfold in_U. rewrite andb_true_iff, Z.leb_le, Z.ltb_lt. reflexivity. Qed.

Lemma in_S_iff z : in_S w z = true <-> - 2 ^ (w - 1) <= z < 2 ^ (w - 1).
Proof. unfold in_S. rewrite andb_true_iff, Z.leb_le, Z.ltb_lt. reflexivity. Qed.

Lemma wrapU_in_U z : in_U w (wrapU w z) = true.
Proof. rewrite in_U_iff. apply Z.mod_pos_bound, pow_w_pos. Qed.

Lemma wrapU_small z : in_U w z = true -> wrapU w z = z.
Proof. rewrite in_U_iff. intros. apply Z.mod_small. lia. Qed.

Lemma wrapS_in_S z : in_S w (wrapS w z) = true.
Proof.
  rewrite in_S_iff. unfold wrapS.
  pose proof (Z.mod_pos_bound (z + 2 ^ (w - 1)) (2 ^ w) pow_w_pos).
  pose proof pow_half. lia.
Qed.

Lemma wrapS_small z : in_S w z = true -> wrapS w z = z.
Proof.
  rewrite in_S_iff. intros. unfold wrapS. pose proof pow_half.
  rewrite Z.mod_small; lia.
Qed.

(** Reading the unsigned pattern of a signed number as signed gives the
    number back. *)
Lemma wrapS_wrapU z : wrapS w (wrapU w z) = wrapS w z.
Proof. unfold wrapS, wrapU. rewrite Z.add_mod_idemp_l; [done|]. pose proof pow_w_pos. lia. Qed.

Lemma wrapU_wrapS z : wrapU w (wrapS w z) = wrapU w z.
Proof.
  unfold wrapS, wrapU. pose proof pow_w_pos.
  rewrite Zminus_mod_idemp_l. f_equal. lia.
Qed.

Lemma checkS_some z : in_S w z = true -> checkS w z = Some z.
Proof. unfold checkS. by intros ->. Qed.

Lemma checkS_inv z r : checkS w z = Some r -> r = z /\ in_S w z = true.
Proof. unfold checkS. destruct (in_S w z); intros; simplify_eq. done. Qed.
End MachineIntegers.

(** * Bytes *)

Definition byte_val (b : byte) : Z := Z.of_N (Byte.to_N b).

Definition byte_of (z : Z) : byte :=
  match Byte.of_N (Z.to_N (z mod 256)) with Some b => b | None => x00 end.

Lemma byte_val_range b : 0 <= byte_val b < 256.
Proof. unfold byte_val. pose proof (Byte.to_N_bounded b). lia. Qed.

Lemma byte_of_val b : byte_of (byte_val b) = b.
Proof.
  unfold byte_of. pose proof (byte_val_range b) as Hb.
  rewrite Z.mod_small by lia. unfold byte_val. by rewrite N2Z.id, Byte.of_to_N.
Qed.

Lemma byte_val_of z : byte_val (byte_of z) = z mod 256.
Proof.
  unfold byte_of, byte_val. pose proof (Z.mod_pos_bound z 256).
  destruct (Byte.of_N _) as [b|] eqn:Hb.
  - apply Byte.to_of_N in Hb. rewrite Hb. lia.
  - apply Byte.of_N_None_iff in Hb. lia.
Qed.

#[export] Instance byte_eq_decision : EqDecision byte := byte_eq_dec.

(** The bytes of an object in memory, least significant first, and the value
    they stand for. *)
Fixpoint le_bytes (n : nat) (z : Z) : list byte :=
  match n with
  | O => []
  | S n => byte_of z :: le_bytes n (z / 256)
  end.

Fixpoint le_value (bs : list byte) : Z :=
  match bs with
  | [] => 0
  | b :: bs => byte_val b + 256 * le_value bs
  end.

Lemma pow_256_succ (n : nat) : 256 ^ Z.of_nat (S n) = 256 * 256 ^ Z.of_nat n.
Proof. rewrite Nat2Z.inj_succ, Z.pow_succ_r by lia. done. Qed.

Lemma pow_256_pos (n : nat) : 0 < 256 ^ Z.of_nat n.
Proof. apply Z.pow_pos_nonneg; lia. Qed.

Lemma pow_256_bits (n : nat) : 256 ^ Z.of_nat n = 2 ^ (8 * Z.of_nat n).
Proof. change 256 with (2 ^ 8). rewrite <- Z.pow_mul_r by lia. done. Qed.

Lemma length_le_bytes n z : length (le_bytes n z) = n.
Proof. revert z. induction n; cbn; intros; [done|]. by rewrite IHn. Qed.

Lemma le_value_bytes n z : le_value (le_bytes n z) = z mod 256 ^ Z.of_nat n.
Proof.
  revert z. induction n as [|n IH]; intros z; cbn [le_bytes le_value].
  - by rewrite Z.mod_1_r.
  - rewrite IH, byte_val_of, pow_256_succ.
    rewrite Z.rem_mul_r; [lia | lia | apply pow_256_pos].
Qed.

Lemma le_bytes_value bs : le_bytes (length bs) (le_value bs) = bs.
Proof.
  induction bs as [|b bs IH]; cbn [length le_bytes le_value]; [done|].
  pose proof (byte_val_range b) as Hb. f_equal.
  - rewrite <- (byte_of_val b) at 2. unfold byte_of.
    do 3 f_equal. rewrite Z.mul_comm, Z_mod_plus_full. done.
  - rewrite Z.mul_comm, Z.div_add, Z.div_small by lia. by rewrite Z.add_0_l.
Qed.

Lemma le_value_range bs : 0 <= le_value bs < 256 ^ Z.of_nat (length bs).
Proof.
  induction bs as [|b bs IH]; cbn [length le_value]; [done|].
  rewrite pow_256_succ. pose proof (byte_val_range b). lia.
Qed.

Lemma le_bytes_app m n z :
  le_bytes (m + n) z = le_bytes m z ++ le_bytes n (z / 256 ^ Z.of_nat m).
Proof.
  revert z. induction m as [|m IH]; intros z; cbn [Nat.add le_bytes app].
  - by rewrite Z.div_1_r.
  - rewrite IH, pow_256_succ, Z.div_div; [done | lia | apply pow_256_pos].
Qed.

(** * Strings of bytes *)

Definition bytes_of_string (s : string) : list byte := list_byte_of_string s.

Lemma length_bytes_of_string s : length (bytes_of_string s) = String.length s.
Proof. induction s; cbn; [done|]. by f_equal. Qed.

(** A string without the characters [c] at its end: [find_last_not_of] and a cut. *)
Fixpoint trim_end (c : ascii) (s : list ascii) : list ascii :=
  match s with
  | [] => []
  | d :: s => match trim_end c s with
              | [] => if Ascii.eqb d c then [] else [d]
              | rest => d :: rest
              end
  end.

Lemma trim_end_spec c s :
  exists n, s = (trim_end c s ++ replicate n c)%list /\ last (trim_end c s) <> Some c.
Proof.
  induction s as [|d s (n & Hm & Hl)]; [exists 0%nat; done|]. cbn [trim_end].
  destruct (trim_end c s) as [|e rest] eqn:Ht.
  - destruct (Ascii.eqb_spec d c) as [->|Hc].
    + exists (S n). split; [|done]. cbn. f_equal. exact Hm.
    + exists n. split; [cbn; f_equal; exact Hm|]. cbn. congruence.
  - exists n. split; [cbn; f_equal; exact Hm|]. exact Hl.
Qed.

Lemma list_ascii_of_append a b :
  list_ascii_of_string (a +:+ b) = list_ascii_of_string a ++ list_ascii_of_string b.
Proof. induction a as [|c a IH]; [done|]. exact (f_equal (cons c) IH). Qed.

Lemma list_ascii_inj a b : list_ascii_of_string a = list_ascii_of_string b -> a = b.
Proof.
  intros H. by rewrite <- (string_of_list_ascii_of_string a), H,
    string_of_list_ascii_of_string.
Qed.

Lemma append_inj_l a b s : a +:+ s = b +:+ s -> a = b.
Proof.
  intros H. apply (f_equal list_ascii_of_string) in H.
  rewrite !list_ascii_of_append in H. by apply app_inv_tail, list_ascii_inj in H.
Qed.

(** * Automation of the development *)

Create HintDb bozo.
Create Rewrite HintDb bozo.

#[export] Hint Resolve byte_val_range wrapU_in_U wrapS_in_S : bozo.
#[export] Hint Rewrite @length_app @length_map @length_reverse length_le_bytes : bozo.

(** Case analysis on the boolean tests of the code, as propositions. *)
Ltac bool_cases :=
  repeat match goal with
  | |- context [?a <? ?b] => destruct (Z.ltb_spec a b)
  | |- context [?a <=? ?b] => destruct (Z.leb_spec a b)
  | |- context [?a =? ?b] => destruct (Z.eqb_spec a b)
  end.

Ltac bool_props :=
  repeat match goal with
  | H : andb _ _ = true |- _ => apply andb_true_iff in H; destruct H
  | H : orb _ _ = false |- _ => apply orb_false_iff in H; destruct H
  | H : negb _ = true |- _ => apply negb_true_iff in H
  | H : negb _ = false |- _ => apply negb_false_iff in H
  | H : (_ <? _) = true |- _ => apply Z.ltb_lt in H
  | H : (_ <? _) = false |- _ => apply Z.ltb_ge in H
  | H : (_ <=? _) = true |- _ => apply Z.leb_le in H
  | H : (_ <=? _) = false |- _ => apply Z.leb_gt in H
  | H : (_ =? _) = true |- _ => apply Z.eqb_eq in H
  | H : (_ =? _) = false |- _ => apply Z.eqb_neq in H
  end.

(** Run the error monad of a hypothesis one bind at a time. *)
Ltac outcome_inv :=
  repeat match goal with
  | H : (_ ≫= _) = Ok _ |- _ =>
      apply bind_ok_inv in H; let a := fresh "r" in let Ha := fresh "Hr" in
      destruct H as (a & Ha & H)
  | H : Ok _ = Ok _ |- _ => injection H as H
  | H : Throw _ = Ok _ |- _ => discriminate H
  end.
