(* ===== verification/Base36.v ===== *)
(** Base-36 numerals: [src/include/bozo/detail/base36.h].

    PostgreSQL reports an error as a five character SQLSTATE; the library keeps
    it as the integer its base-36 reading denotes ([b36tol], [strtol] with base
    36) and prints it back with [ltob36].  The loop of [ltob36] runs on a 64-bit
    unsigned number, so that thirteen iterations ([36 ^ 13 > 2 ^ 64]) reach
    zero: [ltob36_loop_fuel] shows that more fuel changes nothing. *)

From S2P Require Import Prelude.
From Stdlib Require Import ZArith Lia List String Ascii.
From stdpp Require Import base tactics list.

Open Scope Z_scope.

Module Base36.

(** ** Characters *)

Definition ascii_val (c : ascii) : Z := Z.of_N (N_of_ascii c).
Definition ascii_of (z : Z) : ascii := ascii_of_N (Z.to_N z).

(** [d < 10 ? '0' + d : 'A' + d - 10]. *)
Definition digit_char (d : Z) : ascii :=
  if d <? 10 then ascii_of (48 + d) else ascii_of (65 + d - 10).

(** The digit a character stands for in [strtol] with base 36: letters of
    either case are accepted. *)
Definition digit_val (c : ascii) : option Z :=
  let v := ascii_val c in
  if (48 <=? v) && (v <=? 57) then Some (v - 48)
  else if (65 <=? v) && (v <=? 90) then Some (v - 55)
  else if (97 <=? v) && (v <=? 122) then Some (v - 87)
  else None.

(** ** [ltob36] *)

(** The [do ... while (u > 0)] loop; [out] grows at its back. *)
Fixpoint ltob36_loop (fuel : nat) (u : Z) (out : list ascii) : list ascii :=
  match fuel with
  | O => out
  | S fuel =>
      let out := out ++ [digit_char (u mod 36)] in
      let u := u / 36 in
      if 0 <? u then ltob36_loop fuel u out else out
  end.

Definition ltob36 (i : Z) : string :=
  let u := wrapU 64 i in
  string_of_list_ascii (reverse (ltob36_loop 13 u [])).

(** ** [strtol(in.data(), nullptr, 36)] *)

Definition is_space (c : ascii) : bool :=
  let v := ascii_val c in (v =? 32) || ((9 <=? v) && (v <=? 13)).

Fixpoint skip_spaces (s : list ascii) : list ascii :=
  match s with
  | c :: s' => if is_space c then skip_spaces s' else s
  | [] => []
  end.

(** The value of the longest prefix of digits, added to [acc]. *)
Fixpoint read_digits (acc : Z) (s : list ascii) : Z :=
  match s with
  | c :: s => match digit_val c with
              | Some d => read_digits (36 * acc + d) s
              | None => acc
              end
  | [] => acc
  end.

(** Values beyond the range of [long] are clamped to its bounds. *)
Definition clamp_long (z : Z) : Z := Z.max INT64_MIN (Z.min INT64_MAX z).

Definition strtol36 (s : list ascii) : Z :=
  match skip_spaces s with
  | c :: s =>
      if ascii_val c =? 45 then clamp_long (- read_digits 0 s)
      else if ascii_val c =? 43 then clamp_long (read_digits 0 s)
      else clamp_long (read_digits 0 (c :: s))
  | [] => 0
  end.

Definition b36tol (s : string) : Z := strtol36 (list_ascii_of_string s).

(** ** The digits of a number *)

Lemma ascii_val_of z : 0 <= z < 256 -> ascii_val (ascii_of z) = z.
Proof. intros. unfold ascii_val, ascii_of. rewrite N_ascii_embedding; lia. Qed.

Lemma digit_val_char d : 0 <= d < 36 -> digit_val (digit_char d) = Some d.
Proof.
  intros Hd. unfold digit_char, digit_val.
  destruct (Z.ltb_spec d 10); rewrite ascii_val_of by lia;
    repeat (case_match; bool_props); try lia; f_equal; try lia;
    exfalso; rewrite ?andb_false_iff, ?Z.leb_gt in *; lia.
Qed.

(** A digit character is neither white space nor a sign. *)
Lemma digit_char_plain d :
  0 <= d < 36 ->
  is_space (digit_char d) = false /\
  (ascii_val (digit_char d) =? 45) = false /\ (ascii_val (digit_char d) =? 43) = false.
Proof.
  intros Hd. unfold is_space, digit_char.
  destruct (Z.ltb_spec d 10); rewrite ascii_val_of by lia;
    rewrite orb_false_iff, andb_false_iff, !Z.eqb_neq, !Z.leb_gt; lia.
Qed.

(** The numeral of [u], most significant digit first, as a specification of
    the loop: [numeral n u] is [u] written with at most [n] digits. *)
Fixpoint numeral (n : nat) (u : Z) : list Z :=
  match n with
  | O => []
  | S n => (if 0 <? u / 36 then numeral n (u / 36) else []) ++ [u mod 36]
  end.

Lemma ltob36_loop_numeral fuel u out :
  ltob36_loop fuel u out = out ++ reverse (digit_char <$> numeral fuel u).
Proof.
  revert u out. induction fuel as [|n IH]; intros u out; cbn [ltob36_loop numeral].
  - by rewrite app_nil_r.
  - destruct (0 <? u / 36).
    + rewrite IH, fmap_app, reverse_app. cbn. by rewrite <- app_assoc.
    + done.
Qed.

Lemma numeral_digits n u : Forall (fun d => 0 <= d < 36) (numeral n u).
Proof.
  revert u. induction n as [|n IH]; intros u; cbn [numeral]; [constructor|].
  apply Forall_app. split; [case_match; auto|].
  constructor; [apply Z.mod_pos_bound; lia | constructor].
Qed.

Lemma read_digits_app acc ds s :
  Forall (fun d => 0 <= d < 36) ds ->
  read_digits acc ((digit_char <$> ds) ++ s) =
  read_digits (foldl (fun a d => 36 * a + d) acc ds) s.
Proof.
  intros Hds. revert acc. induction Hds as [|d ds Hd Hds IH]; intros acc; cbn; [done|].
  by rewrite digit_val_char, IH.
Qed.

Lemma foldl_numeral n u :
  0 <= u < 36 ^ Z.of_nat n -> foldl (fun a d => 36 * a + d) 0 (numeral n u) = u.
Proof.
  revert u. induction n as [|n IH]; intros u Hu; cbn [numeral].
  - change (36 ^ Z.of_nat 0) with 1 in Hu. cbn. lia.
  - rewrite Nat2Z.inj_succ, Z.pow_succ_r in Hu by lia.
    rewrite foldl_app. cbn [foldl]. pose proof (Z.div_mod u 36).
    destruct (Z.ltb_spec 0 (u / 36)).
    + rewrite IH; [lia|]. split; [lia|]. apply Z.div_lt_upper_bound; lia.
    + assert (u / 36 = 0) by (pose proof (Z.div_pos u 36); lia). cbn. lia.
Qed.

(** More fuel than the number has digits does not change the loop. *)
Lemma numeral_fuel n m u :
  0 <= u < 36 ^ Z.of_nat n -> (0 < n)%nat -> numeral (n + m) u = numeral n u.
Proof.
  revert u. induction n as [|n IH]; intros u Hu Hn; [lia|].
  cbn [Nat.add numeral]. rewrite Nat2Z.inj_succ, Z.pow_succ_r in Hu by lia.
  destruct (Z.ltb_spec 0 (u / 36)); [|done].
  assert (0 <= u / 36 < 36 ^ Z.of_nat n).
  { split; [lia|]. apply Z.div_lt_upper_bound; lia. }
  destruct n as [|n]; [change (36 ^ Z.of_nat 0) with 1 in *; lia|].
  by rewrite IH by lia.
Qed.

Lemma ltob36_loop_fuel m u :
  in_U 64 u = true -> ltob36_loop (13 + m) u [] = ltob36_loop 13 u [].
Proof.
  intros Hu. apply in_U_iff in Hu.
  rewrite !ltob36_loop_numeral, numeral_fuel; [done | | lia].
  split; [lia|]. eapply Z.lt_trans; [apply Hu|]. by vm_compute.
Qed.

Lemma numeral_head n u : (0 < n)%nat -> exists d ds, numeral n u = d :: ds.
Proof.
  intros Hn. destruct n as [|n]; [lia|]. cbn [numeral].
  case_match; [destruct (numeral n (u / 36))|]; cbn; eauto.
Qed.

Lemma list_ascii_of_ltob36 i :
  list_ascii_of_string (ltob36 i) = digit_char <$> numeral 13 (wrapU 64 i).
Proof.
  unfold ltob36. rewrite list_ascii_of_string_of_list_ascii, ltob36_loop_numeral.
  cbn [app]. apply reverse_involutive.
Qed.

Lemma strtol36_numeral ds :
  Forall (fun d => 0 <= d < 36) ds -> ds <> [] ->
  strtol36 (digit_char <$> ds) = clamp_long (foldl (fun a d => 36 * a + d) 0 ds).
Proof.
  intros Hds Hne. destruct ds as [|d ds]; [done|].
  pose proof Hds as Hall. apply Forall_cons_1 in Hds as [Hd _].
  destruct (digit_char_plain d Hd) as (Hsp & Hm & Hp).
  unfold strtol36. cbn [fmap list_fmap skip_spaces]. rewrite Hsp, Hm, Hp.
  change (digit_char d :: (digit_char <$> ds)) with (digit_char <$> (d :: ds)).
  rewrite <- (app_nil_r (digit_char <$> (d :: ds))), read_digits_app by done.
  done.
Qed.

Lemma b36tol_ltob36_unsigned i :
  b36tol (ltob36 i) = Z.min INT64_MAX (wrapU 64 i).
Proof.
  unfold b36tol. rewrite list_ascii_of_ltob36.
  pose proof (wrapU_in_U 64 ltac:(lia) i) as Hu. apply in_U_iff in Hu.
  rewrite strtol36_numeral.
  - rewrite foldl_numeral; [unfold clamp_long, INT64_MIN, INT64_MAX; lia|].
    split; [lia|]. eapply Z.lt_trans; [apply Hu|]. by vm_compute.
  - apply numeral_digits.
  - destruct (numeral_head 13 (wrapU 64 i)) as (d & ds & ->); [lia | done].
Qed.

(** ** SQLSTATE codes *)

(** A SQLSTATE as PostgreSQL writes it: five digits or upper case letters. *)
Definition is_sqlstate_char (c : ascii) : bool :=
  let v := ascii_val c in
  ((48 <=? v) && (v <=? 57)) || ((65 <=? v) && (v <=? 90)).

Definition is_sqlstate (s : string) : bool :=
  (String.length s =? 5)%nat && forallb is_sqlstate_char (list_ascii_of_string s).

Lemma ascii_of_val c : ascii_of (ascii_val c) = c.
Proof. unfold ascii_of, ascii_val. by rewrite N2Z.id, ascii_N_embedding. Qed.

Lemma is_sqlstate_char_digit c :
  is_sqlstate_char c = true -> exists d, 0 <= d < 36 /\ c = digit_char d.
Proof.
  unfold is_sqlstate_char. rewrite orb_true_iff, !andb_true_iff, !Z.leb_le.
  intros [H|H]; unfold digit_char.
  - exists (ascii_val c - 48). split; [lia|].
    destruct (Z.ltb_spec (ascii_val c - 48) 10); [|lia].
    rewrite <- (ascii_of_val c) at 1. f_equal. lia.
  - exists (ascii_val c - 55). split; [lia|].
    destruct (Z.ltb_spec (ascii_val c - 55) 10); [lia|].
    rewrite <- (ascii_of_val c) at 1. f_equal. lia.
Qed.

Lemma sqlstate_digits cs :
  forallb is_sqlstate_char cs = true ->
  exists ds, cs = digit_char <$> ds /\ Forall (fun d => 0 <= d < 36) ds.
Proof.
  induction cs as [|c cs IH]; cbn; [by exists []|].
  rewrite andb_true_iff. intros [Hc Hcs].
  destruct (is_sqlstate_char_digit c Hc) as (d & Hd & ->).
  destruct (IH Hcs) as (ds & -> & Hds).
  exists (d :: ds). split; [done | by constructor].
Qed.

(** Distinct digit lists of the same length denote distinct numbers. *)
Lemma foldl_digits_inj a b ds es :
  length ds = length es ->
  Forall (fun d => 0 <= d < 36) ds -> Forall (fun d => 0 <= d < 36) es ->
  foldl (fun a d => 36 * a + d) a ds = foldl (fun a d => 36 * a + d) b es ->
  a = b /\ ds = es.
Proof.
  revert a b es. induction ds as [|d ds IH]; intros a b [|e es] Hlen Hd He Heq;
    cbn in *; try discriminate; [done|].
  inversion Hd; inversion He; subst.
  destruct (IH (36 * a + d) (36 * b + e) es) as [Ha ->]; [lia | done | done | done |].
  assert (a = b /\ d = e) as [-> ->] by lia. done.
Qed.

Lemma foldl_digits_range a ds :
  0 <= a -> Forall (fun d => 0 <= d < 36) ds ->
  0 <= foldl (fun a d => 36 * a + d) a ds < 36 ^ Z.of_nat (length ds) * (a + 1).
Proof.
  revert a. induction ds as [|d ds IH]; intros a Ha Hds; cbn [foldl length].
  - change (36 ^ Z.of_nat 0) with 1. lia.
  - inversion Hds; subst. rewrite Nat2Z.inj_succ, Z.pow_succ_r by lia.
    specialize (IH (36 * a + d) ltac:(lia) ltac:(done)).
    assert (0 < 36 ^ Z.of_nat (length ds)) by (apply Z.pow_pos_nonneg; lia). nia.
Qed.

(** The digits of a SQLSTATE and the value [strtol] gives to it. *)
Lemma is_sqlstate_inv s :
  is_sqlstate s = true ->
  exists ds, list_ascii_of_string s = digit_char <$> ds /\ length ds = 5%nat /\
    Forall (fun d => 0 <= d < 36) ds /\
    b36tol s = foldl (fun a d => 36 * a + d) 0 ds.
Proof.
  unfold is_sqlstate. rewrite andb_true_iff, Nat.eqb_eq. intros [Hlen Hcs].
  destruct (sqlstate_digits _ Hcs) as (ds & Heq & Hds). exists ds.
  assert (length ds = 5%nat) as Hl.
  { rewrite <- (length_fmap digit_char), <- Heq.
    clear -Hlen. rewrite <- Hlen. clear. induction s; cbn; congruence. }
  split; [done|]. split; [done|]. split; [done|].
  unfold b36tol. rewrite Heq, strtol36_numeral; [|done | by destruct ds].
  pose proof (foldl_digits_range 0 ds ltac:(lia) Hds) as Hr. rewrite Hl in Hr.
  change (36 ^ Z.of_nat 5 * (0 + 1)) with 60466176 in Hr.
  unfold clamp_long, INT64_MIN, INT64_MAX. lia.
Qed.

Lemma b36tol_inj s t :
  is_sqlstate s = true -> is_sqlstate t = true -> b36tol s = b36tol t -> s = t.
Proof.
  intros Hs Ht Heq.
  destruct (is_sqlstate_inv s Hs) as (ds & Hds & Hls & Hfs & Hvs).
  destruct (is_sqlstate_inv t Ht) as (es & Hes & Hlt & Hft & Hvt).
  apply list_ascii_inj. rewrite Hds, Hes. f_equal.
  eapply foldl_digits_inj; [congruence | done | done |]. rewrite <- Hvs, <- Hvt. done.
Qed.

(** C40. Reading back what [ltob36] prints gives the number again for every
    non-negative [long]; a negative one is printed as its unsigned pattern, which
    [strtol] clamps to [LONG_MAX]. *)
Theorem b36tol_ltob36 i :
  in_S 64 i = true ->
  b36tol (ltob36 i) = if i <? 0 then INT64_MAX else i.
Proof.
  intros Hi. apply in_S_iff in Hi. rewrite b36tol_ltob36_unsigned.
  change (2 ^ (64 - 1)) with 9223372036854775808 in Hi.
  unfold wrapU, INT64_MAX. change (2 ^ 64) with 18446744073709551616.
  destruct (Z.ltb_spec i 0).
  - rewrite <- (Z_mod_plus_full i 1), Z.mod_small; lia.
  - rewrite Z.mod_small; lia.
Qed.

Lemma b36tol_ltob36_witness : in_S 64 29999808 = true /\ b36tol (ltob36 29999808) = 29999808.
Proof. split; [reflexivity|]. apply (b36tol_ltob36 29999808). reflexivity. Defined.

End Base36.
