(* ===== verification/ErrorCode.v ===== *)
(** Error codes and conditions of Boost.System, as the library uses them
    ([src/include/bozo/error.h], the aliases [error_code], [error_category],
    [error_condition]).

    Boost.System and Boost.Asio are not part of the repository: the numeric
    values of the Asio enumerators and the mapping of a system error to its
    generic condition are the fields of the class [Boost], an argument of every
    definition that compares codes. *)

From S2P Require Import Prelude.
From Stdlib Require Import ZArith Lia List String.
From stdpp Require Import base tactics list.

Open Scope Z_scope.

(** The categories the library distinguishes.  [other_category] stands for any
    category of the application. *)
Inductive category : Set :=
| system_category
| generic_category
| netdb_category
| bozo_error_category
| bozo_sqlstate_category
| bozo_errc_category
| other_category (n : nat).

#[export] Instance category_eq_dec : EqDecision category.
Proof. solve_decision. Defined.

Record error_code := mk_error_code { ec_value : Z; ec_category : category }.
Record error_condition := mk_error_condition { cond_value : Z; cond_category : category }.

#[export] Instance error_code_eq_dec : EqDecision error_code.
Proof. solve_decision. Defined.

#[export] Instance error_condition_eq_dec : EqDecision error_condition.
Proof. solve_decision. Defined.

(** [error_code{}]: no error. *)
Definition no_error : error_code := mk_error_code 0 system_category.

(** [explicit operator bool]: a code is an error when its value is not zero. *)
Definition is_error (ec : error_code) : bool := negb (ec_value ec =? 0).

(** The enumerators of [boost::asio::error] the library names. *)
Inductive asio_error : Set :=
| broken_pipe | connection_aborted | connection_refused | connection_reset
| fault | host_unreachable | interrupted | network_reset | not_connected
| operation_aborted | shut_down | timed_out | try_again | bad_descriptor
| host_not_found | host_not_found_try_again | no_data | no_recovery.

#[export] Instance asio_error_eq_dec : EqDecision asio_error.
Proof. solve_decision. Defined.

(** The [netdb] enumerators have a category of their own. *)
Definition asio_category (e : asio_error) : category :=
  match e with
  | host_not_found | host_not_found_try_again | no_data | no_recovery => netdb_category
  | _ => system_category
  end.

Class Boost := {
  (** The value of an Asio enumerator. *)
  asio_value : asio_error -> Z;
  (** [boost::system::errc::io_error]. *)
  io_error_value : Z;
  (** [system_category().default_error_condition(v)]. *)
  system_default_condition : Z -> error_condition;
}.

Section Comparison.
Context `{Boost}.

(** [make_error_code] of an Asio enumerator. *)
Definition make_asio_error (e : asio_error) : error_code :=
  mk_error_code (asio_value e) (asio_category e).

(** [error_category::default_error_condition]. *)
Definition default_error_condition (c : category) (v : Z) : error_condition :=
  match c with
  | system_category => system_default_condition v
  | _ => mk_error_condition v c
  end.

(** [error_category::equivalent(int, const error_condition&)], which none of
    the categories of the library overrides. *)
Definition equivalent_code (ec : error_code) (cond : error_condition) : bool :=
  bool_decide (default_error_condition (ec_category ec) (ec_value ec) = cond).

(** [error_category::equivalent(const error_code&, int)] of the base class. *)
Definition equivalent_base (c : category) (ec : error_code) (cond : Z) : bool :=
  bool_decide (ec_category ec = c) && (ec_value ec =? cond).

Lemma equivalent_code_other ec cond :
  ec_category ec <> system_category -> ec_category ec <> cond_category cond ->
  equivalent_code ec cond = false.
Proof.
  intros Hs Hc. unfold equivalent_code. apply bool_decide_eq_false_2.
  intros <-. destruct ec as [v [] ]; cbn in *; congruence.
Qed.

Lemma equivalent_code_same v c w :
  c <> system_category ->
  equivalent_code (mk_error_code v c) (mk_error_condition w c) = (v =? w).
Proof.
  intros Hc. unfold equivalent_code, default_error_condition. cbn.
  destruct (Z.eqb_spec v w) as [->|Hne].
  - apply bool_decide_eq_true_2. by destruct c.
  - apply bool_decide_eq_false_2. destruct c; congruence.
Qed.

Lemma equivalent_base_other c ec v : ec_category ec <> c -> equivalent_base c ec v = false.
Proof. intros Hc. unfold equivalent_base. by rewrite bool_decide_eq_false_2. Qed.

End Comparison.

(** The values of the enumerators on Linux, and a system category that maps an
    error number to the generic condition of the same number: an instance for
    closed examples. *)
Definition linux_asio_value (e : asio_error) : Z :=
  match e with
  | broken_pipe => 32 | connection_aborted => 103 | connection_refused => 111
  | connection_reset => 104 | fault => 14 | host_unreachable => 113
  | interrupted => 4 | network_reset => 102 | not_connected => 107
  | operation_aborted => 125 | shut_down => 108 | timed_out => 110
  | try_again => 11 | bad_descriptor => 9
  | host_not_found => 1 | host_not_found_try_again => 2 | no_data => 4 | no_recovery => 3
  end.

Definition linux_boost : Boost := {|
  asio_value := linux_asio_value;
  io_error_value := 5;
  system_default_condition := fun v => mk_error_condition v generic_category;
|}.
