(* ===== verification/SqlState.v ===== *)
(** SQLSTATE errors and conditions: the namespace [bozo::sqlstate] of
    [src/include/bozo/error.h].

    The enumerators of [sqlstate::code] are the constructors of [code], with
    their numeric values ([value]) and the five character SQLSTATE the comments
    of the enumeration give ([spelled]).  [message] and [equivalent] are the two
    overridden members of the category: the first prints a code, the second lets
    a condition that names a class match every code of the class. *)

From S2P Require Import Prelude Base36 ErrorCode.
From Stdlib Require Import ZArith Lia List String Ascii.
From stdpp Require Import base tactics list.

Open Scope string_scope.
Open Scope Z_scope.

Module sqlstate.

Import Base36.

Inductive code : Set :=
| successful_completion
| warning
| dynamic_result_sets_returned
| implicit_zero_bit_padding
| null_value_eliminated_in_set_function
| privilege_not_granted
| privilege_not_revoked
| string_data_right_truncation_warning
| deprecated_feature
| no_data
| no_additional_dynamic_result_sets_returned
| sql_statement_not_yet_complete
| connection_exception
| connection_does_not_exist
| connection_failure
| sqlclient_unable_to_establish_sqlconnection
| sqlserver_rejected_establishment_of_sqlconnection
| transaction_resolution_unknown
| protocol_violation
| triggered_action_exception
| feature_not_supported
| invalid_transaction_initiation
| locator_exception
| invalid_locator_specification
| invalid_grantor
| invalid_grant_operation
| invalid_role_specification
| diagnostics_exception
| stacked_diagnostics_accessed_without_active_handler
| case_not_found
| cardinality_violation
| data_exception
| array_subscript_error
| character_not_in_repertoire
| datetime_field_overflow
| division_by_zero
| error_in_assignment
| escape_character_conflict
| indicator_overflow
| interval_field_overflow
| invalid_argument_for_logarithm
| invalid_argument_for_ntile_function
| invalid_argument_for_nth_value_function
| invalid_argument_for_power_function
| invalid_argument_for_width_bucket_function
| invalid_character_value_for_cast
| invalid_datetime_format
| invalid_escape_character
| invalid_escape_octet
| invalid_escape_sequence
| nonstandard_use_of_escape_character
| invalid_indicator_parameter_value
| invalid_parameter_value
| invalid_regular_expression
| invalid_row_count_in_limit_clause
| invalid_row_count_in_result_offset_clause
| invalid_time_zone_displacement_value
| invalid_use_of_escape_character
| most_specific_type_mismatch
| null_value_not_allowed
| null_value_no_indicator_parameter
| numeric_value_out_of_range
| string_data_length_mismatch
| string_data_right_truncation
| substring_error
| trim_error
| unterminated_c_string
| zero_length_character_string
| floating_point_exception
| invalid_text_representation
| invalid_binary_representation
| bad_copy_file_format
| untranslatable_character
| not_an_xml_document
| invalid_xml_document
| invalid_xml_content
| invalid_xml_comment
| invalid_xml_processing_instruction
| integrity_constraint_violation
| restrict_violation
| not_null_violation
| foreign_key_violation
| unique_violation
| check_violation
| exclusion_violation
| invalid_cursor_state
| invalid_transaction_state
| active_sql_transaction
| branch_transaction_already_active
| held_cursor_requires_same_isolation_level
| inappropriate_access_mode_for_branch_transaction
| inappropriate_isolation_level_for_branch_transaction
| no_active_sql_transaction_for_branch_transaction
| read_only_sql_transaction
| schema_and_data_statement_mixing_not_supported
| no_active_sql_transaction
| in_failed_sql_transaction
| invalid_sql_statement_name
| triggered_data_change_violation
| invalid_authorization_specification
| invalid_password
| dependent_privilege_descriptors_still_exist
| dependent_objects_still_exist
| invalid_transaction_termination
| sql_routine_exception
| function_executed_no_return_statement
| modifying_sql_data_not_permitted
| prohibited_sql_statement_attempted
| reading_sql_data_not_permitted
| invalid_cursor_name
| external_routine_exception
| containing_sql_not_permitted
| modifying_sql_data_not_permitted_external
| prohibited_sql_statement_attempted_external
| reading_sql_data_not_permitted_external
| external_routine_invocation_exception
| invalid_sqlstate_returned
| null_value_not_allowed_external
| trigger_protocol_violated
| srf_protocol_violated
| savepoint_exception
| invalid_savepoint_specification
| invalid_catalog_name
| invalid_schema_name
| transaction_rollback
| transaction_integrity_constraint_violation
| serialization_failure
| statement_completion_unknown
| deadlock_detected
| syntax_error_or_access_rule_violation
| syntax_error
| insufficient_privilege
| cannot_coerce
| grouping_error
| windowing_error
| invalid_recursion
| invalid_foreign_key
| invalid_name
| name_too_long
| reserved_name
| datatype_mismatch
| indeterminate_datatype
| collation_mismatch
| indeterminate_collation
| wrong_object_type
| undefined_column
| undefined_function
| undefined_table
| undefined_parameter
| undefined_object
| duplicate_column
| duplicate_cursor
| duplicate_database
| duplicate_function
| duplicate_prepared_statement
| duplicate_schema
| duplicate_table
| duplicate_alias
| duplicate_object
| ambiguous_column
| ambiguous_function
| ambiguous_parameter
| ambiguous_alias
| invalid_column_reference
| invalid_column_definition
| invalid_cursor_definition
| invalid_database_definition
| invalid_function_definition
| invalid_prepared_statement_definition
| invalid_schema_definition
| invalid_table_definition
| invalid_object_definition
| with_check_option_violation
| insufficient_resources
| disk_full
| out_of_memory
| too_many_connections
| configuration_limit_exceeded
| program_limit_exceeded
| statement_too_complex
| too_many_columns
| too_many_arguments
| object_not_in_prerequisite_state
| object_in_use
| cant_change_runtime_param
| lock_not_available
| operator_intervention
| query_canceled
| admin_shutdown
| crash_shutdown
| cannot_connect_now
| database_dropped
| system_error
| io_error
| undefined_file
| duplicate_file
| snapshot_too_old
| config_file_error
| lock_file_exists
| fdw_error
| fdw_column_name_not_found
| fdw_dynamic_parameter_value_needed
| fdw_function_sequence_error
| fdw_inconsistent_descriptor_information
| fdw_invalid_attribute_value
| fdw_invalid_column_name
| fdw_invalid_column_number
| fdw_invalid_data_type
| fdw_invalid_data_type_descriptors
| fdw_invalid_descriptor_field_identifier
| fdw_invalid_handle
| fdw_invalid_option_index
| fdw_invalid_option_name
| fdw_invalid_string_length_or_buffer_length
| fdw_invalid_string_format
| fdw_invalid_use_of_null_pointer
| fdw_too_many_handles
| fdw_out_of_memory
| fdw_no_schemas
| fdw_option_name_not_found
| fdw_reply_handle
| fdw_schema_not_found
| fdw_table_not_found
| fdw_unable_to_create_execution
| fdw_unable_to_create_reply
| fdw_unable_to_establish_connection
| plpgsql_error
| raise_exception
| no_data_found
| too_many_rows
| internal_error
| data_corrupted
| index_corrupted.

(** The values of the enumerators. *)
Definition value (c : code) : Z :=
  match c with
  | successful_completion => 0
  | warning => 46656
  | dynamic_result_sets_returned => 46668
  | implicit_zero_bit_padding => 46664
  | null_value_eliminated_in_set_function => 46659
  | privilege_not_granted => 46663
  | privilege_not_revoked => 46662
  | string_data_right_truncation_warning => 46660
  | deprecated_feature => 79057
  | no_data => 93312
  | no_additional_dynamic_result_sets_returned => 93313
  | sql_statement_not_yet_complete => 139968
  | connection_exception => 373248
  | connection_does_not_exist => 373251
  | connection_failure => 373254
  | sqlclient_unable_to_establish_sqlconnection => 373249
  | sqlserver_rejected_establishment_of_sqlconnection => 373252
  | transaction_resolution_unknown => 373255
  | protocol_violation => 405649
  | triggered_action_exception => 419904
  | feature_not_supported => 466560
  | invalid_transaction_initiation => 513216
  | locator_exception => 699840
  | invalid_locator_specification => 699841
  | invalid_grantor => 979776
  | invalid_grant_operation => 1012177
  | invalid_role_specification => 1166400
  | diagnostics_exception => 1632960
  | stacked_diagnostics_accessed_without_active_handler => 1632962
  | case_not_found => 3359232
  | cardinality_violation => 3405888
  | data_exception => 3452544
  | array_subscript_error => 3452630
  | character_not_in_repertoire => 3452617
  | datetime_field_overflow => 3452552
  | division_by_zero => 3452582
  | error_in_assignment => 3452549
  | escape_character_conflict => 3452555
  | indicator_overflow => 3452618
  | interval_field_overflow => 3452585
  | invalid_argument_for_logarithm => 3452594
  | invalid_argument_for_ntile_function => 3452584
  | invalid_argument_for_nth_value_function => 3452586
  | invalid_argument_for_power_function => 3452595
  | invalid_argument_for_width_bucket_function => 3452596
  | invalid_character_value_for_cast => 3452588
  | invalid_datetime_format => 3452551
  | invalid_escape_character => 3452589
  | invalid_escape_octet => 3452557
  | invalid_escape_sequence => 3452621
  | nonstandard_use_of_escape_character => 3484950
  | invalid_indicator_parameter_value => 3452580
  | invalid_parameter_value => 3452619
  | invalid_regular_expression => 3452591
  | invalid_row_count_in_limit_clause => 3452612
  | invalid_row_count_in_result_offset_clause => 3452613
  | invalid_time_zone_displacement_value => 3452553
  | invalid_use_of_escape_character => 3452556
  | most_specific_type_mismatch => 3452560
  | null_value_not_allowed => 3452548
  | null_value_no_indicator_parameter => 3452546
  | numeric_value_out_of_range => 3452547
  | string_data_length_mismatch => 3452622
  | string_data_right_truncation => 3452545
  | substring_error => 3452581
  | trim_error => 3452623
  | unterminated_c_string => 3452620
  | zero_length_character_string => 3452559
  | floating_point_exception => 3484945
  | invalid_text_representation => 3484946
  | invalid_binary_representation => 3484947
  | bad_copy_file_format => 3484948
  | untranslatable_character => 3484949
  | not_an_xml_document => 3452565
  | invalid_xml_document => 3452566
  | invalid_xml_content => 3452567
  | invalid_xml_comment => 3452572
  | invalid_xml_processing_instruction => 3452573
  | integrity_constraint_violation => 3499200
  | restrict_violation => 3499201
  | not_null_violation => 3505682
  | foreign_key_violation => 3505683
  | unique_violation => 3505685
  | check_violation => 3505720
  | exclusion_violation => 3531601
  | invalid_cursor_state => 3545856
  | invalid_transaction_state => 3592512
  | active_sql_transaction => 3592513
  | branch_transaction_already_active => 3592514
  | held_cursor_requires_same_isolation_level => 3592520
  | inappropriate_access_mode_for_branch_transaction => 3592515
  | inappropriate_isolation_level_for_branch_transaction => 3592516
  | no_active_sql_transaction_for_branch_transaction => 3592517
  | read_only_sql_transaction => 3592518
  | schema_and_data_statement_mixing_not_supported => 3592519
  | no_active_sql_transaction => 3624913
  | in_failed_sql_transaction => 3624914
  | invalid_sql_statement_name => 3639168
  | triggered_data_change_violation => 3685824
  | invalid_authorization_specification => 3732480
  | invalid_password => 3764881
  | dependent_privilege_descriptors_still_exist => 3872448
  | dependent_objects_still_exist => 3904849
  | invalid_transaction_termination => 3965760
  | sql_routine_exception => 4059072
  | function_executed_no_return_statement => 4059077
  | modifying_sql_data_not_permitted => 4059074
  | prohibited_sql_statement_attempted => 4059075
  | reading_sql_data_not_permitted => 4059076
  | invalid_cursor_name => 5225472
  | external_routine_exception => 5412096
  | containing_sql_not_permitted => 5412097
  | modifying_sql_data_not_permitted_external => 5412098
  | prohibited_sql_statement_attempted_external => 5412099
  | reading_sql_data_not_permitted_external => 5412100
  | external_routine_invocation_exception => 5458752
  | invalid_sqlstate_returned => 5458753
  | null_value_not_allowed_external => 5458756
  | trigger_protocol_violated => 5491153
  | srf_protocol_violated => 5491154
  | savepoint_exception => 5552064
  | invalid_savepoint_specification => 5552065
  | invalid_catalog_name => 5645376
  | invalid_schema_name => 5738688
  | transaction_rollback => 6718464
  | transaction_integrity_constraint_violation => 6718466
  | serialization_failure => 6718465
  | statement_completion_unknown => 6718467
  | deadlock_detected => 6750865
  | syntax_error_or_access_rule_violation => 6811776
  | syntax_error => 6819553
  | insufficient_privilege => 6818257
  | cannot_coerce => 6822294
  | grouping_error => 6822147
  | windowing_error => 6844248
  | invalid_recursion => 6844221
  | invalid_foreign_key => 6822252
  | invalid_name => 6819554
  | name_too_long => 6819626
  | reserved_name => 6823557
  | datatype_mismatch => 6822148
  | indeterminate_datatype => 6844220
  | collation_mismatch => 6844249
  | indeterminate_collation => 6844250
  | wrong_object_type => 6822153
  | undefined_column => 6820851
  | undefined_function => 6822435
  | undefined_table => 6844177
  | undefined_parameter => 6844178
  | undefined_object => 6820852
  | duplicate_column => 6820849
  | duplicate_cursor => 6844179
  | duplicate_database => 6844180
  | duplicate_function => 6820923
  | duplicate_prepared_statement => 6844181
  | duplicate_schema => 6844182
  | duplicate_table => 6844183
  | duplicate_alias => 6820886
  | duplicate_object => 6820884
  | ambiguous_column => 6820850
  | ambiguous_function => 6820925
  | ambiguous_parameter => 6844184
  | ambiguous_alias => 6844185
  | invalid_column_reference => 6844212
  | invalid_column_definition => 6819589
  | invalid_cursor_definition => 6844213
  | invalid_database_definition => 6844214
  | invalid_function_definition => 6844215
  | invalid_prepared_statement_definition => 6844216
  | invalid_schema_definition => 6844217
  | invalid_table_definition => 6844218
  | invalid_object_definition => 6844219
  | with_check_option_violation => 6905088
  | insufficient_resources => 8538048
  | disk_full => 8539344
  | out_of_memory => 8540640
  | too_many_connections => 8541936
  | configuration_limit_exceeded => 8543232
  | program_limit_exceeded => 8584704
  | statement_too_complex => 8584705
  | too_many_columns => 8584741
  | too_many_arguments => 8584779
  | object_not_in_prerequisite_state => 8631360
  | object_in_use => 8631366
  | cant_change_runtime_param => 8663762
  | lock_not_available => 8663763
  | operator_intervention => 8724672
  | query_canceled => 8724712
  | admin_shutdown => 8757073
  | crash_shutdown => 8757074
  | cannot_connect_now => 8757075
  | database_dropped => 8757076
  | system_error => 8771328
  | io_error => 8771436
  | undefined_file => 8803729
  | duplicate_file => 8803730
  | snapshot_too_old => 11850624
  | config_file_error => 25194240
  | lock_file_exists => 25194241
  | fdw_error => 29999808
  | fdw_column_name_not_found => 29999813
  | fdw_dynamic_parameter_value_needed => 29999810
  | fdw_function_sequence_error => 29999844
  | fdw_inconsistent_descriptor_information => 29999881
  | fdw_invalid_attribute_value => 29999884
  | fdw_invalid_column_name => 29999815
  | fdw_invalid_column_number => 29999816
  | fdw_invalid_data_type => 29999812
  | fdw_invalid_data_type_descriptors => 29999814
  | fdw_invalid_descriptor_field_identifier => 30000133
  | fdw_invalid_handle => 29999819
  | fdw_invalid_option_index => 29999820
  | fdw_invalid_option_name => 29999821
  | fdw_invalid_string_length_or_buffer_length => 30000132
  | fdw_invalid_string_format => 29999818
  | fdw_invalid_use_of_null_pointer => 29999817
  | fdw_too_many_handles => 29999848
  | fdw_out_of_memory => 29999809
  | fdw_no_schemas => 29999833
  | fdw_option_name_not_found => 29999827
  | fdw_reply_handle => 29999828
  | fdw_schema_not_found => 29999834
  | fdw_table_not_found => 29999835
  | fdw_unable_to_create_execution => 29999829
  | fdw_unable_to_create_reply => 29999830
  | fdw_unable_to_establish_connection => 29999831
  | plpgsql_error => 41990400
  | raise_exception => 41990401
  | no_data_found => 41990402
  | too_many_rows => 41990403
  | internal_error => 56966976
  | data_corrupted => 56966977
  | index_corrupted => 56966978
  end.

(** The SQLSTATE of each enumerator, from the comment beside it. *)
Definition spelled (c : code) : string :=
  match c with
  | successful_completion => "00000"
  | warning => "01000"
  | dynamic_result_sets_returned => "0100C"
  | implicit_zero_bit_padding => "01008"
  | null_value_eliminated_in_set_function => "01003"
  | privilege_not_granted => "01007"
  | privilege_not_revoked => "01006"
  | string_data_right_truncation_warning => "01004"
  | deprecated_feature => "01P01"
  | no_data => "02000"
  | no_additional_dynamic_result_sets_returned => "02001"
  | sql_statement_not_yet_complete => "03000"
  | connection_exception => "08000"
  | connection_does_not_exist => "08003"
  | connection_failure => "08006"
  | sqlclient_unable_to_establish_sqlconnection => "08001"
  | sqlserver_rejected_establishment_of_sqlconnection => "08004"
  | transaction_resolution_unknown => "08007"
  | protocol_violation => "08P01"
  | triggered_action_exception => "09000"
  | feature_not_supported => "0A000"
  | invalid_transaction_initiation => "0B000"
  | locator_exception => "0F000"
  | invalid_locator_specification => "0F001"
  | invalid_grantor => "0L000"
  | invalid_grant_operation => "0LP01"
  | invalid_role_specification => "0P000"
  | diagnostics_exception => "0Z000"
  | stacked_diagnostics_accessed_without_active_handler => "0Z002"
  | case_not_found => "20000"
  | cardinality_violation => "21000"
  | data_exception => "22000"
  | array_subscript_error => "2202E"
  | character_not_in_repertoire => "22021"
  | datetime_field_overflow => "22008"
  | division_by_zero => "22012"
  | error_in_assignment => "22005"
  | escape_character_conflict => "2200B"
  | indicator_overflow => "22022"
  | interval_field_overflow => "22015"
  | invalid_argument_for_logarithm => "2201E"
  | invalid_argument_for_ntile_function => "22014"
  | invalid_argument_for_nth_value_function => "22016"
  | invalid_argument_for_power_function => "2201F"
  | invalid_argument_for_width_bucket_function => "2201G"
  | invalid_character_value_for_cast => "22018"
  | invalid_datetime_format => "22007"
  | invalid_escape_character => "22019"
  | invalid_escape_octet => "2200D"
  | invalid_escape_sequence => "22025"
  | nonstandard_use_of_escape_character => "22P06"
  | invalid_indicator_parameter_value => "22010"
  | invalid_parameter_value => "22023"
  | invalid_regular_expression => "2201B"
  | invalid_row_count_in_limit_clause => "2201W"
  | invalid_row_count_in_result_offset_clause => "2201X"
  | invalid_time_zone_displacement_value => "22009"
  | invalid_use_of_escape_character => "2200C"
  | most_specific_type_mismatch => "2200G"
  | null_value_not_allowed => "22004"
  | null_value_no_indicator_parameter => "22002"
  | numeric_value_out_of_range => "22003"
  | string_data_length_mismatch => "22026"
  | string_data_right_truncation => "22001"
  | substring_error => "22011"
  | trim_error => "22027"
  | unterminated_c_string => "22024"
  | zero_length_character_string => "2200F"
  | floating_point_exception => "22P01"
  | invalid_text_representation => "22P02"
  | invalid_binary_representation => "22P03"
  | bad_copy_file_format => "22P04"
  | untranslatable_character => "22P05"
  | not_an_xml_document => "2200L"
  | invalid_xml_document => "2200M"
  | invalid_xml_content => "2200N"
  | invalid_xml_comment => "2200S"
  | invalid_xml_processing_instruction => "2200T"
  | integrity_constraint_violation => "23000"
  | restrict_violation => "23001"
  | not_null_violation => "23502"
  | foreign_key_violation => "23503"
  | unique_violation => "23505"
  | check_violation => "23514"
  | exclusion_violation => "23P01"
  | invalid_cursor_state => "24000"
  | invalid_transaction_state => "25000"
  | active_sql_transaction => "25001"
  | branch_transaction_already_active => "25002"
  | held_cursor_requires_same_isolation_level => "25008"
  | inappropriate_access_mode_for_branch_transaction => "25003"
  | inappropriate_isolation_level_for_branch_transaction => "25004"
  | no_active_sql_transaction_for_branch_transaction => "25005"
  | read_only_sql_transaction => "25006"
  | schema_and_data_statement_mixing_not_supported => "25007"
  | no_active_sql_transaction => "25P01"
  | in_failed_sql_transaction => "25P02"
  | invalid_sql_statement_name => "26000"
  | triggered_data_change_violation => "27000"
  | invalid_authorization_specification => "28000"
  | invalid_password => "28P01"
  | dependent_privilege_descriptors_still_exist => "2B000"
  | dependent_objects_still_exist => "2BP01"
  | invalid_transaction_termination => "2D000"
  | sql_routine_exception => "2F000"
  | function_executed_no_return_statement => "2F005"
  | modifying_sql_data_not_permitted => "2F002"
  | prohibited_sql_statement_attempted => "2F003"
  | reading_sql_data_not_permitted => "2F004"
  | invalid_cursor_name => "34000"
  | external_routine_exception => "38000"
  | containing_sql_not_permitted => "38001"
  | modifying_sql_data_not_permitted_external => "38002"
  | prohibited_sql_statement_attempted_external => "38003"
  | reading_sql_data_not_permitted_external => "38004"
  | external_routine_invocation_exception => "39000"
  | invalid_sqlstate_returned => "39001"
  | null_value_not_allowed_external => "39004"
  | trigger_protocol_violated => "39P01"
  | srf_protocol_violated => "39P02"
  | savepoint_exception => "3B000"
  | invalid_savepoint_specification => "3B001"
  | invalid_catalog_name => "3D000"
  | invalid_schema_name => "3F000"
  | transaction_rollback => "40000"
  | transaction_integrity_constraint_violation => "40002"
  | serialization_failure => "40001"
  | statement_completion_unknown => "40003"
  | deadlock_detected => "40P01"
  | syntax_error_or_access_rule_violation => "42000"
  | syntax_error => "42601"
  | insufficient_privilege => "42501"
  | cannot_coerce => "42846"
  | grouping_error => "42803"
  | windowing_error => "42P20"
  | invalid_recursion => "42P19"
  | invalid_foreign_key => "42830"
  | invalid_name => "42602"
  | name_too_long => "42622"
  | reserved_name => "42939"
  | datatype_mismatch => "42804"
  | indeterminate_datatype => "42P18"
  | collation_mismatch => "42P21"
  | indeterminate_collation => "42P22"
  | wrong_object_type => "42809"
  | undefined_column => "42703"
  | undefined_function => "42883"
  | undefined_table => "42P01"
  | undefined_parameter => "42P02"
  | undefined_object => "42704"
  | duplicate_column => "42701"
  | duplicate_cursor => "42P03"
  | duplicate_database => "42P04"
  | duplicate_function => "42723"
  | duplicate_prepared_statement => "42P05"
  | duplicate_schema => "42P06"
  | duplicate_table => "42P07"
  | duplicate_alias => "42712"
  | duplicate_object => "42710"
  | ambiguous_column => "42702"
  | ambiguous_function => "42725"
  | ambiguous_parameter => "42P08"
  | ambiguous_alias => "42P09"
  | invalid_column_reference => "42P10"
  | invalid_column_definition => "42611"
  | invalid_cursor_definition => "42P11"
  | invalid_database_definition => "42P12"
  | invalid_function_definition => "42P13"
  | invalid_prepared_statement_definition => "42P14"
  | invalid_schema_definition => "42P15"
  | invalid_table_definition => "42P16"
  | invalid_object_definition => "42P17"
  | with_check_option_violation => "44000"
  | insufficient_resources => "53000"
  | disk_full => "53100"
  | out_of_memory => "53200"
  | too_many_connections => "53300"
  | configuration_limit_exceeded => "53400"
  | program_limit_exceeded => "54000"
  | statement_too_complex => "54001"
  | too_many_columns => "54011"
  | too_many_arguments => "54023"
  | object_not_in_prerequisite_state => "55000"
  | object_in_use => "55006"
  | cant_change_runtime_param => "55P02"
  | lock_not_available => "55P03"
  | operator_intervention => "57000"
  | query_canceled => "57014"
  | admin_shutdown => "57P01"
  | crash_shutdown => "57P02"
  | cannot_connect_now => "57P03"
  | database_dropped => "57P04"
  | system_error => "58000"
  | io_error => "58030"
  | undefined_file => "58P01"
  | duplicate_file => "58P02"
  | snapshot_too_old => "72000"
  | config_file_error => "F0000"
  | lock_file_exists => "F0001"
  | fdw_error => "HV000"
  | fdw_column_name_not_found => "HV005"
  | fdw_dynamic_parameter_value_needed => "HV002"
  | fdw_function_sequence_error => "HV010"
  | fdw_inconsistent_descriptor_information => "HV021"
  | fdw_invalid_attribute_value => "HV024"
  | fdw_invalid_column_name => "HV007"
  | fdw_invalid_column_number => "HV008"
  | fdw_invalid_data_type => "HV004"
  | fdw_invalid_data_type_descriptors => "HV006"
  | fdw_invalid_descriptor_field_identifier => "HV091"
  | fdw_invalid_handle => "HV00B"
  | fdw_invalid_option_index => "HV00C"
  | fdw_invalid_option_name => "HV00D"
  | fdw_invalid_string_length_or_buffer_length => "HV090"
  | fdw_invalid_string_format => "HV00A"
  | fdw_invalid_use_of_null_pointer => "HV009"
  | fdw_too_many_handles => "HV014"
  | fdw_out_of_memory => "HV001"
  | fdw_no_schemas => "HV00P"
  | fdw_option_name_not_found => "HV00J"
  | fdw_reply_handle => "HV00K"
  | fdw_schema_not_found => "HV00Q"
  | fdw_table_not_found => "HV00R"
  | fdw_unable_to_create_execution => "HV00L"
  | fdw_unable_to_create_reply => "HV00M"
  | fdw_unable_to_establish_connection => "HV00N"
  | plpgsql_error => "P0000"
  | raise_exception => "P0001"
  | no_data_found => "P0002"
  | too_many_rows => "P0003"
  | internal_error => "XX000"
  | data_corrupted => "XX001"
  | index_corrupted => "XX002"
  end.

(** The enumerators in declaration order, classes 00 to 3F and 40 to XX. *)
Definition codes_00_3F : list code :=
  [
    successful_completion; warning; dynamic_result_sets_returned;
    implicit_zero_bit_padding; null_value_eliminated_in_set_function;
    privilege_not_granted; privilege_not_revoked; string_data_right_truncation_warning;
    deprecated_feature; no_data; no_additional_dynamic_result_sets_returned;
    sql_statement_not_yet_complete; connection_exception; connection_does_not_exist;
    connection_failure; sqlclient_unable_to_establish_sqlconnection;
    sqlserver_rejected_establishment_of_sqlconnection; transaction_resolution_unknown;
    protocol_violation; triggered_action_exception; feature_not_supported;
    invalid_transaction_initiation; locator_exception; invalid_locator_specification;
    invalid_grantor; invalid_grant_operation; invalid_role_specification;
    diagnostics_exception; stacked_diagnostics_accessed_without_active_handler;
    case_not_found; cardinality_violation; data_exception; array_subscript_error;
    character_not_in_repertoire; datetime_field_overflow; division_by_zero;
    error_in_assignment; escape_character_conflict; indicator_overflow;
    interval_field_overflow; invalid_argument_for_logarithm;
    invalid_argument_for_ntile_function; invalid_argument_for_nth_value_function;
    invalid_argument_for_power_function; invalid_argument_for_width_bucket_function;
    invalid_character_value_for_cast; invalid_datetime_format; invalid_escape_character;
    invalid_escape_octet; invalid_escape_sequence; nonstandard_use_of_escape_character;
    invalid_indicator_parameter_value; invalid_parameter_value;
    invalid_regular_expression; invalid_row_count_in_limit_clause;
    invalid_row_count_in_result_offset_clause; invalid_time_zone_displacement_value;
    invalid_use_of_escape_character; most_specific_type_mismatch;
    null_value_not_allowed; null_value_no_indicator_parameter;
    numeric_value_out_of_range; string_data_length_mismatch;
    string_data_right_truncation; substring_error; trim_error; unterminated_c_string;
    zero_length_character_string; floating_point_exception; invalid_text_representation;
    invalid_binary_representation; bad_copy_file_format; untranslatable_character;
    not_an_xml_document; invalid_xml_document; invalid_xml_content; invalid_xml_comment;
    invalid_xml_processing_instruction; integrity_constraint_violation;
    restrict_violation; not_null_violation; foreign_key_violation; unique_violation;
    check_violation; exclusion_violation; invalid_cursor_state;
    invalid_transaction_state; active_sql_transaction;
    branch_transaction_already_active; held_cursor_requires_same_isolation_level;
    inappropriate_access_mode_for_branch_transaction;
    inappropriate_isolation_level_for_branch_transaction;
    no_active_sql_transaction_for_branch_transaction; read_only_sql_transaction;
    schema_and_data_statement_mixing_not_supported; no_active_sql_transaction;
    in_failed_sql_transaction; invalid_sql_statement_name;
    triggered_data_change_violation; invalid_authorization_specification;
    invalid_password; dependent_privilege_descriptors_still_exist;
    dependent_objects_still_exist; invalid_transaction_termination;
    sql_routine_exception; function_executed_no_return_statement;
    modifying_sql_data_not_permitted; prohibited_sql_statement_attempted;
    reading_sql_data_not_permitted; invalid_cursor_name; external_routine_exception;
    containing_sql_not_permitted; modifying_sql_data_not_permitted_external;
    prohibited_sql_statement_attempted_external;
    reading_sql_data_not_permitted_external; external_routine_invocation_exception;
    invalid_sqlstate_returned; null_value_not_allowed_external;
    trigger_protocol_violated; srf_protocol_violated; savepoint_exception;
    invalid_savepoint_specification; invalid_catalog_name; invalid_schema_name].

Definition codes_40_XX : list code :=
  [
    transaction_rollback; transaction_integrity_constraint_violation;
    serialization_failure; statement_completion_unknown; deadlock_detected;
    syntax_error_or_access_rule_violation; syntax_error; insufficient_privilege;
    cannot_coerce; grouping_error; windowing_error; invalid_recursion;
    invalid_foreign_key; invalid_name; name_too_long; reserved_name; datatype_mismatch;
    indeterminate_datatype; collation_mismatch; indeterminate_collation;
    wrong_object_type; undefined_column; undefined_function; undefined_table;
    undefined_parameter; undefined_object; duplicate_column; duplicate_cursor;
    duplicate_database; duplicate_function; duplicate_prepared_statement;
    duplicate_schema; duplicate_table; duplicate_alias; duplicate_object;
    ambiguous_column; ambiguous_function; ambiguous_parameter; ambiguous_alias;
    invalid_column_reference; invalid_column_definition; invalid_cursor_definition;
    invalid_database_definition; invalid_function_definition;
    invalid_prepared_statement_definition; invalid_schema_definition;
    invalid_table_definition; invalid_object_definition; with_check_option_violation;
    insufficient_resources; disk_full; out_of_memory; too_many_connections;
    configuration_limit_exceeded; program_limit_exceeded; statement_too_complex;
    too_many_columns; too_many_arguments; object_not_in_prerequisite_state;
    object_in_use; cant_change_runtime_param; lock_not_available; operator_intervention;
    query_canceled; admin_shutdown; crash_shutdown; cannot_connect_now;
    database_dropped; system_error; io_error; undefined_file; duplicate_file;
    snapshot_too_old; config_file_error; lock_file_exists; fdw_error;
    fdw_column_name_not_found; fdw_dynamic_parameter_value_needed;
    fdw_function_sequence_error; fdw_inconsistent_descriptor_information;
    fdw_invalid_attribute_value; fdw_invalid_column_name; fdw_invalid_column_number;
    fdw_invalid_data_type; fdw_invalid_data_type_descriptors;
    fdw_invalid_descriptor_field_identifier; fdw_invalid_handle;
    fdw_invalid_option_index; fdw_invalid_option_name;
    fdw_invalid_string_length_or_buffer_length; fdw_invalid_string_format;
    fdw_invalid_use_of_null_pointer; fdw_too_many_handles; fdw_out_of_memory;
    fdw_no_schemas; fdw_option_name_not_found; fdw_reply_handle; fdw_schema_not_found;
    fdw_table_not_found; fdw_unable_to_create_execution; fdw_unable_to_create_reply;
    fdw_unable_to_establish_connection; plpgsql_error; raise_exception; no_data_found;
    too_many_rows; internal_error; data_corrupted; index_corrupted].

Definition codes : list code := (codes_00_3F ++ codes_40_XX)%list.

(** The [BOZO_SQLSTATE_NAME] cases of [message]: the enumerator and the text
    [#value] makes of it. *)
Definition message_cases_00_3F : list (code * string) :=
  [
    (successful_completion, "successful_completion"); (warning, "warning");
    (dynamic_result_sets_returned, "dynamic_result_sets_returned");
    (implicit_zero_bit_padding, "implicit_zero_bit_padding");
    (null_value_eliminated_in_set_function, "null_value_eliminated_in_set_function");
    (privilege_not_granted, "privilege_not_granted");
    (privilege_not_revoked, "privilege_not_revoked");
    (string_data_right_truncation_warning, "string_data_right_truncation_warning");
    (deprecated_feature, "deprecated_feature"); (no_data, "no_data");
    (no_additional_dynamic_result_sets_returned, "no_additional_dynamic_result_sets_returned");
    (sql_statement_not_yet_complete, "sql_statement_not_yet_complete");
    (connection_exception, "connection_exception");
    (connection_does_not_exist, "connection_does_not_exist");
    (connection_failure, "connection_failure");
    (sqlclient_unable_to_establish_sqlconnection, "sqlclient_unable_to_establish_sqlconnection");
    (sqlserver_rejected_establishment_of_sqlconnection, "sqlserver_rejected_establishment_of_sqlconnection");
    (transaction_resolution_unknown, "transaction_resolution_unknown");
    (protocol_violation, "protocol_violation");
    (triggered_action_exception, "triggered_action_exception");
    (feature_not_supported, "feature_not_supported");
    (invalid_transaction_initiation, "invalid_transaction_initiation");
    (locator_exception, "locator_exception");
    (invalid_locator_specification, "invalid_locator_specification");
    (invalid_grantor, "invalid_grantor");
    (invalid_grant_operation, "invalid_grant_operation");
    (invalid_role_specification, "invalid_role_specification");
    (diagnostics_exception, "diagnostics_exception");
    (stacked_diagnostics_accessed_without_active_handler, "stacked_diagnostics_accessed_without_active_handler");
    (case_not_found, "case_not_found");
    (cardinality_violation, "cardinality_violation");
    (data_exception, "data_exception");
    (array_subscript_error, "array_subscript_error");
    (character_not_in_repertoire, "character_not_in_repertoire");
    (datetime_field_overflow, "datetime_field_overflow");
    (division_by_zero, "division_by_zero");
    (error_in_assignment, "error_in_assignment");
    (escape_character_conflict, "escape_character_conflict");
    (indicator_overflow, "indicator_overflow");
    (interval_field_overflow, "interval_field_overflow");
    (invalid_argument_for_logarithm, "invalid_argument_for_logarithm");
    (invalid_argument_for_ntile_function, "invalid_argument_for_ntile_function");
    (invalid_argument_for_nth_value_function, "invalid_argument_for_nth_value_function");
    (invalid_argument_for_power_function, "invalid_argument_for_power_function");
    (invalid_argument_for_width_bucket_function, "invalid_argument_for_width_bucket_function");
    (invalid_character_value_for_cast, "invalid_character_value_for_cast");
    (invalid_datetime_format, "invalid_datetime_format");
    (invalid_escape_character, "invalid_escape_character");
    (invalid_escape_octet, "invalid_escape_octet");
    (invalid_escape_sequence, "invalid_escape_sequence");
    (nonstandard_use_of_escape_character, "nonstandard_use_of_escape_character");
    (invalid_indicator_parameter_value, "invalid_indicator_parameter_value");
    (invalid_parameter_value, "invalid_parameter_value");
    (invalid_regular_expression, "invalid_regular_expression");
    (invalid_row_count_in_limit_clause, "invalid_row_count_in_limit_clause");
    (invalid_row_count_in_result_offset_clause, "invalid_row_count_in_result_offset_clause");
    (invalid_time_zone_displacement_value, "invalid_time_zone_displacement_value");
    (invalid_use_of_escape_character, "invalid_use_of_escape_character");
    (most_specific_type_mismatch, "most_specific_type_mismatch");
    (null_value_not_allowed, "null_value_not_allowed");
    (null_value_no_indicator_parameter, "null_value_no_indicator_parameter");
    (numeric_value_out_of_range, "numeric_value_out_of_range");
    (string_data_length_mismatch, "string_data_length_mismatch");
    (string_data_right_truncation, "string_data_right_truncation");
    (substring_error, "substring_error"); (trim_error, "trim_error");
    (unterminated_c_string, "unterminated_c_string");
    (zero_length_character_string, "zero_length_character_string");
    (floating_point_exception, "floating_point_exception");
    (invalid_text_representation, "invalid_text_representation");
    (invalid_binary_representation, "invalid_binary_representation");
    (bad_copy_file_format, "bad_copy_file_format");
    (untranslatable_character, "untranslatable_character");
    (not_an_xml_document, "not_an_xml_document");
    (invalid_xml_document, "invalid_xml_document");
    (invalid_xml_content, "invalid_xml_content");
    (invalid_xml_comment, "invalid_xml_comment");
    (invalid_xml_processing_instruction, "invalid_xml_processing_instruction");
    (integrity_constraint_violation, "integrity_constraint_violation");
    (restrict_violation, "restrict_violation");
    (not_null_violation, "not_null_violation");
    (foreign_key_violation, "foreign_key_violation");
    (unique_violation, "unique_violation"); (check_violation, "check_violation");
    (exclusion_violation, "exclusion_violation");
    (invalid_cursor_state, "invalid_cursor_state");
    (invalid_transaction_state, "invalid_transaction_state");
    (active_sql_transaction, "active_sql_transaction");
    (branch_transaction_already_active, "branch_transaction_already_active");
    (held_cursor_requires_same_isolation_level, "held_cursor_requires_same_isolation_level");
    (inappropriate_access_mode_for_branch_transaction, "inappropriate_access_mode_for_branch_transaction");
    (inappropriate_isolation_level_for_branch_transaction, "inappropriate_isolation_level_for_branch_transaction");
    (no_active_sql_transaction_for_branch_transaction, "no_active_sql_transaction_for_branch_transaction");
    (read_only_sql_transaction, "read_only_sql_transaction");
    (schema_and_data_statement_mixing_not_supported, "schema_and_data_statement_mixing_not_supported");
    (no_active_sql_transaction, "no_active_sql_transaction");
    (in_failed_sql_transaction, "in_failed_sql_transaction");
    (invalid_sql_statement_name, "invalid_sql_statement_name");
    (triggered_data_change_violation, "triggered_data_change_violation");
    (invalid_authorization_specification, "invalid_authorization_specification");
    (invalid_password, "invalid_password");
    (dependent_privilege_descriptors_still_exist, "dependent_privilege_descriptors_still_exist");
    (dependent_objects_still_exist, "dependent_objects_still_exist");
    (invalid_transaction_termination, "invalid_transaction_termination");
    (sql_routine_exception, "sql_routine_exception");
    (function_executed_no_return_statement, "function_executed_no_return_statement");
    (modifying_sql_data_not_permitted, "modifying_sql_data_not_permitted");
    (prohibited_sql_statement_attempted, "prohibited_sql_statement_attempted");
    (reading_sql_data_not_permitted, "reading_sql_data_not_permitted");
    (invalid_cursor_name, "invalid_cursor_name");
    (external_routine_exception, "external_routine_exception");
    (containing_sql_not_permitted, "containing_sql_not_permitted");
    (modifying_sql_data_not_permitted_external, "modifying_sql_data_not_permitted_external");
    (prohibited_sql_statement_attempted_external, "prohibited_sql_statement_attempted_external");
    (reading_sql_data_not_permitted_external, "reading_sql_data_not_permitted_external");
    (external_routine_invocation_exception, "external_routine_invocation_exception");
    (invalid_sqlstate_returned, "invalid_sqlstate_returned");
    (null_value_not_allowed_external, "null_value_not_allowed_external");
    (trigger_protocol_violated, "trigger_protocol_violated");
    (srf_protocol_violated, "srf_protocol_violated");
    (savepoint_exception, "savepoint_exception");
    (invalid_savepoint_specification, "invalid_savepoint_specification");
    (invalid_catalog_name, "invalid_catalog_name");
    (invalid_schema_name, "invalid_schema_name")].

Definition message_cases_40_XX : list (code * string) :=
  [
    (transaction_rollback, "transaction_rollback");
    (transaction_integrity_constraint_violation, "transaction_integrity_constraint_violation");
    (serialization_failure, "serialization_failure");
    (statement_completion_unknown, "statement_completion_unknown");
    (deadlock_detected, "deadlock_detected");
    (syntax_error_or_access_rule_violation, "syntax_error_or_access_rule_violation");
    (syntax_error, "syntax_error"); (insufficient_privilege, "insufficient_privilege");
    (cannot_coerce, "cannot_coerce"); (grouping_error, "grouping_error");
    (windowing_error, "windowing_error"); (invalid_recursion, "invalid_recursion");
    (invalid_foreign_key, "invalid_foreign_key"); (invalid_name, "invalid_name");
    (name_too_long, "name_too_long"); (reserved_name, "reserved_name");
    (datatype_mismatch, "datatype_mismatch");
    (indeterminate_datatype, "indeterminate_datatype");
    (collation_mismatch, "collation_mismatch");
    (indeterminate_collation, "indeterminate_collation");
    (wrong_object_type, "wrong_object_type"); (undefined_column, "undefined_column");
    (undefined_function, "undefined_function"); (undefined_table, "undefined_table");
    (undefined_parameter, "undefined_parameter");
    (undefined_object, "undefined_object"); (duplicate_column, "duplicate_column");
    (duplicate_cursor, "duplicate_cursor"); (duplicate_database, "duplicate_database");
    (duplicate_function, "duplicate_function");
    (duplicate_prepared_statement, "duplicate_prepared_statement");
    (duplicate_schema, "duplicate_schema"); (duplicate_table, "duplicate_table");
    (duplicate_alias, "duplicate_alias"); (duplicate_object, "duplicate_object");
    (ambiguous_column, "ambiguous_column"); (ambiguous_function, "ambiguous_function");
    (ambiguous_parameter, "ambiguous_parameter"); (ambiguous_alias, "ambiguous_alias");
    (invalid_column_reference, "invalid_column_reference");
    (invalid_column_definition, "invalid_column_definition");
    (invalid_cursor_definition, "invalid_cursor_definition");
    (invalid_database_definition, "invalid_database_definition");
    (invalid_function_definition, "invalid_function_definition");
    (invalid_prepared_statement_definition, "invalid_prepared_statement_definition");
    (invalid_schema_definition, "invalid_schema_definition");
    (invalid_table_definition, "invalid_table_definition");
    (invalid_object_definition, "invalid_object_definition");
    (with_check_option_violation, "with_check_option_violation");
    (insufficient_resources, "insufficient_resources"); (disk_full, "disk_full");
    (out_of_memory, "out_of_memory"); (too_many_connections, "too_many_connections");
    (configuration_limit_exceeded, "configuration_limit_exceeded");
    (program_limit_exceeded, "program_limit_exceeded");
    (statement_too_complex, "statement_too_complex");
    (too_many_columns, "too_many_columns"); (too_many_arguments, "too_many_arguments");
    (object_not_in_prerequisite_state, "object_not_in_prerequisite_state");
    (object_in_use, "object_in_use");
    (cant_change_runtime_param, "cant_change_runtime_param");
    (lock_not_available, "lock_not_available");
    (operator_intervention, "operator_intervention");
    (query_canceled, "query_canceled"); (admin_shutdown, "admin_shutdown");
    (crash_shutdown, "crash_shutdown"); (cannot_connect_now, "cannot_connect_now");
    (database_dropped, "database_dropped"); (system_error, "system_error");
    (io_error, "io_error"); (undefined_file, "undefined_file");
    (duplicate_file, "duplicate_file"); (config_file_error, "config_file_error");
    (lock_file_exists, "lock_file_exists"); (fdw_error, "fdw_error");
    (fdw_column_name_not_found, "fdw_column_name_not_found");
    (fdw_dynamic_parameter_value_needed, "fdw_dynamic_parameter_value_needed");
    (fdw_function_sequence_error, "fdw_function_sequence_error");
    (fdw_inconsistent_descriptor_information, "fdw_inconsistent_descriptor_information");
    (fdw_invalid_attribute_value, "fdw_invalid_attribute_value");
    (fdw_invalid_column_name, "fdw_invalid_column_name");
    (fdw_invalid_column_number, "fdw_invalid_column_number");
    (fdw_invalid_data_type, "fdw_invalid_data_type");
    (fdw_invalid_data_type_descriptors, "fdw_invalid_data_type_descriptors");
    (fdw_invalid_descriptor_field_identifier, "fdw_invalid_descriptor_field_identifier");
    (fdw_invalid_handle, "fdw_invalid_handle");
    (fdw_invalid_option_index, "fdw_invalid_option_index");
    (fdw_invalid_option_name, "fdw_invalid_option_name");
    (fdw_invalid_string_length_or_buffer_length, "fdw_invalid_string_length_or_buffer_length");
    (fdw_invalid_string_format, "fdw_invalid_string_format");
    (fdw_invalid_use_of_null_pointer, "fdw_invalid_use_of_null_pointer");
    (fdw_too_many_handles, "fdw_too_many_handles");
    (fdw_out_of_memory, "fdw_out_of_memory"); (fdw_no_schemas, "fdw_no_schemas");
    (fdw_option_name_not_found, "fdw_option_name_not_found");
    (fdw_reply_handle, "fdw_reply_handle");
    (fdw_schema_not_found, "fdw_schema_not_found");
    (fdw_table_not_found, "fdw_table_not_found");
    (fdw_unable_to_create_execution, "fdw_unable_to_create_execution");
    (fdw_unable_to_create_reply, "fdw_unable_to_create_reply");
    (fdw_unable_to_establish_connection, "fdw_unable_to_establish_connection");
    (plpgsql_error, "plpgsql_error"); (raise_exception, "raise_exception");
    (no_data_found, "no_data_found"); (too_many_rows, "too_many_rows");
    (internal_error, "internal_error"); (data_corrupted, "data_corrupted");
    (index_corrupted, "index_corrupted")].

Definition message_cases : list (code * string) :=
  (message_cases_00_3F ++ message_cases_40_XX)%list.

(** [category::message(int)]: the [switch] on the value, then the default. *)
Definition message (v : Z) : string :=
  match List.find (fun p => value (fst p) =? v) message_cases with
  | Some (_, n) => n ++ "(" ++ ltob36 v ++ ")"
  | None => "sql state " ++ ltob36 v
  end.

(** The [BOZO_SQL_STATE_CONDITION] cases of [equivalent]. *)
Definition class_conditions : list code :=
  [
    warning; no_data; sql_statement_not_yet_complete; connection_exception;
    triggered_action_exception; feature_not_supported; invalid_transaction_initiation;
    locator_exception; invalid_grantor; invalid_role_specification;
    diagnostics_exception; case_not_found; cardinality_violation; data_exception;
    integrity_constraint_violation; invalid_cursor_state; invalid_transaction_state;
    invalid_sql_statement_name; triggered_data_change_violation;
    invalid_authorization_specification; dependent_privilege_descriptors_still_exist;
    invalid_transaction_termination; sql_routine_exception; invalid_cursor_name;
    external_routine_exception; external_routine_invocation_exception;
    savepoint_exception; invalid_catalog_name; invalid_schema_name;
    transaction_rollback; syntax_error_or_access_rule_violation;
    with_check_option_violation; insufficient_resources; program_limit_exceeded;
    object_not_in_prerequisite_state; operator_intervention; system_error;
    snapshot_too_old; config_file_error; fdw_error; plpgsql_error; internal_error].

(** Width of a class: 01000 in base 36. *)
Definition class_width : Z := 46656.

Definition value_in (v : Z) (cond : code) : bool :=
  (value cond <=? v) && (v <? value cond + class_width).

(** [category::equivalent(const error_code&, int)]. *)
Definition equivalent (ec : error_code) (condition : Z) : bool :=
  if decide (ec_category ec = bozo_sqlstate_category) then
    match List.find (fun c => value c =? condition) class_conditions with
    | Some c => value_in (ec_value ec) c
    | None => equivalent_base bozo_sqlstate_category ec condition
    end
  else equivalent_base bozo_sqlstate_category ec condition.

(** [make_error_code(int)] and [make_error_condition(code)]. *)
Definition make_error_code (e : Z) : error_code := mk_error_code e bozo_sqlstate_category.
Definition make_error_condition (c : code) : error_condition :=
  mk_error_condition (value c) bozo_sqlstate_category.

(** ** The enumeration *)

Lemma codes_complete c : In c codes.
Proof. destruct c; vm_compute; tauto. Qed.

Definition of_value (v : Z) : option code := List.find (fun c => value c =? v) codes.

Lemma sqlstate_of_value c : of_value (value c) = Some c.
Proof. destruct c; vm_compute; reflexivity. Qed.

Lemma sqlstate_value_inj c d : value c = value d -> c = d.
Proof.
  intros H. assert (Some c = Some d) as [= ->]; [|done].
  by rewrite <- !sqlstate_of_value, H.
Qed.

#[global] Instance code_eq_dec : EqDecision code.
Proof.
  intros c d. destruct (decide (value c = value d)) as [H|H].
  - left. by apply sqlstate_value_inj.
  - right. congruence.
Defined.

(** ** Printing a code *)

Lemma message_case_inv v c n :
  List.find (fun p => value (fst p) =? v) message_cases = Some (c, n) ->
  In (c, n) message_cases /\ value c = v.
Proof. intros H. apply find_some in H as [Hin Hv]. cbn in Hv. by bool_props. Qed.

Lemma snapshot_too_old_message : message (value snapshot_too_old) = "sql state 72000".
Proof. vm_compute. reflexivity. Qed.

Definition has_case (c : code) : bool :=
  existsb (fun p => value (fst p) =? value c) message_cases.

Lemma has_case_all c : has_case c = true \/ c = snapshot_too_old.
Proof.
  assert (forallb (fun c => has_case c || (value c =? value snapshot_too_old)) codes = true)
    as H by (vm_compute; reflexivity).
  rewrite forallb_forall in H. specialize (H c (codes_complete c)).
  apply orb_true_iff in H as [H|H]; [by left | right].
  bool_props. by apply sqlstate_value_inj.
Qed.

Lemma message_of_case c :
  has_case c = true ->
  exists n, In (c, n) message_cases /\
    message (value c) = n ++ "(" ++ ltob36 (value c) ++ ")".
Proof.
  unfold has_case, message. intros H. apply existsb_exists in H as (p & Hin & Hp).
  destruct (List.find _ _) as [[d n]|] eqn:Hf.
  - apply message_case_inv in Hf as [Hin' Hv]. apply sqlstate_value_inj in Hv as ->. eauto.
  - by rewrite (find_none _ _ Hf _ Hin) in Hp.
Qed.

(** ** Classes *)

(** The class of a SQLSTATE is its first two characters. *)
Definition class_of (s : string) : list ascii := take 2 (list_ascii_of_string s).

Lemma spelled_is_sqlstate c : is_sqlstate (spelled c) = true.
Proof. destruct c; vm_compute; reflexivity. Qed.

Lemma spelled_value c : b36tol (spelled c) = value c.
Proof. destruct c; vm_compute; reflexivity. Qed.

Lemma class_condition_aligned c : In c class_conditions -> value c mod class_width = 0.
Proof.
  assert (forallb (fun c => value c mod class_width =? 0) class_conditions = true) as H
    by (vm_compute; reflexivity).
  rewrite forallb_forall in H. intros Hc. specialize (H c Hc). by bool_props.
Qed.

Lemma find_class_condition c :
  In c class_conditions ->
  List.find (fun d => value d =? value c) class_conditions = Some c.
Proof.
  intros Hc. destruct (List.find _ _) as [d|] eqn:Hf.
  - apply find_some in Hf as [_ Hd]. bool_props. by rewrite (sqlstate_value_inj _ _ Hd).
  - pose proof (find_none _ _ Hf _ Hc) as H. cbn in H. bool_props. done.
Qed.

Lemma equivalent_class ec c :
  In c class_conditions ->
  equivalent ec (value c) =
  bool_decide (ec_category ec = bozo_sqlstate_category) && value_in (ec_value ec) c.
Proof.
  intros Hc. unfold equivalent. rewrite find_class_condition by done.
  case_bool_decide; case_decide; try done. by apply equivalent_base_other.
Qed.

Lemma equivalent_other ec v :
  ec_category ec <> bozo_sqlstate_category -> equivalent ec v = false.
Proof. intros H. unfold equivalent. case_decide; [done|]. by apply equivalent_base_other. Qed.

(** A class matches the values that share its quotient by the width. *)
Lemma value_in_quotient v c :
  In c class_conditions ->
  value_in v c = true <-> v / class_width = value c / class_width.
Proof.
  intros Hc. pose proof (class_condition_aligned c Hc) as Ha.
  unfold value_in. rewrite andb_true_iff, Z.leb_le, Z.ltb_lt.
  unfold class_width in *. pose proof (Z.div_mod (value c) 46656).
  pose proof (Z.div_mod v 46656). pose proof (Z.mod_pos_bound v 46656). lia.
Qed.

Lemma five_digits ds :
  length ds = 5%nat -> Forall (fun d => 0 <= d < 36) ds ->
  exists a b r, 0 <= a < 36 /\ 0 <= b < 36 /\ take 2 ds = [a; b] /\
    foldl (fun x d => 36 * x + d) 0 ds = (36 * a + b) * class_width + r /\
    0 <= r < class_width.
Proof.
  intros Hl Hds. destruct ds as [|a [|b [|x [|y [|z [|]]]]]]; try discriminate.
  repeat match goal with H : Forall _ (_ :: _) |- _ => apply Forall_cons_1 in H as [? H] end.
  exists a, b, (1296 * x + 36 * y + z). cbn [foldl]. unfold class_width.
  repeat split; try done; lia.
Qed.

Lemma sqlstate_quotient s t :
  is_sqlstate s = true -> is_sqlstate t = true ->
  b36tol s / class_width = b36tol t / class_width <-> class_of s = class_of t.
Proof.
  intros Hs Ht.
  destruct (is_sqlstate_inv s Hs) as (ds & Hds & Hls & Hfs & ->).
  destruct (is_sqlstate_inv t Ht) as (es & Hes & Hlt & Hft & ->).
  unfold class_of. rewrite Hds, Hes, <- !fmap_take.
  destruct (five_digits ds Hls Hfs) as (a & b & r & Ha & Hb & -> & -> & Hr).
  destruct (five_digits es Hlt Hft) as (a' & b' & r' & Ha' & Hb' & -> & -> & Hr').
  rewrite !Z.div_add_l by done. rewrite !Z.div_small by done.
  assert (forall x y, 0 <= x < 36 -> 0 <= y < 36 -> digit_char x = digit_char y -> x = y)
    as Hinj.
  { intros x y Hx Hy Hxy. assert (Some x = Some y) as [= ->]; [|done].
    by rewrite <- (digit_val_char x), <- (digit_val_char y), Hxy. }
  split; intros H.
  - assert (a = a' /\ b = b') as [-> ->] by lia. done.
  - cbn in H. injection H as Hx Hy.
    apply Hinj in Hx; [|done|done]. apply Hinj in Hy; [|done|done]. lia.
Qed.

Lemma value_in_prefix c s :
  In c class_conditions -> is_sqlstate s = true ->
  value_in (b36tol s) c = true <-> class_of s = class_of (spelled c).
Proof.
  intros Hc Hs. rewrite value_in_quotient by done. rewrite <- (spelled_value c).
  apply sqlstate_quotient; [done | apply spelled_is_sqlstate].
Qed.

(** Every enumerator of [sqlstate::code] has the value of its SQLSTATE read
    in base 36: the table of [error.h] agrees with the codes it documents, and
    each of them is a well-formed SQLSTATE. *)
Theorem enumerators_match_sqlstate c :
  is_sqlstate (spelled c) = true /\ b36tol (spelled c) = value c.
Proof. split; [apply spelled_is_sqlstate | apply spelled_value]. Qed.

(** A condition that names a class matches exactly the errors whose
    SQLSTATE has the two-character prefix of the class. *)
Theorem class_condition_matches_prefix c s :
  In c class_conditions -> is_sqlstate s = true ->
  equivalent (make_error_code (b36tol s)) (value c) = true <->
  class_of s = class_of (spelled c).
Proof.
  intros Hc Hs. rewrite equivalent_class by done. cbn [make_error_code ec_category ec_value].
  rewrite bool_decide_eq_true_2 by done. by apply value_in_prefix.
Qed.

Lemma class_condition_matches_prefix_witness :
  In connection_exception class_conditions /\ is_sqlstate "08P01" = true /\
  (equivalent (make_error_code (b36tol "08P01")) (value connection_exception) = true <->
   class_of "08P01" = class_of (spelled connection_exception)).
Proof.
  split; [vm_compute; tauto|]. split; [reflexivity|].
  apply (class_condition_matches_prefix connection_exception "08P01"); [vm_compute; tauto | reflexivity].
Defined.

(** No error belongs to two classes. *)
Theorem classes_disjoint ec c d :
  In c class_conditions -> In d class_conditions ->
  equivalent ec (value c) = true -> equivalent ec (value d) = true -> c = d.
Proof.
  intros Hc Hd. rewrite !equivalent_class by done. rewrite !andb_true_iff.
  intros [_ H1] [_ H2]. apply value_in_quotient in H1; [|done].
  apply value_in_quotient in H2; [|done].
  pose proof (class_condition_aligned c Hc). pose proof (class_condition_aligned d Hd).
  apply sqlstate_value_inj. unfold class_width in *.
  pose proof (Z.div_mod (value c) 46656). pose proof (Z.div_mod (value d) 46656). lia.
Qed.

Lemma classes_disjoint_witness :
  equivalent (make_error_code (b36tol "22012")) (value data_exception) = true /\
  data_exception = data_exception.
Proof.
  split; [reflexivity|]. apply (classes_disjoint (make_error_code (b36tol "22012")) data_exception data_exception);
    vm_compute; tauto.
Defined.

(** Every code prints as its name followed by its SQLSTATE in parentheses,
    except [snapshot_too_old], which [message] has no case for and which prints
    as an unknown state. *)
Theorem message_names_every_code_but_one c :
  (exists n, In (c, n) message_cases /\
     message (value c) = n ++ "(" ++ ltob36 (value c) ++ ")") \/
  (c = snapshot_too_old /\ message (value c) = "sql state 72000").
Proof.
  destruct (has_case_all c) as [H | ->].
  - left. by apply message_of_case.
  - right. split; [done | apply snapshot_too_old_message].
Qed.

End sqlstate.
