(* ===== verification/Errors.v ===== *)
(** The error codes of the library and its error conditions: the namespaces
    [bozo::error] and [bozo::errc] of [src/include/bozo/error.h].

    [errc.match_code] compares an error code with a tuple of codes and
    conditions; [errc.equivalent] gives a condition the codes listed for it in
    [codes_for_condition].  [eq_condition] is [operator==(error_code,
    error_condition)], on which the failover strategies rely. *)

From S2P Require Import Prelude Base36 ErrorCode SqlState.
From Stdlib Require Import ZArith Lia List String.
From stdpp Require Import base tactics list strings pretty.

Open Scope string_scope.
Open Scope Z_scope.

Module error.

Inductive code : Set :=
| ok
| pq_connection_start_failed
| pq_socket_failed
| pq_connection_status_bad
| pq_connect_poll_failed
| oid_type_mismatch
| unexpected_eof
| pg_send_query_params_failed
| pg_consume_input_failed
| pg_set_nonblocking_failed
| pg_flush_failed
| bad_result_process
| no_sql_state_found
| result_status_unexpected
| result_status_empty_query
| result_status_bad_response
| oid_request_failed
| bad_object_size
| bad_array_size
| bad_array_dimension
| bad_composite_size
| pq_cancel_failed
| pq_get_cancel_failed.

#[global] Instance code_eq_dec : EqDecision code.
Proof. solve_decision. Defined.

(** The enumerators in order: their values count up from zero. *)
Definition codes : list code :=
  [ok; pq_connection_start_failed; pq_socket_failed; pq_connection_status_bad;
   pq_connect_poll_failed; oid_type_mismatch; unexpected_eof;
   pg_send_query_params_failed; pg_consume_input_failed; pg_set_nonblocking_failed;
   pg_flush_failed; bad_result_process; no_sql_state_found;
   result_status_unexpected; result_status_empty_query; result_status_bad_response;
   oid_request_failed; bad_object_size; bad_array_size; bad_array_dimension;
   bad_composite_size; pq_cancel_failed; pq_get_cancel_failed].

Definition value (c : code) : Z :=
  match c with
  | ok => 0
  | pq_connection_start_failed => 1
  | pq_socket_failed => 2
  | pq_connection_status_bad => 3
  | pq_connect_poll_failed => 4
  | oid_type_mismatch => 5
  | unexpected_eof => 6
  | pg_send_query_params_failed => 7
  | pg_consume_input_failed => 8
  | pg_set_nonblocking_failed => 9
  | pg_flush_failed => 10
  | bad_result_process => 11
  | no_sql_state_found => 12
  | result_status_unexpected => 13
  | result_status_empty_query => 14
  | result_status_bad_response => 15
  | oid_request_failed => 16
  | bad_object_size => 17
  | bad_array_size => 18
  | bad_array_dimension => 19
  | bad_composite_size => 20
  | pq_cancel_failed => 21
  | pq_get_cancel_failed => 22
  end.

(** [code(value)]: the enumerator of a value, if there is one. *)
Definition of_value (v : Z) : option code := List.find (fun c => value c =? v) codes.

Definition make_error_code (e : code) : error_code :=
  mk_error_code (value e) bozo_error_category.

Definition code_message (c : code) : string :=
  match c with
  | ok =>
      "no error"
  | pq_connection_start_failed =>
      "pq_connection_start_failed - PQConnectionStart function failed"
  | pq_socket_failed =>
      "pq_socket_failed - PQSocket returned -1 as fd - it seems like there is no connection"
  | pq_connection_status_bad =>
      "pq_connection_status_bad - PQstatus returned CONNECTION_BAD"
  | pq_connect_poll_failed =>
      "pq_connect_poll_failed - PQconnectPoll function failed"
  | oid_type_mismatch =>
      "no conversion possible from oid to user-supplied type"
  | unexpected_eof =>
      "unexpected EOF while data read"
  | pg_send_query_params_failed =>
      "pg_send_query_params_failed - PQsendQueryParams function failed"
  | pg_consume_input_failed =>
      "pg_consume_input_failed - PQconsumeInput function failed"
  | pg_set_nonblocking_failed =>
      "pg_set_nonblocking_failed - PQsetnonblocking function failed"
  | pg_flush_failed =>
      "pg_flush_failed - PQflush function failed"
  | bad_result_process =>
      "bad_result_process - error while processing or converting result from the database"
  | no_sql_state_found =>
      "no_sql_state_found - no sql state has been found in database query execution error reply"
  | result_status_unexpected =>
      "result_status_unexpected - got unexpected status from query result"
  | result_status_empty_query =>
      "result_status_empty_query - the string sent to the server was empty"
  | result_status_bad_response =>
      "result_status_bad_response - the server's response was not understood"
  | oid_request_failed =>
      "error during request oids from a database"
  | bad_object_size =>
      "an object size received does not equal to the expected"
  | bad_array_size =>
      "an array size received does not equal to the expected or not supported by the type"
  | bad_array_dimension =>
      "an array dimension count received does not equal to the expected or not supported by the type"
  | bad_composite_size =>
      "a composite's fields number received does not equal to the expected or not supported by the type"
  | pq_cancel_failed =>
      "libpq PQcancel function call failed"
  | pq_get_cancel_failed =>
      "libpq PQgetCancel function call failed"
  end.

(** [category::message(int)]. *)
Definition message (v : Z) : string :=
  match of_value v with
  | Some c => code_message c
  | None => "no message for value: " ++ pretty v
  end.

Lemma error_of_value c : of_value (value c) = Some c.
Proof. by destruct c. Qed.

Lemma error_value_inj c d : value c = value d -> c = d.
Proof.
  intros H. assert (Some c = Some d) as [= ->]; [|done].
  by rewrite <- !error_of_value, H.
Qed.

End error.

Module errc.

Inductive code : Set :=
| ok
| connection_error
| database_readonly
| introspection_error
| type_mismatch
| protocol_error.

#[global] Instance code_eq_dec : EqDecision code.
Proof. solve_decision. Defined.

Definition codes : list code :=
  [ok; connection_error; database_readonly; introspection_error; type_mismatch;
   protocol_error].

Definition value (c : code) : Z :=
  match c with
  | ok => 0
  | connection_error => 1
  | database_readonly => 2
  | introspection_error => 3
  | type_mismatch => 4
  | protocol_error => 5
  end.

Definition of_value (v : Z) : option code := List.find (fun c => value c =? v) codes.

Definition make_error_condition (e : code) : error_condition :=
  mk_error_condition (value e) bozo_errc_category.

Definition code_message (c : code) : string :=
  match c with
  | ok => "no error"
  | connection_error => "communication error"
  | database_readonly => "database in read-only state"
  | introspection_error => "serialization/deserialization related error"
  | type_mismatch => "expected type mismatch received type"
  | protocol_error => "protocol-related error"
  end.

Definition message (v : Z) : string :=
  match of_value v with
  | Some c => code_message c
  | None => "no message for value: " ++ pretty v
  end.

(** An element of a tuple of codes and conditions. *)
Inductive matcher : Set :=
| match_sqlstate (c : sqlstate.code)
| match_asio (e : asio_error)
| match_io_error
| match_error (c : error.code)
| match_errc (c : code).

(** [codes_for_condition<connection_error>]. *)
Definition connection_error_codes : list matcher :=
  [match_sqlstate sqlstate.connection_exception;
   match_asio broken_pipe; match_asio connection_aborted;
   match_asio connection_refused; match_asio connection_reset; match_asio fault;
   match_asio host_unreachable; match_asio interrupted; match_asio network_reset;
   match_asio not_connected; match_asio operation_aborted; match_asio shut_down;
   match_asio timed_out; match_asio try_again;
   match_asio host_not_found; match_asio host_not_found_try_again;
   match_asio no_data; match_asio no_recovery;
   match_io_error;
   match_error error.pq_connection_start_failed; match_error error.pq_socket_failed;
   match_error error.pq_connection_status_bad; match_error error.pq_connect_poll_failed;
   match_error error.pg_send_query_params_failed;
   match_error error.pg_consume_input_failed;
   match_error error.pg_set_nonblocking_failed; match_error error.pg_flush_failed].

Definition database_readonly_codes : list matcher :=
  [match_sqlstate sqlstate.read_only_sql_transaction].

Definition introspection_error_codes : list matcher :=
  [match_error error.bad_result_process; match_error error.bad_object_size;
   match_error error.bad_array_size; match_error error.bad_array_dimension;
   match_error error.bad_composite_size; match_error error.unexpected_eof].

Definition type_mismatch_codes : list matcher := [match_error error.oid_type_mismatch].

Definition protocol_error_codes : list matcher :=
  [match_error error.no_sql_state_found; match_error error.result_status_unexpected;
   match_error error.result_status_empty_query;
   match_error error.result_status_bad_response; match_error error.oid_request_failed].

Section Match.
Context `{Boost}.

(** [ec == condition] for a condition outside [errc]: either category may
    declare the two equivalent. *)
Definition eq_condition_base (ec : error_code) (cond : error_condition) : bool :=
  equivalent_code ec cond ||
  (if decide (cond_category cond = bozo_sqlstate_category)
   then sqlstate.equivalent ec (cond_value cond)
   else equivalent_base (cond_category cond) ec (cond_value cond)).

(** [ec == x] for an element of a tuple without [errc] conditions. *)
Definition eq_matcher_base (ec : error_code) (x : matcher) : bool :=
  match x with
  | match_sqlstate c => eq_condition_base ec (sqlstate.make_error_condition c)
  | match_asio e => bool_decide (ec = make_asio_error e)
  | match_io_error => eq_condition_base ec (mk_error_condition io_error_value generic_category)
  | match_error c => bool_decide (ec = error.make_error_code c)
  | match_errc c => equivalent_code ec (make_error_condition c)
  end.

(** [category::equivalent(const error_code&, int)]. *)
Definition equivalent (ec : error_code) (condition : Z) : bool :=
  match of_value condition with
  | Some ok => bool_decide (ec = no_error)
  | Some connection_error => existsb (eq_matcher_base ec) connection_error_codes
  | Some database_readonly => existsb (eq_matcher_base ec) database_readonly_codes
  | Some introspection_error => existsb (eq_matcher_base ec) introspection_error_codes
  | Some type_mismatch => existsb (eq_matcher_base ec) type_mismatch_codes
  | Some protocol_error => existsb (eq_matcher_base ec) protocol_error_codes
  | None => equivalent_base bozo_errc_category ec condition
  end.

(** [ec == x], [errc] conditions included. *)
Definition eq_matcher (ec : error_code) (x : matcher) : bool :=
  match x with
  | match_errc c => equivalent_code ec (make_error_condition c) || equivalent ec (value c)
  | x => eq_matcher_base ec x
  end.

(** [match_code(conditions, ec)]: [((ec == x) || ... || false)]. *)
Definition match_code (conditions : list matcher) (ec : error_code) : bool :=
  existsb (eq_matcher ec) conditions.
End Match.

(** ** Which errors a condition covers *)

Lemma errc_of_value c : of_value (value c) = Some c.
Proof. by destruct c. Qed.

(** The condition each error of the library falls under, if any. *)
Definition condition_of (c : error.code) : option code :=
  match c with
  | error.pq_connection_start_failed | error.pq_socket_failed
  | error.pq_connection_status_bad | error.pq_connect_poll_failed
  | error.pg_send_query_params_failed | error.pg_consume_input_failed
  | error.pg_set_nonblocking_failed | error.pg_flush_failed => Some connection_error
  | error.bad_result_process | error.bad_object_size | error.bad_array_size
  | error.bad_array_dimension | error.bad_composite_size
  | error.unexpected_eof => Some introspection_error
  | error.oid_type_mismatch => Some type_mismatch
  | error.no_sql_state_found | error.result_status_unexpected
  | error.result_status_empty_query | error.result_status_bad_response
  | error.oid_request_failed => Some protocol_error
  | error.ok | error.pq_cancel_failed | error.pq_get_cancel_failed => None
  end.

Section Classified.
Context `{Boost}.

Lemma eq_matcher_base_error c x :
  eq_matcher_base (error.make_error_code c) x =
  match x with match_error d => bool_decide (c = d) | _ => false end.
Proof.
  destruct x as [d|e| |d|d]; cbn [eq_matcher_base].
  - unfold eq_condition_base. rewrite equivalent_code_other by done.
    by rewrite decide_True, sqlstate.equivalent_other.
  - apply bool_decide_eq_false_2. unfold make_asio_error, error.make_error_code.
    destruct e; cbn; congruence.
  - unfold eq_condition_base. by rewrite equivalent_code_other, equivalent_base_other.
  - apply bool_decide_ext. split; [|by intros ->].
    intros [= Hv]. by apply error.error_value_inj.
  - by apply equivalent_code_other.
Qed.

Lemma existsb_error c l :
  existsb (eq_matcher_base (error.make_error_code c)) l =
  existsb (fun x => match x with match_error d => bool_decide (c = d) | _ => false end) l.
Proof.
  induction l as [|x l IH]; [done|]. cbn [existsb].
  by rewrite IH, eq_matcher_base_error.
Qed.

Lemma eq_matcher_base_sqlstate v x :
  eq_matcher_base (sqlstate.make_error_code v) x =
  match x with
  | match_sqlstate d =>
      (v =? sqlstate.value d) || sqlstate.equivalent (sqlstate.make_error_code v) (sqlstate.value d)
  | _ => false
  end.
Proof.
  destruct x as [d|e| |d|d]; cbn [eq_matcher_base].
  - unfold eq_condition_base, sqlstate.make_error_condition, sqlstate.make_error_code.
    by rewrite equivalent_code_same, decide_True.
  - apply bool_decide_eq_false_2. unfold make_asio_error, sqlstate.make_error_code.
    destruct e; cbn; congruence.
  - unfold eq_condition_base. by rewrite equivalent_code_other, equivalent_base_other.
  - apply bool_decide_eq_false_2. unfold sqlstate.make_error_code, error.make_error_code. congruence.
  - by apply equivalent_code_other.
Qed.

Lemma existsb_sqlstate v l :
  existsb (eq_matcher_base (sqlstate.make_error_code v)) l =
  existsb (fun x => match x with
     | match_sqlstate d =>
         (v =? sqlstate.value d) || sqlstate.equivalent (sqlstate.make_error_code v) (sqlstate.value d)
     | _ => false
     end) l.
Proof.
  induction l as [|x l IH]; [done|]. cbn [existsb].
  by rewrite IH, eq_matcher_base_sqlstate.
Qed.

Lemma sqlstate_connection_exception s :
  Base36.is_sqlstate s = true ->
  (Base36.b36tol s =? sqlstate.value sqlstate.connection_exception) ||
  sqlstate.equivalent (sqlstate.make_error_code (Base36.b36tol s))
    (sqlstate.value sqlstate.connection_exception) = true <->
  sqlstate.class_of s = sqlstate.class_of "08000".
Proof.
  intros Hs. assert (In sqlstate.connection_exception sqlstate.class_conditions) as Hc
    by (vm_compute; tauto).
  rewrite sqlstate.equivalent_class by done. cbn [sqlstate.make_error_code ec_category ec_value].
  rewrite bool_decide_eq_true_2 by done. cbn [andb].
  rewrite <- (sqlstate.value_in_prefix sqlstate.connection_exception s Hc Hs).
  rewrite orb_true_iff, Z.eqb_eq. split; [|by right].
  intros [Heq|Hin]; [|done]. rewrite Heq. reflexivity.
Qed.

Lemma sqlstate_read_only s :
  Base36.is_sqlstate s = true ->
  (Base36.b36tol s =? sqlstate.value sqlstate.read_only_sql_transaction) ||
  sqlstate.equivalent (sqlstate.make_error_code (Base36.b36tol s))
    (sqlstate.value sqlstate.read_only_sql_transaction) = true <-> s = "25006".
Proof.
  intros Hs.
  assert (List.find (fun c => sqlstate.value c =?
     sqlstate.value sqlstate.read_only_sql_transaction) sqlstate.class_conditions = None)
    as Hf by (vm_compute; reflexivity).
  unfold sqlstate.equivalent, equivalent_base. cbn [sqlstate.make_error_code ec_category ec_value].
  rewrite Hf, decide_True, bool_decide_eq_true_2 by done. cbn [andb].
  rewrite orb_diag, Z.eqb_eq. split; [|by intros ->].
  intros Hv. apply Base36.b36tol_inj; [done | reflexivity |]. rewrite Hv. reflexivity.
Qed.

(** The conditions partition the errors of the library: an error code
    satisfies the condition [condition_of] gives it and no other, and only the
    placeholder [ok] and the two errors of query cancellation satisfy none. *)
Theorem library_errors_classified c k :
  equivalent (error.make_error_code c) (value k) = true <-> condition_of c = Some k.
Proof.
  unfold equivalent. rewrite errc_of_value.
  destruct k; rewrite ?existsb_error; by destruct c.
Qed.

(** An SQL error is a connection error exactly when its class is 08, a
    read-only error exactly when its state is 25006, and falls under no other
    condition. *)
Theorem sqlstate_errors_classified s k :
  Base36.is_sqlstate s = true ->
  equivalent (sqlstate.make_error_code (Base36.b36tol s)) (value k) = true <->
  (k = connection_error /\ sqlstate.class_of s = sqlstate.class_of "08000") \/
  (k = database_readonly /\ s = "25006").
Proof.
  intros Hs. unfold equivalent. rewrite errc_of_value.
  destruct k; rewrite ?existsb_sqlstate;
    cbn [existsb connection_error_codes database_readonly_codes introspection_error_codes
         type_mismatch_codes protocol_error_codes]; rewrite ?orb_false_r.
  2: { rewrite (sqlstate_connection_exception s Hs). split; [by left|].
       intros [[_ ?]|[? _]]; [done | discriminate]. }
  2: { rewrite (sqlstate_read_only s Hs). split; [by right|].
       intros [[? _]|[_ ?]]; [discriminate | done]. }
  all: rewrite ?bool_decide_eq_true; split; [discriminate | intros [[? _]|[? _]]; discriminate].
Qed.
End Classified.

Lemma sqlstate_errors_classified_witness :
  Base36.is_sqlstate "08006" = true /\
  (@equivalent linux_boost (sqlstate.make_error_code (Base36.b36tol "08006"))
     (value connection_error) = true <->
   (connection_error = connection_error /\ sqlstate.class_of "08006" = sqlstate.class_of "08000") \/
   (connection_error = database_readonly /\ "08006" = "25006")).
Proof.
  split; [reflexivity|].
  apply (@sqlstate_errors_classified linux_boost "08006" connection_error). reflexivity.
Defined.

End errc.

(** ** Exceptions *)

(** The exceptions the library throws, without their texts: [system_error] with
    an error of the library, and the standard ones. *)
Inductive exn : Set :=
| ex_system_error (c : error.code)
| ex_invalid_argument
| ex_range_error
| ex_length_error
| ex_out_of_range
| ex_bad_alloc.

#[export] Instance exn_eq_dec : EqDecision exn.
Proof. solve_decision. Defined.
