(* ===== verification/Endian.v ===== *)
(** Byte order: [src/include/bozo/detail/endian.h] and
    [src/include/bozo/detail/typed_buffer.h], with the integral types of the
    streams.

    The host may be little or big endian ([endian::native]); the definitions
    take it as an argument.  An integral type is its width in bytes and its
    signedness. *)

From S2P Require Import Prelude.
From Stdlib Require Import ZArith Lia List Strings.Byte.
From stdpp Require Import base tactics list numbers.

Open Scope Z_scope.

Module Endian.

Inductive endian : Set := little | big.

#[global] Instance endian_eq_dec : EqDecision endian.
Proof. solve_decision. Defined.

Record int_type := mk_int_type { int_bytes : nat; int_signed : bool }.

Definition int_bits (t : int_type) : Z := 8 * Z.of_nat (int_bytes t).

(** The values of an integral type, and the conversion to it. *)
Definition int_range (t : int_type) (z : Z) : bool :=
  if int_signed t then in_S (int_bits t) z else in_U (int_bits t) z.

Definition int_cast (t : int_type) (z : Z) : Z :=
  if int_signed t then wrapS (int_bits t) z else wrapU (int_bits t) z.

(** [byte_order_swap<T>(value, index_sequence<N...>)]: the fold of
    [((value >> N * 8 & 255) << (sizeof(T) - 1 - N) * 8)] with [|]. *)
Definition swap_term (n : nat) (value : Z) (k : nat) : Z :=
  Z.shiftl (Z.land (Z.shiftr value (Z.of_nat k * 8)) 255)
           ((Z.of_nat n - 1 - Z.of_nat k) * 8).

Definition byte_order_swap (n : nat) (value : Z) : Z :=
  foldr (fun k acc => Z.lor (swap_term n value k) acc) 0 (seq 0 n).

(** [convert_to_big_endian] and [convert_from_big_endian] of a type of [n]
    bytes: the argument is converted to the unsigned type first on a little
    endian host and returned as it is on a big endian one. *)
Definition convert_to_big_endian (native : endian) (n : nat) (value : Z) : Z :=
  match native with
  | little => byte_order_swap n (wrapU (8 * Z.of_nat n) value)
  | big => value
  end.

Definition convert_from_big_endian (native : endian) (n : nat) (value : Z) : Z :=
  match native with
  | little => byte_order_swap n (wrapU (8 * Z.of_nat n) value)
  | big => value
  end.

(** [typed_buffer<T>]: the bytes of [typed] in memory, and the value of the
    bytes [raw]. *)
Definition buffer_raw (native : endian) (n : nat) (typed : Z) : list byte :=
  match native with
  | little => le_bytes n typed
  | big => reverse (le_bytes n typed)
  end.

Definition buffer_typed (native : endian) (t : int_type) (raw : list byte) : Z :=
  int_cast t (match native with
              | little => le_value raw
              | big => le_value (reverse raw)
              end).

(** The wire format of an integer: most significant byte first. *)
Definition be_bytes (n : nat) (z : Z) : list byte := reverse (le_bytes n z).
Definition be_value (bs : list byte) : Z := le_value (reverse bs).
#[global] Arguments be_bytes : simpl never.

(** ** The swap reverses the bytes *)

Lemma land_255 z : Z.land z 255 = z mod 256.
Proof. change 255 with (Z.ones 8). by rewrite Z.land_ones by lia. Qed.

Lemma shiftr_8k z k : Z.shiftr z (Z.of_nat k * 8) = z / 256 ^ Z.of_nat k.
Proof. rewrite Z.shiftr_div_pow2 by lia. by rewrite pow_256_bits, Z.mul_comm. Qed.

(** [lor] of a multiple of [2 ^ m] and a number below [2 ^ m] is their sum. *)
Lemma lor_add_disjoint a b m :
  0 <= m -> 0 <= b < 2 ^ m -> Z.lor (Z.shiftl a m) b = Z.shiftl a m + b.
Proof.
  intros Hm Hb. symmetry. rewrite <- Z.lxor_lor, Z.add_nocarry_lxor; [done| |].
  all: apply Z.bits_inj'; intros i Hi; rewrite Z.land_spec, Z.bits_0;
    destruct (Z.ltb_spec i m);
    [ rewrite Z.shiftl_spec_low by lia; done
    | replace (Z.testbit b i) with false; [apply andb_false_r|] ].
  all: symmetry; destruct (Z.eq_dec b 0) as [->|]; [apply Z.bits_0|];
    apply Z.bits_above_log2; [lia|]; apply Z.log2_lt_pow2; [lia|];
    eapply Z.lt_le_trans; [apply Hb|]; apply Z.pow_le_mono_r; lia.
Qed.

(** The value of the terms from byte [k] on: the bytes of [value / 256 ^ k],
    least significant first, read most significant first. *)
Lemma swap_fold n value k m :
  (k + m = n)%nat ->
  foldr (fun j acc => Z.lor (swap_term n value j) acc) 0 (seq k m) =
  be_value (le_bytes m (value / 256 ^ Z.of_nat k)).
Proof.
  revert k. induction m as [|m IH]; intros k Hk; cbn [seq foldr le_bytes]; [done|].
  rewrite IH by lia. unfold swap_term. rewrite shiftr_8k, land_255.
  replace (Z.of_nat n - 1 - Z.of_nat k) with (Z.of_nat m) by lia.
  assert (value / 256 ^ Z.of_nat (S k) = value / 256 ^ Z.of_nat k / 256) as Hdiv.
  { rewrite pow_256_succ, (Z.mul_comm 256), Z.div_div; [done | | lia].
    pose proof (pow_256_pos k). lia. }
  rewrite Hdiv. set (v := value / 256 ^ Z.of_nat k).
  unfold be_value. rewrite reverse_cons.
  pose proof (le_value_range (reverse (le_bytes m (v / 256)))) as Hr.
  rewrite length_reverse, length_le_bytes, pow_256_bits in Hr.
  rewrite Z.mul_comm in Hr. rewrite lor_add_disjoint by lia.
  rewrite Z.shiftl_mul_pow2 by lia.
  generalize (reverse (le_bytes m (v / 256))) (length_reverse (le_bytes m (v / 256))).
  intros l Hl. rewrite length_le_bytes in Hl. clear -Hl.
  assert (forall l b, le_value (l ++ [b]) = le_value l + 256 ^ Z.of_nat (length l) * byte_val b)
    as Happ.
  { clear. induction l as [|x l IH]; intros b; cbn [app le_value length].
    - change (256 ^ Z.of_nat 0) with 1. lia.
    - rewrite IH, pow_256_succ. lia. }
  rewrite Happ, Hl, byte_val_of, pow_256_bits, (Z.mul_comm 8). lia.
Qed.

Lemma byte_order_swap_value n value :
  byte_order_swap n value = be_value (le_bytes n value).
Proof.
  unfold byte_order_swap. rewrite (swap_fold n value 0 n) by lia. by rewrite Z.div_1_r.
Qed.

Lemma le_bytes_be_value bs n : length bs = n -> le_bytes n (be_value bs) = reverse bs.
Proof. intros <-. unfold be_value. rewrite <- length_reverse. apply le_bytes_value. Qed.

Lemma le_bytes_wrapU n z : le_bytes n (wrapU (8 * Z.of_nat n) z) = le_bytes n z.
Proof.
  unfold wrapU. rewrite <- pow_256_bits, <- le_value_bytes.
  rewrite <- (length_le_bytes n z) at 1. apply le_bytes_value.
Qed.

(** Swapping twice is the identity on the unsigned type. *)
Lemma byte_order_swap_involutive n z :
  byte_order_swap n (byte_order_swap n z) = wrapU (8 * Z.of_nat n) z.
Proof.
  rewrite !byte_order_swap_value, le_bytes_be_value by apply length_le_bytes.
  unfold be_value. rewrite reverse_involutive, le_value_bytes.
  unfold wrapU. by rewrite pow_256_bits.
Qed.

(** The bytes an integer is sent as do not depend on the host. *)
Lemma buffer_raw_big_endian native n z :
  buffer_raw native n (convert_to_big_endian native n z) = be_bytes n z.
Proof.
  destruct native; [|done]. cbn [buffer_raw convert_to_big_endian].
  rewrite byte_order_swap_value, le_bytes_be_value by apply length_le_bytes.
  by rewrite le_bytes_wrapU.
Qed.

Lemma be_value_range bs : 0 <= be_value bs < 256 ^ Z.of_nat (length bs).
Proof. unfold be_value. rewrite <- length_reverse. apply le_value_range. Qed.

(** Reading the bytes back, on either host. *)
Lemma buffer_typed_big_endian native t raw :
  length raw = int_bytes t -> (0 < int_bytes t)%nat ->
  int_cast t (convert_from_big_endian native (int_bytes t) (buffer_typed native t raw)) =
  int_cast t (be_value raw).
Proof.
  intros Hl Hn. assert (0 < int_bits t) as Hw by (unfold int_bits; lia).
  assert (forall z, int_cast t (wrapU (int_bits t) z) = int_cast t z) as Hcast.
  { intros z. unfold int_cast. destruct (int_signed t); [by apply wrapS_wrapU|].
    by apply wrapU_small, wrapU_in_U. }
  assert (forall z, wrapU (int_bits t) (int_cast t z) = wrapU (int_bits t) z) as Hwrap.
  { intros z. unfold int_cast. destruct (int_signed t); [by apply wrapU_wrapS|].
    by apply wrapU_small, wrapU_in_U. }
  destruct native; unfold convert_from_big_endian, buffer_typed.
  - fold (int_bits t). rewrite Hwrap, byte_order_swap_value.
    unfold int_bits. rewrite le_bytes_wrapU, <- Hl, le_bytes_value. done.
  - unfold be_value. rewrite <- (Hcast (int_cast t _)), Hwrap. by rewrite Hcast.
Qed.

Lemma be_value_bytes n z : be_value (be_bytes n z) = wrapU (8 * Z.of_nat n) z.
Proof.
  unfold be_value, be_bytes. rewrite reverse_involutive, le_value_bytes.
  unfold wrapU. by rewrite pow_256_bits.
Qed.

Lemma length_be_bytes n z : length (be_bytes n z) = n.
Proof. unfold be_bytes. by rewrite length_reverse, length_le_bytes. Qed.

Lemma int_cast_range t z :
  (0 < int_bytes t)%nat -> int_range t z = true -> int_cast t z = z.
Proof.
  intros Hn. unfold int_range, int_cast, int_bits.
  destruct (int_signed t); [apply wrapS_small; lia | apply wrapU_small].
Qed.

Lemma int_cast_wrapU t z :
  (0 < int_bytes t)%nat -> int_cast t (wrapU (int_bits t) z) = int_cast t z.
Proof.
  intros Hn. unfold int_cast, int_bits.
  destruct (int_signed t); [apply wrapS_wrapU; lia|].
  apply wrapU_small, wrapU_in_U. lia.
Qed.

(** A value of the type survives the trip through its wire bytes. *)
Lemma int_cast_be_value_bytes t z :
  (0 < int_bytes t)%nat -> int_range t z = true ->
  int_cast t (be_value (be_bytes (int_bytes t) z)) = z.
Proof.
  intros Hn Hz. rewrite be_value_bytes. fold (int_bits t).
  rewrite int_cast_wrapU by done. by apply int_cast_range.
Qed.

End Endian.
