(* ===== verification/Streams.v ===== *)
(** The binary streams: [src/include/bozo/io/istream.h] and
    [src/include/bozo/io/ostream.h].

    An [istream] is the part of the buffer not read yet and the flag
    [unexpected_eof_]; its member functions read without throwing, the free
    function [read] ([read_checked]) throws [unexpected_eof] when the flag is set
    after the read.  An [ostream] is the buffer it appends to. A floating point
    number is its bit pattern, the integer [to_integral] makes of it
    ([src/include/bozo/detail/float.h]). *)

From S2P Require Import Prelude ErrorCode Errors Endian.
From Stdlib Require Import ZArith Lia List Strings.Byte.
From stdpp Require Import base tactics list.

Open Scope Z_scope.

Module Streams.

Import Endian.

Record istream := mk_istream { is_data : list byte; unexpected_eof : bool }.

Definition istream_open (data : list byte) : istream := mk_istream data false.

(** [istreambuf::read]: at most [n] bytes. *)
Definition istreambuf_read (data : list byte) (n : nat) : list byte * list byte :=
  (take n data, drop n data).

(** [istream::read(char_type*, std::streamsize)]. *)
Definition istream_read (s : istream) (n : nat) : list byte * istream :=
  let '(got, rest) := istreambuf_read (is_data s) n in
  (got, mk_istream rest (unexpected_eof s || negb (length got =? n)%nat)).

(** [istream::get]: [None] is [traits_type::eof()]. *)
Definition istream_get (s : istream) : option byte * istream :=
  let '(got, s) := istream_read s 1 in
  if unexpected_eof s then (None, s)
  else (match got with b :: _ => Some b | [] => None end, s).

(** A one byte integer: [to_char_type(get())], the end of file being -1. *)
Definition read_char (s : istream) : byte * istream :=
  let '(c, s) := istream_get s in
  (match c with Some b => b | None => xff end, s).

(** [read(bool&)]. *)
Definition read_bool (s : istream) : bool * istream :=
  let '(c, s) := read_char s in (negb (byte_val c =? 0), s).

Section Host.
Context (native : endian).

(** [read(T&)] for an integer of more than one byte.  The bytes of the buffer
    that a short read leaves untouched are indeterminate; zero stands for them,
    and [read] throws in that case. *)
Definition read_int (t : int_type) (s : istream) : Z * istream :=
  let n := int_bytes t in
  let '(got, s) := istream_read s n in
  let raw := take n (got ++ replicate n x00) in
  (int_cast t (convert_from_big_endian native n (buffer_typed native t raw)), s).

(** [write(T)] for an integer of more than one byte. *)
Definition write_int (n : nat) (out : list byte) (z : Z) : list byte :=
  out ++ buffer_raw native n (convert_to_big_endian native n z).

End Host.

(** [write(const char_type*, std::streamsize)], [put] and [write(bool)]. *)
Definition write_raw (out : list byte) (data : list byte) : list byte := out ++ data.
Definition put (out : list byte) (c : byte) : list byte := out ++ [c].
Definition write_bool (out : list byte) (b : bool) : list byte :=
  put out (if b then x01 else x00).

(** The free function [read]: throws when the stream is not good any more. *)
Definition read_checked {A} (r : A * istream) : outcome exn (A * istream) :=
  if unexpected_eof (snd r) then Throw (ex_system_error error.unexpected_eof) else Ok r.

(** ** Reading from a stream that holds enough data *)

Lemma istream_read_app bs rest :
  istream_read (istream_open (bs ++ rest)) (length bs) = (bs, istream_open rest).
Proof.
  unfold istream_read, istreambuf_read, istream_open. cbn.
  by rewrite take_app_length, drop_app_length, Nat.eqb_refl.
Qed.

Lemma istream_read_app_n bs rest n :
  length bs = n -> istream_read (istream_open (bs ++ rest)) n = (bs, istream_open rest).
Proof. intros <-. apply istream_read_app. Qed.

Lemma read_char_cons b rest :
  read_char (istream_open (b :: rest)) = (b, istream_open rest).
Proof. done. Qed.

Lemma read_bool_cons (b : bool) rest :
  read_bool (istream_open ((if b then x01 else x00) :: rest)) = (b, istream_open rest).
Proof. by destruct b. Qed.

Lemma read_int_app native t bs rest :
  length bs = int_bytes t -> (0 < int_bytes t)%nat ->
  read_int native t (istream_open (bs ++ rest)) =
  (int_cast t (be_value bs), istream_open rest).
Proof.
  intros Hl Hn. unfold read_int. rewrite istream_read_app_n by done.
  rewrite take_app_length' by done. by rewrite buffer_typed_big_endian.
Qed.

Lemma write_int_bytes native n out z : write_int native n out z = out ++ be_bytes n z.
Proof. unfold write_int. by rewrite buffer_raw_big_endian. Qed.

(** Reading what was written, whatever follows it. *)
Lemma read_int_bytes native t z rest :
  (0 < int_bytes t)%nat -> int_range t z = true ->
  read_int native t (istream_open (be_bytes (int_bytes t) z ++ rest)) = (z, istream_open rest).
Proof.
  intros Hn Hz. rewrite read_int_app by (try apply length_be_bytes; done).
  by rewrite int_cast_be_value_bytes.
Qed.

Lemma read_checked_open {A} (a : A) data :
  read_checked (a, istream_open data) = Ok (a, istream_open data).
Proof. done. Qed.

(** A stream that holds too few bytes. *)
Lemma istream_read_short s n :
  (length (is_data s) < n)%nat -> unexpected_eof (snd (istream_read s n)) = true.
Proof.
  intros Hl. unfold istream_read, istreambuf_read. cbn.
  rewrite length_take. apply orb_true_iff. right.
  apply negb_true_iff, Nat.eqb_neq. lia.
Qed.

#[export] Hint Rewrite write_int_bytes length_be_bytes : bozo.

(** An integer written on a host of one byte order and read on a host of
    another arrives unchanged, and the reader is left at the byte after it. *)
Theorem integer_wire_roundtrip writer reader t z out rest :
  (0 < int_bytes t)%nat -> int_range t z = true ->
  exists bs, write_int writer (int_bytes t) out z = out ++ bs /\
    length bs = int_bytes t /\
    read_checked (read_int reader t (istream_open (bs ++ rest))) = Ok (z, istream_open rest).
Proof.
  intros Hn Hz. exists (be_bytes (int_bytes t) z).
  rewrite write_int_bytes, length_be_bytes, read_int_bytes by done. done.
Qed.

Lemma integer_wire_roundtrip_witness :
  exists bs, write_int little 4 [] (-2) = [] ++ bs /\ length bs = 4%nat /\
    read_checked (read_int big (mk_int_type 4 true) (istream_open (bs ++ [x07]))) =
      Ok (-2, istream_open [x07]).
Proof.
  apply (integer_wire_roundtrip little big (mk_int_type 4 true) (-2) [] [x07]);
    [cbn; lia | reflexivity].
Defined.

(** Reading past the end of the data throws [unexpected_eof]: an integer for
    which fewer bytes are left than its width is never delivered. *)
Theorem short_integer_throws native t s :
  (length (is_data s) < int_bytes t)%nat ->
  read_checked (read_int native t s) = Throw (ex_system_error error.unexpected_eof).
Proof.
  intros Hl. unfold read_checked, read_int.
  pose proof (istream_read_short s _ Hl) as He.
  destruct (istream_read s (int_bytes t)) as [got s']. cbn in *. by rewrite He.
Qed.

Lemma short_integer_throws_witness :
  read_checked (read_int little (mk_int_type 4 true) (istream_open [x00; x01])) =
  Throw (ex_system_error error.unexpected_eof).
Proof.
  apply (short_integer_throws little (mk_int_type 4 true) (istream_open [x00; x01])).
  cbn. lia.
Defined.

End Streams.
