(* ===== verification/PgTypes.v ===== *)
(** The table of the built-in PostgreSQL types:
    [src/include/bozo/pg/definitions.h], which is generated from the catalogue of
    PostgreSQL.

    Each specialization of [bozo::pg::type_definition] is a row: the name, the
    OID, the OID of the array of the type when there is one, and the size.  A
    size is [bytes n] or [dynamic_size]; the pseudo-type [null] has the size
    [null_state_size]. *)

From S2P Require Import Prelude.
From Stdlib Require Import ZArith Lia List String.
From stdpp Require Import base tactics list strings.

Open Scope string_scope.
Open Scope Z_scope.

Module PgTypes.

(** [bozo::size_constant]: [bytes<n>], [dynamic_size] (a type of its own, although
    its value is that of [null_state_size]), and [null_state_size]. *)
Inductive size_constant : Set :=
| bytes (n : Z)
| dynamic_size
| null_size.

#[global] Instance size_constant_eq_dec : EqDecision size_constant.
Proof. solve_decision. Defined.

Definition null_oid : Z := 0.
Definition null_state_size : Z := -1.

(** The value of the constant. *)
Definition size_value (s : size_constant) : Z :=
  match s with bytes n => n | dynamic_size => -1 | null_size => null_state_size end.

Record type_definition := mk_type_definition {
  td_name : string;
  td_oid : Z;
  td_array_oid : option Z;
  td_size : size_constant;
}.

(** The pseudo-type of [nullptr] and [nullopt]. *)
Definition null_definition : type_definition :=
  mk_type_definition "null" null_oid None null_size.

Definition types_aclitem_daterange : list type_definition :=
  [
   mk_type_definition "aclitem" 1033 (Some 1034) (bytes 12);
   mk_type_definition "any" 2276 (None) (bytes 4);
   mk_type_definition "anyarray" 2277 (None) dynamic_size;
   mk_type_definition "anyelement" 2283 (None) (bytes 4);
   mk_type_definition "anyenum" 3500 (None) (bytes 4);
   mk_type_definition "anynonarray" 2776 (None) (bytes 4);
   mk_type_definition "anyrange" 3831 (None) dynamic_size;
   mk_type_definition "bit" 1560 (Some 1561) dynamic_size;
   mk_type_definition "bool" 16 (Some 1000) (bytes 1);
   mk_type_definition "box" 603 (Some 1020) (bytes 32);
   mk_type_definition "bpchar" 1042 (Some 1014) dynamic_size;
   mk_type_definition "bytea" 17 (Some 1001) dynamic_size;
   mk_type_definition "char" 18 (Some 1002) (bytes 1);
   mk_type_definition "cid" 29 (Some 1012) (bytes 4);
   mk_type_definition "cidr" 650 (Some 651) dynamic_size;
   mk_type_definition "circle" 718 (Some 719) (bytes 24);
   mk_type_definition "cstring" 2275 (Some 1263) dynamic_size;
   mk_type_definition "date" 1082 (Some 1182) (bytes 4);
   mk_type_definition "daterange" 3912 (Some 3913) dynamic_size].

Definition types_event_trigger_language_handler : list type_definition :=
  [
   mk_type_definition "event_trigger" 3838 (None) (bytes 4);
   mk_type_definition "fdw_handler" 3115 (None) (bytes 4);
   mk_type_definition "float4" 700 (Some 1021) (bytes 4);
   mk_type_definition "float8" 701 (Some 1022) (bytes 8);
   mk_type_definition "gtsvector" 3642 (Some 3644) dynamic_size;
   mk_type_definition "index_am_handler" 325 (None) (bytes 4);
   mk_type_definition "inet" 869 (Some 1041) dynamic_size;
   mk_type_definition "int2" 21 (Some 1005) (bytes 2);
   mk_type_definition "int2vector" 22 (Some 1006) dynamic_size;
   mk_type_definition "int4" 23 (Some 1007) (bytes 4);
   mk_type_definition "int4range" 3904 (Some 3905) dynamic_size;
   mk_type_definition "int8" 20 (Some 1016) (bytes 8);
   mk_type_definition "int8range" 3926 (Some 3927) dynamic_size;
   mk_type_definition "interval" 1186 (Some 1187) (bytes 16);
   mk_type_definition "json" 114 (Some 199) dynamic_size;
   mk_type_definition "jsonb" 3802 (Some 3807) dynamic_size;
   mk_type_definition "jsonpath" 4072 (Some 4073) dynamic_size;
   mk_type_definition "language_handler" 2280 (None) (bytes 4)].

Definition types_line_pg_node_tree : list type_definition :=
  [
   mk_type_definition "line" 628 (Some 629) (bytes 24);
   mk_type_definition "lseg" 601 (Some 1018) (bytes 32);
   mk_type_definition "macaddr" 829 (Some 1040) (bytes 6);
   mk_type_definition "macaddr8" 774 (Some 775) (bytes 8);
   mk_type_definition "money" 790 (Some 791) (bytes 8);
   mk_type_definition "name" 19 (Some 1003) dynamic_size;
   mk_type_definition "numeric" 1700 (Some 1231) dynamic_size;
   mk_type_definition "numrange" 3906 (Some 3907) dynamic_size;
   mk_type_definition "oid" 26 (Some 1028) (bytes 4);
   mk_type_definition "oidvector" 30 (Some 1013) dynamic_size;
   mk_type_definition "opaque" 2282 (None) (bytes 4);
   mk_type_definition "path" 602 (Some 1019) dynamic_size;
   mk_type_definition "pg_attribute" 75 (None) dynamic_size;
   mk_type_definition "pg_class" 83 (None) dynamic_size;
   mk_type_definition "pg_dependencies" 3402 (None) dynamic_size;
   mk_type_definition "pg_lsn" 3220 (Some 3221) (bytes 8);
   mk_type_definition "pg_mcv_list" 5017 (None) dynamic_size;
   mk_type_definition "pg_ndistinct" 3361 (None) dynamic_size;
   mk_type_definition "pg_node_tree" 194 (None) dynamic_size].

Definition types_pg_proc_tid : list type_definition :=
  [
   mk_type_definition "pg_proc" 81 (None) dynamic_size;
   mk_type_definition "pg_type" 71 (None) dynamic_size;
   mk_type_definition "point" 600 (Some 1017) (bytes 16);
   mk_type_definition "polygon" 604 (Some 1027) dynamic_size;
   mk_type_definition "record" 2249 (None) dynamic_size;
   mk_type_definition "refcursor" 1790 (Some 2201) dynamic_size;
   mk_type_definition "regclass" 2205 (Some 2210) (bytes 4);
   mk_type_definition "regconfig" 3734 (Some 3735) (bytes 4);
   mk_type_definition "regdictionary" 3769 (Some 3770) (bytes 4);
   mk_type_definition "regnamespace" 4089 (Some 4090) (bytes 4);
   mk_type_definition "regoper" 2203 (Some 2208) (bytes 4);
   mk_type_definition "regoperator" 2204 (Some 2209) (bytes 4);
   mk_type_definition "regproc" 24 (Some 1008) (bytes 4);
   mk_type_definition "regprocedure" 2202 (Some 2207) (bytes 4);
   mk_type_definition "regrole" 4096 (Some 4097) (bytes 4);
   mk_type_definition "regtype" 2206 (Some 2211) (bytes 4);
   mk_type_definition "table_am_handler" 269 (None) (bytes 4);
   mk_type_definition "text" 25 (Some 1009) dynamic_size;
   mk_type_definition "tid" 27 (Some 1010) (bytes 6)].

Definition types_time_xml : list type_definition :=
  [
   mk_type_definition "time" 1083 (Some 1183) (bytes 8);
   mk_type_definition "timestamp" 1114 (Some 1115) (bytes 8);
   mk_type_definition "timestamptz" 1184 (Some 1185) (bytes 8);
   mk_type_definition "timetz" 1266 (Some 1270) (bytes 12);
   mk_type_definition "trigger" 2279 (None) (bytes 4);
   mk_type_definition "tsm_handler" 3310 (None) (bytes 4);
   mk_type_definition "tsquery" 3615 (Some 3645) dynamic_size;
   mk_type_definition "tsrange" 3908 (Some 3909) dynamic_size;
   mk_type_definition "tstzrange" 3910 (Some 3911) dynamic_size;
   mk_type_definition "tsvector" 3614 (Some 3643) dynamic_size;
   mk_type_definition "txid_snapshot" 2970 (Some 2949) dynamic_size;
   mk_type_definition "unknown" 705 (None) dynamic_size;
   mk_type_definition "uuid" 2950 (Some 2951) (bytes 16);
   mk_type_definition "varbit" 1562 (Some 1563) dynamic_size;
   mk_type_definition "varchar" 1043 (Some 1015) dynamic_size;
   mk_type_definition "void" 2278 (None) (bytes 4);
   mk_type_definition "xid" 28 (Some 1011) (bytes 4);
   mk_type_definition "xml" 142 (Some 143) dynamic_size].

Definition builtin_types : list type_definition :=
  (null_definition :: types_aclitem_daterange ++ types_event_trigger_language_handler ++ types_line_pg_node_tree ++ types_pg_proc_tid ++ types_time_xml)%list.

(** [type_definition<Name>]. *)
Definition find_type (name : string) : option type_definition :=
  List.find (fun d => String.eqb (td_name d) name) builtin_types.

(** [array_definition<Name>]: the specialization for [record], then the general
    one for the types that have an [array_oid]. *)
Record array_definition := mk_array_definition {
  ad_name : string;
  ad_oid : Z;
}.

Definition record_array_definition : array_definition := mk_array_definition "_record" 2287.

Definition find_array (name : string) : option array_definition :=
  if String.eqb name "record" then Some record_array_definition
  else d ← find_type name;
       o ← td_array_oid d;
       Some (mk_array_definition (td_name d ++ "[]") o).

(** ** The table has no collisions *)

(** The OIDs of the types and of the arrays of types, each with the name that
    carries it. *)
Definition all_oids : list (Z * string) :=
  ((fun d => (td_oid d, td_name d)) <$> builtin_types) ++
  omap (fun d => o ← td_array_oid d; Some (o, td_name d ++ "[]")) builtin_types.

Lemma find_type_in d :
  In d builtin_types -> find_type (td_name d) = Some d.
Proof.
  assert (forallb (fun d => match find_type (td_name d) with
    | Some e => String.eqb (td_name e) (td_name d) && (td_oid e =? td_oid d) &&
                bool_decide (td_array_oid e = td_array_oid d) &&
                bool_decide (td_size e = td_size d)
    | None => false end) builtin_types = true) as H by (vm_compute; reflexivity).
  rewrite forallb_forall in H. intros Hin. specialize (H d Hin).
  destruct (find_type (td_name d)) as [e|]; [|discriminate].
  rewrite !andb_true_iff, !bool_decide_eq_true, String.eqb_eq, Z.eqb_eq in H.
  destruct d, e; cbn in *. naive_solver.
Qed.

Lemma all_oids_nodup : NoDup (fst <$> all_oids).
Proof. apply (bool_decide_unpack _). vm_compute. exact I. Qed.

Lemma find_type_some name d : find_type name = Some d -> In d builtin_types /\ td_name d = name.
Proof. intros H. apply find_some in H as [Hin Hn]. by apply String.eqb_eq in Hn. Qed.

Lemma all_oids_type d : In d builtin_types -> (td_oid d, td_name d) ∈ all_oids.
Proof.
  intros Hin. unfold all_oids. apply elem_of_app. left.
  apply list_elem_of_fmap. exists d. split; [done|]. by apply list_elem_of_In.
Qed.

Lemma all_oids_array d o :
  In d builtin_types -> td_array_oid d = Some o -> (o, td_name d ++ "[]") ∈ all_oids.
Proof.
  intros Hin Ho. unfold all_oids. apply elem_of_app. right.
  apply list_elem_of_omap. exists d. rewrite Ho. split; [by apply list_elem_of_In | done].
Qed.

Lemma all_oids_inj o n m : (o, n) ∈ all_oids -> (o, m) ∈ all_oids -> n = m.
Proof.
  pose proof all_oids_nodup as Hd. revert Hd. generalize all_oids as l.
  induction l as [|[x y] l IH]; intros Hd Hn Hm; [by apply not_elem_of_nil in Hn|].
  cbn in Hd. apply NoDup_cons in Hd as [Hx Hd].
  assert (forall z, (x, z) ∉ l) as Hnot.
  { intros z Hz. apply Hx. apply list_elem_of_fmap. by exists (x, z). }
  apply elem_of_cons in Hn as [Hn|Hn]; apply elem_of_cons in Hm as [Hm|Hm]; simplify_eq; auto.
  - by destruct (Hnot m).
  - by destruct (Hnot n).
Qed.

(** An OID identifies its type: no two rows of the table share the OID of a
    type or of an array, and none is used for both. *)
Theorem builtin_oids_unambiguous n m d e :
  find_type n = Some d -> find_type m = Some e ->
  (td_oid d = td_oid e -> n = m) /\
  (forall o, td_array_oid d = Some o -> td_array_oid e = Some o -> n = m) /\
  (forall o, td_array_oid d = Some o -> o <> td_oid e).
Proof.
  intros Hd He. apply find_type_some in Hd as [Hd <-]. apply find_type_some in He as [He <-].
  split; [|split].
  - intros Ho. eapply all_oids_inj; [by apply all_oids_type|]. rewrite Ho. by apply all_oids_type.
  - intros o Hod Hoe.
    assert (td_name d ++ "[]" = td_name e ++ "[]") as H
      by (eapply all_oids_inj; by apply all_oids_array).
    by apply append_inj_l in H.
  - intros o Hod ->. pose proof (all_oids_array d _ Hd Hod) as Ha.
    pose proof (all_oids_type e He) as Ht. pose proof (all_oids_inj _ _ _ Ha Ht) as Hn.
    assert (forallb (fun d => negb (existsb (fun e => String.eqb (td_name d ++ "[]") (td_name e))
      builtin_types)) builtin_types = true) as H by (vm_compute; reflexivity).
    rewrite forallb_forall in H. specialize (H d Hd). apply negb_true_iff in H.
    rewrite <- not_true_iff_false, existsb_exists in H. apply H. exists e.
    by rewrite String.eqb_eq.
Qed.

Lemma builtin_oids_unambiguous_witness :
  exists d e, find_type "int4" = Some d /\ find_type "text" = Some e /\
  (td_oid d = td_oid e -> "int4" = "text") /\
  (forall o, td_array_oid d = Some o -> td_array_oid e = Some o -> "int4" = "text") /\
  (forall o, td_array_oid d = Some o -> o <> td_oid e).
Proof.
  eexists _, _. split; [reflexivity|]. split; [reflexivity|].
  apply (builtin_oids_unambiguous "int4" "text"); reflexivity.
Defined.

End PgTypes.
