(* ===== verification/TypeSystem.v ===== *)
(** The type system: [src/include/bozo/type_traits.h], the bindings of
    [src/include/bozo/pg/types/] and [src/include/bozo/ext/], and the
    traits of nullables ([src/include/bozo/core/nullable.h],
    [src/include/bozo/core/unwrap.h]).

    A C++ type that can be sent or received is a term of [ctype]; the templates
    that compute its PostgreSQL definition are functions on these terms.  Where a
    template specialization does not exist and the program would not compile,
    the function gives [None]. *)

From S2P Require Import Prelude PgTypes.
From Stdlib Require Import ZArith Lia List String.
From stdpp Require Import base tactics list strings.

Open Scope string_scope.
Open Scope Z_scope.

Module TypeSystem.

Import PgTypes.

(** ** C++ types *)

(** The types bound to a PostgreSQL type by name. *)
Inductive prim : Set :=
| p_bool | p_char | p_int2 | p_int4 | p_int8 | p_oid | p_float4 | p_float8
| p_text | p_bytea | p_json | p_name | p_jsonb | p_ltree | p_uuid
| p_timestamp | p_interval.

#[global] Instance prim_eq_dec : EqDecision prim.
Proof. solve_decision. Defined.

(** The nullable wrappers: [is_nullable] is true of them and [unwrap]
    dereferences. *)
Inductive nullable_kind : Set :=
| std_optional | std_unique_ptr | std_shared_ptr | std_weak_ptr
| boost_optional | boost_scoped_ptr | boost_shared_ptr | boost_weak_ptr.

#[global] Instance nullable_kind_eq_dec : EqDecision nullable_kind.
Proof. solve_decision. Defined.

(** The containers for which [is_array] is true. *)
Inductive container : Set :=
| std_vector
| std_list
| std_array (n : nat).

#[global] Instance container_eq_dec : EqDecision container.
Proof. solve_decision. Defined.

(** [c_null] is [std::nullptr_t] or [std::nullopt_t], [c_tuple] one of
    [std::tuple], [std::pair] and [boost::tuple], [c_struct] a structure adapted
    with Hana or Fusion and named with [BOZO_PG_DEFINE_CUSTOM_TYPE]. *)
Inductive ctype : Set :=
| c_prim (p : prim)
| c_null
| c_nullable (k : nullable_kind) (t : ctype)
| c_array (c : container) (t : ctype)
| c_tuple (ts : list ctype)
| c_struct (name : string) (size : size_constant) (ts : list ctype).

Section CtypeInd.
Variable P : ctype -> Prop.
Hypothesis Hprim : forall p, P (c_prim p).
Hypothesis Hnull : P c_null.
Hypothesis Hnullable : forall k t, P t -> P (c_nullable k t).
Hypothesis Harray : forall c t, P t -> P (c_array c t).
Hypothesis Htuple : forall ts, Forall P ts -> P (c_tuple ts).
Hypothesis Hstruct : forall n s ts, Forall P ts -> P (c_struct n s ts).

(** Induction with a hypothesis for every member of a composite. *)
Fixpoint ctype_nested_ind (t : ctype) : P t :=
  let members := fix go (ts : list ctype) : Forall P ts :=
    match ts with
    | [] => @List.Forall_nil ctype P
    | t :: ts => @List.Forall_cons ctype P t ts (ctype_nested_ind t) (go ts)
    end in
  match t with
  | c_prim p => Hprim p
  | c_null => Hnull
  | c_nullable k t => Hnullable k t (ctype_nested_ind t)
  | c_array c t => Harray c t (ctype_nested_ind t)
  | c_tuple ts => Htuple ts (members ts)
  | c_struct n s ts => Hstruct n s ts (members ts)
  end.
End CtypeInd.

Fixpoint ctype_dec (a b : ctype) {struct a} : {a = b} + {a <> b}.
Proof.
  assert (lst : forall xs ys : list ctype, {xs = ys} + {xs <> ys}).
  { fix lst 1. intros [|x xs] [|y ys]; [by left | by right | by right |].
    destruct (ctype_dec x y) as [->|H]; [|right; congruence].
    destruct (lst xs ys) as [->|H]; [by left | right; congruence]. }
  destruct a as [p| |k t|c t|ts|n s ts], b as [p'| |k' t'|c' t'|ts'|n' s' ts'];
    try (right; discriminate).
  - destruct (decide (p = p')) as [->|H]; [by left | right; congruence].
  - by left.
  - destruct (decide (k = k')) as [->|H]; [|right; congruence].
    destruct (ctype_dec t t') as [->|H]; [by left | right; congruence].
  - destruct (decide (c = c')) as [->|H]; [|right; congruence].
    destruct (ctype_dec t t') as [->|H]; [by left | right; congruence].
  - destruct (lst ts ts') as [->|H]; [by left | right; congruence].
  - destruct (decide (n = n')) as [->|H]; [|right; congruence].
    destruct (decide (s = s')) as [->|H]; [|right; congruence].
    destruct (lst ts ts') as [->|H]; [by left | right; congruence].
Defined.

#[global] Instance ctype_eq_dec : EqDecision ctype := ctype_dec.

(** ** Nullables *)

(** [Nullable<T>]. *)
Definition is_nullable (t : ctype) : bool :=
  match t with c_nullable _ _ | c_null => true | _ => false end.

(** [unwrap_type<T>]: one level of wrapping is taken off. *)
Definition unwrap_type (t : ctype) : ctype :=
  match t with c_nullable _ t => t | t => t end.

(** [allocate_nullable_impl<T>] exists: [emplace] for the optionals, an
    allocation for the owning pointers, nothing for the weak ones. *)
Definition allocatable (k : nullable_kind) : bool :=
  match k with std_weak_ptr | boost_weak_ptr => false | _ => true end.

(** ** Definitions of types *)

(** The PostgreSQL type a C++ type is bound to with [BOZO_PG_BIND_TYPE]
    ([ltree] is a custom type, [interval] is defined by hand). *)
Definition pg_name (p : prim) : string :=
  match p with
  | p_bool => "bool" | p_char => "char" | p_int2 => "int2" | p_int4 => "int4"
  | p_int8 => "int8" | p_oid => "oid" | p_float4 => "float4" | p_float8 => "float8"
  | p_text => "text" | p_bytea => "bytea" | p_json => "json" | p_name => "name"
  | p_jsonb => "jsonb" | p_ltree => "ltree" | p_uuid => "uuid"
  | p_timestamp => "timestamp" | p_interval => "interval"
  end.

(** A specialization of [definitions::type] or [definitions::array]: the OID is
    [None] when it is [void], that is for a custom type. *)
Record traits := mk_traits {
  tr_name : string;
  tr_oid : option Z;
  tr_size : size_constant;
}.

(** [BOZO_PG_DEFINE_CUSTOM_TYPE(Type, Name, Size)]: the type and its array. *)
Definition custom_type (name : string) (size : size_constant) : traits :=
  mk_traits name None size.

Definition custom_array (name : string) : traits :=
  mk_traits (name ++ "[]") None dynamic_size.

(** [BOZO_PG_BIND_TYPE(CppType, PgTypeName)]. *)
Definition bind_type (name : string) : option traits :=
  d ← find_type name; Some (mk_traits (td_name d) (Some (td_oid d)) (td_size d)).

Definition bind_array (name : string) : option traits :=
  d ← find_array name; Some (mk_traits (ad_name d) (Some (ad_oid d)) dynamic_size).

(** [definitions::type<T>]. *)
Definition definitions_type (t : ctype) : option traits :=
  match t with
  | c_prim p_ltree => Some (custom_type "ltree" dynamic_size)
  | c_prim p => bind_type (pg_name p)
  | c_null => bind_type "null"
  | c_tuple _ => bind_type "record"
  | c_struct name size _ => Some (custom_type name size)
  | c_nullable _ _ | c_array _ _ => None
  end.

(** [definitions::array<T>]: the interval has no array specialization. *)
Definition definitions_array (t : ctype) : option traits :=
  match t with
  | c_prim p_ltree => Some (custom_array "ltree")
  | c_prim p_interval => None
  | c_prim p => bind_array (pg_name p)
  | c_null => bind_array "null"
  | c_tuple _ => bind_array "record"
  | c_struct name _ _ => Some (custom_array name)
  | c_nullable _ _ | c_array _ _ => None
  end.

(** [get_type_traits], that is [type_traits<T>]. *)
Definition type_traits (t : ctype) : option traits :=
  match unwrap_type t with
  | c_array _ item => definitions_array (unwrap_type item)
  | u => definitions_type u
  end.

(** [HasDefinition<T>], [BuiltIn<T>], [DynamicSize<T>] and [StaticSize<T>]. *)
Definition has_definition (t : ctype) : bool :=
  match type_traits t with Some _ => true | None => false end.

Definition built_in (t : ctype) : bool :=
  match type_traits t with
  | Some tr => match tr_oid tr with Some _ => true | None => false end
  | None => false
  end.

Definition is_dynamic_size (t : ctype) : bool :=
  match type_traits t with
  | Some tr => bool_decide (tr_size tr = dynamic_size)
  | None => false
  end.

Definition is_static_size (t : ctype) : bool := negb (is_dynamic_size t).

(** [type_name<T>()]. *)
Definition type_name (t : ctype) : option string := tr_name <$> type_traits t.

(** ** The OID map *)

(** [oid_map_t<Ts...>]: a Hana map from types to OIDs, in the order the types
    were registered. *)
Definition oid_map := list (ctype * Z).

Definition register_types (ts : list ctype) : oid_map := (fun t => (t, null_oid)) <$> ts.

Definition find_oid (m : oid_map) (key : ctype) : option Z :=
  snd <$> List.find (fun e => bool_decide (fst e = key)) m.

(** [set_type_oid<T>(map, oid)]: the key is registered. *)
Fixpoint set_type_oid (m : oid_map) (key : ctype) (oid : Z) : oid_map :=
  match m with
  | [] => []
  | (t, o) :: m => if decide (t = key) then (t, oid) :: m
                   else (t, o) :: set_type_oid m key oid
  end.

(** [type_oid<T>(map)]: a constant for a built-in type, the map's entry of the
    unwrapped type otherwise.  A type that is not registered is refused at
    compile time; the null OID stands for it. *)
Definition type_oid (m : oid_map) (t : ctype) : Z :=
  match type_traits t with
  | Some (mk_traits _ (Some oid) _) => oid
  | _ => match find_oid m (unwrap_type t) with Some oid => oid | None => null_oid end
  end.

(** [accepts_oid<T>(map, oid)]. *)
Definition accepts_oid (m : oid_map) (t : ctype) (oid : Z) : bool := type_oid m t =? oid.

(** [empty(map)]. *)
Definition oid_map_empty (m : oid_map) : bool := (length m =? 0)%nat.

(** ** Lemmas on the map *)

Lemma find_oid_set_eq m key oid :
  key ∈ m.*1 -> find_oid (set_type_oid m key oid) key = Some oid.
Proof.
  unfold find_oid. induction m as [|[t o] m IH]; [by intros ?%not_elem_of_nil|].
  intros Hin. cbn [set_type_oid]. case_decide as Hd; cbn [List.find fst].
  - by rewrite bool_decide_eq_true_2.
  - rewrite bool_decide_eq_false_2 by done. apply IH.
    cbn in Hin. apply elem_of_cons in Hin as [->|Hin]; done.
Qed.

Lemma find_oid_set_ne m key key' oid :
  key <> key' -> find_oid (set_type_oid m key oid) key' = find_oid m key'.
Proof.
  intros Hne. unfold find_oid. induction m as [|[t o] m IH]; [done|].
  cbn [set_type_oid]. case_decide as Hd; cbn [List.find fst].
  - subst. by rewrite !bool_decide_eq_false_2.
  - case_bool_decide; [done | apply IH].
Qed.

Lemma set_type_oid_keys m key oid : (set_type_oid m key oid).*1 = m.*1.
Proof.
  induction m as [|[t o] m IH]; [done|]. cbn. case_decide; cbn; [done|]. by rewrite IH.
Qed.

(** The OIDs of a map are values of the unsigned 32-bit type [Oid]. *)
Definition oid_map_ok (m : oid_map) : bool := forallb (fun e => in_U 32 (snd e)) m.

Lemma builtin_oids_in_range :
  forallb (fun d => in_U 32 (td_oid d) &&
    match td_array_oid d with Some o => in_U 32 o | None => true end) builtin_types = true.
Proof. vm_compute. reflexivity. Qed.

Lemma bind_type_range n tr o : bind_type n = Some tr -> tr_oid tr = Some o -> in_U 32 o = true.
Proof.
  unfold bind_type. destruct (find_type n) as [d|] eqn:Hf; [|discriminate].
  intros [= <-] [= <-]. apply find_type_some in Hf as [Hin _].
  pose proof builtin_oids_in_range as H. rewrite forallb_forall in H.
  specialize (H d Hin). by bool_props.
Qed.

Lemma bind_array_range n tr o :
  bind_array n = Some tr -> tr_oid tr = Some o -> in_U 32 o = true.
Proof.
  unfold bind_array, find_array. destruct (String.eqb n "record").
  - by intros [= <-] [= <-].
  - destruct (find_type n) as [d|] eqn:Hf; [|discriminate]. cbn.
    destruct (td_array_oid d) as [a|] eqn:Ha; [|discriminate]. cbn.
    intros [= <-] [= <-]. apply find_type_some in Hf as [Hin _].
    pose proof builtin_oids_in_range as H. rewrite forallb_forall in H.
    specialize (H d Hin). rewrite Ha in H. by bool_props.
Qed.

Lemma definitions_type_range t tr o :
  definitions_type t = Some tr -> tr_oid tr = Some o -> in_U 32 o = true.
Proof.
  intros Ht Ho. destruct t as [[]| | | | |]; cbn [definitions_type] in Ht;
    first [ discriminate | exact (bind_type_range _ _ _ Ht Ho) | injection Ht as <-; discriminate ].
Qed.

Lemma definitions_array_range t tr o :
  definitions_array t = Some tr -> tr_oid tr = Some o -> in_U 32 o = true.
Proof.
  intros Ht Ho. destruct t as [[]| | | | |]; cbn [definitions_array] in Ht;
    first [ discriminate | exact (bind_array_range _ _ _ Ht Ho) | injection Ht as <-; discriminate ].
Qed.

Lemma type_traits_range t tr o :
  type_traits t = Some tr -> tr_oid tr = Some o -> in_U 32 o = true.
Proof.
  unfold type_traits. intros Ht Ho.
  destruct (unwrap_type t); 
    first [ exact (definitions_array_range _ _ _ Ht Ho) | exact (definitions_type_range _ _ _ Ht Ho) ].
Qed.

Lemma find_oid_in m key oid : find_oid m key = Some oid -> (key, oid) ∈ m.
Proof.
  unfold find_oid. destruct (List.find _ m) as [[k o]|] eqn:Hf; [|discriminate].
  intros [= <-]. apply find_some in Hf as [Hin Hk]. cbn in Hk.
  apply bool_decide_eq_true in Hk as ->. by apply list_elem_of_In.
Qed.

Lemma type_oid_range m t : oid_map_ok m = true -> in_U 32 (type_oid m t) = true.
Proof.
  intros Hm. unfold type_oid.
  assert (in_U 32 (match find_oid m (unwrap_type t) with Some o => o | None => null_oid end)
    = true) as Hfind.
  { destruct (find_oid m (unwrap_type t)) as [o|] eqn:Hf; [|done].
    apply find_oid_in, list_elem_of_In in Hf. unfold oid_map_ok in Hm.
    rewrite forallb_forall in Hm. exact (Hm _ Hf). }
  destruct (type_traits t) as [[n [o|] s]|] eqn:Ht; [|done|done].
  by eapply type_traits_range.
Qed.

(** The OID of a type set in the map is the OID later requests use for it,
    and setting it changes the OID of no other type; built-in types ignore the
    map. *)
Theorem type_oid_set m key oid t :
  key ∈ m.*1 -> built_in key = false -> unwrap_type key = key ->
  type_oid (set_type_oid m key oid) key = oid /\
  (unwrap_type t <> key -> type_oid (set_type_oid m key oid) t = type_oid m t) /\
  (built_in t = true -> forall m', type_oid m t = type_oid m' t).
Proof.
  intros Hin Hb Hu. unfold type_oid, built_in in *. split; [|split].
  - rewrite Hu. destruct (type_traits key) as [[n [o|] s]|]; try discriminate;
      by rewrite find_oid_set_eq.
  - intros Hne. rewrite find_oid_set_ne by congruence. done.
  - destruct (type_traits t) as [[n [o|] s]|]; try discriminate. done.
Qed.

Lemma type_oid_set_witness :
  let key := c_struct "code.message" dynamic_size [c_prim p_int8] in
  let m := register_types [key; c_prim p_ltree] in
  type_oid (set_type_oid m key 16400) key = 16400 /\
  (unwrap_type (c_prim p_ltree) <> key ->
     type_oid (set_type_oid m key 16400) (c_prim p_ltree) = type_oid m (c_prim p_ltree)) /\
  (built_in (c_prim p_ltree) = true ->
     forall m', type_oid m (c_prim p_ltree) = type_oid m' (c_prim p_ltree)).
Proof.
  apply (type_oid_set (register_types [c_struct "code.message" dynamic_size [c_prim p_int8];
           c_prim p_ltree]) (c_struct "code.message" dynamic_size [c_prim p_int8]) 16400);
    [left | reflexivity | reflexivity].
Defined.

End TypeSystem.
