(* ===== verification/Chrono.v ===== *)
(** Durations and time points: [src/include/bozo/ext/std/duration.h],
    [src/include/bozo/ext/std/time_point.h] and [src/include/bozo/detail/epoch.h].

    The arithmetic of [std::chrono] is that of its representation types.  Signed
    overflow has no defined result, so each addition, subtraction and product of
    64-bit counts is partial ([add64], [sub64], [mul64]), and [None] is undefined
    behaviour.  Division and remainder truncate towards zero. *)

From S2P Require Import Prelude.
From Stdlib Require Import ZArith Lia List.
From stdpp Require Import base tactics list.

Open Scope Z_scope.

Module Chrono.

Definition add64 (a b : Z) : option Z := checkS 64 (a + b).
Definition sub64 (a b : Z) : option Z := checkS 64 (a - b).
Definition mul64 (a b : Z) : option Z := checkS 64 (a * b).

(** ** Intervals *)

(** [detail::pg_interval]. *)
Record pg_interval := mk_pg_interval {
  iv_microseconds : Z;
  iv_days : Z;
  iv_months : Z;
}.

Definition interval_ok (i : pg_interval) : bool :=
  in_S 64 (iv_microseconds i) && in_S 32 (iv_days i) && in_S 32 (iv_months i).

(** Microseconds of a day. *)
Definition day : Z := 86400000000.

Definition from_chrono_duration (us : Z) : pg_interval :=
  mk_pg_interval (Z.rem us day) (wrapS 32 (Z.quot us day)) 0.

(** [duration_cast<days>] of the least and the greatest [microseconds]. *)
Definition min_days : Z := Z.quot INT64_MIN day.
Definition max_days : Z := Z.quot INT64_MAX day.

(** [a + b] for [a] in days and [b] in microseconds. *)
Definition add_days (a b : Z) : option Z := x ← mul64 a day; add64 x b.

Definition to_chrono_duration (i : pg_interval) : option Z :=
  let usecs_surplus := Z.rem (iv_microseconds i) day in
  months_days ← mul64 (iv_months i) 30;
  sum ← add64 months_days (iv_days i);
  days_total ← add64 sum (Z.quot (iv_microseconds i) day);
  if days_total <? min_days - 1 then Some INT64_MIN else
  below ← (if days_total <? 0 then
             d ← add64 days_total 1; lhs ← add_days d usecs_surplus;
             rhs ← add64 INT64_MIN day; Some (lhs <? rhs)
           else Some false);
  if (below : bool) then Some INT64_MIN else
  if max_days + 1 <? days_total then Some INT64_MAX else
  above ← (if 0 <? days_total then
             lhs ← sub64 INT64_MAX day; d ← sub64 days_total 1;
             rhs ← add_days d usecs_surplus; Some (lhs <? rhs)
           else Some false);
  if (above : bool) then Some INT64_MAX else
  add_days days_total usecs_surplus.

(** ** Time points *)

Section TimePoint.
(** Ticks of [system_clock] per microsecond: 1000 where the clock counts
    nanoseconds, 1 where it counts microseconds. *)
Context (ticks : Z).

(** [detail::epoch]: 10957 days after the epoch of the clock. *)
Definition epoch : Z := 10957 * day * ticks.

(** [send_impl<time_point>]: [duration_cast<microseconds>(in - epoch)]. *)
Definition time_point_to_wire (t : Z) : option Z :=
  d ← sub64 t epoch; Some (Z.quot d ticks).

(** [recv_impl<time_point>]: [epoch + microseconds{value}]. *)
Definition time_point_of_wire (v : Z) : option Z :=
  d ← mul64 v ticks; add64 epoch d.
End TimePoint.

(** ** Truncating division *)

Lemma quot_rem_day z :
  z = day * Z.quot z day + Z.rem z day /\
  (0 <= z -> 0 <= Z.rem z day < day) /\ (z <= 0 -> - day < Z.rem z day <= 0).
Proof.
  unfold day. split; [apply Z.quot_rem'|]. split; intros.
  - apply Z.rem_bound_pos; lia.
  - pose proof (Z.rem_bound_pos (- z) 86400000000) as H1.
    rewrite Z.rem_opp_l in H1 by lia. lia.
Qed.

Lemma in_S64_iff z : in_S 64 z = true <-> INT64_MIN <= z <= INT64_MAX.
Proof. rewrite in_S_iff. unfold INT64_MIN, INT64_MAX. change (2 ^ (64 - 1)) with 9223372036854775808. lia. Qed.

Lemma in_S32_iff z : in_S 32 z = true <-> -2147483648 <= z <= INT32_MAX.
Proof. rewrite in_S_iff. unfold INT32_MAX. change (2 ^ (32 - 1)) with 2147483648. lia. Qed.

Lemma checkS64_cases z :
  (INT64_MIN <= z <= INT64_MAX /\ checkS 64 z = Some z) \/
  (~ (INT64_MIN <= z <= INT64_MAX) /\ checkS 64 z = None).
Proof.
  unfold checkS. destruct (in_S 64 z) eqn:H; [left|right].
  - by apply in_S64_iff in H.
  - split; [|done]. rewrite <- in_S64_iff. by rewrite H.
Qed.

(** Split every checked operation of the goal into the case where it fits and
    the case where it overflows, discarding the impossible one. *)
Ltac chrono_step :=
  match goal with
  | |- context [checkS 64 ?z] =>
      let H := fresh "Hc" in let E := fresh "Ec" in
      destruct (checkS64_cases z) as [[H E]|[H E]]; rewrite E; clear E;
      unfold INT64_MIN, INT64_MAX in H; cbn [mbind option_bind];
      [try (exfalso; lia) | try (exfalso; lia)]
  end.

Ltac chrono_test :=
  match goal with
  | |- context [?a <? ?b] => destruct (Z.ltb_spec a b); [try (exfalso; lia) | try (exfalso; lia)]
  | |- context [?a <=? ?b] => destruct (Z.leb_spec a b); [try (exfalso; lia) | try (exfalso; lia)]
  | |- context [?a =? ?b] => destruct (Z.eqb_spec a b); [try (exfalso; lia) | try (exfalso; lia)]
  end.

Ltac chrono_solve :=
  repeat (cbn [mbind option_bind andb orb]; first [chrono_test | chrono_step]);
  cbn [mbind option_bind andb orb]; first [reflexivity | f_equal; lia].

(** The band in which the computation leaves the 64 bits: the days of the
    interval are one more than a [microseconds] can hold, and the rest of the
    interval either makes the test itself overflow or brings the sum back into
    the range, when [days_total + usecs_surplus] converts [days_total] first. *)
Definition overflow_band (i : pg_interval) : bool :=
  let days_total := 30 * iv_months i + iv_days i + Z.quot (iv_microseconds i) day in
  let surplus := Z.rem (iv_microseconds i) day in
  ((days_total =? min_days - 1) &&
   ((surplus <? INT64_MIN - min_days * day) || (INT64_MIN - (min_days - 1) * day <=? surplus))) ||
  ((days_total =? max_days + 1) &&
   ((INT64_MAX - max_days * day <? surplus) || (surplus <=? INT64_MAX - (max_days + 1) * day))).

(** The length of the interval, a month counting thirty days. *)
Definition interval_length (i : pg_interval) : Z :=
  (30 * iv_months i + iv_days i) * day + iv_microseconds i.

Definition clamp64 (z : Z) : Z := Z.max INT64_MIN (Z.min INT64_MAX z).

Lemma interval_total_checks i :
  interval_ok i = true ->
  exists q, q = 30 * iv_months i + iv_days i + Z.quot (iv_microseconds i) day /\
    -70000000000 <= q <= 70000000000 /\
    mul64 (iv_months i) 30 = Some (30 * iv_months i) /\
    add64 (30 * iv_months i) (iv_days i) = Some (30 * iv_months i + iv_days i) /\
    add64 (30 * iv_months i + iv_days i) (Z.quot (iv_microseconds i) day) = Some q.
Proof.
  unfold interval_ok. rewrite !andb_true_iff, in_S64_iff, !in_S32_iff.
  intros [[Hu Hd] Hm]. eexists. split; [reflexivity|].
  destruct (quot_rem_day (iv_microseconds i)) as (Hq & Hp & Hn).
  unfold INT64_MIN, INT64_MAX, INT32_MAX, day in *.
  assert (-106751992 <= Z.quot (iv_microseconds i) 86400000000 <= 106751992).
  { destruct (Z.le_ge_cases 0 (iv_microseconds i)); lia. }
  split; [lia|]. unfold mul64, add64. rewrite (Z.mul_comm (iv_months i) 30).
  split; [|split]; (rewrite checkS_some; [done|]); apply in_S64_iff;
    unfold INT64_MIN, INT64_MAX; lia.
Qed.

Lemma to_chrono_duration_spec i :
  interval_ok i = true ->
  to_chrono_duration i =
  if overflow_band i then None else Some (clamp64 (interval_length i)).
Proof.
  intros Hok. destruct (interval_total_checks i Hok) as (q & Hq & Hr & E1 & E2 & E3).
  unfold to_chrono_duration, overflow_band, interval_length. rewrite <- Hq.
  rewrite E1; cbn [mbind option_bind]. rewrite E2; cbn [mbind option_bind].
  rewrite E3; cbn [mbind option_bind].
  destruct (quot_rem_day (iv_microseconds i)) as (Hm & Hp & Hn).
  replace ((30 * iv_months i + iv_days i) * day + iv_microseconds i)
    with (q * day + Z.rem (iv_microseconds i) day) by lia.
  set (s := Z.rem (iv_microseconds i) day) in *.
  assert (- day < s < day) as Hs by (destruct (Z.le_ge_cases 0 (iv_microseconds i)); lia).
  clearbody s. clear E1 E2 E3 Hm Hp Hn Hq Hok.
  change min_days with (-106751991). change max_days with 106751991.
  unfold add_days, mul64, add64, sub64, clamp64, day, INT64_MIN, INT64_MAX in *.
  assert (q < -106751992 \/ q = -106751992 \/ -106751992 < q < 0 \/ q = 0 \/
          0 < q < 106751992 \/ q = 106751992 \/ 106751992 < q) as Hcase by lia.
  destruct Hcase as [H|[->|[H|[->|[H|[->|H]]]]]]; chrono_solve.
Qed.

Lemma from_chrono_duration_ok us :
  in_S 64 us = true ->
  interval_ok (from_chrono_duration us) = true /\
  iv_days (from_chrono_duration us) = Z.quot us day /\
  -106751991 <= Z.quot us day <= 106751991.
Proof.
  rewrite in_S64_iff. intros H. destruct (quot_rem_day us) as (Hq & Hp & Hn).
  unfold INT64_MIN, INT64_MAX, day in *.
  assert (-106751991 <= Z.quot us 86400000000 <= 106751991) as Hr
    by (destruct (Z.le_ge_cases 0 us); lia).
  assert (in_S 32 (Z.quot us 86400000000) = true) as H32
    by (apply in_S32_iff; unfold INT32_MAX; lia).
  unfold interval_ok, from_chrono_duration, day. cbn [iv_microseconds iv_days iv_months].
  rewrite wrapS_small by (done || lia). split; [|done].
  rewrite H32, !andb_true_iff, in_S64_iff. unfold INT64_MIN, INT64_MAX.
  repeat split; try reflexivity; destruct (Z.le_ge_cases 0 us); lia.
Qed.

Lemma rem_rem_day us : Z.rem (Z.rem us day) day = Z.rem us day.
Proof. apply Z.rem_rem. done. Qed.

Lemma quot_rem_day_zero us : Z.quot (Z.rem us day) day = 0.
Proof.
  destruct (quot_rem_day us) as (_ & Hp & Hn).
  destruct (quot_rem_day (Z.rem us day)) as (Hq & _ & _). rewrite rem_rem_day in Hq.
  assert (day * Z.quot (Z.rem us day) day = 0) as H by lia.
  unfold day in *. lia.
Qed.

Lemma interval_send_recv us :
  in_S 64 us = true -> to_chrono_duration (from_chrono_duration us) = Some us.
Proof.
  intros H. destruct (from_chrono_duration_ok us H) as (Hok & Hd & Hr).
  rewrite to_chrono_duration_spec by done.
  assert (overflow_band (from_chrono_duration us) = false) as ->.
  { unfold overflow_band. rewrite Hd. cbn [from_chrono_duration iv_microseconds iv_months].
    rewrite quot_rem_day_zero. change min_days with (-106751991). change max_days with 106751991.
    destruct (Z.eqb_spec (30 * 0 + Z.quot us day + 0) (-106751991 - 1)); [lia|].
    destruct (Z.eqb_spec (30 * 0 + Z.quot us day + 0) (106751991 + 1)); [lia|]. done. }
  unfold interval_length. rewrite Hd. cbn [from_chrono_duration iv_microseconds iv_months].
  destruct (quot_rem_day us) as (Hq & _). apply in_S64_iff in H.
  unfold clamp64. f_equal. lia.
Qed.

(** C37. A duration sent as an interval and received again is the duration that
    was sent, over the whole range of [std::chrono::microseconds]. *)
Theorem interval_roundtrip us :
  in_S 64 us = true -> to_chrono_duration (from_chrono_duration us) = Some us.
Proof. apply interval_send_recv. Qed.

Lemma interval_roundtrip_witness :
  to_chrono_duration (from_chrono_duration INT64_MIN) = Some INT64_MIN.
Proof. apply (interval_roundtrip INT64_MIN). reflexivity. Defined.

(** Outside [overflow_band] an interval of the server becomes its length in
    microseconds, a month counting thirty days, clamped to the range of
    [std::chrono::microseconds]. *)
Theorem interval_clamped i :
  interval_ok i = true -> overflow_band i = false ->
  to_chrono_duration i =
  Some (Z.max INT64_MIN (Z.min INT64_MAX
          ((30 * iv_months i + iv_days i) * day + iv_microseconds i))).
Proof. intros Hi Hb. rewrite to_chrono_duration_spec, Hb by done. reflexivity. Qed.

Lemma interval_clamped_witness :
  to_chrono_duration (mk_pg_interval 5 2 2147483647) = Some INT64_MAX.
Proof. apply (interval_clamped (mk_pg_interval 5 2 2147483647)); reflexivity. Defined.

(** There are intervals a server can send for which the test against
    overflow overflows: one day more than a [microseconds] can hold, and the
    rest of the interval pointing the same way. *)
Theorem interval_overflows :
  exists i, interval_ok i = true /\ to_chrono_duration i = None.
Proof. exists (mk_pg_interval (-14454775809) (-106751992) 0). split; vm_compute; reflexivity. Qed.

(** *** Time points *)

Section TimePointLaws.
Context (ticks : Z).
Hypothesis ticks_pos : 0 < ticks.

Lemma time_point_of_wire_some v t :
  time_point_of_wire ticks v = Some t ->
  t = epoch ticks + v * ticks /\ in_S 64 (v * ticks) = true.
Proof.
  unfold time_point_of_wire, mul64, add64.
  destruct (checkS 64 (v * ticks)) as [d|] eqn:E; cbn; [|done].
  apply checkS_inv in E as [-> ?]. intros E. by apply checkS_inv in E as [-> ?].
Qed.

Lemma time_point_to_wire_some t v :
  time_point_to_wire ticks t = Some v ->
  v = Z.quot (t - epoch ticks) ticks /\ in_S 64 (t - epoch ticks) = true.
Proof.
  unfold time_point_to_wire, sub64.
  destruct (checkS 64 (t - epoch ticks)) as [d|] eqn:E; cbn; [|done].
  apply checkS_inv in E as [-> ?]. intros [= <-]. done.
Qed.

(** A timestamp that a time point can hold is sent back as the timestamp
    that was received. *)
Theorem timestamp_recv_send v t :
  time_point_of_wire ticks v = Some t -> time_point_to_wire ticks t = Some v.
Proof.
  intros H. apply time_point_of_wire_some in H as [-> H].
  unfold time_point_to_wire, sub64. replace (_ + _ - _) with (v * ticks) by lia.
  rewrite checkS_some by done. cbn. by rewrite Z.quot_mul by lia.
Qed.

(** C39. Sending a time point and receiving it truncates it to microseconds,
    towards the PostgreSQL epoch: nothing else is lost, and no time point that
    can be sent fails to be received. *)
Theorem timestamp_send_recv t v :
  in_S 64 t = true -> in_S 64 (epoch ticks) = true -> 0 < epoch ticks ->
  time_point_to_wire ticks t = Some v ->
  exists t', time_point_of_wire ticks v = Some t' /\
    t - t' = Z.rem (t - epoch ticks) ticks /\ Z.abs (t - t') < ticks.
Proof.
  rewrite !in_S64_iff. intros Ht He Hpos H. apply time_point_to_wire_some in H as [-> H].
  apply in_S64_iff in H. unfold time_point_of_wire, mul64, add64.
  set (d := t - epoch ticks) in *. pose proof (Z.quot_rem' d ticks) as Hd.
  pose proof (Z.rem_bound_abs d ticks ltac:(lia)) as Hb.
  assert (0 <= d /\ 0 <= Z.rem d ticks <= d \/ d <= 0 /\ d <= Z.rem d ticks <= 0) as Hrange.
  { destruct (Z.le_ge_cases 0 d); [left|right]; (split; [done|]).
    - pose proof (Z.rem_nonneg d ticks ltac:(lia) ltac:(lia)).
      pose proof (Z.quot_pos d ticks ltac:(lia) ltac:(lia)). nia.
    - pose proof (Z.rem_nonpos d ticks ltac:(lia) ltac:(lia)).
      pose proof (Z.quot_pos (- d) ticks ltac:(lia) ltac:(lia)) as Hq.
      rewrite Z.quot_opp_l in Hq by lia. nia. }
  rewrite checkS_some by (apply in_S64_iff; unfold INT64_MIN, INT64_MAX in *; lia). cbn.
  rewrite checkS_some by (apply in_S64_iff; unfold INT64_MIN, INT64_MAX in *; subst d; lia).
  eexists. split; [reflexivity|]. subst d. lia.
Qed.
End TimePointLaws.

Lemma timestamp_recv_send_witness :
  time_point_to_wire 1000 (epoch 1000 + -7000) = Some (-7).
Proof. apply (timestamp_recv_send 1000 ltac:(lia) (-7) (epoch 1000 + -7000)). reflexivity. Defined.

Lemma timestamp_send_recv_witness :
  exists t', time_point_of_wire 1000 1 = Some t' /\
    epoch 1000 + 1999 - t' = Z.rem (epoch 1000 + 1999 - epoch 1000) 1000 /\
    Z.abs (epoch 1000 + 1999 - t') < 1000.
Proof.
  apply (timestamp_send_recv 1000 ltac:(lia) (epoch 1000 + 1999) 1);
    vm_compute; reflexivity.
Defined.

(** The timestamp ['infinity'], the greatest 64-bit number, overflows the
    multiplication on a clock that counts nanoseconds. *)
Theorem timestamp_infinity_overflows : time_point_of_wire 1000 INT64_MAX = None.
Proof. reflexivity. Qed.

End Chrono.
