(* ===== verification/BinaryIO.v ===== *)
(** The binary protocol: [src/include/bozo/io/size_of.h],
    [src/include/bozo/io/send.h], [src/include/bozo/io/recv.h],
    [src/include/bozo/io/array.h], [src/include/bozo/io/composite.h] and the
    specializations of [size_of_impl], [send_impl] and [recv_impl] in
    [src/include/bozo/pg/types/] and [src/include/bozo/ext/].

    [size_of], [send] and [recv] are functions on the C++ type and a value of it.
    [recv] reads into an object that exists already, so it takes its old value
    and gives the new one.  [wire] is the specification: the bytes of a value in
    the format of the server, in which the length of every frame is the number of
    the bytes that follow it. *)

From S2P Require Import Prelude ErrorCode Errors Endian Streams PgTypes TypeSystem Chrono.
From Stdlib Require Import ZArith Lia List String Strings.Byte.
From stdpp Require Import base tactics list strings.

Open Scope Z_scope.

Module BinaryIO.

Import Endian Streams PgTypes TypeSystem Chrono.

(** ** Values *)

(** The state of an object: a floating point number is its bit pattern, a time
    point the count of its clock, a duration the count of its microseconds. *)
Inductive value : Set :=
| VBool (b : bool)
| VInt (z : Z)
| VBytes (bs : list byte)
| VNull
| VSome (v : value)
| VList (vs : list value).

(** What stops a run: an exception, or an operation without a defined result. *)
Inductive stop : Set :=
| raised (e : exn)
| undefined.

#[global] Instance stop_eq_dec : EqDecision stop.
Proof. solve_decision. Defined.

Definition raise {A} (e : exn) : outcome stop A := Throw (raised e).
Definition fail {A} (c : error.code) : outcome stop A := raise (ex_system_error c).

(** The free function [read] on a stream. *)
Definition read {A} (r : A * istream) : outcome stop (A * istream) :=
  match read_checked r with Ok x => Ok x | Throw e => raise e end.

(** An operation of [std::chrono]. *)
Definition defined {A} (o : option A) : outcome stop A :=
  match o with Some a => Ok a | None => Throw undefined end.

(** The integer the object is in memory.  [float] and [double] go through
    [floating_point_integral_t]. *)
Definition prim_int (p : prim) : option int_type :=
  match p with
  | p_char => Some (mk_int_type 1 true)
  | p_int2 => Some (mk_int_type 2 true)
  | p_int4 | p_float4 => Some (mk_int_type 4 true)
  | p_int8 | p_float8 => Some (mk_int_type 8 true)
  | p_oid => Some (mk_int_type 4 false)
  | _ => None
  end.

Definition int32 : int_type := mk_int_type 4 true.
Definition int64 : int_type := mk_int_type 8 true.
Definition oid_t : int_type := mk_int_type 4 false.

Definition prim_ok (p : prim) (v : value) : bool :=
  match p, v with
  | p_bool, VBool _ => true
  | (p_char | p_int2 | p_int4 | p_int8 | p_oid | p_float4 | p_float8), VInt z =>
      match prim_int p with Some t => int_range t z | None => false end
  | (p_text | p_bytea | p_json | p_name | p_jsonb | p_ltree), VBytes _ => true
  | p_uuid, VBytes bs => (length bs =? 16)%nat
  | (p_timestamp | p_interval), VInt z => in_S 64 z
  | _, _ => false
  end.

Definition container_ok (c : container) (n : nat) : bool :=
  match c with std_array m => (n =? m)%nat | _ => true end.

(** A predicate on the members of a composite. *)
Definition members_all (f : ctype -> value -> bool) : list ctype -> list value -> bool :=
  fix go ts vs :=
    match ts, vs with
    | [], [] => true
    | t :: ts, v :: vs => f t v && go ts vs
    | _, _ => false
    end.

(** The values of a type. *)
Fixpoint has_type (t : ctype) (v : value) : bool :=
  match t, v with
  | c_prim p, _ => prim_ok p v
  | (c_null | c_nullable _ _), VNull => true
  | c_nullable _ u, VSome w => has_type u w
  | c_array c u, VList vs => container_ok c (length vs) && forallb (has_type u) vs
  | (c_tuple ts | c_struct _ _ ts), VList vs => members_all has_type ts vs
  | _, _ => false
  end.

(** A value-initialized object. *)
Fixpoint default_value (t : ctype) : value :=
  match t with
  | c_prim p =>
      match p with
      | p_bool => VBool false
      | p_text | p_bytea | p_json | p_name | p_jsonb | p_ltree => VBytes []
      | p_uuid => VBytes (replicate 16 x00)
      | _ => VInt 0
      end
  | c_null | c_nullable _ _ => VNull
  | c_array (std_array n) u => VList (replicate n (default_value u))
  | c_array _ _ => VList []
  | c_tuple ts | c_struct _ _ ts => VList (map default_value ts)
  end.

(** [is_null] and [unwrap]. *)
Definition is_null (t : ctype) (v : value) : bool :=
  is_nullable t && match v with VSome _ => false | _ => true end.

Definition unwrap (t : ctype) (v : value) : value :=
  match t, v with c_nullable _ _, VSome w => w | _, _ => v end.

(** ** Sizes *)

(** [size_of_default_impl] and the specializations for [jsonb] and [ltree]. *)
Definition size_of_prim (p : prim) (v : value) : Z :=
  let size := match v with VBytes bs => Z.of_nat (length bs) | _ => 0 end in
  match p with
  | p_jsonb | p_ltree => wrapS 32 (size + 1)
  | _ => match type_traits (c_prim p) with
         | Some (mk_traits _ _ dynamic_size) => wrapS 32 size
         | Some tr => size_value (tr_size tr)
         | None => 0
         end
  end.

(** The members of [pg_array] and of [pg_array_dimension] in bytes. *)
Definition array_header_size : Z := 4 + 4 + 4.
Definition dimension_header_size : Z := 4 + 4.

Definition sum_members (f : ctype -> value -> Z) : list ctype -> list value -> Z :=
  fix go ts vs :=
    match ts, vs with
    | t :: ts, v :: vs => wrapS 32 (f t v + go ts vs)
    | _, _ => 0
    end.

Section SizeOf.
(** [size_of] of the members. *)
Context (size_of : ctype -> value -> Z).

Definition data_frame_size_with (t : ctype) (v : value) : Z :=
  wrapS 32 (4 + Z.max (size_of t v) 0).

Definition frame_size_with (t : ctype) (v : value) : Z :=
  wrapS 32 (4 + data_frame_size_with t v).

(** [size_of_array_impl::data_size]: one element stands for all when their type
    has a static size. *)
Definition array_data_size (t : ctype) (vs : list value) : Z :=
  if is_static_size t then
    match vs with
    | [] => 0
    | v :: _ => wrapS 32 (data_frame_size_with t v * Z.of_nat (length vs))
    end
  else fold_left (fun r v => wrapS 32 (r + data_frame_size_with t v)) vs 0.

Definition size_of_array (t : ctype) (vs : list value) : Z :=
  wrapS 32 (array_header_size + dimension_header_size + array_data_size t vs).

Definition size_of_composite (ts : list ctype) (vs : list value) : Z :=
  wrapS 32 (4 + sum_members frame_size_with ts vs).
End SizeOf.

(** [size_of_impl], chosen for a type that is not wrapped. *)
Fixpoint size_of_impl (t : ctype) (v : value) : Z :=
  let size_of t v :=
    if is_null t v then null_state_size else size_of_impl (unwrap_type t) (unwrap t v) in
  match t, v with
  | c_prim p, _ => size_of_prim p v
  | c_array _ u, VList vs => size_of_array size_of u vs
  | (c_tuple ts | c_struct _ _ ts), VList vs => size_of_composite size_of ts vs
  | c_null, _ => null_state_size
  | _, _ => 0
  end.

(** [size_of], [data_frame_size] and [frame_size]. *)
Definition size_of (t : ctype) (v : value) : Z :=
  if is_null t v then null_state_size else size_of_impl (unwrap_type t) (unwrap t v).

Definition data_frame_size : ctype -> value -> Z := data_frame_size_with size_of.
Definition frame_size : ctype -> value -> Z := frame_size_with size_of.

(** ** Sending and receiving *)

(** The steps of a range loop over the members or the elements. *)
Definition send_members (f : ctype -> list byte -> value -> option (list byte)) :
  list ctype -> list byte -> list value -> option (list byte) :=
  fix go ts out vs :=
    match ts, vs with
    | t :: ts, v :: vs => out ← f t out v; go ts out vs
    | _, _ => Some out
    end.

Definition send_items (f : list byte -> value -> option (list byte)) :
  list byte -> list value -> option (list byte) :=
  fix go out vs {struct vs} :=
    match vs with
    | v :: vs => out ← f out v; go out vs
    | [] => Some out
    end.

Definition recv_items (f : istream -> value -> outcome stop (value * istream)) :
  istream -> list value -> outcome stop (list value * istream) :=
  fix go s vs {struct vs} :=
    match vs with
    | [] => Ok ([], s)
    | v :: vs => '(v, s) ← f s v; '(vs, s) ← go s vs; Ok (v :: vs, s)
    end.

Definition recv_members (f : ctype -> istream -> value -> outcome stop (value * istream)) :
  list ctype -> istream -> list value -> outcome stop (list value * istream) :=
  fix go ts s vs :=
    match ts, vs with
    | t :: ts, v :: vs => '(v, s) ← f t s v; '(vs, s) ← go ts s vs; Ok (v :: vs, s)
    | _, _ => Ok ([], s)
    end.

Section Protocol.
(** The byte order of the host, the ticks of its clock per microsecond, and the
    OIDs of the connection. *)
Context (native : endian) (ticks : Z) (m : oid_map).

Definition write_int32 (out : list byte) (z : Z) : list byte := write_int native 4 out z.

(** [send_impl] of the types bound by name. *)
Definition send_prim (p : prim) (out : list byte) (v : value) : option (list byte) :=
  match p, v with
  | p_bool, VBool b => Some (write_bool out b)
  | p_char, VInt z => Some (put out (byte_of z))
  | p_timestamp, VInt z =>
      w ← time_point_to_wire ticks z; Some (write_int native 8 out w)
  | p_interval, VInt z =>
      let i := from_chrono_duration z in
      Some (write_int32 (write_int32 (write_int native 8 out (iv_microseconds i))
                                     (iv_days i)) (iv_months i))
  | (p_jsonb | p_ltree), VBytes bs => Some (write_raw (put out x01) bs)
  | _, VBytes bs => Some (write_raw out bs)
  | _, VInt z =>
      match prim_int p with
      | Some t => Some (write_int native (int_bytes t) out z)
      | None => None
      end
  | _, _ => None
  end.

Fixpoint send_impl (t : ctype) (out : list byte) (v : value) : option (list byte) :=
  let send t out v :=
    if is_null t v then Some out else send_impl (unwrap_type t) out (unwrap t v) in
  let send_data_frame t out v := send t (write_int32 out (size_of t v)) v in
  let send_frame t out v := send_data_frame t (write_int32 out (type_oid m t)) v in
  match t, v with
  | c_prim p, _ => send_prim p out v
  | c_array _ u, VList vs =>
      let out := write_int32 (write_int32 (write_int32 out 1) 0) (type_oid m u) in
      let out := write_int32 (write_int32 out (wrapS 32 (Z.of_nat (length vs)))) 0 in
      send_items (send_data_frame u) out vs
  | (c_tuple ts | c_struct _ _ ts), VList vs =>
      let out := write_int32 out (wrapS 32 (Z.of_nat (length ts))) in
      send_members send_frame ts out vs
  | c_null, _ => Some out
  | _, _ => None
  end.

Definition send (t : ctype) (out : list byte) (v : value) : option (list byte) :=
  if is_null t v then Some out else send_impl (unwrap_type t) out (unwrap t v).

Definition send_data_frame (t : ctype) (out : list byte) (v : value) : option (list byte) :=
  send t (write_int32 out (size_of t v)) v.

Definition send_frame (t : ctype) (out : list byte) (v : value) : option (list byte) :=
  send_data_frame t (write_int32 out (type_oid m t)) v.

(** [resize] with a [size_type] that becomes a [std::size_t]. *)
Definition resize_bytes (size : Z) : outcome stop nat :=
  if size <? 0 then raise ex_length_error else Ok (Z.to_nat size).

(** [recv_impl] of a string that is resized to the data: [resize], then [read]. *)
Definition recv_bytes (size : Z) (s : istream) : outcome stop (value * istream) :=
  n ← resize_bytes size; '(bs, s) ← read (istream_read s n); Ok (VBytes bs, s).

(** The guard of [recv_impl] for a type of a static size. *)
Definition check_size {A} (p : prim) (size : Z) (k : outcome stop A) : outcome stop A :=
  if size =? size_of_prim p (VInt 0) then k else fail error.bad_object_size.

(** [jsonb] and [ltree]: the version is read and not looked at. *)
Definition recv_versioned (size : Z) (s : istream) : outcome stop (value * istream) :=
  if size <? 1 then raise ex_range_error else
  '(version, s) ← read (read_char s); recv_bytes (size - 1) s.

Definition recv_prim (p : prim) (size : Z) (s : istream) : outcome stop (value * istream) :=
  match p with
  | p_bool => check_size p size ('(b, s) ← read (read_bool s); Ok (VBool b, s))
  | p_char => check_size p size
      ('(c, s) ← read (read_char s); Ok (VInt (wrapS 8 (byte_val c)), s))
  | p_int2 | p_int4 | p_int8 | p_oid | p_float4 | p_float8 =>
      check_size p size
        match prim_int p with
        | Some t => '(z, s) ← read (read_int native t s); Ok (VInt z, s)
        | None => Throw undefined
        end
  | p_text | p_bytea | p_json | p_name => recv_bytes size s
  | p_jsonb | p_ltree => recv_versioned size s
  | p_uuid => '(bs, s) ← read (istream_read s 16); Ok (VBytes bs, s)
  | p_timestamp =>
      '(w, s) ← read (read_int native int64 s);
      z ← defined (time_point_of_wire ticks w); Ok (VInt z, s)
  | p_interval =>
      let '(us, s) := read_int native int64 s in
      let '(days, s) := read_int native int32 s in
      '(months, s) ← read (read_int native int32 s);
      z ← defined (to_chrono_duration (mk_pg_interval us days months)); Ok (VInt z, s)
  end.

(** [fit_array_size]: [resize] keeps the elements there are, the array of the
    standard library only checks its size.  A negative count becomes a size of more
    than 2^63 elements: a vector refuses it with [std::length_error], a list allocates
    its nodes one by one until that fails. *)
Definition fit_array_size (c : container) (u : ctype) (vs : list value) (count : Z) :
  outcome stop (list value) :=
  match c with
  | std_array n => if count =? wrapS 32 (Z.of_nat n) then Ok vs else fail error.bad_array_size
  | std_list => if count <? 0 then raise ex_bad_alloc
                else Ok (take (Z.to_nat count) vs ++ replicate (Z.to_nat count - length vs) (default_value u))
  | std_vector => n ← resize_bytes count;
                  Ok (take n vs ++ replicate (n - length vs) (default_value u))
  end.

(** [init_nullable], then [unwrap]: the object inside the wrapper. *)
Definition init_unwrap (t : ctype) (out : value) : value :=
  match t with
  | c_nullable _ u => match out with VSome w => w | _ => default_value u end
  | _ => out
  end.

(** The wrapper around the received object. *)
Definition rewrap (t : ctype) (v : value) : value :=
  match t with c_nullable _ _ => VSome v | _ => v end.

(** [detail::recv]; the OID is [None] when it is [null_oid_t]. *)
Definition recv_with
  (impl : Z -> istream -> value -> outcome stop (value * istream))
  (t : ctype) (oid : option Z) (size : Z) (s : istream) (out : value) :
  outcome stop (value * istream) :=
  if is_nullable t && (size =? null_state_size) then Ok (VNull, s) else
  if match oid with Some o => negb (accepts_oid m t o) | None => false end
  then fail error.oid_type_mismatch else
  if negb (is_nullable t) && (size =? null_state_size) then raise ex_invalid_argument else
  '(v, s) ← impl size s (init_unwrap t out); Ok (rewrap t v, s).

(** [recv_array_impl]. *)
Definition recv_array_with (item : istream -> value -> outcome stop (value * istream))
  (c : container) (u : ctype) (s : istream) (out : list value) :
  outcome stop (list value * istream) :=
  let '(dimensions_count, s) := read_int native int32 s in
  let '(dataoffset, s) := read_int native int32 s in
  '(elemtype, s) ← read (read_int native oid_t s);
  if 1 <? dimensions_count then fail error.bad_array_dimension else
  if negb (accepts_oid m (unwrap_type u) elemtype) then fail error.oid_type_mismatch else
  if dimensions_count <? 1 then Ok (out, s) else
  let '(size, s) := read_int native int32 s in
  '(index, s) ← read (read_int native int32 s);
  if size =? 0 then Ok (out, s) else
  out ← fit_array_size c u out size;
  recv_items item s out.

(** [read_and_verify_header] and the loop over the members. *)
Definition recv_composite_with
  (member : ctype -> istream -> value -> outcome stop (value * istream))
  (ts : list ctype) (s : istream) (out : list value) : outcome stop (list value * istream) :=
  '(count, s) ← read (read_int native int32 s);
  if negb (count =? wrapS 32 (Z.of_nat (length ts))) then fail error.bad_composite_size else
  recv_members member ts s out.

(** [recv_impl], chosen for a type that is not wrapped. *)
Fixpoint recv_impl (t : ctype) (size : Z) (s : istream) (out : value) :
  outcome stop (value * istream) :=
  let recv_data_frame t oid s out :=
    '(size, s) ← read (read_int native int32 s);
    recv_with (recv_impl (unwrap_type t)) t oid size s out in
  let recv_frame t s out :=
    '(oid, s) ← read (read_int native oid_t s); recv_data_frame t (Some oid) s out in
  match t, out with
  | c_prim p, _ => recv_prim p size s
  | c_array c u, VList vs =>
      '(vs, s) ← recv_array_with (recv_data_frame u None) c u s vs; Ok (VList vs, s)
  | (c_tuple ts | c_struct _ _ ts), VList vs =>
      '(vs, s) ← recv_composite_with recv_frame ts s vs; Ok (VList vs, s)
  | _, _ => Throw undefined
  end.

(** [recv], [recv_data_frame] and [recv_frame]. *)
Definition recv (t : ctype) : option Z -> Z -> istream -> value -> outcome stop (value * istream) :=
  recv_with (recv_impl (unwrap_type t)) t.

Definition recv_data_frame (t : ctype) (oid : option Z) (s : istream) (out : value) :
  outcome stop (value * istream) :=
  '(size, s) ← read (read_int native int32 s); recv t oid size s out.

Definition recv_frame (t : ctype) (s : istream) (out : value) : outcome stop (value * istream) :=
  '(oid, s) ← read (read_int native oid_t s); recv_data_frame t (Some oid) s out.

End Protocol.

(** ** Specification *)

(** The types that can be sent: each part has a definition, and a wrapper does
    not wrap a wrapper. *)
Fixpoint sendable (t : ctype) : bool :=
  has_definition t &&
  match t with
  | c_prim _ | c_null => true
  | c_nullable _ u => negb (is_nullable u) && sendable u
  | c_array _ u => sendable u
  | c_tuple ts | c_struct _ _ ts => forallb sendable ts
  end.

(** The types that can be received: besides, each wrapper can be allocated. *)
Fixpoint receivable (t : ctype) : bool :=
  match t with
  | c_prim _ => true
  | c_null => false
  | c_nullable k u => allocatable k && receivable u
  | c_array _ u => receivable u
  | c_tuple ts | c_struct _ _ ts => forallb receivable ts
  end.

Definition sum_items (f : value -> Z) : list value -> Z := foldr (fun v acc => f v + acc) 0.

Definition sum_fields (f : ctype -> value -> Z) : list ctype -> list value -> Z :=
  fix go ts vs :=
    match ts, vs with
    | t :: ts, v :: vs => f t v + go ts vs
    | _, _ => 0
    end.

(** The number of the bytes of a value, a null having none. *)
Definition prim_size (p : prim) (v : value) : Z :=
  match p, v with
  | (p_bool | p_char), _ => 1
  | p_int2, _ => 2
  | (p_int4 | p_float4 | p_oid), _ => 4
  | (p_int8 | p_float8 | p_timestamp), _ => 8
  | (p_uuid | p_interval), _ => 16
  | (p_jsonb | p_ltree), VBytes bs => 1 + Z.of_nat (length bs)
  | _, VBytes bs => Z.of_nat (length bs)
  | _, _ => 0
  end.

Fixpoint payload_size (t : ctype) (v : value) : Z :=
  match t, v with
  | c_prim p, _ => prim_size p v
  | c_nullable _ u, VSome w => payload_size u w
  | c_array _ u, VList vs => 20 + sum_items (fun w => 4 + payload_size u w) vs
  | (c_tuple ts | c_struct _ _ ts), VList vs =>
      4 + sum_fields (fun u w => 8 + payload_size u w) ts vs
  | _, _ => 0
  end.

(** The elements of every array whose element type has a static size are all of
    one size: none of them is null, or all are. *)
Fixpoint uniform (t : ctype) (v : value) : bool :=
  match t, v with
  | c_nullable _ u, VSome w => uniform u w
  | c_array _ u, VList vs =>
      forallb (uniform u) vs &&
      (is_dynamic_size u ||
       match vs with
       | [] => true
       | w :: _ => forallb (fun x => payload_size u x =? payload_size u w) vs
       end)
  | (c_tuple ts | c_struct _ _ ts), VList vs => members_all uniform ts vs
  | _, _ => true
  end.

Section Wire.
Context (ticks : Z) (m : oid_map).

Definition prim_wire (p : prim) (v : value) : option (list byte) :=
  match p, v with
  | p_bool, VBool b => Some [if b then x01 else x00]
  | p_timestamp, VInt z => be_bytes 8 <$> time_point_to_wire ticks z
  | p_interval, VInt z =>
      let i := from_chrono_duration z in
      Some (be_bytes 8 (iv_microseconds i) ++ be_bytes 4 (iv_days i) ++ be_bytes 4 (iv_months i))
  | (p_jsonb | p_ltree), VBytes bs => Some (x01 :: bs)
  | _, VBytes bs => Some bs
  | _, VInt z => (fun t => be_bytes (int_bytes t) z) <$> prim_int p
  | _, _ => None
  end.

(** A frame: the length of the payload, -1 for a null, and the payload. *)
Definition frame (null : bool) (payload : list byte) : list byte :=
  if null then be_bytes 4 (-1)
  else be_bytes 4 (Z.of_nat (length payload)) ++ payload.

Definition wire_items (f : value -> option (list byte)) : list value -> option (list byte) :=
  fix go vs :=
    match vs with
    | [] => Some []
    | v :: vs => a ← f v; b ← go vs; Some (a ++ b)
    end.

Definition wire_fields (f : ctype -> value -> option (list byte)) :
  list ctype -> list value -> option (list byte) :=
  fix go ts vs :=
    match ts, vs with
    | t :: ts, v :: vs => a ← f t v; b ← go ts vs; Some (a ++ b)
    | _, _ => Some []
    end.

(** The bytes of a value; [None] for a time point that has no timestamp. *)
Fixpoint wire (t : ctype) (v : value) : option (list byte) :=
  match t, v with
  | c_prim p, _ => prim_wire p v
  | (c_null | c_nullable _ _), VNull => Some []
  | c_nullable _ u, VSome w => wire u w
  | c_array _ u, VList vs =>
      items ← wire_items (fun w => frame (is_null u w) <$> wire u w) vs;
      Some (be_bytes 4 1 ++ be_bytes 4 0 ++ be_bytes 4 (type_oid m u) ++
            be_bytes 4 (Z.of_nat (length vs)) ++ be_bytes 4 0 ++ items)
  | (c_tuple ts | c_struct _ _ ts), VList vs =>
      fields ← wire_fields
        (fun u w => (fun p => be_bytes 4 (type_oid m u) ++ frame (is_null u w) p) <$> wire u w) ts vs;
      Some (be_bytes 4 (Z.of_nat (length ts)) ++ fields)
  | _, _ => None
  end.
End Wire.

(** ** Lemmas *)

Section ValueInd.
Variable P : ctype -> value -> Prop.
Hypothesis Hprim : forall p v, prim_ok p v = true -> P (c_prim p) v.
Hypothesis Hnull : P c_null VNull.
Hypothesis Hnone : forall k u, P (c_nullable k u) VNull.
Hypothesis Hsome : forall k u w, P u w -> P (c_nullable k u) (VSome w).
Hypothesis Harray : forall c u vs, container_ok c (length vs) = true ->
  Forall (fun v => has_type u v = true /\ P u v) vs -> P (c_array c u) (VList vs).
Hypothesis Htuple : forall ts vs,
  Forall2 (fun t v => has_type t v = true /\ P t v) ts vs -> P (c_tuple ts) (VList vs).
Hypothesis Hstruct : forall n s ts vs,
  Forall2 (fun t v => has_type t v = true /\ P t v) ts vs -> P (c_struct n s ts) (VList vs).

(** Induction over the values of a type. *)
Lemma typed_ind t : forall v, has_type t v = true -> P t v.
Proof.
  assert (forall ts, Forall (fun t => forall v, has_type t v = true -> P t v) ts ->
    forall vs, members_all has_type ts vs = true ->
    Forall2 (fun t v => has_type t v = true /\ P t v) ts vs) as Hmem.
  { induction 1 as [|u ts Hu _ IH]; intros [|v vs] H; try discriminate; [constructor|].
    cbn in H. bool_props. constructor; auto. }
  induction t as [p| |k u IH|c u IH|ts IH|n s ts IH] using ctype_nested_ind;
    intros v Hv; cbn [has_type] in Hv.
  - by apply Hprim.
  - by destruct v.
  - destruct v; try discriminate; auto.
  - destruct v; try discriminate. bool_props. apply Harray; [done|].
    apply List.Forall_forall. intros x Hx. rewrite forallb_forall in *. auto.
  - destruct v; try discriminate. auto.
  - destruct v; try discriminate. auto.
Qed.
End ValueInd.

Lemma payload_size_nonneg t v : 0 <= payload_size t v.
Proof.
  assert (forall ts, Forall (fun t => forall v, 0 <= payload_size t v) ts ->
    forall vs, 0 <= sum_fields (fun u w => 8 + payload_size u w) ts vs) as Hmem.
  { induction 1 as [|u ts Hu _ IH]; intros [|w vs]; cbn; try lia.
    specialize (Hu w). specialize (IH vs). cbn in IH. lia. }
  revert v. induction t as [p| |k u IH|c u IH|ts IH|n s ts IH] using ctype_nested_ind;
    intros v; cbn [payload_size].
  - destruct p, v; cbn; lia.
  - lia.
  - destruct v; try lia. apply IH.
  - destruct v; try lia.
    enough (0 <= sum_items (fun w => 4 + payload_size u w) vs) by lia.
    induction vs as [|x vs IHvs]; cbn; [lia|]. specialize (IH x). cbn in IHvs. lia.
  - destruct v; try lia. specialize (Hmem ts IH vs). lia.
  - destruct v; try lia. specialize (Hmem ts IH vs). lia.
Qed.

Lemma wrap32 z : -2147483648 <= z <= INT32_MAX -> wrapS 32 z = z.
Proof. intros H. apply wrapS_small; [done|]. by apply in_S32_iff. Qed.

Lemma size_of_prim_exact p v :
  prim_ok p v = true -> prim_size p v <= INT32_MAX -> size_of_prim p v = prim_size p v.
Proof.
  intros Hok Hle. destruct p, v; try discriminate; try reflexivity;
    cbn [prim_size] in *; unfold size_of_prim;
    try (match goal with |- context [type_traits ?t] =>
      let x := eval vm_compute in (type_traits t) in change (type_traits t) with x end);
    cbn [tr_size]; try reflexivity; rewrite wrap32; lia.
Qed.

(** The conclusion the lemmas on sizes share. *)
Definition size_exact (t : ctype) (v : value) : Prop :=
  size_of t v = if is_null t v then null_state_size else payload_size t v.

Lemma data_frame_size_exact t v :
  size_exact t v -> payload_size t v <= INT32_MAX - 4 ->
  data_frame_size t v = 4 + payload_size t v.
Proof.
  unfold size_exact, data_frame_size, data_frame_size_with. intros -> Hle.
  pose proof (payload_size_nonneg t v) as H0.
  assert (is_null t v = true -> payload_size t v = 0) as Hn
    by (destruct t, v; by cbn).
  destruct (is_null t v); unfold null_state_size.
  - rewrite Hn by done. reflexivity.
  - rewrite wrap32 by (unfold INT32_MAX in *; lia). lia.
Qed.

Lemma frame_size_exact t v :
  size_exact t v -> payload_size t v <= INT32_MAX - 8 ->
  frame_size t v = 8 + payload_size t v.
Proof.
  intros Hs Hle. unfold frame_size, frame_size_with. change (data_frame_size_with size_of) with data_frame_size.
  rewrite data_frame_size_exact by (lia || done). pose proof (payload_size_nonneg t v).
  rewrite wrap32; unfold INT32_MAX in *; lia.
Qed.

Lemma sum_items_cons f v vs : sum_items f (v :: vs) = f v + sum_items f vs.
Proof. reflexivity. Qed.

Lemma sum_fields_cons f t ts v vs : sum_fields f (t :: ts) (v :: vs) = f t v + sum_fields f ts vs.
Proof. reflexivity. Qed.

Lemma sum_members_cons f t ts v vs :
  sum_members f (t :: ts) (v :: vs) = wrapS 32 (f t v + sum_members f ts vs).
Proof. reflexivity. Qed.

Lemma members_all_cons f t ts v vs :
  members_all f (t :: ts) (v :: vs) = f t v && members_all f ts vs.
Proof. reflexivity. Qed.

Lemma sum_items_nonneg t vs : 0 <= sum_items (fun w => 4 + payload_size t w) vs.
Proof.
  induction vs as [|v vs IH]; [done|]. rewrite sum_items_cons.
  pose proof (payload_size_nonneg t v). lia.
Qed.

Lemma sum_fields_nonneg ts vs : 0 <= sum_fields (fun u w => 8 + payload_size u w) ts vs.
Proof.
  revert vs. induction ts as [|t ts IH]; intros [|v vs]; try done.
  rewrite sum_fields_cons. pose proof (payload_size_nonneg t v). specialize (IH vs). lia.
Qed.

Lemma sum_items_const t w vs :
  forallb (fun x => payload_size t x =? payload_size t w) vs = true ->
  sum_items (fun x => 4 + payload_size t x) vs = (4 + payload_size t w) * Z.of_nat (length vs).
Proof.
  induction vs as [|v vs IH]; cbn [forallb length]; intros H; bool_props.
  - cbn. lia.
  - rewrite sum_items_cons, IH by done. lia.
Qed.

Lemma fold_data_frame_sizes t vs r :
  Forall (fun v => size_exact t v) vs -> 0 <= r ->
  r + sum_items (fun w => 4 + payload_size t w) vs <= INT32_MAX ->
  fold_left (fun r v => wrapS 32 (r + data_frame_size t v)) vs r =
  r + sum_items (fun w => 4 + payload_size t w) vs.
Proof.
  intros Hall. revert r. induction Hall as [|v vs Hv Hall IH]; intros r Hr Hle.
  - cbn. lia.
  - cbn [fold_left]. rewrite sum_items_cons in *.
    pose proof (payload_size_nonneg t v). pose proof (sum_items_nonneg t vs) as Hs.
    rewrite data_frame_size_exact by (lia || done).
    rewrite wrap32 by (unfold INT32_MAX in *; lia). rewrite IH; lia.
Qed.

(** [size_of_array_impl] on elements of one size, or of a dynamic one. *)
Lemma size_of_array_exact t vs :
  Forall (fun v => size_exact t v) vs ->
  is_dynamic_size t ||
    match vs with
    | [] => true
    | w :: _ => forallb (fun x => payload_size t x =? payload_size t w) vs
    end = true ->
  20 + sum_items (fun w => 4 + payload_size t w) vs <= INT32_MAX ->
  size_of_array size_of t vs = 20 + sum_items (fun w => 4 + payload_size t w) vs.
Proof.
  intros Hall Hu Hle. pose proof (sum_items_nonneg t vs) as H0.
  enough (array_data_size size_of t vs = sum_items (fun w => 4 + payload_size t w) vs) as He.
  { unfold size_of_array, array_header_size, dimension_header_size. rewrite He.
    rewrite wrap32; unfold INT32_MAX in *; lia. }
  unfold array_data_size, is_static_size. destruct (is_dynamic_size t); cbn [negb orb] in *.
  - change (data_frame_size_with size_of) with data_frame_size. by rewrite fold_data_frame_sizes by (lia || done).
  - destruct vs as [|v vs]; [done|]. rewrite (sum_items_const t v) in * by done.
    inversion Hall; subst. change (data_frame_size_with size_of) with data_frame_size. pose proof (payload_size_nonneg t v).
    rewrite data_frame_size_exact; [|done|cbn [length] in *; nia].
    apply wrap32. unfold INT32_MAX in *. lia.
Qed.

Lemma size_of_composite_exact ts vs :
  Forall2 size_exact ts vs ->
  4 + sum_fields (fun u w => 8 + payload_size u w) ts vs <= INT32_MAX ->
  size_of_composite size_of ts vs = 4 + sum_fields (fun u w => 8 + payload_size u w) ts vs.
Proof.
  intros Hall Hle. pose proof (sum_fields_nonneg ts vs) as H0.
  enough (sum_members (frame_size_with size_of) ts vs =
          sum_fields (fun u w => 8 + payload_size u w) ts vs) as He.
  { unfold size_of_composite. rewrite He, wrap32; unfold INT32_MAX in *; lia. }
  clear H0. induction Hall as [|t v ts vs Hv _ IH]; [done|].
  rewrite sum_fields_cons, sum_members_cons in *.
  pose proof (payload_size_nonneg t v). pose proof (sum_fields_nonneg ts vs) as Hs.
  rewrite IH by lia. change (frame_size_with size_of) with frame_size.
  rewrite frame_size_exact by (lia || done). apply wrap32. unfold INT32_MAX in *. lia.
Qed.

Lemma sendable_field ts vs (Q : ctype -> value -> Prop) :
  forallb sendable ts = true -> members_all uniform ts vs = true ->
  4 + sum_fields (fun u w => 8 + payload_size u w) ts vs <= INT32_MAX ->
  Forall2 (fun t v => has_type t v = true /\ (sendable t = true -> uniform t v = true ->
    payload_size t v <= INT32_MAX -> Q t v)) ts vs ->
  Forall2 (fun t v => has_type t v = true /\ Q t v) ts vs.
Proof.
  intros Hs Hu Hle Hall. revert Hs Hu Hle. induction Hall as [|t v ts vs [Ht Hv] _ IH]; [constructor|].
  rewrite members_all_cons, sum_fields_cons. cbn [forallb].
  intros Hs Hu Hle. bool_props. pose proof (payload_size_nonneg t v).
  pose proof (sum_fields_nonneg ts vs) as Hnn.
  constructor; [split; [done|apply Hv] | apply IH]; (lia || done).
Qed.

Lemma sendable_item t vs (Q : value -> Prop) :
  sendable t = true -> forallb (uniform t) vs = true ->
  20 + sum_items (fun w => 4 + payload_size t w) vs <= INT32_MAX ->
  Forall (fun v => has_type t v = true /\ (sendable t = true -> uniform t v = true ->
    payload_size t v <= INT32_MAX -> Q v)) vs -> Forall (fun v => has_type t v = true /\ Q v) vs.
Proof.
  intros Hs Hu Hle Hall. revert Hu Hle. induction Hall as [|v vs [Ht Hv] _ IH]; [constructor|].
  rewrite sum_items_cons. cbn [forallb]. intros Hu Hle. bool_props.
  pose proof (payload_size_nonneg t v). pose proof (sum_items_nonneg t vs) as Hnn.
  constructor; [split; [done|apply Hv] | apply IH]; (lia || done).
Qed.

Lemma size_of_unwrap k u w :
  is_nullable u = false -> size_of (c_nullable k u) (VSome w) = size_of u w.
Proof. intros Hu. unfold size_of, is_null. rewrite Hu. by destruct u. Qed.

Lemma size_exact_typed t v :
  has_type t v = true -> sendable t = true -> uniform t v = true ->
  payload_size t v <= INT32_MAX -> size_exact t v.
Proof.
  intros Hv. pattern t, v. apply typed_ind; [..|exact Hv]; clear t v Hv.
  - intros p v Hok _ _ Hle. by apply size_of_prim_exact.
  - done.
  - done.
  - intros k u w IH Hs Hu Hle. cbn in Hs. bool_props. unfold size_exact in *.
    rewrite size_of_unwrap, IH by done. unfold is_null.
    by replace (is_nullable u) with false.
  - intros c u vs _ IH Hs Hu Hle. cbn in Hs, Hu. bool_props.
    apply sendable_item in IH; [|done..]. apply size_of_array_exact; [|done|done].
    eapply Forall_impl; [exact IH|]. by intros ? [].
  - intros ts vs IH Hs Hu Hle. cbn [sendable uniform] in Hs, Hu. bool_props.
    apply sendable_field in IH; [|done..]. apply size_of_composite_exact; [|done].
    eapply Forall2_impl; [exact IH|]. by intros ? ? [].
  - intros n s ts vs IH Hs Hu Hle. cbn [sendable uniform] in Hs, Hu. bool_props.
    apply sendable_field in IH; [|done..]. apply size_of_composite_exact; [|done].
    eapply Forall2_impl; [exact IH|]. by intros ? ? [].
Qed.

(** ** The bytes of a value *)

Section WireLemmas.
Context (ticks : Z) (m : oid_map).

Lemma length_prim_wire p v bs :
  prim_ok p v = true -> prim_wire ticks p v = Some bs -> Z.of_nat (length bs) = prim_size p v.
Proof.
  intros Hok Hw. destruct p, v; try discriminate; cbn in Hw; simplify_eq;
    rewrite ?length_app, ?length_be_bytes; try reflexivity; cbn [prim_size length]; try lia.
  - apply Nat.eqb_eq in Hok. by rewrite Hok.
  - destruct (time_point_to_wire ticks z); [|discriminate]. injection Hw as <-.
    exact (f_equal Z.of_nat (length_be_bytes 8 _)).
Qed.

Lemma length_frame t v bs :
  Z.of_nat (length bs) = payload_size t v ->
  Z.of_nat (length (frame (is_null t v) bs)) = 4 + payload_size t v.
Proof.
  intros Hl. unfold frame. destruct (is_null t v) eqn:Hn.
  - rewrite length_be_bytes. destruct t, v; cbn in *; (discriminate || lia).
  - rewrite length_app, length_be_bytes. lia.
Qed.

Lemma wire_items_cons f v vs bs :
  wire_items f (v :: vs) = Some bs ->
  exists a b, f v = Some a /\ wire_items f vs = Some b /\ bs = a ++ b.
Proof.
  cbn. destruct (f v) as [a|]; [|discriminate]. cbn. fold (wire_items f vs).
  destruct (wire_items f vs) as [b|]; [|discriminate]. cbn. intros [= <-]. eauto.
Qed.

Lemma wire_fields_cons f t ts v vs bs :
  wire_fields f (t :: ts) (v :: vs) = Some bs ->
  exists a b, f t v = Some a /\ wire_fields f ts vs = Some b /\ bs = a ++ b.
Proof.
  cbn. destruct (f t v) as [a|]; [|discriminate]. cbn. fold (wire_fields f ts vs).
  destruct (wire_fields f ts vs) as [b|]; [|discriminate]. cbn. intros [= <-]. eauto.
Qed.

Lemma length_wire_items t vs bs :
  Forall (fun v => has_type t v = true /\ forall bs, wire ticks m t v = Some bs ->
    Z.of_nat (length bs) = payload_size t v) vs ->
  wire_items (fun w => frame (is_null t w) <$> wire ticks m t w) vs = Some bs ->
  Z.of_nat (length bs) = sum_items (fun w => 4 + payload_size t w) vs.
Proof.
  intros Hall. revert bs. induction Hall as [|v vs [_ Hv] _ IH]; intros bs Hw.
  - by cbn in Hw; simplify_eq.
  - apply wire_items_cons in Hw as (a & b & Ha & Hb & ->).
    destruct (wire ticks m t v) as [p|] eqn:Hp; [|discriminate]. cbn in Ha. simplify_eq.
    rewrite length_app, Nat2Z.inj_add, (length_frame t v), (IH b) by auto.
    by rewrite sum_items_cons.
Qed.

Lemma length_wire_fields ts vs bs :
  Forall2 (fun t v => has_type t v = true /\ forall bs, wire ticks m t v = Some bs ->
    Z.of_nat (length bs) = payload_size t v) ts vs ->
  wire_fields (fun u w => (fun p => be_bytes 4 (type_oid m u) ++ frame (is_null u w) p) <$>
    wire ticks m u w) ts vs = Some bs ->
  Z.of_nat (length bs) = sum_fields (fun u w => 8 + payload_size u w) ts vs.
Proof.
  intros Hall. revert bs. induction Hall as [|t v ts vs [_ Hv] _ IH]; intros bs Hw.
  - by cbn in Hw; simplify_eq.
  - apply wire_fields_cons in Hw as (a & b & Ha & Hb & ->).
    destruct (wire ticks m t v) as [p|] eqn:Hp; [|discriminate]. cbn in Ha. simplify_eq.
    rewrite sum_fields_cons, !length_app, length_be_bytes, !Nat2Z.inj_add,
      (length_frame t v), (IH b) by auto. lia.
Qed.

(** Inversion of [wire] on arrays and composites. *)
Lemma wire_array_inv c u vs bs :
  wire ticks m (c_array c u) (VList vs) = Some bs ->
  exists items, wire_items (fun w => frame (is_null u w) <$> wire ticks m u w) vs = Some items /\
    bs = be_bytes 4 1 ++ be_bytes 4 0 ++ be_bytes 4 (type_oid m u) ++
         be_bytes 4 (Z.of_nat (length vs)) ++ be_bytes 4 0 ++ items.
Proof.
  cbn [wire]. destruct (wire_items _ vs) as [items|]; [|discriminate]. cbn.
  intros [= <-]. eauto.
Qed.

(** [t] is the tuple or the structure with the members [ts]. *)
Definition composite_of (t : ctype) (ts : list ctype) : Prop :=
  t = c_tuple ts \/ exists n s, t = c_struct n s ts.

Lemma wire_composite_inv t ts vs bs :
  composite_of t ts -> wire ticks m t (VList vs) = Some bs ->
  exists fields, wire_fields (fun u w => (fun p => be_bytes 4 (type_oid m u) ++
      frame (is_null u w) p) <$> wire ticks m u w) ts vs = Some fields /\
    bs = be_bytes 4 (Z.of_nat (length ts)) ++ fields.
Proof.
  intros [->|(n & s & ->)]; cbn [wire]; destruct (wire_fields _ ts vs) as [fields|];
    try discriminate; cbn; intros [= <-]; eauto.
Qed.

Lemma length_wire t v bs :
  has_type t v = true -> wire ticks m t v = Some bs ->
  Z.of_nat (length bs) = payload_size t v.
Proof.
  intros Hv. revert bs. pattern t, v. apply typed_ind; [..|exact Hv]; clear t v Hv.
  - intros p v Hok bs. by apply length_prim_wire.
  - by intros bs [= <-].
  - by intros k u bs [= <-].
  - intros k u w IH bs Hw. cbn in *. auto.
  - intros c u vs _ IH bs Hw. apply wire_array_inv in Hw as (items & Hi & ->).
    apply length_wire_items in Hi; [|done]. cbn [payload_size].
    rewrite !length_app, !length_be_bytes. lia.
  - intros ts vs IH bs Hw. apply (wire_composite_inv _ ts) in Hw as (fields & Hf & ->); [|by left].
    apply length_wire_fields in Hf; [|done]. cbn [payload_size].
    rewrite length_app, length_be_bytes. lia.
  - intros n s ts vs IH bs Hw.
    apply (wire_composite_inv _ ts) in Hw as (fields & Hf & ->); [|right; eauto].
    apply length_wire_fields in Hf; [|done]. cbn [payload_size].
    rewrite length_app, length_be_bytes. lia.
Qed.
End WireLemmas.

(** ** Sending implements the format *)

(** The equations of the loops. *)
Lemma wire_items_eq f v vs :
  wire_items f (v :: vs) = (a ← f v; b ← wire_items f vs; Some (a ++ b)).
Proof. reflexivity. Qed.

Lemma wire_fields_eq f t ts v vs :
  wire_fields f (t :: ts) (v :: vs) = (a ← f t v; b ← wire_fields f ts vs; Some (a ++ b)).
Proof. reflexivity. Qed.

Lemma send_items_eq f out v vs :
  send_items f out (v :: vs) = (out ← f out v; send_items f out vs).
Proof. reflexivity. Qed.

Lemma send_members_eq f t ts out v vs :
  send_members f (t :: ts) out (v :: vs) = (out ← f t out v; send_members f ts out vs).
Proof. reflexivity. Qed.

Lemma recv_items_eq f s v vs :
  recv_items f s (v :: vs) =
  ('(v, s) ← f s v; '(vs, s) ← recv_items f s vs; Ok (v :: vs, s)).
Proof. reflexivity. Qed.

Lemma recv_members_eq f t ts s v vs :
  recv_members f (t :: ts) s (v :: vs) =
  ('(v, s) ← f t s v; '(vs, s) ← recv_members f ts s vs; Ok (v :: vs, s)).
Proof. reflexivity. Qed.

Section SendLemmas.
Context (native : endian) (ticks : Z) (m : oid_map).

Lemma write_int32_bytes out z : write_int32 native out z = out ++ be_bytes 4 z.
Proof. apply write_int_bytes. Qed.

Lemma send_prim_wire p out v :
  prim_ok p v = true -> send_prim native ticks p out v = app out <$> prim_wire ticks p v.
Proof.
  intros Hok. destruct p, v; try discriminate; cbn [send_prim prim_wire prim_int];
    unfold write_int32; rewrite ?write_int_bytes, <- ?app_assoc; try reflexivity.
  - cbn. unfold write_raw, put. by rewrite <- app_assoc.
  - cbn. unfold write_raw, put. by rewrite <- app_assoc.
  - destruct (time_point_to_wire ticks z); [|done]. cbn. by rewrite write_int_bytes.
Qed.

(** A value is sent as its bytes, whatever the buffer holds already. *)
Definition sends (t : ctype) (v : value) : Prop :=
  forall out, send native ticks m t out v = app out <$> wire ticks m t v.

Lemma send_data_frame_wire t v out :
  has_type t v = true -> size_exact t v -> sends t v ->
  send_data_frame native ticks m t out v =
  app out <$> (frame (is_null t v) <$> wire ticks m t v).
Proof.
  intros Ht He Hs. unfold send_data_frame. rewrite Hs, write_int32_bytes, He.
  destruct (wire ticks m t v) as [bs|] eqn:Hw; [|done]. cbn.
  pose proof (length_wire ticks m t v bs Ht Hw) as Hl. unfold frame.
  destruct (is_null t v) eqn:Hn.
  - assert (payload_size t v = 0) as Hz by (destruct t, v; by cbn).
    rewrite Hz in Hl. destruct bs; [|discriminate]. by rewrite app_nil_r.
  - by rewrite Hl, <- app_assoc.
Qed.

Lemma send_frame_wire t v out :
  has_type t v = true -> size_exact t v -> sends t v ->
  send_frame native ticks m t out v =
  app out <$> ((fun p => be_bytes 4 (type_oid m t) ++ frame (is_null t v) p) <$> wire ticks m t v).
Proof.
  intros Ht He Hs. unfold send_frame. rewrite send_data_frame_wire, write_int32_bytes by done.
  destruct (wire ticks m t v); [|done]. cbn. by rewrite <- app_assoc.
Qed.

Lemma send_items_wire t vs out :
  Forall (fun v => has_type t v = true /\ size_exact t v /\ sends t v) vs ->
  send_items (send_data_frame native ticks m t) out vs =
  app out <$> wire_items (fun w => frame (is_null t w) <$> wire ticks m t w) vs.
Proof.
  intros Hall. revert out. induction Hall as [|v vs (Ht & He & Hs) _ IH]; intros out.
  - cbn. by rewrite app_nil_r.
  - rewrite send_items_eq, wire_items_eq, send_data_frame_wire by done.
    destruct (wire ticks m t v) as [bs|]; [|done].
    cbn [fmap option_fmap option_map mbind option_bind]. rewrite IH.
    destruct (wire_items _ vs); [|done]. cbn. by rewrite <- app_assoc.
Qed.

Lemma send_members_wire ts vs out :
  Forall2 (fun t v => has_type t v = true /\ size_exact t v /\ sends t v) ts vs ->
  send_members (send_frame native ticks m) ts out vs =
  app out <$> wire_fields (fun u w => (fun p => be_bytes 4 (type_oid m u) ++
    frame (is_null u w) p) <$> wire ticks m u w) ts vs.
Proof.
  intros Hall. revert out. induction Hall as [|t v ts vs (Ht & He & Hs) _ IH]; intros out.
  - cbn. by rewrite app_nil_r.
  - rewrite send_members_eq, wire_fields_eq, send_frame_wire by done.
    destruct (wire ticks m t v) as [bs|]; [|done].
    cbn [fmap option_fmap option_map mbind option_bind]. rewrite IH.
    destruct (wire_fields _ ts vs); [|done]. cbn. by rewrite <- !app_assoc.
Qed.
Lemma count_wrap_array t vs :
  20 + sum_items (fun w => 4 + payload_size t w) vs <= INT32_MAX ->
  0 <= Z.of_nat (length vs) <= INT32_MAX.
Proof.
  enough (4 * Z.of_nat (length vs) <= sum_items (fun w => 4 + payload_size t w) vs) by lia.
  induction vs as [|v vs IH]; [done|]. rewrite sum_items_cons. cbn [length].
  pose proof (payload_size_nonneg t v). lia.
Qed.

Lemma count_wrap_composite ts vs :
  length ts = length vs ->
  4 + sum_fields (fun u w => 8 + payload_size u w) ts vs <= INT32_MAX ->
  0 <= Z.of_nat (length ts) <= INT32_MAX.
Proof.
  intros Hl. enough (8 * Z.of_nat (length ts) <=
    sum_fields (fun u w => 8 + payload_size u w) ts vs) by lia.
  revert vs Hl. induction ts as [|t ts IH]; intros [|v vs] Hl; try done.
  rewrite sum_fields_cons. cbn [length] in *. specialize (IH vs ltac:(lia)).
  pose proof (payload_size_nonneg t v). lia.
Qed.

Lemma send_array_wire c u vs :
  Forall (fun v => has_type u v = true /\ size_exact u v /\ sends u v) vs ->
  20 + sum_items (fun w => 4 + payload_size u w) vs <= INT32_MAX ->
  sends (c_array c u) (VList vs).
Proof.
  intros Hall Hle out. pose proof (count_wrap_array u vs Hle) as Hc.
  change (send native ticks m (c_array c u) out (VList vs)) with
    (send_items (send_data_frame native ticks m u)
      (write_int32 native (write_int32 native (write_int32 native (write_int32 native
        (write_int32 native out 1) 0) (type_oid m u)) (wrapS 32 (Z.of_nat (length vs)))) 0) vs).
  rewrite send_items_wire, !write_int32_bytes, wrap32 by (done || lia).
  cbn [wire]. destruct (wire_items _ vs); [|done]. cbn. by rewrite <- !app_assoc.
Qed.

Lemma send_composite_wire t ts vs :
  composite_of t ts ->
  Forall2 (fun t v => has_type t v = true /\ size_exact t v /\ sends t v) ts vs ->
  4 + sum_fields (fun u w => 8 + payload_size u w) ts vs <= INT32_MAX ->
  sends t (VList vs).
Proof.
  intros Ht Hall Hle out. pose proof (Forall2_length _ _ _ Hall) as Hl.
  pose proof (count_wrap_composite ts vs Hl Hle) as Hc.
  assert (send native ticks m t out (VList vs) =
    send_members (send_frame native ticks m) ts
      (write_int32 native out (wrapS 32 (Z.of_nat (length ts)))) vs) as ->
    by (destruct Ht as [->|(n & s & ->)]; reflexivity).
  rewrite send_members_wire, write_int32_bytes, wrap32 by (done || lia).
  destruct Ht as [->|(n & s & ->)]; cbn [wire];
    (destruct (wire_fields _ ts vs); [|done]); cbn; by rewrite <- app_assoc.
Qed.

Lemma sends_unwrap k u w : is_nullable u = false -> sends u w -> sends (c_nullable k u) (VSome w).
Proof.
  intros Hu Hs out. cbn [wire]. rewrite <- Hs. unfold send, is_null. rewrite Hu. by destruct u.
Qed.

(** Conditions under which a value is sent: the sizes fit and the sizes of the
    elements of an array are those of its first element. *)
Definition sendable_value (t : ctype) (v : value) : bool :=
  has_type t v && sendable t && uniform t v && (payload_size t v <=? INT32_MAX).

(** What the loops over elements and members need of each. *)
Definition sends_exactly (t : ctype) (v : value) : Prop := size_exact t v /\ sends t v.

Definition sends_if (t : ctype) (v : value) : Prop :=
  sendable t = true -> uniform t v = true -> payload_size t v <= INT32_MAX -> sends t v.

Lemma sends_if_exactly t v :
  has_type t v = true /\ sends_if t v ->
  has_type t v = true /\ (sendable t = true -> uniform t v = true ->
    payload_size t v <= INT32_MAX -> sends_exactly t v).
Proof.
  intros [Ht Hs]. split; [done|]. intros H1 H2 H3. split; [by apply size_exact_typed | auto].
Qed.

Lemma sends_composite t ts vs :
  composite_of t ts -> Forall2 (fun t v => has_type t v = true /\ sends_if t v) ts vs ->
  sends_if t (VList vs).
Proof.
  intros Hc IH Hs Hu Hle.
  assert (forallb sendable ts = true /\ members_all uniform ts vs = true /\
    4 + sum_fields (fun u w => 8 + payload_size u w) ts vs <= INT32_MAX) as (H1 & H2 & H3).
  { destruct Hc as [->|(n & s & ->)]; cbn [sendable uniform] in Hs, Hu; bool_props; done. }
  apply (send_composite_wire t ts); [done| |done].
  apply sendable_field; [done..|]. eapply Forall2_impl; [exact IH|].
  apply sends_if_exactly.
Qed.

Lemma sends_typed t v : has_type t v = true -> sends_if t v.
Proof.
  intros Hv. pattern t, v. apply typed_ind; [..|exact Hv]; clear t v Hv.
  - intros p v Hok _ _ _ out. by apply send_prim_wire.
  - intros _ _ _ out. cbn. by rewrite app_nil_r.
  - intros k u _ _ _ out. cbn. by rewrite app_nil_r.
  - intros k u w IH Hs Hu Hle. cbn in Hs. bool_props. apply sends_unwrap; auto.
  - intros c u vs _ IH Hs Hu Hle. cbn in Hs, Hu. bool_props.
    apply send_array_wire; [|done]. apply sendable_item; [done..|].
    eapply Forall_impl; [exact IH|]. apply sends_if_exactly.
  - intros ts vs IH. apply (sends_composite _ ts); [by left | done].
  - intros n s ts vs IH. apply (sends_composite _ ts); [right; eauto | done].
Qed.
End SendLemmas.

Lemma sendable_value_spec t v :
  sendable_value t v = true ->
  has_type t v = true /\ sendable t = true /\ uniform t v = true /\ payload_size t v <= INT32_MAX.
Proof. unfold sendable_value. intros H. bool_props. done. Qed.

(** C4. Sending implements the wire format: whatever the host and the buffer, a
    value is appended as the bytes of the format, in which every length is the
    number of bytes that follow, and [size_of], which computes the lengths
    beforehand, is the number of bytes sent (-1 for a null).  The value is one of its
    type, has at most INT32_MAX bytes, and is [uniform]: the elements of an array whose
    element type has a static size are all null or none is.  For an array of such a
    type that mixes nulls with values [size_of] is wrong
    ([mixed_null_array_size_wrong]). *)
Theorem send_refines_wire native ticks m t v out bs :
  sendable_value t v = true -> wire ticks m t v = Some bs ->
  send native ticks m t out v = Some (out ++ bs) /\
  size_of t v = if is_null t v then null_state_size else Z.of_nat (length bs).
Proof.
  intros (Ht & Hs & Hu & Hle)%sendable_value_spec Hw. split.
  - rewrite (sends_typed native ticks m t v), Hw by done. done.
  - rewrite (length_wire ticks m t v bs Ht Hw). by apply size_exact_typed.
Qed.

Lemma send_refines_wire_witness :
  let t := c_tuple [c_prim p_text; c_array std_vector (c_nullable std_optional (c_prim p_text))] in
  let v := VList [VBytes [x68; x69]; VList [VNull; VSome (VBytes [])]] in
  exists bs, send little 1000 [] t [x2a] v = Some ([x2a] ++ bs) /\
    size_of t v = Z.of_nat (length bs).
Proof.
  intros t v. eexists. apply (send_refines_wire little 1000 [] t v [x2a]);
    vm_compute; reflexivity.
Defined.

(** The length of an array that mixes nulls with values of a type of a static
    size is not the number of the bytes sent: the size of the first element is
    taken for all. *)
Theorem mixed_null_array_size_wrong :
  exists t v bs, has_type t v = true /\ sendable t = true /\
    send little 1000 [] t [] v = Some bs /\ size_of t v <> Z.of_nat (length bs).
Proof.
  exists (c_array std_vector (c_nullable std_optional (c_prim p_int4))),
    (VList [VSome (VInt 1); VNull]).
  eexists. split; [reflexivity|]. split; [reflexivity|]. split; [reflexivity|].
  vm_compute. discriminate.
Qed.

End BinaryIO.
