(* ===== verification/BinaryRecv.v ===== *)
(** What receiving does: the round trip with sending, the errors, and the types of
    the received values.  The operations are those of [BinaryIO]. *)

From S2P Require Import Prelude ErrorCode Errors Endian Streams PgTypes TypeSystem Chrono.
From S2P Require Import BinaryIO.
From Stdlib Require Import ZArith Lia List String Strings.Byte.
From stdpp Require Import base tactics list strings.

Open Scope Z_scope.

Module BinaryRecv.

Import Endian Streams PgTypes TypeSystem Chrono BinaryIO.

(** A value every time point of which is a whole number of microseconds: the
    others lose their fraction on the wire. *)
Definition prim_whole (ticks : Z) (p : prim) (v : value) : bool :=
  match p, v with
  | p_timestamp, VInt z =>
      match time_point_to_wire ticks z with
      | Some w => bool_decide (time_point_of_wire ticks w = Some z) && in_S 64 w
      | None => false
      end
  | _, _ => true
  end.

Fixpoint whole (ticks : Z) (t : ctype) (v : value) : bool :=
  match t, v with
  | c_prim p, _ => prim_whole ticks p v
  | c_nullable _ u, VSome w => whole ticks u w
  | c_array _ u, VList vs => forallb (whole ticks u) vs
  | (c_tuple ts | c_struct _ _ ts), VList vs => members_all (whole ticks) ts vs
  | _, _ => true
  end.

Section Recv.
Context (native : endian) (ticks : Z) (m : oid_map).

Lemma read_int32 z rest :
  in_S 32 z = true ->
  read_int native int32 (istream_open (be_bytes 4 z ++ rest)) = (z, istream_open rest).
Proof. intros H. apply (read_int_bytes native int32); [cbn; lia | done]. Qed.

Lemma read_oid z rest :
  in_U 32 z = true ->
  read_int native oid_t (istream_open (be_bytes 4 z ++ rest)) = (z, istream_open rest).
Proof. intros H. apply (read_int_bytes native oid_t); [cbn; lia | done]. Qed.

Lemma read_open {A} (a : A) data : read (a, istream_open data) = Ok (a, istream_open data).
Proof. reflexivity. Qed.

Lemma recv_bytes_app bs rest size :
  size = Z.of_nat (length bs) ->
  recv_bytes size (istream_open (bs ++ rest)) = Ok (VBytes bs, istream_open rest).
Proof.
  intros ->. unfold recv_bytes, resize_bytes. destruct (Z.ltb_spec (Z.of_nat (length bs)) 0); [lia|].
  cbn [mbind outcome_bind]. by rewrite Nat2Z.id, istream_read_app.
Qed.

Lemma recv_versioned_app bs rest size :
  size = 1 + Z.of_nat (length bs) ->
  recv_versioned size (istream_open ((x01 :: bs) ++ rest)) = Ok (VBytes bs, istream_open rest).
Proof.
  intros ->. unfold recv_versioned.
  destruct (Z.ltb_spec (1 + Z.of_nat (length bs)) 1); [lia|].
  change ((x01 :: bs) ++ rest) with (x01 :: (bs ++ rest)).
  rewrite read_char_cons, read_open. cbn [mbind outcome_bind]. apply recv_bytes_app. lia.
Qed.

Lemma read_int_wire t z rest :
  (0 < int_bytes t)%nat -> int_range t z = true ->
  ('(z, s) ← read (read_int native t (istream_open (be_bytes (int_bytes t) z ++ rest)));
   Ok (VInt z, s)) = Ok (VInt z, istream_open rest).
Proof. intros Hn Hz. by rewrite read_int_bytes, read_open by done. Qed.

Lemma recv_interval_wire z rest size :
  in_S 64 z = true ->
  recv_prim native ticks p_interval size
    (istream_open ((be_bytes 8 (iv_microseconds (from_chrono_duration z)) ++
       be_bytes 4 (iv_days (from_chrono_duration z)) ++
       be_bytes 4 (iv_months (from_chrono_duration z))) ++ rest)) =
  Ok (VInt z, istream_open rest).
Proof.
  intros Hz. destruct (from_chrono_duration_ok z Hz) as (Hok & _ & _).
  pose proof (interval_send_recv z Hz) as Hr. revert Hok Hr.
  destruct (from_chrono_duration z) as [us d mo]. unfold interval_ok.
  cbn [iv_microseconds iv_days iv_months]. intros Hok Hr. bool_props.
  unfold recv_prim. rewrite <- !app_assoc.
  rewrite (read_int_bytes native int64) by (done || (cbn; lia)).
  rewrite !read_int32, read_open by done. cbn [mbind outcome_bind].
  by rewrite Hr.
Qed.

Lemma recv_timestamp_wire z w rest size :
  time_point_of_wire ticks w = Some z -> in_S 64 w = true ->
  recv_prim native ticks p_timestamp size (istream_open (be_bytes 8 w ++ rest)) =
  Ok (VInt z, istream_open rest).
Proof.
  intros Hw Hr. unfold recv_prim.
  rewrite (read_int_bytes native int64) by (done || (cbn; lia)).
  rewrite read_open. cbn [mbind outcome_bind]. by rewrite Hw.
Qed.

Lemma recv_char_wire z rest :
  in_S 8 z = true ->
  ('(c, s) ← read (read_char (istream_open (be_bytes 1 z ++ rest)));
   Ok (VInt (wrapS 8 (byte_val c)), s)) = Ok (VInt z, istream_open rest).
Proof.
  intros Hz. change (be_bytes 1 z ++ rest) with (byte_of z :: rest).
  rewrite read_char_cons, read_open. cbn [mbind outcome_bind].
  rewrite byte_val_of. change (z mod 256) with (wrapU 8 z).
  by rewrite wrapS_wrapU, wrapS_small.
Qed.

Lemma recv_prim_wire p v bs rest size :
  prim_ok p v = true -> prim_whole ticks p v = true -> prim_wire ticks p v = Some bs ->
  size = Z.of_nat (length bs) ->
  recv_prim native ticks p size (istream_open (bs ++ rest)) = Ok (v, istream_open rest).
Proof.
  intros Hok Hw Hb Hsize. pose proof (length_prim_wire ticks p v bs Hok Hb) as Hl.
  rewrite Hl in Hsize. clear Hl.
  destruct p, v; try discriminate; cbn [prim_size] in Hsize; subst size;
    cbn [prim_wire prim_int fmap option_fmap option_map] in Hb;
    try (injection Hb as <-);
    lazymatch goal with
    | |- recv_prim _ _ p_text _ _ = _ => by apply recv_bytes_app
    | |- recv_prim _ _ p_bytea _ _ = _ => by apply recv_bytes_app
    | |- recv_prim _ _ p_json _ _ = _ => by apply recv_bytes_app
    | |- recv_prim _ _ p_name _ _ = _ => by apply recv_bytes_app
    | |- recv_prim _ _ p_jsonb _ _ = _ => by apply recv_versioned_app
    | |- recv_prim _ _ p_ltree _ _ = _ => by apply recv_versioned_app
    | |- recv_prim _ _ p_interval _ _ = _ => by apply recv_interval_wire
    | |- recv_prim _ _ p_char _ _ = _ => by apply recv_char_wire
    | |- recv_prim _ _ p_bool _ _ = _ => idtac
    | |- recv_prim _ _ p_uuid _ _ = _ => idtac
    | |- recv_prim _ _ p_timestamp _ _ = _ => idtac
    | |- _ => unfold recv_prim, check_size;
        match goal with |- context [size_of_prim ?p ?v] =>
          let x := eval vm_compute in (size_of_prim p v) in change (size_of_prim p v) with x end;
        cbn [Z.eqb Pos.eqb prim_int]; apply read_int_wire; [cbn; lia | exact Hok]
    end.
  - by destruct b.
  - apply Nat.eqb_eq in Hok. unfold recv_prim. by rewrite istream_read_app_n.
  - cbn in Hw. destruct (time_point_to_wire ticks z) as [w|]; [|discriminate].
    bool_props. injection Hb as <-. apply recv_timestamp_wire; [|done].
    by eapply bool_decide_eq_true_1.
Qed.
(** The bytes of a value are received as the value, into a new object. *)
Definition receives (t : ctype) (v : value) : Prop :=
  forall bs rest size, wire ticks m t v = Some bs -> is_null t v = false ->
  size = Z.of_nat (length bs) ->
  recv_impl native ticks m (unwrap_type t) size (istream_open (bs ++ rest))
    (default_value (unwrap_type t)) = Ok (unwrap t v, istream_open rest).

Definition oid_matches (t : ctype) (oid : option Z) : Prop :=
  oid = None \/ oid = Some (type_oid m t).

Lemma rewrap_unwrap t v :
  has_type t v = true -> is_null t v = false -> rewrap t (unwrap t v) = v.
Proof. by destruct t, v. Qed.

Lemma init_default t : init_unwrap t (default_value t) = default_value (unwrap_type t).
Proof. by destruct t. Qed.

Lemma oid_matches_accepts t oid :
  oid_matches t oid ->
  match oid with Some o => negb (accepts_oid m t o) | None => false end = false.
Proof. intros [->| ->]; [done|]. unfold accepts_oid. by rewrite Z.eqb_refl. Qed.

Lemma recv_wire t v bs rest size oid :
  has_type t v = true -> receives t v -> oid_matches t oid -> wire ticks m t v = Some bs ->
  size = (if is_null t v then null_state_size else Z.of_nat (length bs)) ->
  recv native ticks m t oid size (istream_open ((if is_null t v then [] else bs) ++ rest))
    (default_value t) = Ok (v, istream_open rest).
Proof.
  intros Ht Hr Ho Hw ->. unfold recv, recv_with. rewrite oid_matches_accepts by done.
  destruct (is_null t v) eqn:Hn.
  - unfold is_null in Hn. bool_props. replace (is_nullable t) with true by done. cbn.
    by destruct t, v.
  - replace (Z.of_nat (length bs) =? null_state_size) with false
      by (symmetry; apply Z.eqb_neq; unfold null_state_size; lia).
    rewrite !andb_false_r. rewrite init_default, (Hr bs rest) by done.
    cbn [mbind outcome_bind]. by rewrite rewrap_unwrap.
Qed.

Lemma recv_data_frame_wire t v bs rest oid :
  has_type t v = true -> receives t v -> oid_matches t oid -> wire ticks m t v = Some bs ->
  Z.of_nat (length bs) <= INT32_MAX ->
  recv_data_frame native ticks m t oid (istream_open (frame (is_null t v) bs ++ rest))
    (default_value t) = Ok (v, istream_open rest).
Proof.
  intros Ht Hr Ho Hw Hle. unfold recv_data_frame.
  pose proof (recv_wire t v bs rest _ oid Ht Hr Ho Hw eq_refl) as H. unfold frame.
  destruct (is_null t v).
  - rewrite read_int32, read_open by done. exact H.
  - rewrite <- app_assoc, read_int32, read_open; [exact H|].
    apply in_S32_iff. lia.
Qed.

Hypothesis oids_ok : oid_map_ok m = true.

Lemma recv_frame_wire t v bs rest :
  has_type t v = true -> receives t v -> wire ticks m t v = Some bs ->
  Z.of_nat (length bs) <= INT32_MAX ->
  recv_frame native ticks m t
    (istream_open ((be_bytes 4 (type_oid m t) ++ frame (is_null t v) bs) ++ rest))
    (default_value t) = Ok (v, istream_open rest).
Proof.
  intros Ht Hr Hw Hle. unfold recv_frame. rewrite <- app_assoc.
  rewrite read_oid, read_open by by apply type_oid_range. cbn [mbind outcome_bind].
  apply recv_data_frame_wire; try done. by right.
Qed.

(** The elements and the members, one frame after another. *)
Definition receivable_part (t : ctype) (v : value) : Prop :=
  has_type t v = true /\ payload_size t v <= INT32_MAX /\ receives t v.

Lemma recv_items_wire t vs items rest :
  Forall (receivable_part t) vs ->
  wire_items (fun w => frame (is_null t w) <$> wire ticks m t w) vs = Some items ->
  recv_items (recv_data_frame native ticks m t None) (istream_open (items ++ rest))
    (replicate (length vs) (default_value t)) = Ok (vs, istream_open rest).
Proof.
  intros Hall. revert items. induction Hall as [|v vs (Ht & Hle & Hr) _ IH]; intros items Hw.
  - by injection Hw as <-.
  - apply wire_items_cons in Hw as (a & b & Ha & Hb & ->).
    destruct (wire ticks m t v) as [bs|] eqn:Hp; [|discriminate]. injection Ha as <-.
    cbn [length replicate]. rewrite recv_items_eq, <- app_assoc.
    pose proof (length_wire ticks m t v bs Ht Hp).
    rewrite (recv_data_frame_wire t v bs) by (done || lia || by left).
    cbn [mbind outcome_bind]. by rewrite IH.
Qed.

Lemma recv_members_wire ts vs fields rest :
  Forall2 receivable_part ts vs ->
  wire_fields (fun u w => (fun p => be_bytes 4 (type_oid m u) ++ frame (is_null u w) p) <$>
    wire ticks m u w) ts vs = Some fields ->
  recv_members (recv_frame native ticks m) ts (istream_open (fields ++ rest))
    (map default_value ts) = Ok (vs, istream_open rest).
Proof.
  intros Hall. revert fields. induction Hall as [|t v ts vs (Ht & Hle & Hr) _ IH]; intros fields Hw.
  - by injection Hw as <-.
  - apply wire_fields_cons in Hw as (a & b & Ha & Hb & ->).
    destruct (wire ticks m t v) as [bs|] eqn:Hp; [|discriminate]. injection Ha as <-.
    cbn [map]. rewrite recv_members_eq, <- (app_assoc _ b).
    pose proof (length_wire ticks m t v bs Ht Hp).
    rewrite (recv_frame_wire t v bs) by (done || lia).
    cbn [mbind outcome_bind]. by rewrite IH.
Qed.
Lemma sendable_unwrap_oid u : sendable u = true -> type_oid m (unwrap_type u) = type_oid m u.
Proof.
  intros Hs. assert (unwrap_type (unwrap_type u) = unwrap_type u) as Hu.
  { destruct u; try done. cbn in *. bool_props. by destruct u. }
  unfold type_oid, type_traits. by rewrite Hu.
Qed.

Lemma fit_array_default c u n :
  container_ok c n = true -> 0 < Z.of_nat n <= INT32_MAX ->
  exists out, default_value (c_array c u) = VList out /\
    fit_array_size c u out (Z.of_nat n) = Ok (replicate n (default_value u)).
Proof.
  intros Hc Hn. destruct c as [| |k]; cbn [default_value]; eexists; (split; [reflexivity|]);
    unfold fit_array_size, resize_bytes.
  1, 2: destruct (Z.ltb_spec (Z.of_nat n) 0); [lia|]; cbn [mbind outcome_bind];
    by rewrite Nat2Z.id, take_nil, Nat.sub_0_r.
  - apply Nat.eqb_eq in Hc as <-. rewrite wrap32 by (unfold INT32_MAX in *; lia).
    by rewrite Z.eqb_refl.
Qed.

Lemma default_empty_array c u :
  container_ok c 0 = true -> default_value (c_array c u) = VList [].
Proof. destruct c as [| |[|k]]; by cbn. Qed.

(** The header of an array, then its elements. *)
Lemma recv_array_wire c u vs items rest :
  container_ok c (length vs) = true -> sendable u = true ->
  Forall (receivable_part u) vs -> Z.of_nat (length vs) <= INT32_MAX ->
  wire_items (fun w => frame (is_null u w) <$> wire ticks m u w) vs = Some items ->
  exists out, default_value (c_array c u) = VList out /\
  recv_array_with native m (recv_data_frame native ticks m u None) c u
    (istream_open (be_bytes 4 1 ++ be_bytes 4 0 ++ be_bytes 4 (type_oid m u) ++
       be_bytes 4 (Z.of_nat (length vs)) ++ be_bytes 4 0 ++ items ++ rest)) out =
  Ok (vs, istream_open rest).
Proof.
  intros Hc Hs Hall Hle Hw.
  assert (in_S 32 (Z.of_nat (length vs)) = true) as Hin by (apply in_S32_iff; lia).
  assert (forall out,
    recv_array_with native m (recv_data_frame native ticks m u None) c u
      (istream_open (be_bytes 4 1 ++ be_bytes 4 0 ++ be_bytes 4 (type_oid m u) ++
         be_bytes 4 (Z.of_nat (length vs)) ++ be_bytes 4 0 ++ items ++ rest)) out =
    (if Z.of_nat (length vs) =? 0 then Ok (out, istream_open (items ++ rest)) else
     out ← fit_array_size c u out (Z.of_nat (length vs));
     recv_items (recv_data_frame native ticks m u None) (istream_open (items ++ rest)) out))
    as Hstep.
  { intros out. unfold recv_array_with.
    rewrite !read_int32, read_oid, read_open by (done || by apply type_oid_range).
    cbn [mbind outcome_bind Z.ltb Z.compare Pos.compare Pos.compare_cont].
    unfold accepts_oid. rewrite sendable_unwrap_oid, Z.eqb_refl by done. cbn [negb].
    rewrite !read_int32, read_open by done. done. }
  destruct (Z.eqb_spec (Z.of_nat (length vs)) 0) as [Hz|Hnz].
  - destruct vs; [|discriminate]. injection Hw as <-.
    exists []. rewrite Hstep. split; [by apply default_empty_array | done].
  - destruct (fit_array_default c u (length vs) Hc ltac:(lia)) as (out & Hd & Hf).
    exists out. split; [done|]. rewrite Hstep, Hf. cbn [mbind outcome_bind].
    by apply recv_items_wire.
Qed.

Lemma recv_composite_wire ts vs fields rest :
  Forall2 receivable_part ts vs -> Z.of_nat (length ts) <= INT32_MAX ->
  wire_fields (fun u w => (fun p => be_bytes 4 (type_oid m u) ++ frame (is_null u w) p) <$>
    wire ticks m u w) ts vs = Some fields ->
  recv_composite_with native (recv_frame native ticks m) ts
    (istream_open (be_bytes 4 (Z.of_nat (length ts)) ++ fields ++ rest))
    (map default_value ts) = Ok (vs, istream_open rest).
Proof.
  intros Hall Hle Hw. unfold recv_composite_with.
  assert (in_S 32 (Z.of_nat (length ts)) = true) as Hin by (apply in_S32_iff; lia).
  rewrite read_int32, read_open by done. cbn [mbind outcome_bind].
  rewrite wrap32, Z.eqb_refl by lia. by apply recv_members_wire.
Qed.

(** The induction over the type of the value. *)
Definition receives_if (t : ctype) (v : value) : Prop :=
  sendable t = true -> whole ticks t v = true -> payload_size t v <= INT32_MAX -> receives t v.

Lemma parts_of_items u vs :
  sendable u = true -> forallb (whole ticks u) vs = true ->
  20 + sum_items (fun w => 4 + payload_size u w) vs <= INT32_MAX ->
  Forall (fun v => has_type u v = true /\ receives_if u v) vs ->
  Forall (receivable_part u) vs.
Proof.
  intros Hs Hw Hle Hall. revert Hw Hle. induction Hall as [|v vs [Ht Hv] _ IH]; [constructor|].
  rewrite sum_items_cons. cbn [forallb]. intros Hw Hle. bool_props.
  pose proof (payload_size_nonneg u v). pose proof (sum_items_nonneg u vs).
  constructor; [|apply IH; lia || done]. repeat split; [done | lia | apply Hv; lia || done].
Qed.

Lemma parts_of_fields ts vs :
  forallb sendable ts = true -> members_all (whole ticks) ts vs = true ->
  4 + sum_fields (fun u w => 8 + payload_size u w) ts vs <= INT32_MAX ->
  Forall2 (fun t v => has_type t v = true /\ receives_if t v) ts vs ->
  Forall2 receivable_part ts vs.
Proof.
  intros Hs Hw Hle Hall. revert Hs Hw Hle. induction Hall as [|t v ts vs [Ht Hv] _ IH]; [constructor|].
  rewrite members_all_cons, sum_fields_cons. cbn [forallb]. intros Hs Hw Hle. bool_props.
  pose proof (payload_size_nonneg t v). pose proof (sum_fields_nonneg ts vs).
  constructor; [|apply IH; lia || done]. repeat split; [done | lia | apply Hv; lia || done].
Qed.

Lemma receives_composite t ts vs :
  composite_of t ts -> Forall2 (fun t v => has_type t v = true /\ receives_if t v) ts vs ->
  receives_if t (VList vs).
Proof.
  intros Hc IH Hs Hw Hle bs rest size Hb _ _.
  assert (forallb sendable ts = true /\ members_all (whole ticks) ts vs = true /\
    4 + sum_fields (fun u w => 8 + payload_size u w) ts vs <= INT32_MAX) as (H1 & H2 & H3).
  { destruct Hc as [->|(n & s & ->)]; cbn [sendable whole] in Hs, Hw; bool_props; done. }
  apply (wire_composite_inv ticks m t ts) in Hb as (fields & Hf & ->); [|done].
  pose proof (count_wrap_composite ts vs (Forall2_length _ _ _ IH) H3) as [_ Hc'].
  pose proof (recv_composite_wire ts vs fields rest (parts_of_fields ts vs H1 H2 H3 IH) Hc' Hf) as Hr.
  rewrite <- app_assoc. destruct Hc as [->|(n & s & ->)]; cbn [unwrap_type unwrap default_value];
    cbn [recv_impl]; by setoid_rewrite Hr.
Qed.

Lemma receives_typed t v : has_type t v = true -> receives_if t v.
Proof.
  intros Hv. pattern t, v. apply typed_ind; [..|exact Hv]; clear t v Hv.
  - intros p v Hok _ Hw _ bs rest size Hb _ Hsize. by apply recv_prim_wire.
  - by intros _ _ _ bs rest size _ H.
  - by intros k u _ _ _ bs rest size _ H.
  - intros k u w IH Hs Hw Hle bs rest size Hb _ Hsize. cbn in Hs, Hb. bool_props.
    assert (unwrap_type u = u /\ unwrap u w = w /\ is_null u w = false) as (E1 & E2 & E3)
      by (destruct u; done).
    specialize (IH ltac:(done) Hw Hle bs rest size Hb E3 Hsize). by rewrite E1, E2 in IH.
  - intros c u vs Hc IH Hs Hw Hle bs rest size Hb _ _. cbn in Hs, Hw. bool_props.
    pose proof (count_wrap_array u vs Hle) as [_ Hc'].
    apply wire_array_inv in Hb as (items & Hi & ->). rewrite <- !app_assoc.
    destruct (recv_array_wire c u vs items rest) as (out & Hd & Hr); try done.
    { by apply parts_of_items. }
    cbn [unwrap_type unwrap]. rewrite Hd. cbn [recv_impl]. by setoid_rewrite Hr.
  - intros ts vs IH. apply (receives_composite _ ts); [by left | done].
  - intros n s ts vs IH. apply (receives_composite _ ts); [right; eauto | done].
Qed.
End Recv.

(** ** The types of the received values *)

Section RecvTypes.
Context (native : endian) (ticks : Z) (m : oid_map).

Lemma default_has_type t : has_type t (default_value t) = true.
Proof.
  assert (forall ts, Forall (fun t => has_type t (default_value t) = true) ts ->
    members_all has_type ts (map default_value ts) = true) as Hmem.
  { induction 1 as [|x ts Hx _ IH]; [done|]. cbn [map]. by rewrite members_all_cons, Hx, IH. }
  induction t as [p| |k u IH|c u IH|ts IH|n s ts IH] using ctype_nested_ind; cbn; auto.
  - by destruct p.
  - destruct c as [| |n]; [done|done|]. cbn. rewrite length_replicate, Nat.eqb_refl. cbn.
    apply forallb_forall. intros x Hx. apply list_elem_of_In, elem_of_replicate in Hx as [-> _]. done.
Qed.

Lemma int_cast_in_range t z : (0 < int_bytes t)%nat -> int_range t (int_cast t z) = true.
Proof.
  intros Hn. unfold int_range, int_cast, int_bits.
  destruct (int_signed t); [apply wrapS_in_S | apply wrapU_in_U]; lia.
Qed.

Lemma read_int_in_range t s : (0 < int_bytes t)%nat -> int_range t (fst (read_int native t s)) = true.
Proof.
  intros Hn. unfold read_int. destruct (istream_read s (int_bytes t)). cbn.
  by apply int_cast_in_range.
Qed.

Lemma read_inv {A} (r : A * istream) a s : read r = Ok (a, s) -> r = (a, s) /\ unexpected_eof s = false.
Proof.
  unfold read, read_checked, raise. destruct (unexpected_eof (snd r)) eqn:He; [discriminate|].
  intros [= ->]. done.
Qed.

Lemma istream_read_exact s n got s' :
  istream_read s n = (got, s') -> unexpected_eof s' = false -> length got = n.
Proof.
  unfold istream_read, istreambuf_read. intros [= <- <-]. cbn. intros He.
  apply orb_false_iff in He as [_ He]. apply negb_false_iff in He.
  by apply Nat.eqb_eq in He.
Qed.

Lemma time_point_of_wire_range w z : time_point_of_wire ticks w = Some z -> in_S 64 z = true.
Proof.
  unfold time_point_of_wire, mul64, add64. destruct (checkS 64 _); [|discriminate].
  cbn. intros H. by apply checkS_inv in H as [-> H].
Qed.

Lemma to_chrono_duration_range i z :
  interval_ok i = true -> to_chrono_duration i = Some z -> in_S 64 z = true.
Proof.
  intros Hi. rewrite to_chrono_duration_spec by done. destruct (overflow_band i); [discriminate|].
  intros [= <-]. apply in_S64_iff. unfold clamp64, INT64_MIN, INT64_MAX. lia.
Qed.

Lemma recv_bytes_inv size s v s' : recv_bytes size s = Ok (v, s') -> exists bs, v = VBytes bs.
Proof.
  unfold recv_bytes. intros H. outcome_inv. destruct r0. simplify_eq. eauto.
Qed.

Lemma read_int_value t s z s' :
  (0 < int_bytes t)%nat -> read (read_int native t s) = Ok (z, s') -> int_range t z = true.
Proof.
  intros Hn H. apply read_inv in H as [H _]. pose proof (read_int_in_range t s Hn) as Hr.
  by rewrite H in Hr.
Qed.

Lemma check_size_inv {A} p size (k : outcome stop A) a : check_size p size k = Ok a -> k = Ok a.
Proof. unfold check_size. by destruct (size =? _). Qed.

Lemma recv_interval_range size s v s' :
  recv_prim native ticks p_interval size s = Ok (v, s') -> prim_ok p_interval v = true.
Proof.
  cbn [recv_prim]. pose proof (read_int_in_range int64 s ltac:(cbn; lia)) as H1.
  destruct (read_int native int64 s) as [us s1].
  pose proof (read_int_in_range int32 s1 ltac:(cbn; lia)) as H2.
  destruct (read_int native int32 s1) as [d s2]. intros H. outcome_inv.
  destruct r as [mo s3]. apply read_int_value in Hr; [|cbn; lia]. outcome_inv. simplify_eq.
  unfold defined in Hr0. destruct (to_chrono_duration _) as [z|] eqn:Hz; [|discriminate].
  simplify_eq. apply to_chrono_duration_range in Hz; [done|].
  change (in_S 64 us = true) in H1. change (in_S 32 d = true) in H2.
  change (in_S 32 mo = true) in Hr. unfold interval_ok. cbn [iv_microseconds iv_days iv_months].
  by rewrite H1, H2, Hr.
Qed.

Lemma recv_prim_type p size s v s' :
  recv_prim native ticks p size s = Ok (v, s') -> prim_ok p v = true.
Proof.
  destruct p; intros H;
    lazymatch goal with
    | |- prim_ok p_interval _ = true => by eapply recv_interval_range
    | |- prim_ok p_timestamp _ = true => idtac
    | |- prim_ok p_uuid _ = true => idtac
    | |- _ => first
      [ apply recv_bytes_inv in H as [bs ->]; reflexivity
      | unfold recv_prim, recv_versioned in H; destruct (size <? 1); [discriminate|];
        outcome_inv; destruct r; apply recv_bytes_inv in H as [bs ->]; reflexivity
      | apply check_size_inv in H; cbn [prim_int] in H; outcome_inv; destruct r as [z s1];
        try (apply read_int_value in Hr; [|cbn; lia]); simplify_eq; try done;
        by apply wrapS_in_S ]
    end.
  - cbn [recv_prim] in H. outcome_inv. destruct r as [bs s1]. simplify_eq.
    apply read_inv in Hr as [Hr He]. apply Nat.eqb_eq. by eapply istream_read_exact.
  - cbn [recv_prim] in H. outcome_inv. destruct r as [w s1]. outcome_inv. simplify_eq.
    unfold defined in Hr0. destruct (time_point_of_wire ticks w) eqn:Hz; [|discriminate].
    simplify_eq. by apply time_point_of_wire_range in Hz.
Qed.
(** A receiving function that keeps objects in their type. *)
Definition keeps (t : ctype) (f : istream -> value -> outcome stop (value * istream)) : Prop :=
  forall s out v s', has_type t out = true -> f s out = Ok (v, s') -> has_type t v = true.

Lemma recv_keeps t oid size :
  keeps (unwrap_type t) (recv_impl native ticks m (unwrap_type t) size) ->
  keeps t (recv native ticks m t oid size).
Proof.
  intros Hk s out v s' Hout H. unfold recv, recv_with in H.
  destruct (is_nullable t && (size =? null_state_size)) eqn:Hn.
  { simplify_eq. bool_props. by destruct t. }
  destruct (match oid with Some o => _ | None => _ end); [discriminate|].
  destruct (negb (is_nullable t) && _); [discriminate|]. outcome_inv. destruct r as [w s1].
  simplify_eq. apply Hk in Hr.
  - by destruct t.
  - destruct t; try done. destruct out; try done; apply default_has_type.
Qed.

Lemma recv_data_frame_keeps t oid :
  (forall size, keeps (unwrap_type t) (recv_impl native ticks m (unwrap_type t) size)) ->
  keeps t (recv_data_frame native ticks m t oid).
Proof.
  intros Hk s out v s' Hout H. unfold recv_data_frame in H. outcome_inv. destruct r as [size s1].
  by eapply recv_keeps.
Qed.

Lemma recv_frame_keeps t :
  (forall size, keeps (unwrap_type t) (recv_impl native ticks m (unwrap_type t) size)) ->
  keeps t (recv_frame native ticks m t).
Proof.
  intros Hk s out v s' Hout H. unfold recv_frame in H. outcome_inv. destruct r as [oid s1].
  by eapply recv_data_frame_keeps.
Qed.

Lemma recv_items_keeps t f s vs ws s' :
  keeps t f -> forallb (has_type t) vs = true -> recv_items f s vs = Ok (ws, s') ->
  forallb (has_type t) ws = true /\ length ws = length vs.
Proof.
  intros Hk. revert s ws. induction vs as [|v vs IH]; intros s ws Hvs H.
  - by injection H as <- <-.
  - rewrite recv_items_eq in H. cbn [forallb] in Hvs. bool_props. outcome_inv.
    destruct r as [w s1]. outcome_inv. destruct r as [ws' s2]. simplify_eq.
    apply IH in Hr0 as [Hws Hl]; [|done]. cbn [forallb length].
    rewrite Hws, Hl. by rewrite (Hk _ _ _ _ ltac:(eassumption) Hr).
Qed.

Lemma recv_members_keeps f ts s vs ws s' :
  Forall (fun t => keeps t (f t)) ts -> members_all has_type ts vs = true ->
  recv_members f ts s vs = Ok (ws, s') -> members_all has_type ts ws = true.
Proof.
  intros Hall. revert s vs ws. induction Hall as [|t ts Ht _ IH]; intros s [|v vs] ws Hvs H;
    try discriminate.
  - by injection H as <- <-.
  - rewrite recv_members_eq in H. rewrite members_all_cons in Hvs. bool_props. outcome_inv.
    destruct r as [w s1]. outcome_inv. destruct r as [ws' s2]. simplify_eq.
    rewrite members_all_cons, (IH _ _ _ ltac:(eassumption) Hr0).
    by rewrite (Ht _ _ _ _ ltac:(eassumption) Hr).
Qed.

Lemma fit_array_keeps c u vs count ws :
  container_ok c (length vs) = true -> forallb (has_type u) vs = true ->
  fit_array_size c u vs count = Ok ws ->
  container_ok c (length ws) = true /\ forallb (has_type u) ws = true.
Proof.
  intros Hc Hvs H.
  assert (forall n, forallb (has_type u) (take n vs ++ replicate (n - length vs) (default_value u)) = true) as Hall.
  { intros n. apply forallb_forall. intros x Hx. apply in_app_or in Hx as [Hx|Hx].
    - rewrite forallb_forall in Hvs. apply Hvs. rewrite <- (take_drop n vs). apply in_or_app. by left.
    - apply list_elem_of_In, elem_of_replicate in Hx as [-> _]. apply default_has_type. }
  destruct c as [| |k]; unfold fit_array_size in H.
  - outcome_inv. subst ws. by split.
  - destruct (count <? 0); [discriminate|]. injection H as <-. by split.
  - destruct (count =? _); [|discriminate]. by injection H as <-.
Qed.

Lemma recv_array_keeps item c u s vs ws s' :
  keeps u item -> container_ok c (length vs) = true -> forallb (has_type u) vs = true ->
  recv_array_with native m item c u s vs = Ok (ws, s') ->
  container_ok c (length ws) = true /\ forallb (has_type u) ws = true.
Proof.
  intros Hk Hc Hvs H. unfold recv_array_with in H.
  destruct (read_int native int32 s) as [dims s1].
  destruct (read_int native int32 s1) as [off s2]. outcome_inv. destruct r as [elemtype s3].
  destruct (1 <? dims); [discriminate|]. destruct (negb _); [discriminate|].
  destruct (dims <? 1); [by injection H as <- <-|].
  destruct (read_int native int32 s3) as [size s4]. outcome_inv. destruct r as [index s5].
  destruct (size =? 0); [by injection H as <- <-|]. outcome_inv.
  apply fit_array_keeps in Hr1 as [Hc' Hr1]; [|done|done].
  apply (recv_items_keeps u) in H as [Hws ->]; done.
Qed.

Lemma recv_composite_keeps t ts :
  composite_of t ts -> Forall (fun t => keeps t (recv_frame native ticks m t)) ts ->
  forall size, keeps t (recv_impl native ticks m t size).
Proof.
  intros Hc Hall size s out v s' Hout H.
  assert (exists vs, out = VList vs /\ members_all has_type ts vs = true) as (vs & -> & Hvs)
    by (destruct Hc as [->|(n & z & ->)]; destruct out; try discriminate; eauto).
  assert (recv_impl native ticks m t size s (VList vs) =
    ('(ws, s1) ← recv_composite_with native (recv_frame native ticks m) ts s vs;
     Ok (VList ws, s1))) as E by (destruct Hc as [->|(n & z & ->)]; reflexivity).
  rewrite E in H. outcome_inv. destruct r as [ws s1]. simplify_eq.
  unfold recv_composite_with in Hr. outcome_inv. destruct r as [count s2].
  destruct (negb _); [discriminate|]. apply recv_members_keeps in Hr; [|done|done].
  by destruct Hc as [->|(n & z & ->)].
Qed.

Lemma recv_impl_keeps t : forall size, keeps t (recv_impl native ticks m t size).
Proof.
  assert (forall u, (forall size, keeps u (recv_impl native ticks m u size)) ->
    (forall k w, u = c_nullable k w -> forall size, keeps w (recv_impl native ticks m w size)) ->
    forall size, keeps (unwrap_type u) (recv_impl native ticks m (unwrap_type u) size)) as Hunwrap.
  { intros u Hu Hw. destruct u; try exact Hu. cbn. by eapply Hw. }
  enough (forall t, (forall size, keeps t (recv_impl native ticks m t size)) /\
    (forall k w, t = c_nullable k w -> forall size, keeps w (recv_impl native ticks m w size)))
    as H by apply H.
  clear t. intros t. induction t as [p| |k u IH|c u IH|ts IH|n s ts IH] using ctype_nested_ind.
  - split; [|by intros]. intros size s out v s' _ H. by eapply recv_prim_type.
  - split; [|by intros]. by intros size s out v s' _ H.
  - split; [by intros size s out v s' _ H|]. intros k' w [= <- <-]. apply IH.
  - split; [|by intros]. intros size s out v s' Hout H. destruct out; try discriminate.
    cbn in Hout. bool_props. change (recv_impl native ticks m (c_array c u) size s (VList vs)) with
      ('(ws, s1) ← recv_array_with native m (recv_data_frame native ticks m u None) c u s vs;
       Ok (VList ws, s1)) in H.
    outcome_inv. destruct r as [ws s1]. simplify_eq. cbn.
    apply recv_array_keeps in Hr as [-> ->]; try done.
    apply recv_data_frame_keeps. destruct IH. by apply Hunwrap.
  - split; [|by intros]. apply (recv_composite_keeps _ ts); [by left|].
    eapply Forall_impl; [exact IH|]. intros u [Hu Hw]. by apply recv_frame_keeps, Hunwrap.
  - split; [|by intros]. apply (recv_composite_keeps _ ts); [right; eauto|].
    eapply Forall_impl; [exact IH|]. intros u [Hu Hw]. by apply recv_frame_keeps, Hunwrap.
Qed.

Lemma recv_type t oid size : keeps t (recv native ticks m t oid size).
Proof. apply recv_keeps, recv_impl_keeps. Qed.
End RecvTypes.

(** ** The properties of receiving *)

(** C1. What one host sends another receives: a value sent and received into a
    new object is the value that was sent, and the stream is left at the byte
    after it, for every nesting of arrays, composites and nullables, if the value
    - is [uniform]: an array whose elements are nullables of a static size has only
      nulls or none ([mixed_null_array_size_wrong] is about the others);
    - is [whole]: its time points are whole microseconds, which is all the wire has;
    - has at most INT32_MAX bytes and a type that can be sent and received. *)
Theorem binary_roundtrip writer reader ticks m t v bs rest oid :
  sendable_value t v = true -> receivable t = true -> whole ticks t v = true ->
  oid_map_ok m = true -> oid = None \/ oid = Some (type_oid m t) ->
  send writer ticks m t [] v = Some bs ->
  recv reader ticks m t oid (size_of t v) (istream_open (bs ++ rest)) (default_value t) =
  Ok (v, istream_open rest).
Proof.
  intros (Ht & Hs & Hu & Hle)%sendable_value_spec _ Hw Hm Ho Hsend.
  rewrite (sends_typed writer ticks m t v) in Hsend by done.
  destruct (wire ticks m t v) as [payload|] eqn:Hp; [|discriminate]. injection Hsend as <-.
  pose proof (recv_wire reader ticks m t v payload rest (size_of t v) oid Ht
    (receives_typed reader ticks m Hm t v Ht Hs Hw Hle) Ho Hp) as H.
  rewrite (length_wire ticks m t v payload Ht Hp) in H.
  specialize (H (size_exact_typed t v Ht Hs Hu Hle)). rewrite <- H. cbn [app].
  destruct (is_null t v) eqn:Hn; [|done].
  pose proof (length_wire ticks m t v payload Ht Hp) as Hl.
  assert (payload_size t v = 0) as Hz by (destruct t, v; by cbn).
  rewrite Hz in Hl. by destruct payload.
Qed.

Lemma binary_roundtrip_witness :
  let t := c_struct "code.message" dynamic_size [c_prim p_int8;
    c_array std_vector (c_nullable std_optional (c_prim p_text)); c_prim p_timestamp] in
  let m := set_type_oid (register_types [t]) t 16400 in
  let v := VList [VInt (-5); VList [VNull; VSome (VBytes [x61])]; VInt (epoch 1000 + 7000)] in
  exists bs, send big 1000 m t [] v = Some bs /\
    recv little 1000 m t (Some 16400) (size_of t v) (istream_open (bs ++ [x00])) (default_value t) =
    Ok (v, istream_open [x00]).
Proof.
  intros t m v. eexists. split; [vm_compute; reflexivity|].
  apply (binary_roundtrip big little 1000 m t v);
    first [right; vm_compute; reflexivity | vm_compute; reflexivity].
Defined.

(** The guards of [recv], in their order: a null resets a nullable whatever the OID;
    an OID that is not that of the type is [oid_type_mismatch]; a null for a type that
    has none is [std::invalid_argument], with the OID of the type and without an OID. *)
Lemma recv_guards native ticks m t oid size s out :
  (is_nullable t = true -> size = null_state_size -> recv native ticks m t oid size s out = Ok (VNull, s)) /\
  (~ (is_nullable t = true /\ size = null_state_size) -> (exists o, oid = Some o /\ type_oid m t <> o) ->
     recv native ticks m t oid size s out = Throw (raised (ex_system_error error.oid_type_mismatch))) /\
  (is_nullable t = false -> size = null_state_size -> oid = None \/ oid = Some (type_oid m t) ->
     recv native ticks m t oid size s out = Throw (raised ex_invalid_argument)).
Proof.
  unfold recv, recv_with. repeat split.
  - intros -> ->. done.
  - intros Hn (o & -> & Ho). replace (is_nullable t && (size =? null_state_size)) with false.
    2: { symmetry. apply not_true_iff_false. rewrite andb_true_iff, Z.eqb_eq. done. }
    unfold accepts_oid. by rewrite (proj2 (Z.eqb_neq _ _) Ho).
  - intros -> -> [->| ->]; [done|]. unfold accepts_oid. by rewrite !Z.eqb_refl.
Qed.

(** Receiving an empty array does not empty a container that has elements:
    the old elements stay. *)
Theorem empty_array_keeps_elements :
  exists t v old bs, has_type t v = true /\ has_type t old = true /\ v <> old /\
    send little 1000 [] t [] v = Some bs /\
    recv little 1000 [] t None (size_of t v) (istream_open bs) old = Ok (old, istream_open []).
Proof.
  exists (c_array std_vector (c_prim p_int4)), (VList []), (VList [VInt 7]).
  eexists. split; [done|]. split; [done|]. split; [discriminate|].
  split; [vm_compute; reflexivity|]. vm_compute. reflexivity.
Qed.

End BinaryRecv.
