(* ===== verification/Messages.v ===== *)
(** The messages of a type: which bytes may stand for a value in the binary format of
    PostgreSQL, written down apart from the code, and that receiving ([BinaryIO]) takes
    nothing else.

    [BinaryRecv] says that what was sent is received; the messages here are all that a
    server may send, with any element offset and lower bound, any number of dimensions
    below two and any version byte. *)

From S2P Require Import Prelude ErrorCode Errors Endian Streams PgTypes TypeSystem Chrono BinaryIO BinaryRecv.
From Stdlib Require Import ZArith Lia List String Strings.Byte.
From stdpp Require Import base tactics list strings.

Open Scope Z_scope.

Module Messages.

Import Endian Streams PgTypes TypeSystem Chrono BinaryIO BinaryRecv.

(** ** Messages *)

(** A number of [n] bytes, most significant first. *)
Definition number (n : nat) (signed : bool) (size : Z) (bs : list byte) (v : value) : Prop :=
  size = Z.of_nat n /\ exists z, v = VInt z /\ bs = be_bytes n z /\ int_range (mk_int_type n signed) z = true.

(** The count of the wire, a 32-bit integer, for [n] elements of a container. *)
Definition counts (c : container) (count : Z) (n : nat) : Prop :=
  match c with std_array k => n = k /\ count = wrapS 32 (Z.of_nat k) | _ => count = Z.of_nat n end.

Section Messages.
Context (ticks : Z) (m : oid_map).

(** The data of a type without parts, [size] being the length announced for them; a
    UUID, a time and an interval have their length by themselves. *)
Definition prim_message (p : prim) (size : Z) (bs : list byte) (v : value) : Prop :=
  match p with
  | p_bool => size = 1 /\ exists b, bs = [b] /\ v = VBool (negb (byte_val b =? 0))
  | p_char => number 1 true size bs v
  | p_int2 => number 2 true size bs v
  | p_int4 | p_float4 => number 4 true size bs v
  | p_int8 | p_float8 => number 8 true size bs v
  | p_oid => number 4 false size bs v
  | p_text | p_bytea | p_json | p_name => size = Z.of_nat (length bs) /\ v = VBytes bs
  | p_jsonb | p_ltree => exists version data,
      bs = version :: data /\ size = Z.of_nat (length bs) /\ v = VBytes data
  | p_uuid => length bs = 16%nat /\ v = VBytes bs
  | p_timestamp => exists w z, bs = be_bytes 8 w /\ in_S 64 w = true /\ time_point_of_wire ticks w = Some z /\ v = VInt z
  | p_interval => exists us days months z,
      bs = be_bytes 8 us ++ be_bytes 4 days ++ be_bytes 4 months /\
      in_S 64 us = true /\ in_S 32 days = true /\ in_S 32 months = true /\
      to_chrono_duration (mk_pg_interval us days months) = Some z /\ v = VInt z
  end.

(** The data of a type, of a frame - the length and the data, or -1 for a null - of the
    frames of the elements of an array, and of the fields of a composite, each with
    its OID in front.  An array without dimensions or without elements is received as
    the object of the type is made. *)
Inductive message : ctype -> Z -> list byte -> value -> Prop :=
| message_prim p size bs v : prim_message p size bs v -> message (c_prim p) size bs v
| message_array_flat c u size dimensions offset :
    in_S 32 dimensions = true -> dimensions < 1 -> in_S 32 offset = true ->
    message (c_array c u) size
      (be_bytes 4 dimensions ++ be_bytes 4 offset ++ be_bytes 4 (type_oid m (unwrap_type u)))
      (default_value (c_array c u))
| message_array_empty c u size offset index :
    in_S 32 offset = true -> in_S 32 index = true ->
    message (c_array c u) size
      (be_bytes 4 1 ++ be_bytes 4 offset ++ be_bytes 4 (type_oid m (unwrap_type u)) ++ be_bytes 4 0 ++ be_bytes 4 index)
      (default_value (c_array c u))
| message_array c u size offset index count bs vs :
    in_S 32 offset = true -> in_S 32 index = true -> in_S 32 count = true -> count <> 0 ->
    counts c count (length vs) -> frames u bs vs ->
    message (c_array c u) size
      (be_bytes 4 1 ++ be_bytes 4 offset ++ be_bytes 4 (type_oid m (unwrap_type u)) ++
       be_bytes 4 count ++ be_bytes 4 index ++ bs)
      (VList vs)
| message_tuple ts size bs vs :
    fields ts bs vs -> message (c_tuple ts) size (be_bytes 4 (Z.of_nat (length ts)) ++ bs) (VList vs)
| message_struct n z ts size bs vs :
    fields ts bs vs -> message (c_struct n z ts) size (be_bytes 4 (Z.of_nat (length ts)) ++ bs) (VList vs)
with frame_of : ctype -> list byte -> value -> Prop :=
| frame_null t : is_nullable t = true -> frame_of t (be_bytes 4 (-1)) VNull
| frame_value t size bs v : size <> -1 -> in_S 32 size = true -> message (unwrap_type t) size bs v ->
    frame_of t (be_bytes 4 size ++ bs) (rewrap t v)
with frames : ctype -> list byte -> list value -> Prop :=
| frames_nil t : frames t [] []
| frames_cons t b bs v vs : frame_of t b v -> frames t bs vs -> frames t (b ++ bs) (v :: vs)
with fields : list ctype -> list byte -> list value -> Prop :=
| fields_nil : fields [] [] []
| fields_cons t ts oid b bs v vs :
    in_U 32 oid = true -> oid = type_oid m t \/ v = VNull /\ is_nullable t = true -> frame_of t b v ->
    fields ts bs vs -> fields (t :: ts) (be_bytes 4 oid ++ b ++ bs) (v :: vs).

(** ** What was read *)

Context (native : endian).








(** ** Types without parts *)











(** ** Frames, arrays and composites *)














(** ** Every message is taken *)


Scheme message_mut := Minimality for message Sort Prop
with frame_of_mut := Minimality for frame_of Sort Prop
with frames_mut := Minimality for frames Sort Prop
with fields_mut := Minimality for fields Sort Prop.
Combined Scheme messages_mut from message_mut, frame_of_mut, frames_mut, fields_mut.












Context (Hmap : oid_map_ok m = true).






(** ** Properties *)


End Messages.


End Messages.
