(* ===== verification/Overloads.v ===== *)
(** Which code the compiler chooses for a type: the concepts of
    [src/include/bozo/core/concept.h], the overloads of [ostream::write] and
    [istream::read], the dispatchers of [size_of_impl], [send_impl] and [recv_impl], and
    strong typedefs ([src/include/bozo/core/strong_typedef.h]).

    A C++ type is described by the answers the traits of the language, of Boost.Hana
    and of Boost.Fusion give about it.  The concepts are functions of these answers,
    the choice of an overload is that of the language: the candidate that is better
    than every other one, if there is such a candidate.  [BinaryIO] is written by
    cases on the types; the theorems say that these are the cases the compiler takes. *)

From S2P Require Import Prelude ErrorCode Errors Endian Streams PgTypes TypeSystem Chrono BinaryIO BinaryRecv.
From Stdlib Require Import ZArith Lia List String Strings.Byte.
From stdpp Require Import base tactics list strings.

Open Scope Z_scope.

(** ** The choice of an overload *)

(** The conversion of the argument: none but that of an lvalue, or one of the
    language or of a class. *)
Inductive rank : Set := exact_match | by_conversion.

(** A set of overloads for one argument of a type that is described by [F]. *)
Class OverloadSet (F O : Type) := {
  candidates : list O;
  is_template : O -> bool;
  viable : O -> F -> option rank;
}.

Section Resolution.
Context {F O : Type} `{OverloadSet F O} `{EqDecision O}.

(** A better conversion, or the same and not a template against a template. *)
Definition better (f : F) (a b : O) : bool :=
  match viable a f, viable b f with
  | Some exact_match, Some by_conversion => true
  | Some exact_match, Some exact_match | Some by_conversion, Some by_conversion =>
      negb (is_template a) && is_template b
  | _, _ => false
  end.

Definition viables (f : F) : list O :=
  List.filter (fun o => match viable o f with Some _ => true | None => false end) candidates.

(** [None]: there is no candidate, or no best one. *)
Definition resolve (f : F) : option O :=
  find (fun a => forallb (fun b => bool_decide (a = b) || better f a b) (viables f)) (viables f).

(** The choice does not depend on the order of the declarations. *)
Lemma resolve_best f a :
  resolve f = Some a <->
  a ∈ viables f /\ forall b, b ∈ viables f -> b <> a -> better f a b = true.
Proof.
  unfold resolve. split.
  - intros [Hin Hb]%find_some. split; [by apply list_elem_of_In|]. intros b Hbin Hne.
    rewrite forallb_forall in Hb. specialize (Hb b (proj1 (list_elem_of_In _ _) Hbin)).
    by rewrite bool_decide_eq_false_2 in Hb.
  - intros [Hin Hb]. destruct (find _ _) as [c|] eqn:Hf.
    + apply find_some in Hf as [Hc Hbest]. destruct (decide (c = a)) as [->|Hne]; [done|]. exfalso.
      rewrite forallb_forall in Hbest. specialize (Hbest a (proj1 (list_elem_of_In _ _) Hin)).
      rewrite bool_decide_eq_false_2 in Hbest by done. cbn in Hbest.
      specialize (Hb c (proj2 (list_elem_of_In _ _) Hc) Hne).
      unfold better in *. destruct (viable a f) as [[]|], (viable c f) as [[]|]; try done;
        destruct (is_template a), (is_template c); done.
    + eapply find_none in Hf; [|by apply list_elem_of_In]. exfalso. revert Hf. cbn.
      rewrite (proj2 (forallb_forall _ _)); [done|]. intros b Hbin.
      destruct (decide (b = a)) as [->|Hne]; [by rewrite bool_decide_eq_true_2|].
      rewrite Hb; [by rewrite orb_true_r | by apply list_elem_of_In | done].
Qed.
End Resolution.

Module Overloads.

Import Endian Streams PgTypes TypeSystem Chrono BinaryIO BinaryRecv.

(** ** C++ types *)

(** What the traits say about a type.  [data_element] is the size of an element of
    [std::data] of an object, with [true] if it is constant although the object is not;
    [adl_data_element] is the same for [data] found by the argument. *)
Record facts := mk_facts {
  is_integral : bool;
  is_floating_point : bool;
  is_bool : bool;
  is_signed : bool;
  sizeof : nat;
  data_element : option (nat * bool);
  adl_data_element : option (nat * bool);
  has_resize : bool;
  hana_sequence : bool;
  hana_struct : bool;
  fusion_sequence : bool;
  fusion_struct_tag : bool;
  is_array : bool;
  composite_specialized : bool;
  converts_to_bool : bool;
}.

(** The members are those of a sequence or of an adapted structure. *)
Inductive cpp : Type :=
| cpp_type (f : facts) (members : list cpp)
| strong_typedef_wrapper (base : cpp).

(** Nothing is known of a class. *)
Definition class_facts : facts :=
  mk_facts false false false false 0 None None false false false false false false false false.

(** A strong typedef is a class that converts to its base, and so to whatever that
    converts to without a class. *)
Fixpoint facts_of (t : cpp) : facts :=
  match t with
  | cpp_type f _ => f
  | strong_typedef_wrapper base =>
      mk_facts false false false false 0 None None false false false false false false false
        (converts_to_bool (facts_of base))
  end.

Definition members_of (t : cpp) : list cpp :=
  match t with cpp_type _ ms => ms | strong_typedef_wrapper _ => [] end.

(** ** [concept.h] *)

Definition Integral (f : facts) : bool := is_integral f.
Definition FloatingPoint (f : facts) : bool := is_floating_point f.
Definition HanaSequence (f : facts) : bool := hana_sequence f.
Definition HanaStruct (f : facts) : bool := hana_struct f.
Definition FusionSequence (f : facts) : bool := fusion_sequence f.
Definition FusionAdaptedStruct (f : facts) : bool := fusion_struct_tag f.

(** [std_size_data_compatible<T>] and [adl_size_data_compatible<T>], with [const] if [T]
    is constant: data of a constant object may be constant. *)
Definition size_data_compatible (element : option (nat * bool)) (const : bool) : bool :=
  match element with Some (_, constant) => negb constant || const | None => false end.

Definition element_size (element : option (nat * bool)) : nat :=
  match element with Some (n, _) => n | None => 0 end.

Definition sizeof_value_type (const : bool) (f : facts) : nat :=
  if size_data_compatible (data_element f) const then element_size (data_element f) else
  if size_data_compatible (adl_data_element f) const then element_size (adl_data_element f) else 0.

Definition RawDataWritable (const : bool) (f : facts) : bool :=
  negb const && (sizeof_value_type const f =? 1)%nat.
Definition RawDataReadable (f : facts) : bool := (sizeof_value_type true f =? 1)%nat.

(** [Resizable], [Composite], [Array] and [StrongTypedef]. *)
Definition Resizable (f : facts) : bool := has_resize f.
Definition Composite (f : facts) : bool := composite_specialized f || HanaStruct f || FusionAdaptedStruct f.
Definition Array (f : facts) : bool := is_array f.
Definition StrongTypedef (t : cpp) : bool := match t with strong_typedef_wrapper _ => true | _ => false end.

(** ** The overloads of the streams *)

(** [ostream::write] of one argument, in the order of the source. *)
Inductive write_overload : Set := w_byte | w_raw | w_int | w_float | w_bool | w_sequence | w_struct.

#[global] Instance write_overload_eq_dec : EqDecision write_overload.
Proof. solve_decision. Defined.

Definition require (condition : bool) : option rank := if condition then Some exact_match else None.

(** [write(bool)] is no template: it takes what converts to [bool] as well. *)
#[export] Instance write_overloads : OverloadSet facts write_overload := {
  candidates := [w_byte; w_raw; w_int; w_float; w_bool; w_sequence; w_struct];
  is_template o := negb (bool_decide (o = w_bool));
  viable o f :=
    match o with
    | w_byte => require (Integral f && (sizeof f =? 1)%nat)
    | w_raw => require (RawDataReadable f)
    | w_int => require (Integral f && negb (sizeof f =? 1)%nat)
    | w_float => require (FloatingPoint f)
    | w_bool => if is_bool f then Some exact_match else if converts_to_bool f then Some by_conversion else None
    | w_sequence => require (HanaSequence f)
    | w_struct => require (HanaStruct f)
    end;
}.

(** [istream::read] of one lvalue: [read(bool&)] is no template and binds to nothing but
    a [bool]. *)
Inductive read_overload : Set := r_raw | r_byte | r_int | r_float | r_bool | r_struct.

#[global] Instance read_overload_eq_dec : EqDecision read_overload.
Proof. solve_decision. Defined.

#[export] Instance read_overloads : OverloadSet facts read_overload := {
  candidates := [r_raw; r_byte; r_int; r_float; r_bool; r_struct];
  is_template o := negb (bool_decide (o = r_bool));
  viable o f :=
    match o with
    | r_raw => require (RawDataWritable false f)
    | r_byte => require (Integral f && (sizeof f =? 1)%nat)
    | r_int => require (Integral f && negb (sizeof f =? 1)%nat)
    | r_float => require (FloatingPoint f)
    | r_bool => require (is_bool f)
    | r_struct => require (HanaStruct f)
    end;
}.

Definition write_for (t : cpp) : option write_overload := resolve (facts_of t).
Definition read_for (t : cpp) : option read_overload := resolve (facts_of t).

(** [Readable] and [Writable] ([io/type_traits.h]): the call of [write] or [read] is well
    formed.  The bodies of the overloads are not looked at. *)
Definition Readable (t : cpp) : bool := match write_for t with Some _ => true | None => false end.
Definition Writable (t : cpp) : bool := match read_for t with Some _ => true | None => false end.

(** ** The types of the library *)

Definition fundamental (integral floating boolean signed : bool) (n : nat) : cpp :=
  cpp_type (mk_facts integral floating boolean signed n None None false false false false false false false true) [].
Definition cpp_bool : cpp := fundamental true false true false 1.
Definition cpp_int (n : nat) : cpp := fundamental true false false true n.
Definition cpp_uint (n : nat) : cpp := fundamental true false false false n.
Definition cpp_float (n : nat) : cpp := fundamental false true false true n.
(** A pointer or an enumeration without a scope. *)
Definition cpp_pointer : cpp := fundamental false false false false 8.

(** Contiguous data of elements of one byte. *)
Definition raw_facts (constant resize : bool) (adl : bool) : facts :=
  mk_facts false false false false 0 (Some (1%nat, constant)) (if adl then Some (1%nat, constant) else None)
    resize false false false false false false false.
Definition cpp_string : cpp := cpp_type (raw_facts false true true) [].
Definition cpp_string_view : cpp := cpp_type (raw_facts true false true) [].
(** [std::vector<char>], for which [is_array] is true. *)
Definition cpp_vector_char : cpp :=
  cpp_type (mk_facts false false false false 0 (Some (1%nat, false)) (Some (1%nat, false)) true false false false false true false false) [].
(** [typed_buffer::raw], an array of the language, which decays to a pointer. *)
Definition cpp_char_array : cpp :=
  cpp_type (mk_facts false false false false 0 (Some (1%nat, false)) None false false false false false false false true) [].

(** [BOOST_HANA_DEFINE_STRUCT]. *)
Definition hana_structure (ms : list cpp) : cpp :=
  cpp_type (mk_facts false false false false 0 None None false false true false false false false false) ms.
Definition pg_array : cpp := hana_structure [cpp_int 4; cpp_int 4; cpp_uint 4].
Definition pg_array_dimension : cpp := hana_structure [cpp_int 4; cpp_int 4].
Definition pg_composite : cpp := hana_structure [cpp_int 4].
Definition pg_interval_type : cpp := hana_structure [cpp_int 8; cpp_int 4; cpp_int 4].

(** The C++ types that are bound by name. *)
Definition bound_type (p : prim) : cpp :=
  match p with
  | p_bool => cpp_bool
  | p_char => cpp_int 1
  | p_int2 => cpp_int 2
  | p_int4 => cpp_int 4
  | p_oid => cpp_uint 4
  | p_int8 => cpp_int 8
  | p_float4 => cpp_float 4
  | p_float8 => cpp_float 8
  | p_text => cpp_string
  | p_bytea => strong_typedef_wrapper cpp_vector_char
  | p_json | p_name => strong_typedef_wrapper cpp_string
  | p_jsonb | p_ltree | p_uuid | p_timestamp | p_interval => cpp_type class_facts []
  end.

(** Which types the streams take: a type that is read by conversion is written as a
    [bool]. *)
Lemma library_types_resolved :
  map (fun t => (write_for t, read_for t))
    [cpp_bool; cpp_int 1; cpp_int 2; cpp_int 4; cpp_int 8; cpp_float 4; cpp_float 8; cpp_string; cpp_vector_char;
     cpp_char_array; pg_array; cpp_string_view; cpp_pointer; strong_typedef_wrapper (cpp_int 4);
     strong_typedef_wrapper cpp_string; cpp_type class_facts []] =
  [(Some w_bool, Some r_bool); (Some w_byte, Some r_byte); (Some w_int, Some r_int); (Some w_int, Some r_int);
   (Some w_int, Some r_int); (Some w_float, Some r_float); (Some w_float, Some r_float); (Some w_raw, Some r_raw);
   (Some w_raw, Some r_raw); (Some w_raw, Some r_raw); (Some w_struct, Some r_struct); (Some w_raw, None);
   (Some w_bool, None); (Some w_bool, None); (None, None); (None, None)].
Proof. reflexivity. Qed.

(** ** Writing and reading with the chosen overloads *)

(** The nested calls for the members of a sequence. *)
Definition write_members (f : cpp -> list byte -> value -> option (list byte)) :
  list cpp -> list byte -> list value -> option (list byte) :=
  fix go ts out vs :=
    match ts, vs with
    | t :: ts, v :: vs => out ← f t out v; go ts out vs
    | [], [] => Some out
    | _, _ => None
    end.

Definition read_members (f : cpp -> istream -> value -> option (value * istream)) :
  list cpp -> istream -> list value -> option (list value * istream) :=
  fix go ts s vs :=
    match ts, vs with
    | t :: ts, v :: vs => '(v, s) ← f t s v; '(vs, s) ← go ts s vs; Some (v :: vs, s)
    | [], [] => Some ([], s)
    | _, _ => None
    end.

Section Streaming.
Context (native : endian).

(** The overloads for integers, which [write(to_integral(in))] calls too. *)
Definition write_integral (n : nat) (out : list byte) (z : Z) : list byte :=
  if (n =? 1)%nat then put out (byte_of z)
  else write_raw out (buffer_raw native n (convert_to_big_endian native n z)).

(** [ostream::write]: the type of a value must be the type the overload is chosen for,
    a number that is converted to [bool] is compared with zero. *)
Fixpoint ostream_write (t : cpp) (out : list byte) (v : value) {struct t} : option (list byte) :=
  match write_for t, v with
  | Some w_byte, VInt z => Some (put out (byte_of z))
  | Some w_raw, VBytes bs => Some (write_raw out bs)
  | Some w_int, VInt z | Some w_float, VInt z => Some (write_integral (sizeof (facts_of t)) out z)
  | Some w_bool, VBool b => Some (write_bool out b)
  | Some w_bool, VInt z => Some (write_bool out (negb (z =? 0)))
  | Some w_sequence, VList vs | Some w_struct, VList vs =>
      match t with cpp_type _ ms => write_members ostream_write ms out vs | _ => None end
  | _, _ => None
  end.

(** [istream::read] into an object: data that do not arrive leave the object as it was,
    the flag of the stream tells. *)
Fixpoint istream_read_into (t : cpp) (s : istream) (out : value) {struct t} : option (value * istream) :=
  let int n signed := let '(z, s) := read_int native (mk_int_type n signed) s in Some (VInt z, s) in
  match read_for t, out with
  | Some r_raw, VBytes bs =>
      let '(got, s) := istream_read s (length bs) in Some (VBytes (got ++ drop (length got) bs), s)
  | Some r_byte, VInt _ => let '(c, s) := read_char s in Some (VInt (wrapS 8 (byte_val c)), s)
  | Some r_int, VInt _ => int (sizeof (facts_of t)) (is_signed (facts_of t))
  | Some r_float, VInt _ => int (sizeof (facts_of t)) true
  | Some r_bool, VBool _ => let '(b, s) := read_bool s in Some (VBool b, s)
  | Some r_struct, VList vs =>
      match t with
      | cpp_type _ ms => '(vs, s) ← read_members istream_read_into ms s vs; Some (VList vs, s)
      | _ => None
      end
  | _, _ => None
  end.
End Streaming.

(** The members of a composite in the order of an adaptation, each with what is done to
    it. *)
Fixpoint send_in_order (members : list (list byte -> value -> option (list byte))) (order : list nat)
  (out : list byte) (vs : list value) : option (list byte) :=
  match order with
  | [] => Some out
  | i :: order => f ← members !! i; v ← vs !! i; out ← f out v; send_in_order members order out vs
  end.

Fixpoint recv_in_order (members : list (istream -> value -> outcome stop (value * istream))) (order : list nat)
  (s : istream) (vs : list value) : outcome stop (list value * istream) :=
  match order with
  | [] => Ok (vs, s)
  | i :: order =>
      match members !! i, vs !! i with
      | Some f, Some v => '(v, s) ← f s v; recv_in_order members order s (<[i := v]> vs)
      | _, _ => Throw undefined
      end
  end.

(** In the order of the declaration they are the loops of [BinaryIO]. *)
Lemma send_in_order_from f ms0 ts out vs0 vs :
  length ms0 = length vs0 -> length ts = length vs ->
  send_in_order (ms0 ++ map f ts) (seq (length ms0) (length ts)) out (vs0 ++ vs) = send_members f ts out vs.
Proof.
  revert ms0 out vs0 vs. induction ts as [|t ts IH]; intros ms0 out vs0 [|v vs] Hl Hn; try done. cbn [length seq send_in_order map].
  rewrite (list_lookup_middle ms0) by done. cbn [mbind option_bind].
  rewrite (list_lookup_middle vs0) by done. cbn [mbind option_bind send_members].
  destruct (f t out v) as [out'|]; [|done]. cbn [mbind option_bind].
  specialize (IH (ms0 ++ [f t])%list out' (vs0 ++ [v])%list vs). rewrite !length_app, <- !app_assoc in IH. cbn in IH.
  rewrite <- IH by (cbn in Hn; lia). by rewrite Nat.add_1_r.
Qed.

Lemma recv_in_order_from f ms0 ts s vs0 vs :
  length ms0 = length vs0 -> length ts = length vs ->
  recv_in_order (ms0 ++ map f ts) (seq (length ms0) (length ts)) s (vs0 ++ vs) =
  ('(vs, s) ← recv_members f ts s vs; Ok (vs0 ++ vs, s))%list.
Proof.
  revert ms0 s vs0 vs. induction ts as [|t ts IH]; intros ms0 s vs0 [|v vs] Hl Hn; try done. cbn [length seq recv_in_order map].
  rewrite (list_lookup_middle ms0), (list_lookup_middle vs0) by done. cbn [recv_members].
  destruct (f t s v) as [[w s']|]; [|done]. cbn [mbind outcome_bind].
  rewrite insert_app_r_alt, Hl, Nat.sub_diag, <- Hl by lia. cbn [insert list_insert].
  specialize (IH (ms0 ++ [f t])%list s' (vs0 ++ [w])%list vs). rewrite !length_app, <- !app_assoc in IH. cbn in IH.
  rewrite <- Nat.add_1_r, IH by (cbn in Hn; lia).
  destruct (recv_members f ts s' vs) as [[ws s'']|]; [|done]. cbn. by rewrite <- app_assoc.
Qed.

Lemma send_declared_order f ts out vs :
  length ts = length vs -> send_in_order (map f ts) (seq 0 (length ts)) out vs = send_members f ts out vs.
Proof. exact (send_in_order_from f [] ts out [] vs eq_refl). Qed.

Lemma recv_declared_order f ts s vs :
  length ts = length vs -> recv_in_order (map f ts) (seq 0 (length ts)) s vs = recv_members f ts s vs.
Proof.
  intros Hl. pose proof (recv_in_order_from f [] ts s [] vs eq_refl Hl) as Hr. cbn in Hr. rewrite Hr.
  by destruct (recv_members f ts s vs) as [[]|].
Qed.

Lemma members_all_length ts vs : members_all has_type ts vs = true -> length ts = length vs.
Proof.
  revert vs. induction ts as [|t ts IH]; intros [|v vs]; cbn; try done. intros [_ Hv]%andb_true_iff. by rewrite (IH vs Hv).
Qed.

(** ** The dispatchers *)

(** [size_of_impl_dispatcher] and [send_impl_dispatcher]: the primary template and its
    partial specializations. *)
Inductive specialization : Set := primary | for_strong_typedef | for_array | for_composite.

Definition matches (s : specialization) (t : cpp) : bool :=
  match s with
  | primary => true
  | for_strong_typedef => StrongTypedef t
  | for_array => Array (facts_of t)
  | for_composite => Composite (facts_of t)
  end.

(** None of the partial specializations is more specialized than another. *)
Definition dispatch (t : cpp) : option specialization :=
  match List.filter (fun s => matches s t) [for_strong_typedef; for_array; for_composite] with
  | [] => Some primary
  | [s] => Some s
  | _ => None
  end.

(** [recv_impl_dispatcher], which has none for strong typedefs and two for composites. *)
Inductive recv_specialization : Set := recv_primary | recv_array | recv_fusion_composite | recv_hana_composite.

Definition recv_matches (s : recv_specialization) (t : cpp) : bool :=
  let f := facts_of t in
  match s with
  | recv_primary => true
  | recv_array => Array f
  | recv_fusion_composite => Composite f && FusionSequence f
  | recv_hana_composite => Composite f && negb (FusionSequence f)
  end.

Definition recv_dispatch (t : cpp) : option recv_specialization :=
  match List.filter (fun s => recv_matches s t) [recv_array; recv_fusion_composite; recv_hana_composite] with
  | [] => Some recv_primary
  | [s] => Some s
  | _ => None
  end.

(** The members of a composite are taken with Hana or with Fusion: [fields_number],
    [data_size] and [for_each_member] of [composite.h]. *)
Inductive adaptation : Set := with_hana | with_fusion.

Definition for_each_member (f : facts) : option adaptation :=
  if HanaStruct f then Some with_hana else if FusionSequence f then Some with_fusion else None.

Section Types.
(** The size of an object, and the tuples that are [std::tuple] or [boost::tuple], which the
    headers of [ext] make sequences of Hana, and not [std::pair]. *)
Context (object_size : ctype -> nat) (hana_tuple : list ctype -> bool).
(** How the structure of a name is adapted with Hana and with Fusion: its members in the
    order of the adaptation, by their numbers. *)
Context (hana_order fusion_order : string -> option (list nat)).

Definition hana_adapted (n : string) : bool := match hana_order n with Some _ => true | None => false end.
Definition fusion_adapted (n : string) : bool := match fusion_order n with Some _ => true | None => false end.

(** The type in C++, without its wrapper. *)
Definition cpp_of (t : ctype) : cpp :=
  match t with
  | c_prim p => bound_type p
  | c_array std_list _ =>
      cpp_type (mk_facts false false false false 0 None None true false false false false true false false) []
  | c_array c u =>
      let data := Some (object_size u, false) in
      cpp_type (mk_facts false false false false 0 data data (bool_decide (c = std_vector))
        false false false false true false false) []
  | c_tuple ts =>
      cpp_type (mk_facts false false false false 0 None None false (hana_tuple ts) false true false false true false) []
  | c_struct n _ _ =>
      cpp_type (mk_facts false false false false 0 None None false false (hana_adapted n)
        (fusion_adapted n) (fusion_adapted n) false false false) []
  | c_null | c_nullable _ _ => cpp_type class_facts []
  end.

(** The order of the members in an adaptation. *)
Definition order_of (a : adaptation) (t : ctype) : option (list nat) :=
  match t, a with
  | c_tuple ts, with_fusion => Some (seq 0 (length ts))
  | c_struct n _ _, with_hana => hana_order n
  | c_struct n _ _, with_fusion => fusion_order n
  | _, _ => None
  end.

(** [fields_number]. *)
Definition fields_number (t : ctype) : option Z :=
  a ← for_each_member (facts_of (cpp_of t)); order ← order_of a t; Some (wrapS 32 (Z.of_nat (length order))).

(** Each structure is adapted, and each of its adaptations has all its members in the
    order they are declared in. *)
Definition in_order (ts : list ctype) (order : option (list nat)) : bool :=
  match order with Some o => bool_decide (o = seq 0 (length ts)) | None => true end.

Fixpoint adapted (t : ctype) : bool :=
  match t with
  | c_prim _ | c_null => true
  | c_nullable _ t | c_array _ t => adapted t
  | c_tuple ts => forallb adapted ts
  | c_struct n _ ts =>
      (hana_adapted n || fusion_adapted n) && in_order ts (hana_order n) && in_order ts (fusion_order n) &&
      forallb adapted ts
  end.

(** The specialization is found for every type, and it is the case of [BinaryIO]. *)
Lemma dispatch_of t :
  adapted t = true ->
  dispatch (cpp_of t) = Some match t with
    | c_prim (p_bytea | p_json | p_name) => for_strong_typedef
    | c_array _ _ => for_array
    | c_tuple _ | c_struct _ _ _ => for_composite
    | _ => primary
    end.
Proof.
  destruct t as [p| | |c u| |n z ts]; try done.
  - by destruct p.
  - by destruct c.
  - cbn [adapted]. rewrite !andb_true_iff. intros (((Ha & _) & _) & _). unfold dispatch. cbn. unfold Composite. cbn.
    by destruct (hana_adapted n), (fusion_adapted n).
Qed.

Lemma recv_dispatch_of t :
  adapted t = true ->
  recv_dispatch (cpp_of t) = Some match t with
    | c_array _ _ => recv_array
    | c_tuple _ => recv_fusion_composite
    | c_struct n _ _ => if fusion_adapted n then recv_fusion_composite else recv_hana_composite
    | _ => recv_primary
    end.
Proof.
  destruct t as [p| | |c u| |n z ts]; try done.
  - by destruct p.
  - by destruct c.
  - cbn [adapted]. rewrite !andb_true_iff. intros (((Ha & _) & _) & _). unfold recv_dispatch. cbn. unfold Composite. cbn.
    by destruct (hana_adapted n), (fusion_adapted n).
Qed.

(** The members are sent and received in the order in which they are declared. *)
Definition composite_of (t : ctype) (ts : list ctype) : Prop := t = c_tuple ts \/ exists n z, t = c_struct n z ts.

Lemma adapted_members t ts : composite_of t ts -> adapted t = true -> forallb adapted ts = true.
Proof. intros [->|(n & z & ->)]; [done|]. cbn [adapted]. by rewrite !andb_true_iff; intros [_ ?]. Qed.

Lemma in_order_eq ts o : in_order ts (Some o) = true -> o = seq 0 (length ts).
Proof. unfold in_order. by rewrite bool_decide_eq_true. Qed.

Lemma composite_order t ts :
  composite_of t ts -> adapted t = true ->
  (exists a, for_each_member (facts_of (cpp_of t)) = Some a /\ order_of a t = Some (seq 0 (length ts))) /\
  fields_number t = Some (wrapS 32 (Z.of_nat (length ts))) /\
  ((recv_dispatch (cpp_of t) = Some recv_fusion_composite /\ order_of with_fusion t = Some (seq 0 (length ts))) \/
   (recv_dispatch (cpp_of t) = Some recv_hana_composite /\ order_of with_hana t = Some (seq 0 (length ts)))).
Proof.
  intros Ht Ha. rewrite (recv_dispatch_of t Ha). unfold fields_number.
  destruct Ht as [->|(n & z & ->)].
  - cbn. rewrite length_seq. split; [by exists with_fusion|]. split; [done|]. by left.
  - cbn [adapted] in Ha. rewrite !andb_true_iff in Ha. destruct Ha as (((Had & Hh) & Hf) & _).
    cbn. unfold for_each_member. cbn. unfold hana_adapted, fusion_adapted in *.
    destruct (hana_order n) as [h|] eqn:Hho, (fusion_order n) as [f|] eqn:Hfo; try done; cbn;
      rewrite ?Hho, ?Hfo; cbn;
      repeat match goal with Hx : in_order _ (Some ?o) = true |- _ => apply in_order_eq in Hx; subst o end;
      rewrite length_seq; split_and!; try done; by eauto.
Qed.

(** ** Sending with what the compiler chooses *)

Section Sending.
Context (native : endian) (ticks : Z) (m : oid_map).

(** A strong typedef is sent as its base. *)
Definition sent_as (t : cpp) : cpp :=
  match t, dispatch t with strong_typedef_wrapper base, Some for_strong_typedef => base | _, _ => t end.

(** [send_impl]: the specializations for [jsonb], [ltree], [uuid], [time_point] and
    [microseconds], and the primary template for the rest. *)
Definition send_prim_chosen (p : prim) (out : list byte) (v : value) : option (list byte) :=
  match p, v with
  | (p_jsonb | p_ltree), VBytes _ =>
      out ← ostream_write native (cpp_int 1) out (VInt 1); ostream_write native cpp_string out v
  | p_uuid, _ => ostream_write native cpp_char_array out v
  | p_timestamp, VInt z => w ← time_point_to_wire ticks z; ostream_write native (cpp_int 8) out (VInt w)
  | p_interval, VInt z =>
      let i := from_chrono_duration z in
      ostream_write native pg_interval_type out
        (VList [VInt (iv_microseconds i); VInt (iv_days i); VInt (iv_months i)])
  | (p_jsonb | p_ltree | p_timestamp | p_interval), _ => None
  | _, _ => ostream_write native (sent_as (bound_type p)) out v
  end.

Fixpoint send_chosen (t : ctype) (out : list byte) (v : value) : option (list byte) :=
  let send t out v :=
    if is_null t v then Some out else send_chosen (unwrap_type t) out (unwrap t v) in
  let send_data_frame t out v :=
    out ← ostream_write native (cpp_int 4) out (VInt (size_of t v)); send t out v in
  let send_frame t out v :=
    out ← ostream_write native (cpp_uint 4) out (VInt (type_oid m t)); send_data_frame t out v in
  match dispatch (cpp_of t), t, v with
  | Some (primary | for_strong_typedef), c_prim p, _ => send_prim_chosen p out v
  | Some primary, c_null, _ => Some out
  | Some for_array, c_array _ u, VList vs =>
      out ← ostream_write native pg_array out (VList [VInt 1; VInt 0; VInt (type_oid m u)]);
      out ← ostream_write native pg_array_dimension out (VList [VInt (wrapS 32 (Z.of_nat (length vs))); VInt 0]);
      send_items (send_data_frame u) out vs
  | Some for_composite, (c_tuple ts | c_struct _ _ ts), VList vs =>
      count ← fields_number t;
      out ← ostream_write native pg_composite out (VList [VInt count]);
      a ← for_each_member (facts_of (cpp_of t)); order ← order_of a t;
      send_in_order (map send_frame ts) order out vs
  | _, _, _ => None
  end.

Lemma send_prim_agrees p out v : prim_ok p v = true -> send_prim_chosen p out v = send_prim native ticks p out v.
Proof. destruct p, v; done. Qed.

Lemma send_items_agrees f g (ok : value -> Prop) out vs :
  (forall v out, ok v -> f out v = g out v) -> Forall ok vs -> send_items f out vs = send_items g out vs.
Proof.
  intros Hfg Hok. revert out. induction Hok as [|v vs Hv _ IH]; intros out; cbn; [done|].
  rewrite (Hfg v out Hv). by destruct (g out v); cbn.
Qed.

Lemma send_members_agrees f g ts out vs :
  Forall (fun t => forall v out, adapted t = true -> has_type t v = true -> f t out v = g t out v) ts ->
  forallb adapted ts = true -> members_all has_type ts vs = true ->
  send_members f ts out vs = send_members g ts out vs.
Proof.
  intros Hfg. revert out vs. induction Hfg as [|t ts Ht _ IH]; intros out [|v vs]; cbn; try done.
  intros [Ha Has]%andb_true_iff [Hv Hvs]%andb_true_iff. rewrite Ht by done.
  destruct (g t out v); cbn; [by apply IH | done].
Qed.

(** [send] of a value, with its wrapper. *)
Definition send_value (t : ctype) (out : list byte) (v : value) : option (list byte) :=
  if is_null t v then Some out else send_chosen (unwrap_type t) out (unwrap t v).

Lemma send_array_agrees c u out vs :
  adapted u = true ->
  (forall v out, has_type u v = true -> send_value u out v = send native ticks m u out v) ->
  forallb (has_type u) vs = true ->
  send_chosen (c_array c u) out (VList vs) = send_impl native ticks m (c_array c u) out (VList vs).
Proof.
  intros Ha IH Hv. cbn [send_chosen]. rewrite dispatch_of by done. cbn.
  apply (send_items_agrees _ _ (fun v => has_type u v = true)); [|by apply List.Forall_forall, forallb_forall].
  intros v out' Hu. exact (IH v _ Hu).
Qed.

Lemma send_composite_agrees t ts out vs :
  composite_of t ts -> adapted t = true ->
  Forall (fun u => forall v out, adapted u = true -> has_type u v = true ->
    send_value u out v = send native ticks m u out v) ts ->
  members_all has_type ts vs = true ->
  send_chosen t out (VList vs) = send_impl native ticks m t out (VList vs).
Proof.
  intros Ht Ha IH Hv.
  assert (forall out, send_members (fun u out v =>
      out ← ostream_write native (cpp_uint 4) out (VInt (type_oid m u));
      out ← ostream_write native (cpp_int 4) out (VInt (size_of u v)); send_value u out v) ts out vs =
    send_members (fun u out v => send native ticks m u
      (write_int32 native (write_int32 native out (type_oid m u)) (size_of u v)) v) ts out vs) as Hm.
  { intros out'. apply send_members_agrees; [|by apply (adapted_members t)|done].
    apply (Forall_impl _ _ _ IH). intros u Hu v o Hau Huv. exact (Hu v _ Hau Huv). }
  destruct (composite_order t ts Ht Ha) as ((a & Hfm & Ho) & Hn & _). pose proof (dispatch_of t Ha) as Hd.
  destruct Ht as [->|(n & z & ->)]; cbn [send_chosen]; rewrite Hd, Hn, Hfm; cbn [mbind option_bind]; rewrite Ho;
    exact (eq_trans (send_declared_order _ ts _ vs (members_all_length ts vs Hv)) (Hm _)).
Qed.

(** The chosen specializations and overloads of [ostream::write] write the bytes of
    [send]. *)
Lemma send_overloads_agree t out v :
  adapted t = true -> has_type t v = true -> send_value t out v = send native ticks m t out v.
Proof.
  revert out v. induction t as [p| |k t IH|c u IH|ts IH|n z ts IH] using ctype_nested_ind; intros out v Ha Hv.
  - destruct p; exact (send_prim_agrees _ out v Hv).
  - by destruct v.
  - unfold send_value, send. destruct v as [| | | |w|]; try done. cbn in Hv.
    destruct t as [p| |k' t|c u|ts|n z ts]; try done; exact (IH out w Ha Hv).
  - destruct v as [| | | | |vs]; try done. cbn in Hv. apply andb_true_iff in Hv as [_ Hv].
    apply send_array_agrees; [done| |done]. intros w o Hw. by apply IH.
  - destruct v as [| | | | |vs]; try done. eapply send_composite_agrees; [by left|done| |exact Hv].
    apply (Forall_impl _ _ _ IH). auto.
  - destruct v as [| | | | |vs]; try done. eapply send_composite_agrees; [right; by eexists _, _|done| |exact Hv].
    apply (Forall_impl _ _ _ IH). auto.
Qed.
End Sending.

(** ** Receiving with what the compiler chooses *)

Section Receiving.
Context (native : endian) (ticks : Z) (m : oid_map).

(** The free function [read]; a call without an overload is not compiled. *)
Definition read_into (t : cpp) (s : istream) (out : value) : outcome stop (value * istream) :=
  match istream_read_into native t s out with Some r => read r | None => Throw undefined end.

(** [real_out] of [recv_impl::apply]: an object of the base type of a strong typedef. *)
Definition real_out (t : cpp) : cpp := match t with strong_typedef_wrapper base => base | _ => t end.

(** [resize] of a string or a vector of bytes. *)
Definition resize_value (size : Z) (out : value) : outcome stop value :=
  n ← resize_bytes size;
  match out with
  | VBytes bs => Ok (VBytes (take n bs ++ replicate (n - length bs) x00))
  | _ => Throw undefined
  end.

(** The primary [recv_impl::apply]. *)
Definition recv_primary_impl (p : prim) (size : Z) (s : istream) (out : value) : outcome stop (value * istream) :=
  let real := real_out (bound_type p) in
  if is_dynamic_size (c_prim p) then
    if Resizable (facts_of real) then out ← resize_value size out; read_into real s out else Throw undefined
  else if negb (size =? size_of_prim p out) then fail error.bad_object_size
  else read_into real s out.

(** With the specializations for [jsonb], [ltree], [uuid], [time_point] and
    [microseconds]. *)
Definition recv_prim_chosen (p : prim) (size : Z) (s : istream) (out : value) : outcome stop (value * istream) :=
  match p with
  | p_jsonb | p_ltree =>
      if size <? 1 then raise ex_range_error else
      '(_, s) ← read_into (cpp_int 1) s (VInt 0);
      out ← resize_value (size - 1) out; read_into cpp_string s out
  | p_uuid => read_into cpp_char_array s out
  | p_timestamp =>
      '(w, s) ← read_into (cpp_int 8) s (VInt 0);
      match w with VInt w => z ← defined (time_point_of_wire ticks w); Ok (VInt z, s) | _ => Throw undefined end
  | p_interval =>
      '(i, s) ← read_into pg_interval_type s (VList [VInt 0; VInt 0; VInt 0]);
      match i with
      | VList [VInt us; VInt days; VInt months] =>
          z ← defined (to_chrono_duration (mk_pg_interval us days months)); Ok (VInt z, s)
      | _ => Throw undefined
      end
  | _ => recv_primary_impl p size s out
  end.

(** The bytes that are read fill the object, or the stream has failed. *)
Lemma read_raw_agrees s n bs :
  length bs = n ->
  (let '(got, s) := istream_read s n in read (VBytes (got ++ drop (length got) bs), s)) =
  ('(got, s) ← read (istream_read s n); Ok (VBytes got, s)).
Proof.
  intros Hn. unfold istream_read, istreambuf_read, read, read_checked. cbn.
  destruct (unexpected_eof s || _) eqn:He; [done|]. cbn. do 3 f_equal.
  apply orb_false_iff in He as [_ He]. apply negb_false_iff, Nat.eqb_eq in He.
  rewrite drop_ge by lia. by rewrite app_nil_r.
Qed.

Lemma read_into_raw t s bs :
  read_for t = Some r_raw -> read_into t s (VBytes bs) = ('(got, s) ← read (istream_read s (length bs)); Ok (VBytes got, s)).
Proof.
  intros Ht. rewrite <- (read_raw_agrees s (length bs) bs eq_refl). unfold read_into.
  destruct t as [f ms|base]; cbn [istream_read_into]; rewrite Ht; by destruct (istream_read s (length bs)).
Qed.

Lemma recv_bytes_agrees t size s bs :
  read_for t = Some r_raw ->
  (out ← resize_value size (VBytes bs); read_into t s out) = recv_bytes size s.
Proof.
  intros Ht. unfold resize_value, recv_bytes, resize_bytes. destruct (size <? 0); [done|]. cbn.
  rewrite read_into_raw by done. rewrite length_app, length_take, length_replicate.
  by replace (Z.to_nat size `min` length bs + (Z.to_nat size - length bs))%nat with (Z.to_nat size) by lia.
Qed.

(** The check of the stream does not look at the value. *)
Lemma read_map {A B} (g : A -> B) a s : read (g a, s) = ('(a, s) ← read (a, s); Ok (g a, s)).
Proof. unfold read, read_checked. cbn. by destruct (unexpected_eof s). Qed.

Lemma istream_read_int t z s :
  read_for t = Some r_int ->
  istream_read_into native t s (VInt z) =
  let '(z, s) := read_int native (mk_int_type (sizeof (facts_of t)) (is_signed (facts_of t))) s in Some (VInt z, s).
Proof. intros Ht. destruct t as [f ms|base]; cbn [istream_read_into]; by rewrite Ht. Qed.

(** The next field of a structure of integers, on both sides. *)
Ltac read_field z :=
  rewrite istream_read_int by reflexivity; cbn -[istream_read_into read_int]; fold int64 int32 oid_t;
  let s := fresh "s" in
  match goal with |- context [read_int native ?t ?s0] => destruct (read_int native t s0) as [z s] end;
  cbn -[istream_read_into read_int].

Lemma istream_read_structure ms s vs :
  istream_read_into native (hana_structure ms) s (VList vs) =
  ('(vs, s) ← read_members (istream_read_into native) ms s vs; Some (VList vs, s)).
Proof. reflexivity. Qed.

Lemma read_into_int t z s :
  read_for t = Some r_int \/ (read_for t = Some r_float /\ is_signed (facts_of t) = true) ->
  read_into t s (VInt z) =
  ('(z, s) ← read (read_int native (mk_int_type (sizeof (facts_of t)) (is_signed (facts_of t))) s); Ok (VInt z, s)).
Proof.
  intros Ht. unfold read_into. destruct t as [f ms|base]; cbn [istream_read_into];
    destruct Ht as [->|[-> Hs]]; rewrite ?Hs; destruct (read_int _ _ s) as [z' s']; apply read_map.
Qed.

Lemma read_into_char z s :
  read_into (cpp_int 1) s (VInt z) = ('(c, s) ← read (read_char s); Ok (VInt (wrapS 8 (byte_val c)), s)).
Proof. unfold read_into. cbn -[read_char wrapS]. destruct (read_char s) as [c s']. apply (read_map (fun c => VInt (wrapS 8 (byte_val c)))). Qed.

Lemma read_into_bool b s :
  read_into cpp_bool s (VBool b) = ('(b, s) ← read (read_bool s); Ok (VBool b, s)).
Proof. unfold read_into. cbn -[read_bool]. destruct (read_bool s) as [c s']. apply read_map. Qed.

(** The guard of a type of a static size. *)
Lemma recv_static_agrees p size s out :
  is_dynamic_size (c_prim p) = false -> size_of_prim p out = size_of_prim p (VInt 0) ->
  recv_primary_impl p size s out = check_size p size (read_into (real_out (bound_type p)) s out).
Proof. intros Hd Hs. unfold recv_primary_impl, check_size. rewrite Hd, Hs. by destruct (size =? _). Qed.

Lemma recv_versioned_agrees size s bs :
  (if size <? 1 then raise ex_range_error else
   '(_, s) ← read_into (cpp_int 1) s (VInt 0);
   out ← resize_value (size - 1) (VBytes bs); read_into cpp_string s out) = recv_versioned size s.
Proof.
  unfold recv_versioned. destruct (size <? 1); [done|]. rewrite read_into_char.
  destruct (read (read_char s)) as [[c s']|e]; [|done]. cbn -[resize_value read_into recv_bytes].
  by apply recv_bytes_agrees.
Qed.

Lemma recv_interval_agrees s :
  read_into pg_interval_type s (VList [VInt 0; VInt 0; VInt 0]) =
  let '(us, s) := read_int native int64 s in
  let '(days, s) := read_int native int32 s in
  '(months, s) ← read (read_int native int32 s); Ok (VList [VInt us; VInt days; VInt months], s).
Proof.
  unfold read_into, pg_interval_type. rewrite istream_read_structure. cbn -[istream_read_into read_int].
  read_field us. read_field days. read_field months.
  apply (read_map (fun z => VList [VInt us; VInt days; VInt z])).
Qed.

Lemma recv_prim_agrees p size s out :
  prim_ok p out = true -> recv_prim_chosen p size s out = recv_prim native ticks p size s.
Proof.
  intros Hok. destruct p, out as [b|z|bs| | |]; try done; cbn [recv_prim_chosen recv_prim].
  all: try (apply (recv_bytes_agrees _ size s bs); reflexivity).
  all: try apply recv_versioned_agrees.
  all: try (rewrite recv_static_agrees by reflexivity; f_equal; apply read_into_int; by auto).
  - rewrite recv_static_agrees by reflexivity. f_equal. apply read_into_bool.
  - rewrite recv_static_agrees by reflexivity. f_equal. apply read_into_char.
  - cbn in Hok. apply Nat.eqb_eq in Hok. rewrite read_into_raw by reflexivity. by rewrite Hok.
  - rewrite read_into_int by by left. change (mk_int_type (sizeof _) _) with int64.
    by destruct (read (read_int native int64 s)) as [[w s']|].
  - rewrite recv_interval_agrees. destruct (read_int native int64 s) as [us s1].
    destruct (read_int native int32 s1) as [days s2]. by destruct (read (read_int native int32 s2)) as [[months s3]|].
Qed.

(** The fields of the headers, which are structures without a value before. *)
Definition read_int32 (t : cpp) (s : istream) : outcome stop (Z * istream) :=
  '(v, s) ← read_into t s (VInt 0); match v with VInt z => Ok (z, s) | _ => Throw undefined end.

Definition recv_array_chosen (item : istream -> value -> outcome stop (value * istream))
  (c : container) (u : ctype) (s : istream) (out : list value) : outcome stop (list value * istream) :=
  '(h, s) ← read_into pg_array s (VList [VInt 0; VInt 0; VInt 0]);
  match h with
  | VList [VInt dimensions_count; VInt dataoffset; VInt elemtype] =>
      if 1 <? dimensions_count then fail error.bad_array_dimension else
      if negb (accepts_oid m (unwrap_type u) elemtype) then fail error.oid_type_mismatch else
      if dimensions_count <? 1 then Ok (out, s) else
      '(h, s) ← read_into pg_array_dimension s (VList [VInt 0; VInt 0]);
      match h with
      | VList [VInt size; VInt index] =>
          if size =? 0 then Ok (out, s) else
          out ← fit_array_size c u out size; recv_items item s out
      | _ => Throw undefined
      end
  | _ => Throw undefined
  end.

(** [read_and_verify_header], then the loop in the order of the adaptation. *)
Definition recv_composite_chosen (members : list (istream -> value -> outcome stop (value * istream)))
  (number : option Z) (order : option (list nat)) (s : istream) (out : list value) :
  outcome stop (list value * istream) :=
  '(h, s) ← read_into pg_composite s (VList [VInt 0]);
  match h, number, order with
  | VList [VInt count], Some number, Some order =>
      if negb (count =? number) then fail error.bad_composite_size else recv_in_order members order s out
  | _, _, _ => Throw undefined
  end.

Fixpoint recv_chosen (t : ctype) (size : Z) (s : istream) (out : value) : outcome stop (value * istream) :=
  let recv_data_frame t oid s out :=
    '(size, s) ← read_int32 (cpp_int 4) s; recv_with m (recv_chosen (unwrap_type t)) t oid size s out in
  let recv_frame t s out :=
    '(oid, s) ← read_int32 (cpp_uint 4) s; recv_data_frame t (Some oid) s out in
  match recv_dispatch (cpp_of t), t, out with
  | Some recv_primary, c_prim p, _ => recv_prim_chosen p size s out
  | Some recv_array, c_array c u, VList vs =>
      '(vs, s) ← recv_array_chosen (recv_data_frame u None) c u s vs; Ok (VList vs, s)
  | Some recv_fusion_composite, (c_tuple ts | c_struct _ _ ts), VList vs =>
      '(vs, s) ← recv_composite_chosen (map recv_frame ts) (fields_number t) (order_of with_fusion t) s vs;
      Ok (VList vs, s)
  | Some recv_hana_composite, (c_tuple ts | c_struct _ _ ts), VList vs =>
      '(vs, s) ← recv_composite_chosen (map recv_frame ts) (fields_number t) (order_of with_hana t) s vs;
      Ok (VList vs, s)
  | _, _, _ => Throw undefined
  end.

(** [recv] into an object with its wrapper. *)
Definition recv_value (t : ctype) : option Z -> Z -> istream -> value -> outcome stop (value * istream) :=
  recv_with m (recv_chosen (unwrap_type t)) t.

Lemma read_int32_agrees t s :
  read_for t = Some r_int ->
  read_int32 t s = read (read_int native (mk_int_type (sizeof (facts_of t)) (is_signed (facts_of t))) s).
Proof.
  intros Ht. unfold read_int32. rewrite read_into_int by by left.
  by destruct (read _) as [[z s']|].
Qed.

Lemma recv_items_agrees f g (ok : value -> Prop) s vs :
  (forall v s, ok v -> f s v = g s v) -> Forall ok vs -> recv_items f s vs = recv_items g s vs.
Proof.
  intros Hfg Hok. revert s. induction Hok as [|v vs Hv _ IH]; intros s; cbn; [done|].
  rewrite (Hfg v s Hv). destruct (g s v) as [[w s']|]; cbn; [by rewrite IH | done].
Qed.

Lemma recv_members_agrees f g ts s vs :
  Forall (fun t => forall v s, adapted t = true -> has_type t v = true -> f t s v = g t s v) ts ->
  forallb adapted ts = true -> members_all has_type ts vs = true ->
  recv_members f ts s vs = recv_members g ts s vs.
Proof.
  intros Hfg. revert s vs. induction Hfg as [|t ts Ht _ IH]; intros s [|v vs]; cbn; try done.
  intros [Ha Has]%andb_true_iff [Hv Hvs]%andb_true_iff. rewrite Ht by done.
  destruct (g t s v) as [[w s']|]; cbn; [by rewrite IH | done].
Qed.

(** The headers. *)
Lemma read_pg_array s :
  read_into pg_array s (VList [VInt 0; VInt 0; VInt 0]) =
  let '(dimensions_count, s) := read_int native int32 s in
  let '(dataoffset, s) := read_int native int32 s in
  '(elemtype, s) ← read (read_int native oid_t s);
  Ok (VList [VInt dimensions_count; VInt dataoffset; VInt elemtype], s).
Proof.
  unfold read_into, pg_array. rewrite istream_read_structure. cbn -[istream_read_into read_int].
  read_field d. read_field o. read_field e. apply (read_map (fun z => VList [VInt d; VInt o; VInt z])).
Qed.

Lemma read_pg_array_dimension s :
  read_into pg_array_dimension s (VList [VInt 0; VInt 0]) =
  let '(size, s) := read_int native int32 s in
  '(index, s) ← read (read_int native int32 s); Ok (VList [VInt size; VInt index], s).
Proof.
  unfold read_into, pg_array_dimension. rewrite istream_read_structure. cbn -[istream_read_into read_int].
  read_field d. read_field i. apply (read_map (fun z => VList [VInt d; VInt z])).
Qed.

Lemma read_pg_composite s :
  read_into pg_composite s (VList [VInt 0]) =
  ('(count, s) ← read (read_int native int32 s); Ok (VList [VInt count], s)).
Proof.
  unfold read_into, pg_composite. rewrite istream_read_structure. cbn -[istream_read_into read_int].
  read_field c. apply (read_map (fun z => VList [VInt z])).
Qed.

Lemma recv_array_with_agrees f g c u s vs :
  (forall v s, has_type u v = true -> f s v = g s v) -> has_type (c_array c u) (VList vs) = true ->
  recv_array_chosen f c u s vs = recv_array_with native m g c u s vs.
Proof.
  intros Hfg [Hc Hvs]%andb_true_iff. unfold recv_array_chosen, recv_array_with. rewrite read_pg_array.
  destruct (read_int native int32 s) as [d s1], (read_int native int32 s1) as [o s2].
  destruct (read (read_int native oid_t s2)) as [[e s3]|]; [|done]. cbn -[read_into read_int recv_items fit_array_size].
  destruct (1 <? d), (accepts_oid m (unwrap_type u) e), (d <? 1); try done. cbn -[read_into read_int recv_items fit_array_size].
  rewrite read_pg_array_dimension. destruct (read_int native int32 s3) as [n s4].
  destruct (read (read_int native int32 s4)) as [[i s5]|]; [|done]. cbn -[recv_items fit_array_size].
  destruct (n =? 0); [done|]. destruct (fit_array_size c u vs n) as [ws|] eqn:Hf; [|done]. cbn.
  destruct (fit_array_keeps c u vs n ws Hc Hvs Hf) as [_ Hws].
  apply (recv_items_agrees f g (fun v => has_type u v = true)); [done|]. by apply List.Forall_forall, forallb_forall.
Qed.

Lemma recv_composite_with_agrees f g ts s vs :
  Forall (fun t => forall v s, adapted t = true -> has_type t v = true -> f t s v = g t s v) ts ->
  forallb adapted ts = true -> members_all has_type ts vs = true ->
  recv_composite_chosen (map f ts) (Some (wrapS 32 (Z.of_nat (length ts)))) (Some (seq 0 (length ts))) s vs =
  recv_composite_with native g ts s vs.
Proof.
  intros Hfg Ha Hv. unfold recv_composite_chosen, recv_composite_with. rewrite read_pg_composite.
  destruct (read (read_int native int32 s)) as [[n s']|]; [|done]. cbn -[recv_members recv_in_order].
  destruct (negb _); [done|]. rewrite recv_declared_order by (by apply members_all_length). by apply recv_members_agrees.
Qed.

(** The object inside the wrapper has the type inside. *)
Lemma init_unwrap_typed t out : has_type t out = true -> has_type (unwrap_type t) (init_unwrap t out) = true.
Proof.
  destruct t as [| |k u| | |]; try done. destruct out as [| | | |w|]; try done. intros _. apply default_has_type.
Qed.

Definition agrees (t : ctype) : Prop :=
  forall size s out, adapted t = true -> has_type t out = true ->
    recv_chosen t size s out = recv_impl native ticks m t size s out.

Lemma adapted_unwrap t : adapted (unwrap_type t) = adapted t.
Proof. by destruct t. Qed.

Lemma recv_value_agrees t oid size s out :
  agrees (unwrap_type t) -> adapted t = true -> has_type t out = true ->
  recv_value t oid size s out = recv native ticks m t oid size s out.
Proof.
  intros Hag Ha Ht. unfold recv_value, recv, recv_with.
  rewrite Hag; [done | by rewrite adapted_unwrap | by apply init_unwrap_typed].
Qed.

Lemma recv_array_agrees c u : agrees (unwrap_type u) -> agrees (c_array c u).
Proof.
  intros Hu size s out Ha Ht. destruct out as [| | | | |vs]; try done. cbn [recv_chosen].
  rewrite recv_dispatch_of by done. cbn [recv_impl]. erewrite recv_array_with_agrees; [reflexivity| |exact Ht].
  intros v s' Hv. rewrite read_int32_agrees by reflexivity. change (mk_int_type (sizeof _) _) with int32.
  destruct (read (read_int native int32 s')) as [[n s1]|]; [|done]. by apply recv_value_agrees.
Qed.

Lemma recv_composite_agrees t ts :
  composite_of t ts ->
  Forall (fun u => agrees (unwrap_type u)) ts -> agrees t.
Proof.
  intros Ht Hts size s out Ha Hty.
  pose proof (adapted_members t ts Ht Ha) as Has.
  assert (exists vs, out = VList vs /\ members_all has_type ts vs = true) as (vs & -> & Hv).
  { destruct Ht as [->|(n & z & ->)], out as [| | | | |vs]; try discriminate; by exists vs. }
  assert (forall f, (forall u v s, agrees (unwrap_type u) -> adapted u = true -> has_type u v = true ->
      f u s v = recv_frame native ticks m u s v) ->
    recv_composite_chosen (map f ts) (Some (wrapS 32 (Z.of_nat (length ts)))) (Some (seq 0 (length ts))) s vs =
    recv_composite_with native (recv_frame native ticks m) ts s vs) as Hcomp.
  { intros f Hf. apply recv_composite_with_agrees; [|done|done]. apply (Forall_impl _ _ _ Hts). intros u Hu v s'. by apply Hf. }
  destruct (composite_order t ts Ht Ha) as (_ & Hn & [[Hd Ho]|[Hd Ho]]);
    destruct Ht as [->|(n & z & ->)]; cbn [recv_chosen]; rewrite Hd, Hn, Ho; cbn [recv_impl];
    (rewrite Hcomp; [reflexivity|]); intros u v s' Hu Hau Huv;
    rewrite read_int32_agrees by reflexivity; change (mk_int_type (sizeof _) _) with oid_t;
    unfold recv_frame, recv_data_frame; (destruct (read (read_int native oid_t s')) as [[o s1]|]; [|done]); cbn -[read_int32 recv_with read read_int recv];
    rewrite read_int32_agrees by reflexivity; change (mk_int_type (sizeof _) _) with int32;
    (destruct (read (read_int native int32 s1)) as [[k s2]|]; [|done]); by apply recv_value_agrees.
Qed.

(** Whatever bytes arrive, and whatever the object holds, the chosen specializations and
    overloads of [istream::read] give the object, the rest of the stream or the exception
    of [recv]. *)
Lemma recv_overloads_agree t oid size s out :
  adapted t = true -> has_type t out = true -> recv_value t oid size s out = recv native ticks m t oid size s out.
Proof.
  intros Ha Ht. apply recv_value_agrees; [|done|done]. clear Ha Ht out.
  enough (agrees t /\ agrees (unwrap_type t)) by tauto.
  induction t as [p| |k t IH|c u IH|ts IH|n z ts IH] using ctype_nested_ind.
  - enough (agrees (c_prim p)) by done. intros size' s' out _ Hok. destruct p; by apply recv_prim_agrees.
  - done.
  - split; [done | exact (proj1 IH)].
  - split; exact (recv_array_agrees c u (proj2 IH)).
  - split; (eapply recv_composite_agrees; [by left|]); (apply (Forall_impl _ _ _ IH); by intros u [_ Hu]).
  - split; (eapply recv_composite_agrees; [right; by eexists _, _|]); (apply (Forall_impl _ _ _ IH); by intros u [_ Hu]).
Qed.
End Receiving.

(** C20. The choices of the compiler are those [BinaryIO] is written by: for every C++
    type whose structures are adapted, each adaptation having the members in the order
    of their declaration, and every value of it the partial specializations of the
    dispatchers are not ambiguous and the calls of [ostream::write] and [istream::read]
    have a best overload; running what is chosen, each loop in the order of the
    adaptation it uses, appends exactly the bytes of [send], and gives, for whatever
    bytes arrive, the object, the rest of the stream or the exception of [recv]. *)
Theorem overloads_agree native ticks m t v :
  adapted t = true -> has_type t v = true ->
  (forall out, send_value native ticks m t out v = send native ticks m t out v) /\
  (forall oid size s, recv_value native ticks m t oid size s v = recv native ticks m t oid size s v).
Proof.
  intros Ha Hv. split; intros; [by apply send_overloads_agree | by apply recv_overloads_agree].
Qed.
End Types.

(** A structure of Hana with a name, an optional list of numbers and a pair. *)
Definition sample_struct : ctype :=
  c_struct "person" dynamic_size
    [c_prim p_name; c_nullable std_optional (c_array std_list (c_prim p_int4)); c_tuple [c_prim p_float8; c_prim p_bytea]].
Definition sample_person : value :=
  VList [VBytes [x61; x62]; VSome (VList [VInt 1; VInt (-2)]); VList [VInt 0; VBytes [x00]]].

Definition person_order (n : string) : option (list nat) :=
  if String.eqb n "person" then Some [0; 1; 2]%nat else None.

Lemma overloads_agree_witness :
  (forall out, send_value (fun _ => 8%nat) (fun _ => true) person_order (fun _ => None) little 1000 []
     sample_struct out sample_person = send little 1000 [] sample_struct out sample_person) /\
  (forall oid size s, recv_value (fun _ => 8%nat) (fun _ => true) person_order (fun _ => None) little 1000 []
     sample_struct oid size s sample_person = recv little 1000 [] sample_struct oid size s sample_person).
Proof.
  apply (overloads_agree (fun _ => 8%nat) (fun _ => true) person_order (fun _ => None) little 1000 []
    sample_struct sample_person); vm_compute; reflexivity.
Defined.

(** A structure that is adapted with both libraries, in different orders, is sent in the
    order of Hana and received in the order of Fusion: what is sent comes back with its
    members exchanged. *)
Definition point : ctype := c_struct "point" dynamic_size [c_prim p_int4; c_prim p_int4].

Theorem doubly_adapted_exchanges :
  exists bs,
    send_value (fun _ => 8%nat) (fun _ => true) (fun _ => Some [0; 1]%nat) (fun _ => Some [1; 0]%nat) little 1000 []
      point [] (VList [VInt 1; VInt 2]) = Some bs /\
    recv_value (fun _ => 8%nat) (fun _ => true) (fun _ => Some [0; 1]%nat) (fun _ => Some [1; 0]%nat) little 1000 []
      point None (size_of point (VList [VInt 1; VInt 2])) (istream_open bs) (default_value point) =
    Ok (VList [VInt 2; VInt 1], istream_open []).
Proof. eexists. split; [vm_compute; reflexivity|]. vm_compute. reflexivity. Qed.

(** A type that is none of those the concepts name and converts to [bool], such as a
    pointer or an enumeration without a scope, is [Readable], and is written as one
    byte. *)
Lemma readable_by_conversion f ms :
  Integral f = false -> FloatingPoint f = false -> RawDataReadable f = false -> HanaSequence f = false ->
  HanaStruct f = false -> is_bool f = false -> converts_to_bool f = true ->
  Readable (cpp_type f ms) = true /\ write_for (cpp_type f ms) = Some w_bool.
Proof.
  intros Hi Hf Hr Hs Hh Hb Hc. enough (write_for (cpp_type f ms) = Some w_bool) as Hw by (unfold Readable; by rewrite Hw).
  unfold write_for, resolve, viables. cbn. by rewrite Hi, Hf, Hr, Hs, Hh, Hb, Hc.
Qed.
End Overloads.
