(* ===== verification/BinaryQuery.v ===== *)
(** The parameters of a query as libpq takes them: [binary_query] of
    [src/include/bozo/io/binary_query.h].

    The constructor sends every parameter into one buffer and gives libpq, for
    each, its OID, its format, its length and a pointer into the buffer (an
    offset here, a null pointer being [None]). *)

From S2P Require Import Prelude Endian Streams PgTypes TypeSystem Chrono BinaryIO.
From Stdlib Require Import ZArith Lia List String Strings.Byte.
From stdpp Require Import base tactics list strings.

Open Scope string_scope.
Open Scope Z_scope.

Module BinaryQuery.

Import Endian Streams PgTypes TypeSystem Chrono BinaryIO.

Definition param : Set := ctype * value.

Record binary_query := mk_binary_query {
  bq_text : string;
  bq_buffer : list byte;
  bq_types : list Z;
  bq_formats : list Z;
  bq_lengths : list Z;
  bq_values : list (option nat);
}.

Definition binary_format : Z := 1.

(** [lengths_] and [types_]. *)
Definition param_length (p : param) : Z := Z.max 0 (size_of (fst p) (snd p)).
Definition param_type (m : oid_map) (p : param) : Z := type_oid m (fst p).

(** The fold that gives [buffer_.reserve] the sum of the lengths, a sum of [int]s. *)
Definition lengths_sum (lengths : list Z) : option Z :=
  foldr (fun x acc => r ← acc; checkS 32 (x + r)) (Some 0) lengths.

(** [hana::for_each(params, send)]. *)
Fixpoint send_params (native : endian) (ticks : Z) (m : oid_map) (out : list byte)
  (ps : list param) : option (list byte) :=
  match ps with
  | [] => Some out
  | (t, v) :: ps => out ← send native ticks m t out v; send_params native ticks m out ps
  end.

(** The loop that sets [values_]. *)
Fixpoint param_values (offset : nat) (lengths : list Z) : list (option nat) :=
  match lengths with
  | [] => []
  | l :: lengths =>
      (if l =? 0 then None else Some offset) :: param_values (offset + Z.to_nat l) lengths
  end.

(** The constructor; [None] when an operation without a defined result runs. *)
Definition make_binary_query (native : endian) (ticks : Z) (m : oid_map) (text : string)
  (ps : list param) : option binary_query :=
  let lengths := map param_length ps in
  _ ← lengths_sum lengths;
  buffer ← send_params native ticks m [] ps;
  Some (mk_binary_query text buffer (map (param_type m) ps)
          (replicate (length ps) binary_format) lengths (param_values 0 lengths)).

(** What libpq sends for a parameter: a null for a null pointer, the bytes the
    pointer and the length delimit otherwise. *)
Definition param_sent (q : binary_query) (i : nat) : option (option (list byte)) :=
  v ← bq_values q !! i;
  l ← bq_lengths q !! i;
  Some (match v with
        | None => None
        | Some offset => Some (take (Z.to_nat l) (drop offset (bq_buffer q)))
        end).

(** ** The pointers *)

Section Params.
Context (native : endian) (ticks : Z) (m : oid_map).

(** A parameter whose bytes are [bs]. *)
Definition param_wire (p : param) (bs : list byte) : Prop :=
  sendable_value (fst p) (snd p) = true /\ wire ticks m (fst p) (snd p) = Some bs.

Lemma param_wire_spec p bs :
  param_wire p bs ->
  (forall out, send native ticks m (fst p) out (snd p) = Some (out ++ bs)%list) /\
  param_length p = Z.of_nat (length bs).
Proof.
  intros [(Ht & Hs & Hu & Hle)%sendable_value_spec Hw]. split.
  - intros out. rewrite (sends_typed native ticks m (fst p) (snd p)), Hw by done. done.
  - unfold param_length. rewrite (size_exact_typed _ _ Ht Hs Hu Hle).
    pose proof (length_wire ticks m _ _ _ Ht Hw) as Hl.
    assert (is_null (fst p) (snd p) = true -> payload_size (fst p) (snd p) = 0) as Hn
      by (destruct (fst p), (snd p); by cbn).
    destruct (is_null (fst p) (snd p)); unfold null_state_size; [rewrite Hn in Hl by done|]; lia.
Qed.

Lemma send_params_wire ps bss out :
  Forall2 param_wire ps bss -> send_params native ticks m out ps = Some ((out ++ concat bss)%list).
Proof.
  intros Hall. revert out. induction Hall as [|[t v] bs ps bss Hp _ IH]; intros out.
  - cbn. by rewrite app_nil_r.
  - cbn [send_params concat]. destruct (param_wire_spec _ _ Hp) as [Hs _].
    rewrite Hs. cbn [mbind option_bind]. by rewrite IH, <- app_assoc.
Qed.

Lemma map_param_length ps bss :
  Forall2 param_wire ps bss -> map param_length ps = map (fun bs : list byte => Z.of_nat (length bs)) bss.
Proof.
  induction 1 as [|p bs ps bss Hp _ IH]; [done|]. cbn.
  by rewrite IH, (proj2 (param_wire_spec _ _ Hp)).
Qed.

Lemma lengths_sum_ok bss :
  Z.of_nat (length (concat bss)) <= INT32_MAX ->
  lengths_sum (map (fun bs : list byte => Z.of_nat (length bs)) bss) = Some (Z.of_nat (length (concat bss))).
Proof.
  induction bss as [|bs bss IH]; cbn [concat]; [done|]. rewrite length_app. intros Hle.
  cbn [map lengths_sum foldr]. unfold lengths_sum in IH. rewrite IH by lia.
  cbn [mbind option_bind]. rewrite checkS_some; [f_equal; lia|].
  apply in_S32_iff. unfold INT32_MAX in *. lia.
Qed.

Lemma param_values_lookup bss i bs off :
  bss !! i = Some bs ->
  param_values off (map (fun bs : list byte => Z.of_nat (length bs)) bss) !! i =
  Some (if Z.of_nat (length bs) =? 0 then None
        else Some (off + length (concat (take i bss)))%nat).
Proof.
  revert i off. induction bss as [|b bss IH]; intros [|i] off H; try discriminate; cbn in H |- *.
  - injection H as ->. by rewrite Nat.add_0_r.
  - rewrite (IH _ _ H), Nat2Z.id. rewrite length_app, Nat.add_assoc. done.
Qed.

Lemma take_drop_concat (bss : list (list byte)) i bs :
  bss !! i = Some bs ->
  take (length bs) (drop (length (concat (take i bss))) (concat bss)) = bs.
Proof.
  revert i. induction bss as [|b bss IH]; intros [|i] H; try discriminate; cbn in H |- *.
  - injection H as ->. by rewrite drop_0, take_app_length.
  - rewrite length_app, <- drop_drop, drop_app_length. by apply IH.
Qed.

Lemma make_binary_query_wire text ps bss :
  Forall2 param_wire ps bss -> Z.of_nat (length (concat bss)) <= INT32_MAX ->
  make_binary_query native ticks m text ps =
  Some (mk_binary_query text (concat bss) (map (param_type m) ps)
    (replicate (length ps) binary_format) (map (fun bs : list byte => Z.of_nat (length bs)) bss)
    (param_values 0 (map (fun bs : list byte => Z.of_nat (length bs)) bss))).
Proof.
  intros Hall Hle. unfold make_binary_query.
  rewrite (map_param_length ps bss) by done. rewrite lengths_sum_ok by done.
  cbn [mbind option_bind]. by rewrite (send_params_wire ps bss) by done.
Qed.
End Params.

(** A query hands libpq, for every parameter, the OID of its type, the binary
    format, and the bytes of its value; a value of no bytes is handed over as a
    null pointer. *)
Theorem query_parameters native ticks m text ps bss :
  Forall2 (param_wire ticks m) ps bss -> Z.of_nat (length (concat bss)) <= INT32_MAX ->
  exists q, make_binary_query native ticks m text ps = Some q /\ bq_text q = text /\
    forall i (p : param) bs, ps !! i = Some p -> bss !! i = Some bs ->
      bq_types q !! i = Some (type_oid m (fst p)) /\
      bq_formats q !! i = Some binary_format /\
      param_sent q i = Some (match bs with [] => None | _ => Some bs end).
Proof.
  intros Hall Hle. eexists. split; [by apply make_binary_query_wire|]. split; [done|].
  intros i p bs Hp Hb. cbn [bq_types bq_formats]. split; [|split].
  - change (map (param_type m) ps) with (param_type m <$> ps). by rewrite list_lookup_fmap, Hp.
  - apply lookup_replicate_2. by eapply lookup_lt_Some.
  - unfold param_sent. cbn [bq_values bq_lengths bq_buffer].
    rewrite (param_values_lookup _ _ _ _ Hb).
    change (map ?f bss) with (f <$> bss). rewrite list_lookup_fmap, Hb.
    cbn [mbind option_bind fmap option_fmap option_map].
    destruct (Z.eqb_spec (Z.of_nat (length bs)) 0) as [Hz|Hz]; [by destruct bs|].
    rewrite Nat2Z.id, Nat.add_0_l, take_drop_concat by done. by destruct bs.
Qed.

Lemma query_parameters_witness :
  exists q, make_binary_query little 1000 [] "SELECT $1, $2" 
      [(c_prim p_int2, VInt 258); (c_prim p_text, VBytes [x61])] = Some q /\
    bq_text q = "SELECT $1, $2" /\
    forall i (p : param) bs, [(c_prim p_int2, VInt 258); (c_prim p_text, VBytes [x61])] !! i = Some p ->
      [[x01; x02]; [x61]] !! i = Some bs ->
      bq_types q !! i = Some (type_oid [] (fst p)) /\ bq_formats q !! i = Some binary_format /\
      param_sent q i = Some (match bs with [] => None | _ => Some bs end).
Proof.
  apply (query_parameters little 1000 [] "SELECT $1, $2"
    [(c_prim p_int2, VInt 258); (c_prim p_text, VBytes [x61])] [[x01; x02]; [x61]]).
  - constructor; [split; vm_compute; reflexivity|].
    constructor; [split; vm_compute; reflexivity | constructor].
  - vm_compute. discriminate.
Defined.

(** An empty string, which is not null, is handed to libpq as an SQL null, as
    a null string is. *)
Theorem empty_string_sent_as_null native ticks m text :
  exists q, make_binary_query native ticks m text
    [(c_nullable std_optional (c_prim p_text), VNull); (c_prim p_text, VBytes [])] = Some q /\
  is_null (c_prim p_text) (VBytes []) = false /\
  param_sent q 0 = Some None /\ param_sent q 1 = Some None.
Proof. eexists. split; [reflexivity|]. done. Qed.

End BinaryQuery.
