(* ===== verification/QueryBuilder.v ===== *)
(** Queries: [src/include/bozo/query_builder.h], [src/include/bozo/impl/query.h]
    and the statement that begins a transaction,
    [src/include/bozo/detail/begin_statement_builder.h].

    A builder is the list of its elements, texts and parameters; [builder_text]
    is the fold that numbers the placeholders, [builder_params] the one that
    collects the parameters. *)

From S2P Require Import Prelude TypeSystem BinaryIO BinaryQuery.
From Stdlib Require Import Arith Lia List String Ascii.
From stdpp Require Import base tactics list strings.
From Equations Require Import Equations.

Open Scope string_scope.

Module QueryBuilder.

Import TypeSystem BinaryIO BinaryQuery.

(** ** Numerals *)

Definition digit_to_string (value : nat) : string :=
  String (ascii_of_nat (48 + value)) EmptyString.

Lemma to_string_decreases value :
  ((value - value mod 10) / 10 =? 0)%nat = false -> ((value - value mod 10) / 10 < value)%nat.
Proof.
  intros H. apply Nat.eqb_neq in H.
  assert (value <> 0) by (intros ->; apply H; reflexivity).
  apply Nat.Div0.div_lt_upper_bound. lia.
Qed.

(** A boolean with the equation of its value. *)
Definition inspect {A} (a : A) : { b | a = b } := exist _ a eq_refl.

(** [to_string] and [to_string_head]: the head of a number below ten is empty. *)
Equations to_string (value : nat) : string by wf value lt :=
  to_string value with inspect ((value - value mod 10) / 10 =? 0)%nat := {
    | exist _ true _ => digit_to_string (value mod 10)
    | exist _ false H =>
        to_string ((value - value mod 10) / 10) +:+ digit_to_string (value mod 10) }.
Next Obligation. by apply to_string_decreases. Qed.

(** ** Builders *)

Inductive element : Set :=
| query_text (value : string)
| query_param (value : param).

Definition query_builder : Set := list element.

(** [operator ""_SQL] and the forms of [operator +]. *)
Definition sql (s : string) : query_builder := [query_text s].
Definition plus_builder (lhs rhs : query_builder) : query_builder := (lhs ++ rhs)%list.
Definition plus_element (lhs : query_builder) (e : element) : query_builder := (lhs ++ [e])%list.
Definition plus_param (lhs : query_builder) (p : param) : query_builder :=
  plus_element lhs (query_param p).

(** A builder whose text can be had: the text so far is [nothing_t] before the first
    element, and there is no [concat] of [nothing_t] with a placeholder, so that a
    builder that begins with a parameter does not compile.  [text_step] is the fold
    for the others; it starts with the empty text in the place of [nothing_t]. *)
Definition starts_with_text (elements : query_builder) : bool :=
  match elements with query_text _ :: _ => true | _ => false end.

(** The builders that are made of [_SQL] with [operator +] begin with a text. *)
Inductive user_built : query_builder -> Prop :=
| user_sql s : user_built (sql s)
| user_plus_builder lhs rhs : user_built lhs -> user_built rhs -> user_built (plus_builder lhs rhs)
| user_plus_element lhs e : user_built lhs -> user_built (plus_element lhs e).

Lemma user_built_compiles b : user_built b -> starts_with_text b = true.
Proof.
  induction 1 as [s|lhs rhs _ IH _ _|lhs e _ IH]; [done|..]; by destruct lhs as [|[]].
Qed.

(** One step of the fold of [text()]: the number of the next placeholder and the
    text so far. *)
Definition text_step (r : nat * string) (e : element) : nat * string :=
  match e with
  | query_text value => (fst r, snd r +:+ value)
  | query_param _ => (S (fst r), snd r +:+ ("$" +:+ to_string (fst r)))
  end.

Definition builder_text (elements : query_builder) : string :=
  snd (fold_left text_step elements (1, "")).

Definition builder_params (elements : query_builder) : list param :=
  fold_left (fun r e => match e with
                        | query_text _ => r
                        | query_param value => (r ++ [value])%list
                        end) elements [].

(** [impl::query] and [build()]. *)
Record query := make_query { q_text : string; q_params : list param }.

Definition build (elements : query_builder) : query :=
  make_query (builder_text elements) (builder_params elements).

(** [to_binary_query]. *)
Definition to_binary_query native ticks m (q : query) : option binary_query :=
  make_binary_query native ticks m (q_text q) (q_params q).

(** ** Lemmas *)

(** The number a decimal numeral stands for. *)
Fixpoint read_decimal (acc : nat) (s : string) : nat :=
  match s with
  | EmptyString => acc
  | String c s => read_decimal (10 * acc + (nat_of_ascii c - 48)) s
  end.

Lemma read_decimal_app acc a b : read_decimal acc (a +:+ b) = read_decimal (read_decimal acc a) b.
Proof. revert acc. induction a as [|c a IH]; intros acc; [done|]. apply IH. Qed.

Lemma read_digit acc d : d < 10 -> read_decimal acc (digit_to_string d) = 10 * acc + d.
Proof. intros Hd. cbn [digit_to_string read_decimal]. rewrite nat_ascii_embedding by lia. lia. Qed.

Lemma read_to_string n : read_decimal 0 (to_string n) = n.
Proof.
  assert (forall n, n - n mod 10 = n / 10 * 10) as Hsub
    by (intros k; pose proof (Nat.div_mod_eq k 10); lia).
  apply (to_string_elim (fun n s => read_decimal 0 s = n)); clear n; intros n e.
  - intros _. apply Nat.eqb_eq in e. rewrite Hsub, Nat.div_mul in e by lia.
    rewrite read_digit by (apply Nat.mod_upper_bound; lia).
    pose proof (Nat.div_mod_eq n 10). lia.
  - intros IH _. rewrite read_decimal_app, IH, read_digit by (apply Nat.mod_upper_bound; lia).
    rewrite Hsub, Nat.div_mul by lia. pose proof (Nat.div_mod_eq n 10). lia.
Qed.

Lemma fold_params es acc :
  fold_left (fun r e => match e with
                        | query_text _ => r
                        | query_param value => (r ++ [value])%list
                        end) es acc = (acc ++ builder_params es)%list.
Proof.
  unfold builder_params. revert acc. induction es as [|e es IH]; intros acc; cbn [fold_left].
  - by rewrite app_nil_r.
  - destruct e; [apply IH|]. rewrite IH, (IH ([] ++ _)%list). by rewrite <- app_assoc.
Qed.

Lemma builder_params_cons e es :
  builder_params (e :: es) =
  match e with query_text _ => builder_params es | query_param p => p :: builder_params es end.
Proof. destruct e; [done|]. unfold builder_params at 1. cbn [fold_left]. by rewrite fold_params. Qed.

Lemma builder_params_app a b :
  builder_params (a ++ b)%list = (builder_params a ++ builder_params b)%list.
Proof. unfold builder_params at 1. by rewrite fold_left_app, fold_params. Qed.

(** The text of an element that [n] parameters precede. *)
Definition piece (n : nat) (e : element) : string :=
  match e with query_text s => s | query_param _ => "$" +:+ to_string (S n) end.

(** The texts of the elements, one after another. *)
Fixpoint pieces (n : nat) (es : query_builder) : string :=
  match es with
  | [] => ""
  | e :: es => piece n e +:+ pieces (n + length (builder_params [e])) es
  end.

Lemma append_nil_r s : s +:+ "" = s.
Proof. induction s as [|c s IH]; [done|]. exact (f_equal (String c) IH). Qed.

Lemma append_assoc a b c : a +:+ (b +:+ c) = (a +:+ b) +:+ c.
Proof. induction a as [|x a IH]; [done|]. exact (f_equal (String x) IH). Qed.

Lemma fold_text es n acc :
  snd (fold_left text_step es (S n, acc)) = acc +:+ pieces n es.
Proof.
  revert n acc. induction es as [|e es IH]; intros n acc; cbn [fold_left pieces].
  - by rewrite append_nil_r.
  - destruct e; cbn [text_step fst snd piece]; rewrite IH; rewrite append_assoc.
    + cbn. by rewrite Nat.add_0_r.
    + cbn [builder_params fold_left app length]. by rewrite Nat.add_1_r, !append_assoc.
Qed.

Lemma pieces_app n a b :
  pieces n (a ++ b)%list = pieces n a +:+ pieces (n + length (builder_params a)) b.
Proof.
  revert n. induction a as [|e a IH]; intros n; cbn [app pieces].
  - cbn. by rewrite Nat.add_0_r.
  - rewrite IH, append_assoc, (builder_params_cons e a). do 2 f_equal.
    destruct e; cbn [length builder_params fold_left app]; lia.
Qed.

(** C33. The element at any place of a builder is, in the text of the query, its own
    text if it is a text, and [$k] if it is a parameter, where [k], read as a
    decimal numeral, is the place of its value among the parameters of the query
    counted from one.  The text is made of nothing else. *)
Theorem placeholders_number_parameters before e after :
  builder_text (before ++ e :: after)%list =
    builder_text before +:+
    piece (length (builder_params before)) e +:+
    pieces (length (builder_params (before ++ [e])%list)) after /\
  forall p, e = query_param p ->
    builder_params (before ++ e :: after)%list !! length (builder_params before) = Some p /\
    exists k, piece (length (builder_params before)) e = "$" +:+ k /\
      read_decimal 0 k = S (length (builder_params before)).
Proof.
  split.
  - unfold builder_text. rewrite (fold_text _ 0), (fold_text before 0), pieces_app.
    cbn [pieces append Nat.add]. rewrite builder_params_app, length_app. done.
  - intros p ->. split.
    + rewrite builder_params_app, builder_params_cons, lookup_app_r, Nat.sub_diag by lia. done.
    + eexists. split; [reflexivity|]. apply read_to_string.
Qed.

(** ** The statement that begins a transaction *)

Inductive isolation_level : Set :=
| serializable | repeatable_read | read_committed | read_uncommitted.

Inductive transaction_mode : Set := read_write | read_only.

(** [transaction_options]: an option that is absent or [none] is [None]. *)
Record transaction_options := mk_transaction_options {
  opt_isolation_level : option isolation_level;
  opt_mode : option transaction_mode;
  opt_deferrability : option bool;
}.

#[global] Instance isolation_level_eq_dec : EqDecision isolation_level.
Proof. solve_decision. Defined.
#[global] Instance transaction_mode_eq_dec : EqDecision transaction_mode.
Proof. solve_decision. Defined.
#[global] Instance transaction_options_eq_dec : EqDecision transaction_options.
Proof. solve_decision. Defined.

Definition level_to_string (l : isolation_level) : string :=
  " ISOLATION LEVEL " +:+
  match l with
  | serializable => "SERIALIZABLE"
  | repeatable_read => "REPEATABLE READ"
  | read_committed => "READ COMMITTED"
  | read_uncommitted => "READ UNCOMMITTED"
  end.

Definition mode_to_string (m : transaction_mode) : string :=
  match m with read_write => " READ WRITE" | read_only => " READ ONLY" end.

Definition deferrable_to_string (d : bool) : string :=
  if d then " DEFERRABLE" else " NOT DEFERRABLE".

(** [real_options], in the order of [supported_options], as strings. *)
Definition option_strings (o : transaction_options) : list string :=
  (match opt_isolation_level o with Some l => [level_to_string l] | None => [] end ++
   match opt_mode o with Some m => [mode_to_string m] | None => [] end ++
   match opt_deferrability o with Some d => [deferrable_to_string d] | None => [] end)%list.

Definition begin_statement (o : transaction_options) : query :=
  make_query ("BEGIN" +:+ foldr (fun s acc => s +:+ acc) "" (option_strings o)) [].

(** *** The grammar of the statement *)

(** [BEGIN] as the documentation of PostgreSQL has it: the words of the statement are read
    one after the other.

      BEGIN [ WORK | TRANSACTION ] [ transaction_mode [, ...] ]
      transaction_mode: ISOLATION LEVEL { SERIALIZABLE | REPEATABLE READ |
                                          READ COMMITTED | READ UNCOMMITTED }
                        | READ WRITE | READ ONLY | [ NOT ] DEFERRABLE

    The commas between the modes may be left out. *)
Definition read_level (ts : list string) : option (isolation_level * list string) :=
  match ts with
  | w :: ts =>
      if String.eqb w "SERIALIZABLE" then Some (serializable, ts) else
      match ts with
      | w' :: ts =>
          if String.eqb w "REPEATABLE" && String.eqb w' "READ" then Some (repeatable_read, ts) else
          if String.eqb w "READ" && String.eqb w' "COMMITTED" then Some (read_committed, ts) else
          if String.eqb w "READ" && String.eqb w' "UNCOMMITTED" then Some (read_uncommitted, ts) else None
      | [] => None
      end
  | [] => None
  end.

(** One mode, and the words after it. *)
Definition read_mode (o : transaction_options) (ts : list string) : option (transaction_options * list string) :=
  match ts with
  | w :: ts =>
      if String.eqb w "DEFERRABLE" then
        Some (mk_transaction_options (opt_isolation_level o) (opt_mode o) (Some true), ts) else
      match ts with
      | w' :: ts =>
          if String.eqb w "NOT" && String.eqb w' "DEFERRABLE" then
            Some (mk_transaction_options (opt_isolation_level o) (opt_mode o) (Some false), ts) else
          if String.eqb w "READ" && String.eqb w' "WRITE" then
            Some (mk_transaction_options (opt_isolation_level o) (Some read_write) (opt_deferrability o), ts) else
          if String.eqb w "READ" && String.eqb w' "ONLY" then
            Some (mk_transaction_options (opt_isolation_level o) (Some read_only) (opt_deferrability o), ts) else
          if String.eqb w "ISOLATION" && String.eqb w' "LEVEL" then
            '(l, ts) ← read_level ts;
            Some (mk_transaction_options (Some l) (opt_mode o) (opt_deferrability o), ts)
          else None
      | [] => None
      end
  | [] => None
  end.

(** There are no more modes than words. *)
Fixpoint read_modes (fuel : nat) (o : transaction_options) (ts : list string) : option transaction_options :=
  match ts with
  | [] => Some o
  | _ => match fuel with
         | O => None
         | S fuel => '(o, ts) ← read_mode o ts; read_modes fuel o ts
         end
  end.

Definition read_begin (s : string) : option transaction_options :=
  match String.words s with
  | w :: ts =>
      if String.eqb w "BEGIN" then
        let ts := match ts with
                  | w :: ts' => if String.eqb w "WORK" || String.eqb w "TRANSACTION" then ts' else ts
                  | [] => []
                  end in
        read_modes (length ts) (mk_transaction_options None None None) ts
      else None
  | [] => None
  end.

(** C34. The statement that begins a transaction says what the options say: read by the
    grammar of PostgreSQL it is a [BEGIN] with exactly the isolation level, the access
    mode and the deferrability of the options, and without a mode for an option that
    is not set; it has no parameters. *)
Theorem begin_statement_faithful o :
  read_begin (q_text (begin_statement o)) = Some o /\ q_params (begin_statement o) = [].
Proof.
  destruct o as [[[]|] [[]|] [[]|]]; (split; [vm_compute; reflexivity | reflexivity]).
Qed.

End QueryBuilder.
