(* ===== verification/X3.v ===== *)
(** The combinators of Boost.Spirit X3 that [src/include/bozo/query_conf.h] uses.

    X3 is not part of the program: its combinators are the class [X3], and what
    their documentation says they match is the class [X3Laws].  X3 is a library of
    parsing expressions: an alternative tries its branches in order, a repetition
    takes as much as it can, and nothing is tried again.  The grammars are run with a
    skipper for the character NUL, which every parser outside a [lexeme] applies
    before it starts.  [peg] is an implementation, which shows that the laws can
    hold; nothing else depends on it. *)

From S2P Require Import Prelude.
From Stdlib Require Import Arith Lia List String Ascii.
From stdpp Require Import base tactics list strings.

Open Scope string_scope.

Create HintDb x3.

(** ** Operations and laws *)

Definition NUL : ascii := ascii_of_nat 0.
Definition CR : ascii := ascii_of_nat 13.
Definition LF : ascii := ascii_of_nat 10.

(** The skipper [x3::char_('\0')], which a parser applies unless it is in a [lexeme]. *)
Fixpoint skip_nul (s : string) : string :=
  match s with
  | String c s' => if Ascii.eqb c NUL then skip_nul s' else s
  | EmptyString => s
  end.

Definition pre_skip (skipping : bool) (s : string) : string :=
  if skipping then skip_nul s else s.

(** What is left of [s] behind the literal [t]. *)
Fixpoint strip_prefix (t s : string) : option string :=
  match t, s with
  | EmptyString, _ => Some s
  | String a t, String b s => if Ascii.eqb a b then strip_prefix t s else None
  | _, _ => None
  end.

(** The end of a line: [\r\n], [\r] or [\n]. *)
Definition strip_eol (s : string) : option string :=
  match s with
  | String a s' =>
      if Ascii.eqb a CR then
        match s' with String b s'' => if Ascii.eqb b LF then Some s'' else Some s' | _ => Some s' end
      else if Ascii.eqb a LF then Some s' else None
  | EmptyString => None
  end.

Class X3 := {
  parser : Type -> Type;
  lit : string -> parser unit;                        (** [lit] and string literals *)
  x3_string : string -> parser string;                (** [string] *)
  char_ : (ascii -> bool) -> parser ascii;            (** [char_], [space], sets *)
  eol : parser unit;
  eoi : parser unit;
  seq {A B} : parser A -> parser B -> parser (A * B); (** [a >> b] *)
  alt {A} : parser A -> parser A -> parser A;         (** [a | b] *)
  difference {A B} : parser A -> parser B -> parser A; (** [a - b] *)
  kleene {A} : parser A -> parser (list A);           (** [*a] *)
  plus {A} : parser A -> parser (list A);             (** [+a] *)
  optional {A} : parser A -> parser unit;             (** [-a], its attribute not used *)
  lexeme {A} : parser A -> parser A;
  action {A B} : parser A -> (A -> B) -> parser B;    (** [a[f]] *)
  (** A run with or without the skipper: the attribute and the rest of the input. *)
  parse {A} : parser A -> bool -> string -> option (A * string);
}.

(** A parser that never matches without consuming a character. *)
Definition consumes `{X3} {A} (p : parser A) (skipping : bool) : Prop :=
  forall s a r, parse p skipping s = Some (a, r) -> String.length r < String.length s.

Class X3Laws `{X3} := {
  parse_lit t k s : parse (lit t) k s = r ← strip_prefix t (pre_skip k s); Some (tt, r);
  parse_string t k s : parse (x3_string t) k s = r ← strip_prefix t (pre_skip k s); Some (t, r);
  parse_char p k s :
    parse (char_ p) k s =
    match pre_skip k s with String c r => if p c then Some (c, r) else None | _ => None end;
  parse_eol k s : parse eol k s = r ← strip_eol (pre_skip k s); Some (tt, r);
  parse_eoi k s :
    parse eoi k s = match pre_skip k s with EmptyString => Some (tt, EmptyString) | _ => None end;
  parse_seq {A B} (a : parser A) (b : parser B) k s :
    parse (seq a b) k s = '(x, s) ← parse a k s; '(y, s) ← parse b k s; Some ((x, y), s);
  parse_alt {A} (a b : parser A) k s :
    parse (alt a b) k s = match parse a k s with Some r => Some r | None => parse b k s end;
  parse_difference {A B} (a : parser A) (b : parser B) k s :
    parse (difference a b) k s = match parse b k s with Some _ => None | None => parse a k s end;
  parse_kleene {A} (a : parser A) k s :
    consumes a k ->
    parse (kleene a) k s =
    match parse a k s with
    | Some (x, r) => '(xs, r) ← parse (kleene a) k r; Some (x :: xs, r)
    | None => Some ([], s)
    end;
  parse_plus {A} (a : parser A) k s :
    consumes a k ->
    parse (plus a) k s = '(x, r) ← parse a k s; '(xs, r) ← parse (kleene a) k r; Some (x :: xs, r);
  parse_optional {A} (a : parser A) k s :
    parse (optional a) k s = match parse a k s with Some (_, r) => Some (tt, r) | None => Some (tt, s) end;
  parse_lexeme {A} (a : parser A) k s :
    parse (lexeme a) k s = parse a false (pre_skip k s);
  parse_action {A B} (a : parser A) (f : A -> B) k s :
    parse (action a f) k s = '(x, r) ← parse a k s; Some (f x, r);
}.

(** ** Lemmas *)

(** *** Strings *)

Fixpoint nul_free (s : string) : bool :=
  match s with String c s => negb (Ascii.eqb c NUL) && nul_free s | EmptyString => true end.

Lemma nul_free_cons c s : nul_free (String c s) = true -> c <> NUL /\ nul_free s = true.
Proof. cbn. intros [H%negb_true_iff Hs]%andb_true_iff. by apply Ascii.eqb_neq in H. Qed.

Lemma nul_free_app a b : nul_free (a +:+ b) = nul_free a && nul_free b.
Proof.
  induction a as [|c a IH]; [done|]. change (String c a +:+ b) with (String c (a +:+ b)).
  cbn [nul_free]. by rewrite IH, andb_assoc.
Qed.

Lemma pre_skip_free k s : nul_free s = true -> pre_skip k s = s.
Proof.
  intros Hs. destruct k, s as [|c s]; try done. cbn.
  apply nul_free_cons in Hs as [Hc%Ascii.eqb_neq _]. by rewrite Hc.
Qed.

Lemma length_skip_nul s : String.length (skip_nul s) <= String.length s.
Proof. induction s as [|c s IH]; cbn; [done|]. destruct (Ascii.eqb c NUL); cbn; lia. Qed.

Lemma length_pre_skip k s : String.length (pre_skip k s) <= String.length s.
Proof. destruct k; [apply length_skip_nul | done]. Qed.

Lemma length_append a b : String.length (a +:+ b) = String.length a + String.length b.
Proof. induction a as [|c a IH]; [done|]. exact (f_equal S IH). Qed.

Lemma strip_prefix_app t s r : strip_prefix t s = Some r <-> s = t +:+ r.
Proof.
  revert s. induction t as [|a t IH]; intros s; cbn [strip_prefix].
  - split; [by intros [= ->] | by intros ->].
  - change (String a t +:+ r) with (String a (t +:+ r)). destruct s as [|b s]; [done|].
    destruct (Ascii.eqb_spec a b) as [->|Hne]; [rewrite IH; split; congruence | split; congruence].
Qed.

Lemma string_of_list_app a b :
  string_of_list_ascii (a ++ b)%list = string_of_list_ascii a +:+ string_of_list_ascii b.
Proof. induction a as [|c a IH]; [done|]. exact (f_equal (String c) IH). Qed.

(** *** Repetition *)

Section Laws.
Context `{XL : X3Laws}.

(** The matches of [*p] one after another, up to where [p] does not match. *)
Inductive many {A} (p : parser A) (k : bool) : string -> list A -> string -> Prop :=
| many_nil s : parse p k s = None -> many p k s [] s
| many_cons s x s' xs r :
    parse p k s = Some (x, s') -> many p k s' xs r -> many p k s (x :: xs) r.

Lemma kleene_many {A} (p : parser A) k s xs r :
  consumes p k -> parse (kleene p) k s = Some (xs, r) <-> many p k s xs r.
Proof.
  intros Hp. split.
  - revert xs r. induction s as [s IH] using (induction_ltof1 _ String.length). intros xs r.
    rewrite parse_kleene by done. destruct (parse p k s) as [[x s']|] eqn:Hx; cbn.
    + intros Hk. destruct (parse (kleene p) k s') as [[ys r']|] eqn:Hy; [|done].
      cbn in Hk. simplify_eq. eapply many_cons; [done|]. apply IH; [|done].
      by apply (Hp _ _ _ Hx).
    + intros [= <- <-]. by constructor.
  - induction 1 as [s Hn|s x s' xs r Hx _ IH]; rewrite parse_kleene by done.
    + by rewrite Hn.
    + rewrite Hx, IH. done.
Qed.

Lemma many_total {A} (p : parser A) k s : consumes p k -> exists xs r, many p k s xs r.
Proof.
  intros Hp. induction s as [s IH] using (induction_ltof1 _ String.length).
  destruct (parse p k s) as [[x s']|] eqn:Hx; [|exists [], s; by constructor].
  destruct (IH s') as (xs & r & Hm); [by apply (Hp _ _ _ Hx)|]. exists (x :: xs), r. by econstructor.
Qed.

Lemma kleene_some {A} (p : parser A) k s :
  consumes p k -> exists xs r, parse (kleene p) k s = Some (xs, r) /\ many p k s xs r.
Proof.
  intros Hp. destruct (many_total p k s Hp) as (xs & r & Hm). exists xs, r.
  split; [by apply kleene_many | done].
Qed.

Lemma plus_many {A} (p : parser A) k s l r :
  consumes p k ->
  parse (plus p) k s = Some (l, r) <->
  exists x s' xs, l = x :: xs /\ parse p k s = Some (x, s') /\ many p k s' xs r.
Proof.
  intros Hp. rewrite parse_plus by done. split.
  - destruct (parse p k s) as [[x s']|]; cbn; [|done].
    destruct (kleene_some p k s' Hp) as (xs & r' & -> & Hm). cbn. intros [= <- <-].
    by exists x, s', xs.
  - intros (x & s' & xs & -> & -> & Hm). apply kleene_many in Hm; [|done]. cbn. by rewrite Hm.
Qed.

Lemma many_stops {A} (p : parser A) k s xs r : many p k s xs r -> parse p k r = None.
Proof. by induction 1. Qed.

Lemma many_length {A} (p : parser A) k s xs r :
  consumes p k -> many p k s xs r -> String.length r <= String.length s.
Proof.
  intros Hp. induction 1 as [|s x s' xs r Hx _ IH]; [done|]. apply Hp in Hx. lia.
Qed.

Lemma plus_consumes {A} (p : parser A) k : consumes p k -> consumes (plus p) k.
Proof.
  intros Hp s l r (x & s' & xs & _ & Hx%Hp & Hm%many_length)%plus_many; [lia | done..].
Qed.

(** *** Progress *)

(** A parser never gives back more than it was given. *)
Definition shrinks {A} (p : parser A) (k : bool) : Prop :=
  forall s a r, parse p k s = Some (a, r) -> String.length r <= String.length s.

Lemma consumes_shrinks {A} (p : parser A) k : consumes p k -> shrinks p k.
Proof. intros Hp s a r H1%Hp. lia. Qed.

Lemma strip_prefix_length t s r :
  strip_prefix t s = Some r -> String.length s = String.length t + String.length r.
Proof. intros ->%strip_prefix_app. apply length_append. Qed.

Lemma string_shrinks t k : shrinks (x3_string t) k.
Proof.
  intros s a r. rewrite parse_string. pose proof (length_pre_skip k s).
  destruct (strip_prefix t _) as [r'|] eqn:Hr; cbn; [|done]. intros [= _ <-].
  apply strip_prefix_length in Hr. lia.
Qed.

Lemma string_consumes t k : t <> "" -> consumes (x3_string t) k.
Proof.
  intros Ht s a r. rewrite parse_string. pose proof (length_pre_skip k s).
  destruct (strip_prefix t _) as [r'|] eqn:Hr; cbn; [|done]. intros [= _ <-].
  apply strip_prefix_length in Hr. destruct t; [done|]. cbn in Hr. lia.
Qed.

Lemma lit_consumes t k : t <> "" -> consumes (lit t) k.
Proof.
  intros Ht s a r. rewrite parse_lit. pose proof (length_pre_skip k s).
  destruct (strip_prefix t _) as [r'|] eqn:Hr; cbn; [|done]. intros [= _ <-].
  apply strip_prefix_length in Hr. destruct t; [done|]. cbn in Hr. lia.
Qed.

Lemma char_consumes p k : consumes (char_ p) k.
Proof.
  intros s c r. rewrite parse_char. pose proof (length_pre_skip k s).
  destruct (pre_skip k s) as [|c' s']; [done|]. destruct (p c'); [|done].
  intros [= -> ->]. cbn in *. lia.
Qed.

Lemma eoi_shrinks k : shrinks eoi k.
Proof. intros s a r. rewrite parse_eoi. destruct (pre_skip k s); [|done]. intros [= _ <-]. cbn. lia. Qed.

Lemma difference_consumes {A B} (a : parser A) (b : parser B) k :
  consumes a k -> consumes (difference a b) k.
Proof. intros Ha s x r. rewrite parse_difference. destruct (parse b k s); [done | apply Ha]. Qed.

Lemma kleene_shrinks {A} (p : parser A) k : consumes p k -> shrinks (kleene p) k.
Proof. intros Hp s l r Hm%kleene_many; [|done]. by apply many_length in Hm. Qed.

Lemma seq_consumes_l {A B} (a : parser A) (b : parser B) k :
  consumes a k -> shrinks b k -> consumes (seq a b) k.
Proof.
  intros Ha Hb s [x y] r. rewrite parse_seq. destruct (parse a k s) as [[x' s']|] eqn:H1; cbn; [|done].
  destruct (parse b k s') as [[y' r']|] eqn:H2; cbn; [|done]. intros [= _ _ <-].
  apply Ha in H1. apply Hb in H2. lia.
Qed.

Lemma seq_consumes_r {A B} (a : parser A) (b : parser B) k :
  shrinks a k -> consumes b k -> consumes (seq a b) k.
Proof.
  intros Ha Hb s [x y] r. rewrite parse_seq. destruct (parse a k s) as [[x' s']|] eqn:H1; cbn; [|done].
  destruct (parse b k s') as [[y' r']|] eqn:H2; cbn; [|done]. intros [= _ _ <-].
  apply Ha in H1. apply Hb in H2. lia.
Qed.

Lemma alt_consumes {A} (a b : parser A) k : consumes a k -> consumes b k -> consumes (alt a b) k.
Proof.
  intros Ha Hb s x r. rewrite parse_alt. destruct (parse a k s) as [[x' r']|] eqn:H1; [|apply Hb].
  intros [= <- <-]. by apply Ha in H1.
Qed.

Lemma alt_shrinks {A} (a b : parser A) k : shrinks a k -> shrinks b k -> shrinks (alt a b) k.
Proof.
  intros Ha Hb s x r. rewrite parse_alt. destruct (parse a k s) as [[x' r']|] eqn:H1; [|apply Hb].
  intros [= <- <-]. by apply Ha in H1.
Qed.

Lemma action_consumes {A B} (a : parser A) (f : A -> B) k : consumes a k -> consumes (action a f) k.
Proof.
  intros Ha s x r. rewrite parse_action. destruct (parse a k s) as [[y r']|] eqn:H1; cbn; [|done].
  intros [= _ <-]. by apply Ha in H1.
Qed.

Lemma action_shrinks {A B} (a : parser A) (f : A -> B) k : shrinks a k -> shrinks (action a f) k.
Proof.
  intros Ha s x r. rewrite parse_action. destruct (parse a k s) as [[y r']|] eqn:H1; cbn; [|done].
  intros [= _ <-]. by apply Ha in H1.
Qed.

Lemma lexeme_consumes {A} (a : parser A) k : consumes a false -> consumes (lexeme a) k.
Proof.
  intros Ha s x r. rewrite parse_lexeme. intros H1%Ha. pose proof (length_pre_skip k s). lia.
Qed.

(** *** Parsers of one character *)

(** [q] matches the characters of the class [p], on inputs without NUL. *)
Definition char_like (p : ascii -> bool) (q : parser ascii) (k : bool) : Prop :=
  consumes q k /\
  forall s, nul_free s = true ->
    parse q k s = match s with String c r => if p c then Some (c, r) else None | _ => None end.

Definition starts (p : ascii -> bool) (s : string) : bool :=
  match s with String c _ => p c | EmptyString => false end.

Lemma many_chars p q k s cs r :
  char_like p q k -> nul_free s = true ->
  many q k s cs r <->
  s = string_of_list_ascii cs +:+ r /\ Forall (fun c => p c = true) cs /\ starts p r = false.
Proof.
  intros [_ Hq] Hs. split.
  - induction 1 as [s Hn|s c s' cs r Hc _ IH].
    + rewrite Hq in Hn by done. split; [done|]. split; [constructor|].
      destruct s as [|c s]; [done|]. cbn in *. by destruct (p c).
    + rewrite Hq in Hc by done. destruct s as [|c' s]; [done|]. destruct (p c') eqn:Hp; [|done].
      simplify_eq. apply nul_free_cons in Hs as [_ Hs]. destruct (IH Hs) as (-> & Hf & Hr).
      split; [done|]. split; [by constructor | done].
  - intros (-> & Hf & Hr). induction Hf as [|c cs Hc _ IH].
    + constructor. rewrite Hq by done. destruct r as [|c r]; [done|]. cbn in *. by rewrite Hr.
    + change (string_of_list_ascii (c :: cs) +:+ r) with (String c (string_of_list_ascii cs +:+ r)) in *.
      pose proof Hs as [_ Hs']%nul_free_cons. apply (many_cons _ _ _ c (string_of_list_ascii cs +:+ r));
        [|by apply IH]. rewrite Hq by done. by rewrite Hc.
Qed.

Lemma kleene_chars p q k s :
  char_like p q k -> nul_free s = true ->
  exists cs r, parse (kleene q) k s = Some (cs, r) /\ s = string_of_list_ascii cs +:+ r /\
    Forall (fun c => p c = true) cs /\ starts p r = false.
Proof.
  intros Hq Hs. destruct (kleene_some q k s (proj1 Hq)) as (cs & r & Hk & Hm).
  exists cs, r. split; [done|]. by apply (many_chars p q k).
Qed.

Lemma kleene_chars_app p q k cs r :
  char_like p q k -> nul_free (string_of_list_ascii cs +:+ r) = true ->
  Forall (fun c => p c = true) cs -> starts p r = false ->
  parse (kleene q) k (string_of_list_ascii cs +:+ r) = Some (cs, r).
Proof. intros Hq Hs Hc Hr. apply kleene_many; [apply Hq|]. by apply (many_chars p q k). Qed.

Lemma plus_chars p q k s cs r :
  char_like p q k -> nul_free s = true ->
  parse (plus q) k s = Some (cs, r) <->
  cs <> [] /\ s = string_of_list_ascii cs +:+ r /\ Forall (fun c => p c = true) cs /\ starts p r = false.
Proof.
  intros Hq Hs. rewrite plus_many by apply Hq. split.
  - intros (c & s' & xs & -> & Hc & Hm). rewrite (proj2 Hq) in Hc by done.
    destruct s as [|c' s]; [done|]. destruct (p c') eqn:Hp; [|done]. simplify_eq.
    apply nul_free_cons in Hs as [_ Hs]. apply (many_chars p q k) in Hm as (-> & Hf & Hr); [|done..].
    split; [done|]. split; [done|]. split; [by constructor | done].
  - intros (Hne & -> & Hf & Hr). destruct cs as [|c cs]; [done|]. inversion Hf as [|? ? Hc Hf']; subst.
    change (string_of_list_ascii (c :: cs) +:+ r) with (String c (string_of_list_ascii cs +:+ r)) in *.
    pose proof Hs as [_ Hs']%nul_free_cons. exists c, (string_of_list_ascii cs +:+ r), cs.
    split; [done|]. rewrite (proj2 Hq) by done. rewrite Hc. split; [done|].
    by apply (many_chars p q k).
Qed.

Lemma char_char_like p k : char_like p (char_ p) k.
Proof.
  split; [apply char_consumes|]. intros s Hs. by rewrite parse_char, pre_skip_free.
Qed.

Definition is_eol (c : ascii) : bool := Ascii.eqb c CR || Ascii.eqb c LF.

Lemma strip_eol_is_eol s : is_Some (strip_eol s) <-> starts is_eol s = true.
Proof.
  destruct s as [|c s]; [split; [by intros [] | done]|]. cbn. unfold is_eol.
  destruct (Ascii.eqb c CR); cbn.
  - split; [done|]. intros _. destruct s as [|b s]; [by eexists|]. destruct (Ascii.eqb b LF); by eexists.
  - destruct (Ascii.eqb c LF); (split; [|done || (intros _; by eexists)]); [done | by intros []].
Qed.

(** On inputs without NUL the end of input and the end of a line are at the front. *)
Lemma parse_eoi_free k s :
  nul_free s = true -> parse eoi k s = match s with EmptyString => Some (tt, "") | _ => None end.
Proof. intros Hs. rewrite parse_eoi, pre_skip_free by done. by destruct s. Qed.

End Laws.

#[export] Hint Resolve string_consumes lit_consumes char_consumes difference_consumes plus_consumes
  alt_consumes action_consumes lexeme_consumes string_shrinks eoi_shrinks kleene_shrinks alt_shrinks
  action_shrinks : x3.
#[export] Hint Resolve seq_consumes_l seq_consumes_r | 5 : x3.
#[export] Hint Resolve consumes_shrinks | 10 : x3.
#[export] Hint Extern 0 (_ <> EmptyString) => discriminate : x3.

(** ** A library of parsing expressions *)

(** Repetition, with the length of the input as a bound of the number of matches. *)
Fixpoint repeat_parse {A} (p : string -> option (A * string)) (fuel : nat) (s : string) :
  list A * string :=
  match fuel with
  | O => ([], s)
  | S fuel =>
      match p s with
      | Some (x, r) => let '(xs, r) := repeat_parse p fuel r in (x :: xs, r)
      | None => ([], s)
      end
  end.

Definition repeat_all {A} (p : string -> option (A * string)) (s : string) : list A * string :=
  repeat_parse p (S (String.length s)) s.

#[export] Instance peg : X3 := {
  parser A := bool -> string -> option (A * string);
  lit t k s := r ← strip_prefix t (pre_skip k s); Some (tt, r);
  x3_string t k s := r ← strip_prefix t (pre_skip k s); Some (t, r);
  char_ p k s := match pre_skip k s with String c r => if p c then Some (c, r) else None | _ => None end;
  eol k s := r ← strip_eol (pre_skip k s); Some (tt, r);
  eoi k s := match pre_skip k s with EmptyString => Some (tt, EmptyString) | _ => None end;
  seq A B a b k s := '(x, s) ← a k s; '(y, s) ← b k s; Some ((x, y), s);
  alt A a b k s := match a k s with Some r => Some r | None => b k s end;
  difference A B a b k s := match b k s with Some _ => None | None => a k s end;
  kleene A a k s := Some (repeat_all (a k) s);
  plus A a k s := '(x, r) ← a k s; let '(xs, r) := repeat_all (a k) r in Some (x :: xs, r);
  optional A a k s := match a k s with Some (_, r) => Some (tt, r) | None => Some (tt, s) end;
  lexeme A a k s := a false (pre_skip k s);
  action A B a f k s := '(x, r) ← a k s; Some (f x, r);
  parse A p := p;
}.

Section Peg.
Context {A : Type} (p : string -> option (A * string)).
Hypothesis p_consumes : forall s a r, p s = Some (a, r) -> String.length r < String.length s.

(** Fuel beyond the length of the input changes nothing. *)
Lemma repeat_parse_fuel s : forall m n,
  String.length s < m -> String.length s < n -> repeat_parse p m s = repeat_parse p n s.
Proof.
  induction s as [s IH] using (induction_ltof1 _ String.length). unfold ltof in IH.
  intros [|m] [|n] Hm Hn; try lia. cbn [repeat_parse]. destruct (p s) as [[x r]|] eqn:Hp; [|done].
  apply p_consumes in Hp. by rewrite (IH r Hp m n) by lia.
Qed.

Lemma repeat_all_unfold s :
  repeat_all p s =
  match p s with Some (x, r) => let '(xs, r) := repeat_all p r in (x :: xs, r) | None => ([], s) end.
Proof.
  unfold repeat_all at 1. cbn [repeat_parse]. destruct (p s) as [[x r]|] eqn:Hp; [|done].
  apply p_consumes in Hp. unfold repeat_all.
  by rewrite (repeat_parse_fuel r (String.length s) (S (String.length r))) by lia.
Qed.
End Peg.

#[export] Instance peg_laws : X3Laws.
Proof.
  split; try done; intros A a k s Ha.
  change (parse (kleene a) k s) with (Some (repeat_all (a k) s)).
  rewrite (repeat_all_unfold (a k) Ha). change (parse a k s) with (a k s).
  destruct (a k s) as [[x r]|]; [|done].
  change (parse (kleene a) k r) with (Some (repeat_all (a k) r)). by destruct (repeat_all (a k) r).
Qed.
