(* ===== verification/QueryConf.v ===== *)
(** Query configurations: [src/include/bozo/query_conf.h].

    A configuration is a text with the queries of an application, each under a
    comment [-- name: ...].  [parse_query_conf] reads it line by line with
    [line_visitor], a machine of two states; [make_query_repository] checks the
    queries it finds against the ones the application declares and gives every
    declared query its text, with the names of parameters turned into placeholders.

    The grammars of the lines, of a header and of a text, the conversion of a
    numeral and the trimming of a text are parameters here.  A grammar is the
    function from the characters to the attribute it gives, [None] when it does not
    match; [QueryGrammar] has the three of the source and [QueryLines] what they
    read. *)

From S2P Require Import Prelude TypeSystem BinaryIO BinaryQuery QueryBuilder.
From Stdlib Require Import Arith Lia List String Ascii.
From stdpp Require Import base tactics list strings gmap.

Open Scope string_scope.

Module QueryConf.

Import BinaryQuery QueryBuilder.

(** ** Data *)

Inductive query_line : Set :=
| query_line_comment (value : string)
| query_line_text (value : string).

Inductive query_text_element : Set :=
| query_text_part (value : string)
| query_parameter_name (value : string).

Record parsed_query : Set :=
  { pq_name : string; pq_text : list query_text_element }.

Inductive state_type : Set := initial | header_parsed.

Record line_visitor : Set :=
  { lv_state : state_type; lv_text_value : string; lv_queries : list parsed_query }.

(** A declared query: its name and its type of parameters, a structure adapted to
    Hana with the names of its members or a tuple with its size. *)
Inductive parameters_type : Set :=
| has_members (keys : list string)
| tuple_of (size : nat).

Record declared_query : Set :=
  { dq_name : string; dq_parameters : parameters_type }.

Record query_description : Set := { qd_name : string; qd_text : string }.

Record query_conf : Set :=
  { qc_descriptions : list query_description; qc_queries : gmap string string }.

(** The exceptions, with their texts; the one of [unordered_map::at], an
    [std::out_of_range] whose text is not specified; [back()] of an empty vector. *)
Inductive failure : Set :=
| invalid_argument (what : string)
| out_of_range (what : string)
| key_not_found
| undefined_behaviour.

(** The quotation mark of the messages. *)
Definition quote : string := String (ascii_of_nat 34) EmptyString.

(** ** Operations *)

(** The vector after a change of [back()]; there is none in an empty vector. *)
Fixpoint update_back {A} (f : A -> A) (l : list A) : option (list A) :=
  match l with
  | [] => None
  | [x] => Some [f x]
  | x :: l => cons x <$> update_back f l
  end.

(** [hana::for_each] over the names of the members: whether the name was found,
    and the number of members before it. *)
Definition count_key (value : string) (r : bool * nat) (key : string) : bool * nat :=
  if String.eqb key value then (true, snd r)
  else if negb (fst r) then (fst r, S (snd r)) else r.

Definition initial_visitor : line_visitor :=
  {| lv_state := initial; lv_text_value := ""; lv_queries := [] |}.

Section QueryConf.

Context (conf_parser : string -> option (list query_line))
        (header_parser : string -> option string)
        (text_parser : string -> option (list query_text_element))
        (trim : string -> string)
        (try_lexical_convert : string -> option nat).

Definition parse_header (v : line_visitor) (comment : string) : line_visitor :=
  match header_parser comment with
  | Some name =>
      {| lv_state := header_parsed; lv_text_value := lv_text_value v;
         lv_queries := (lv_queries v ++ [{| pq_name := name; pq_text := [] |}])%list |}
  | None => v
  end.

Definition parse_text (v : line_visitor) (text : string) : outcome failure line_visitor :=
  match text_parser text with
  | None =>
      match last (lv_queries v) with
      | Some q => Throw (invalid_argument ("Failed to parse query text: " +:+ pq_name q))
      | None => Throw undefined_behaviour
      end
  | Some parts =>
      match update_back (fun q => {| pq_name := pq_name q; pq_text := (pq_text q ++ parts)%list |})
                        (lv_queries v) with
      | Some qs => Ok {| lv_state := lv_state v; lv_text_value := ""; lv_queries := qs |}
      | None => Throw undefined_behaviour
      end
  end.

(** The two forms of [operator()] of the visitor. *)
Definition visit_line (v : line_visitor) (line : query_line) : outcome failure line_visitor :=
  match line with
  | query_line_comment comment =>
      match lv_state v with
      | initial | header_parsed => Ok (parse_header v comment)
      end
  | query_line_text text =>
      match lv_state v with
      | initial => Throw (invalid_argument "Failed to parse query conf: expected comment")
      | header_parsed => parse_text v text
      end
  end.

Definition parse_query_conf_lines (text : string) : outcome failure (list query_line) :=
  match conf_parser text with
  | Some result => Ok result
  | None => Throw (invalid_argument "Failed to parse query conf lines")
  end.

Definition parse_query_conf_elements (lines : list query_line)
  : outcome failure (list parsed_query) :=
  foldM visit_line initial_visitor lines ≫= fun visitor => Ok (lv_queries visitor).

Definition parse_query_conf (text : string) : outcome failure (list parsed_query) :=
  parse_query_conf_lines text ≫= parse_query_conf_elements.

(** [check_for_duplicates] of the declarations and of the definitions. *)
Definition check_declarations (queries : list declared_query) : outcome failure (gset string) :=
  foldM (fun set q =>
           if decide (dq_name q ∈ set)
           then Throw (invalid_argument ("Duplicate declaration for query: " +:+ dq_name q))
           else Ok ({[dq_name q]} ∪ set)) ∅ queries.

Definition check_definitions (descriptions : list parsed_query) : outcome failure (gset string) :=
  foldM (fun names d =>
           if decide (pq_name d ∈ names)
           then Throw (invalid_argument ("Duplicate definition for query: " +:+ pq_name d))
           else Ok ({[pq_name d]} ∪ names)) ∅ descriptions.

Definition check_for_undefined (declarations : list declared_query) (definitions : gset string)
  : outcome failure unit :=
  foldM (fun _ q =>
           if decide (dq_name q ∈ definitions) then Ok tt
           else Throw (invalid_argument ("Query is not defined in query conf: " +:+ dq_name q)))
        tt declarations.

(** The number of a parameter in [query_part_visitor]. *)
Definition parameter_number (q : declared_query) (value : string) : outcome failure nat :=
  match dq_parameters q with
  | has_members keys =>
      let r := fold_left (count_key value) keys (false, 0) in
      if negb (fst r)
      then Throw (invalid_argument ("Parameter is not found in query " +:+ quote +:+ dq_name q
                                    +:+ quote +:+ ": " +:+ value))
      else Ok (snd r)
  | tuple_of size =>
      match try_lexical_convert value with
      | None =>
          Throw (invalid_argument
            ("Only valid numeric names supported for not adapted query parameters types,"
             +:+ " but query " +:+ quote +:+ dq_name q +:+ quote
             +:+ " has parameter with name: " +:+ value))
      | Some number =>
          if (size <=? number)%nat
          then Throw (out_of_range ("Query has numeric parameter greater than maximum: "
                                    +:+ value +:+ " (" +:+ to_string size +:+ ")"))
          else Ok number
      end
  end.

(** The two forms of [operator()] of [query_part_visitor]. *)
Definition visit_part (q : declared_query) (text : string) (part : query_text_element)
  : outcome failure string :=
  match part with
  | query_text_part value => Ok (text +:+ value)
  | query_parameter_name value =>
      parameter_number q value ≫= fun number =>
      Ok (text +:+ ("$" +:+ to_string (number + 1)))
  end.

(** [make_query_description] of one declaration, and of the tuple of them. *)
Definition describe (q : declared_query) (parsed : parsed_query)
  : outcome failure query_description :=
  foldM (visit_part q) "" (pq_text parsed) ≫= fun text =>
  Ok {| qd_name := pq_name parsed; qd_text := trim text |}.

Definition make_query_description (queries : list declared_query) (parsed : parsed_query)
  : outcome failure query_description :=
  foldM (fun opt q =>
           if String.eqb (dq_name q) (pq_name parsed)
           then describe q parsed ≫= fun d => Ok (Some d)
           else Ok opt) None queries ≫= fun opt_query_description =>
  match opt_query_description with
  | None => Throw (invalid_argument ("Query is not declared: " +:+ pq_name parsed))
  | Some d => Ok d
  end.

Definition make_query_descriptions (queries : list declared_query) (parsed : list parsed_query)
  : outcome failure (list query_description) :=
  foldM (fun result v => make_query_description queries v ≫= fun d => Ok (result ++ [d])%list)
        [] parsed.

(** [unordered_map::insert]: a name that is there keeps its text. *)
Definition make_query_conf (descriptions : list query_description) : query_conf :=
  {| qc_descriptions := descriptions;
     qc_queries := fold_left (fun m d => match m !! qd_name d with
                                         | Some _ => m
                                         | None => <[qd_name d := qd_text d]> m
                                         end) descriptions ∅ |}.

Definition make_query_repository (text : string) (queries : list declared_query)
  : outcome failure query_conf :=
  check_declarations queries ≫= fun _ =>
  parse_query_conf text ≫= fun parsed =>
  check_definitions parsed ≫= fun names =>
  check_for_undefined queries names ≫= fun _ =>
  make_query_descriptions queries parsed ≫= fun ds =>
  Ok (make_query_conf ds).

(** [get_description]: [unordered_map::at]. *)
Definition get_description (conf : query_conf) (q : declared_query) : outcome failure string :=
  match qc_queries conf !! dq_name q with
  | Some text => Ok text
  | None => Throw key_not_found
  end.

(** [query_repository::make_query]. *)
Definition repository_query (conf : query_conf) (q : declared_query) (parameters : list param)
  : outcome failure query :=
  get_description conf q ≫= fun description => Ok (make_query description parameters).

(** ** What a configuration means *)

(** The lines of a query and the parts of its text; comments that are no headers
    are skipped. *)
Inductive body : list query_line -> list query_text_element -> Prop :=
| body_nil : body [] []
| body_comment c ls ps :
    header_parser c = None -> body ls ps -> body (query_line_comment c :: ls) ps
| body_text t a ls ps :
    text_parser t = Some a -> body ls ps -> body (query_line_text t :: ls) (a ++ ps)%list.

(** A sequence of queries: a header and a body each. *)
Inductive sections : list query_line -> list parsed_query -> Prop :=
| sections_nil : sections [] []
| sections_cons c name ls ps rest qs :
    header_parser c = Some name -> body ls ps -> sections rest qs ->
    sections (query_line_comment c :: ls ++ rest)%list
             ({| pq_name := name; pq_text := ps |} :: qs).

(** What may stand before the first header. *)
Definition preamble (l : query_line) : Prop :=
  exists c, l = query_line_comment c /\ header_parser c = None.

(** The parameter [n] of the query [q] is the one with the number [k]. *)
Definition designates (q : declared_query) (n : string) (k : nat) : Prop :=
  match dq_parameters q with
  | has_members keys => keys !! k = Some n /\ forall j, j < k -> keys !! j <> Some n
  | tuple_of size => try_lexical_convert n = Some k /\ k < size
  end.

(** What a part of the text of [q] becomes. *)
Inductive rendered (q : declared_query) : query_text_element -> string -> Prop :=
| rendered_text s : rendered q (query_text_part s) s
| rendered_parameter n k :
    designates q n k -> rendered q (query_parameter_name n) ("$" +:+ to_string (S k)).

Fixpoint concat_strings (l : list string) : string :=
  match l with [] => "" | s :: l => s +:+ concat_strings l end.

(** ** The visitor of lines *)

Lemma update_back_snoc {A} (f : A -> A) l x : update_back f (l ++ [x])%list = Some (l ++ [f x])%list.
Proof.
  induction l as [|y l IH]; [done|]. cbn [app update_back]. rewrite IH. by destruct l.
Qed.

(** The visitor after a header. *)
Definition reading (t : string) (qs : list parsed_query) : line_visitor :=
  {| lv_state := header_parsed; lv_text_value := t; lv_queries := qs |}.

Definition with_parts (q : parsed_query) (ps : list query_text_element) : parsed_query :=
  {| pq_name := pq_name q; pq_text := (pq_text q ++ ps)%list |}.

Lemma with_parts_nil q : with_parts q [] = q.
Proof. destruct q. unfold with_parts. cbn. by rewrite app_nil_r. Qed.

Lemma with_parts_app q a b : with_parts (with_parts q a) b = with_parts q (a ++ b)%list.
Proof. unfold with_parts. cbn. by rewrite app_assoc. Qed.

Lemma visit_text_reading t qs q text :
  visit_line (reading t (qs ++ [q])%list) (query_line_text text) =
  match text_parser text with
  | Some a => Ok (reading "" (qs ++ [with_parts q a])%list)
  | None => Throw (invalid_argument ("Failed to parse query text: " +:+ pq_name q))
  end.
Proof.
  unfold visit_line, parse_text, reading. cbn [lv_state lv_queries lv_text_value].
  destruct (text_parser text); [by rewrite update_back_snoc | by rewrite last_snoc].
Qed.

Lemma visit_header v c name :
  header_parser c = Some name ->
  visit_line v (query_line_comment c) =
  Ok (reading (lv_text_value v) (lv_queries v ++ [{| pq_name := name; pq_text := [] |}])%list).
Proof. intros H. cbn. unfold parse_header. rewrite H. by destruct (lv_state v). Qed.

Lemma visit_comment v c :
  header_parser c = None -> visit_line v (query_line_comment c) = Ok v.
Proof. intros H. cbn. unfold parse_header. rewrite H. by destruct (lv_state v). Qed.

Lemma run_body ls ps :
  body ls ps -> forall t qs q,
  exists t', foldM visit_line (reading t (qs ++ [q])%list) ls =
             Ok (reading t' (qs ++ [with_parts q ps])%list).
Proof.
  induction 1 as [|c ls ps Hc _ IH|text a ls ps Ht _ IH]; intros t qs q; cbn [foldM].
  - exists t. by rewrite with_parts_nil.
  - rewrite visit_comment by done. apply IH.
  - rewrite visit_text_reading, Ht. cbn. destruct (IH "" qs (with_parts q a)) as [t' IH'].
    exists t'. by rewrite IH', with_parts_app.
Qed.

Lemma run_sections ls qs :
  sections ls qs -> forall v, exists v',
  foldM visit_line v ls = Ok v' /\ lv_queries v' = (lv_queries v ++ qs)%list.
Proof.
  induction 1 as [|c name ls ps rest qs Hc Hb _ IH]; intros v; cbn [foldM].
  - exists v. by rewrite app_nil_r.
  - rewrite (visit_header v c name) by done. rewrite bind_ok, foldM_app.
    destruct (run_body _ _ Hb (lv_text_value v) (lv_queries v) {| pq_name := name; pq_text := [] |})
      as [t' ->]. rewrite bind_ok.
    destruct (IH (reading t' (lv_queries v ++ [with_parts {| pq_name := name; pq_text := [] |} ps])%list))
      as (v' & -> & Hv'). exists v'. split; [done|]. rewrite Hv'. cbn. by rewrite <- app_assoc.
Qed.

(** A run of the visitor that reads a query, read back. *)
Lemma reading_run ls : forall t qs q v',
  foldM visit_line (reading t (qs ++ [q])%list) ls = Ok v' ->
  exists bl rest ps qs', ls = (bl ++ rest)%list /\ body bl ps /\ sections rest qs' /\
    lv_queries v' = (qs ++ with_parts q ps :: qs')%list.
Proof.
  induction ls as [|l ls IH]; intros t qs q v' H; cbn [foldM] in H.
  - injection H as <-. exists [], [], [], []. rewrite with_parts_nil. by repeat constructor.
  - destruct l as [c|text].
    + destruct (header_parser c) as [name|] eqn:Hc.
      * rewrite (visit_header _ _ _ Hc) in H. cbn in H. apply IH in H.
        destruct H as (bl & rest & ps & qs' & -> & Hb & Hs & Hv).
        exists [], (query_line_comment c :: bl ++ rest)%list, [],
          ({| pq_name := name; pq_text := ps |} :: qs').
        rewrite with_parts_nil, Hv. split_and!; [done | constructor | by econstructor |].
        by rewrite <- app_assoc.
      * rewrite visit_comment in H by done. apply IH in H.
        destruct H as (bl & rest & ps & qs' & -> & Hb & Hs & Hv).
        exists (query_line_comment c :: bl), rest, ps, qs'. split_and!; try done. by constructor.
    + rewrite visit_text_reading in H. destruct (text_parser text) as [a|] eqn:Ht; [|done].
      apply IH in H. destruct H as (bl & rest & ps & qs' & -> & Hb & Hs & Hv).
      exists (query_line_text text :: bl), rest, (a ++ ps)%list, qs'.
      rewrite with_parts_app in Hv. split_and!; try done. by constructor.
Qed.

Lemma initial_run ls : forall v',
  foldM visit_line initial_visitor ls = Ok v' ->
  exists pre rest, ls = (pre ++ rest)%list /\ Forall preamble pre /\ sections rest (lv_queries v').
Proof.
  induction ls as [|l ls IH]; intros v' H; cbn [foldM] in H.
  - injection H as <-. exists [], []. by repeat constructor.
  - destruct l as [c|text]; [|done]. destruct (header_parser c) as [name|] eqn:Hc.
    + rewrite (visit_header _ _ _ Hc) in H.
      apply (reading_run ls _ [] {| pq_name := name; pq_text := [] |}) in H.
      destruct H as (bl & rest & ps & qs' & -> & Hb & Hs & Hv).
      exists [], (query_line_comment c :: bl ++ rest)%list. rewrite Hv.
      split_and!; [done | constructor | by econstructor].
    + rewrite visit_comment in H by done. apply IH in H.
      destruct H as (pre & rest & -> & Hp & Hs).
      exists (query_line_comment c :: pre), rest. split_and!; [done | | done].
      constructor; [|done]. by exists c.
Qed.

Lemma run_preamble pre v : Forall preamble pre -> foldM visit_line v pre = Ok v.
Proof.
  induction 1 as [|l pre (c & -> & Hc) _ IH]; [done|]. cbn [foldM]. by rewrite visit_comment.
Qed.

Lemma reading_defined ls : forall t qs q,
  foldM visit_line (reading t (qs ++ [q])%list) ls <> Throw undefined_behaviour.
Proof.
  induction ls as [|[c|text] ls IH]; intros t qs q; cbn [foldM]; [done| |].
  - destruct (header_parser c) as [name|] eqn:Hc.
    + rewrite (visit_header _ _ _ Hc). apply IH.
    + rewrite visit_comment by done. apply IH.
  - rewrite visit_text_reading. destruct (text_parser text); [apply IH | done].
Qed.

Lemma elements_defined ls : parse_query_conf_elements ls <> Throw undefined_behaviour.
Proof.
  unfold parse_query_conf_elements.
  enough (foldM visit_line initial_visitor ls <> Throw undefined_behaviour)
    by (destruct (foldM visit_line initial_visitor ls); [done | cbn; congruence]).
  induction ls as [|[c|text] ls IH]; cbn [foldM]; [done| |done].
  destruct (header_parser c) as [name|] eqn:Hc.
  - rewrite (visit_header _ _ _ Hc). apply (reading_defined ls _ []).
  - by rewrite visit_comment.
Qed.

Lemma elements_iff lines qs :
  parse_query_conf_elements lines = Ok qs <->
  exists pre rest, lines = (pre ++ rest)%list /\ Forall preamble pre /\ sections rest qs.
Proof.
  unfold parse_query_conf_elements. split.
  - intros H. outcome_inv. apply initial_run in Hr. by subst qs.
  - intros (pre & rest & -> & Hp & Hs). rewrite foldM_app, run_preamble by done. rewrite bind_ok.
    destruct (run_sections _ _ Hs initial_visitor) as (v' & -> & Hv). cbn in Hv |- *. by rewrite Hv.
Qed.

(** The queries of a configuration are exactly the ones its lines spell: after
    comments that are no headers, every header starts a query whose text is the
    concatenation of the text lines up to the next header, other comments left
    out.  Lines of any other shape are refused, by an exception: the vector of
    queries is never empty where the code takes its last element. *)
Theorem conf_sections lines :
  (forall qs, parse_query_conf_elements lines = Ok qs <->
   exists pre rest, lines = (pre ++ rest)%list /\ Forall preamble pre /\ sections rest qs) /\
  parse_query_conf_elements lines <> Throw undefined_behaviour.
Proof. split; [intros qs; apply elements_iff | apply elements_defined]. Qed.

(** ** Parameters and placeholders *)

Lemma count_found value keys n : fold_left (count_key value) keys (true, n) = (true, n).
Proof.
  induction keys as [|key keys IH]; [done|]. cbn [fold_left]. unfold count_key at 2. cbn [fst snd].
  destruct (String.eqb key value); apply IH.
Qed.

(** The search for a member finds the first one with the name. *)
Lemma count_keys value keys : forall n k,
  fold_left (count_key value) keys (false, n) = (true, k) <->
  exists i, k = n + i /\ keys !! i = Some value /\ forall j, j < i -> keys !! j <> Some value.
Proof.
  induction keys as [|key keys IH]; intros n k; cbn [fold_left].
  - split; [done | by intros (i & _ & H & _)].
  - unfold count_key at 2. cbn [fst snd negb]. destruct (String.eqb_spec key value) as [->|Hne].
    + rewrite count_found. split.
      * intros [= ->]. exists 0. split_and!; [lia | done | lia].
      * intros ([|i] & -> & _ & Hlt); [by rewrite Nat.add_0_r|]. by destruct (Hlt 0 ltac:(lia)).
    + rewrite IH. split.
      * intros (i & -> & Hi & Hlt). exists (S i). split_and!; [lia | done |].
        intros [|j] Hj; cbn; [congruence | apply Hlt; lia].
      * intros ([|i] & -> & Hi & Hlt); [cbn in Hi; congruence|].
        exists i. split_and!; [lia | done | intros j Hj; apply (Hlt (S j)); lia].
Qed.

Lemma parameter_number_ok q n k : parameter_number q n = Ok k <-> designates q n k.
Proof.
  unfold parameter_number, designates. destruct (dq_parameters q) as [keys|size].
  - destruct (fold_left (count_key n) keys (false, 0)) as [found number] eqn:Hf. cbn [fst snd].
    pose proof (count_keys n keys 0 k) as Hk. rewrite Hf in Hk.
    transitivity ((found, number) = (true, k)); [destruct found; cbn; split; congruence|].
    rewrite Hk. cbn. split; [by intros (i & -> & ?) | intros ?; by exists k].
  - destruct (try_lexical_convert n) as [number|]; [|split; [done | by intros []]].
    destruct (Nat.leb_spec size number); split.
    + done.
    + intros [[= ->] ?]. lia.
    + by intros [= ->].
    + by intros [[= ->] _].
Qed.

Lemma visit_part_ok q text part r :
  visit_part q text part = Ok r <-> exists s, rendered q part s /\ r = text +:+ s.
Proof.
  destruct part as [s|n]; cbn [visit_part].
  - split; [intros [= <-]; exists s; split; [constructor | done]|].
    intros (s' & Hs & ->). by inversion Hs.
  - split.
    + intros H. outcome_inv. apply parameter_number_ok in Hr. subst r. rewrite Nat.add_1_r.
      eexists. split; [by constructor | done].
    + intros (s' & Hs & ->). inversion Hs as [|? k Hk]; subst.
      apply parameter_number_ok in Hk. rewrite Hk. cbn [mbind outcome_bind]. by rewrite Nat.add_1_r.
Qed.

Lemma visit_parts_ok q parts : forall acc text,
  foldM (visit_part q) acc parts = Ok text <->
  exists pieces, Forall2 (rendered q) parts pieces /\ text = acc +:+ concat_strings pieces.
Proof.
  induction parts as [|part parts IH]; intros acc text; cbn [foldM].
  - split.
    + intros [= <-]. exists []. split; [constructor | by rewrite append_nil_r].
    + intros (ps & Hps & ->). inversion Hps. cbn [concat_strings]. by rewrite append_nil_r.
  - split.
    + intros H. outcome_inv. apply visit_part_ok in Hr as (s & Hs & ->).
      apply IH in H as (ps & Hps & ->). exists (s :: ps).
      split; [by constructor|]. cbn [concat_strings]. by rewrite append_assoc.
    + intros (ps & Hps & ->). inversion Hps as [|? s ? ps' Hs Hps']; subst.
      assert (visit_part q acc part = Ok (acc +:+ s)) as -> by (apply visit_part_ok; eauto).
      rewrite bind_ok, IH. exists ps'. split; [done|]. cbn [concat_strings]. by rewrite append_assoc.
Qed.

Lemma describe_ok q p d :
  describe q p = Ok d <->
  exists pieces, Forall2 (rendered q) (pq_text p) pieces /\
    d = {| qd_name := pq_name p; qd_text := trim (concat_strings pieces) |}.
Proof.
  unfold describe. split.
  - intros H. outcome_inv. apply visit_parts_ok in Hr as (ps & Hps & ->). subst d. by exists ps.
  - intros (ps & Hps & ->).
    assert (foldM (visit_part q) "" (pq_text p) = Ok (concat_strings ps)) as ->
      by (apply visit_parts_ok; eauto). done.
Qed.

(** ** Declarations and definitions *)

Lemma find_declared p queries : forall opt r,
  NoDup (dq_name <$> queries) ->
  foldM (fun opt q =>
           if String.eqb (dq_name q) (pq_name p)
           then describe q p ≫= fun d => Ok (Some d) else Ok opt) opt queries = Ok r <->
  (exists q d, q ∈ queries /\ dq_name q = pq_name p /\ describe q p = Ok d /\ r = Some d) \/
  ((pq_name p ∉ (dq_name <$> queries)) /\ r = opt).
Proof.
  induction queries as [|q queries IH]; intros opt r Hnd; cbn [foldM].
  - split; [intros [= <-]; right; split; [apply not_elem_of_nil | done]|].
    by intros [(q & d & Hq & _)|[_ ->]]; [apply elem_of_nil in Hq|].
  - rewrite fmap_cons in Hnd |- *. apply NoDup_cons in Hnd as [Hq Hnd].
    destruct (String.eqb_spec (dq_name q) (pq_name p)) as [He|He].
    + split.
      * intros H. outcome_inv. subst. apply IH in H; [|done].
        destruct H as [(q' & d & Hq' & He' & _)|[_ ->]].
        { exfalso. apply Hq. rewrite He, <- He'. by apply list_elem_of_fmap_2. }
        left. exists q, r1. split_and!; [constructor | done..].
      * intros [(q' & d & Hq' & He' & Hd & ->)|[Hn _]]; [|destruct Hn; rewrite He; apply elem_of_cons; by left].
        apply elem_of_cons in Hq' as [->|Hq'].
        { rewrite Hd. cbn [mbind outcome_bind]. apply IH; [done|]. right. by rewrite <- He. }
        exfalso. apply Hq. rewrite He, <- He'. by apply list_elem_of_fmap_2.
    + rewrite bind_ok, IH by done. rewrite not_elem_of_cons. split.
      * intros [(q' & d & Hq' & H)|[Hn ->]]; [left; exists q', d; split; [by constructor | done]|].
        right. split_and!; [congruence | done..].
      * intros [(q' & d & Hq' & He' & H)|[[_ Hn] ->]]; [|by right].
        left. exists q', d. apply elem_of_cons in Hq' as [->|Hq']; [done|]. tauto.
Qed.

Lemma make_query_description_ok queries p d :
  NoDup (dq_name <$> queries) ->
  make_query_description queries p = Ok d <->
  exists q, q ∈ queries /\ dq_name q = pq_name p /\ describe q p = Ok d.
Proof.
  intros Hnd. unfold make_query_description. split.
  - intros H. outcome_inv. apply find_declared in Hr; [|done].
    destruct Hr as [(q & d' & Hq & He & Hd & ->)|[_ ->]]; [|done]. outcome_inv. subst. by exists q.
  - intros (q & Hq & He & Hd). match goal with |- (?m ≫= _) = _ => assert (m = Ok (Some d)) as -> end.
    { apply find_declared; [done|]. left. by exists q, d. }
    done.
Qed.

Lemma foldM_collect {A B} (f : A -> outcome failure B) l : forall acc r,
  foldM (fun acc a => f a ≫= fun b => Ok (acc ++ [b])%list) acc l = Ok r <->
  exists bs, r = (acc ++ bs)%list /\ Forall2 (fun a b => f a = Ok b) l bs.
Proof.
  induction l as [|a l IH]; intros acc r; cbn [foldM].
  - split; [intros [= <-]; exists []; by rewrite app_nil_r|].
    intros (bs & -> & Hbs). inversion Hbs. by rewrite app_nil_r.
  - split.
    + intros H. outcome_inv. subst. apply IH in H as (bs & -> & Hbs).
      exists (r1 :: bs). rewrite <- app_assoc. split; [done | by constructor].
    + intros (bs & -> & Hbs). inversion Hbs as [|? b ? bs' Hb Hbs']; subst.
      rewrite Hb, !bind_ok, IH. exists bs'. by rewrite <- app_assoc.
Qed.

(** The loop both checks for duplicates are. *)
Lemma check_distinct {A} (name : A -> string) (e : A -> failure) l : forall (s r : gset string),
  foldM (fun s a => if decide (name a ∈ s) then Throw (e a) else Ok ({[name a]} ∪ s)) s l = Ok r <->
  NoDup (name <$> l) /\ (forall a, a ∈ l -> name a ∉ s) /\ r = list_to_set (name <$> l) ∪ s.
Proof.
  induction l as [|a l IH]; intros s r; cbn [foldM].
  - rewrite fmap_nil, list_to_set_nil, (left_id_L ∅ (∪)).
    split; [intros [= <-]; split_and!; [constructor | by intros ? ?%elem_of_nil | done]|].
    by intros (_ & _ & ->).
  - rewrite fmap_cons, NoDup_cons, list_to_set_cons. destruct (decide (name a ∈ s)) as [Ha|Ha].
    + split; [done|]. intros (_ & H & _). by destruct (H a ltac:(constructor)).
    + rewrite bind_ok, IH. split.
      * intros (Hnd & Hs & ->). split_and!; [|done| |set_solver].
        { intros (b & Heq & Hb)%list_elem_of_fmap. apply Hs in Hb. rewrite <- Heq in Hb. set_solver. }
        intros b [->|Hb]%elem_of_cons; [done|]. apply Hs in Hb. set_solver.
      * intros ((Hn & Hnd) & Hs & ->). split_and!; [done| |set_solver].
        intros b Hb. assert (name b ∉ s) by (apply Hs; by constructor).
        assert (name b ∈ name <$> l) by by apply list_elem_of_fmap_2. set_solver.
Qed.

Lemma check_declarations_ok queries r :
  check_declarations queries = Ok r <->
  NoDup (dq_name <$> queries) /\ r = list_to_set (dq_name <$> queries).
Proof.
  unfold check_declarations. rewrite (check_distinct dq_name). rewrite (right_id_L ∅ (∪)).
  split; [tauto|]. intros [? ?]. split_and!; [done | set_solver | done].
Qed.

Lemma check_definitions_ok parsed r :
  check_definitions parsed = Ok r <->
  NoDup (pq_name <$> parsed) /\ r = list_to_set (pq_name <$> parsed).
Proof.
  unfold check_definitions. rewrite (check_distinct pq_name). rewrite (right_id_L ∅ (∪)).
  split; [tauto|]. intros [? ?]. split_and!; [done | set_solver | done].
Qed.

Lemma check_for_undefined_ok queries names u :
  check_for_undefined queries names = Ok u <-> forall q, q ∈ queries -> dq_name q ∈ names.
Proof.
  destruct u. induction queries as [|q queries IH].
  - split; [by intros _ q ?%elem_of_nil | done].
  - unfold check_for_undefined in *. cbn [foldM]. destruct (decide (dq_name q ∈ names)) as [Hq|Hq].
    + rewrite bind_ok, IH. split; [intros H q' [->|Hq']%elem_of_cons; auto|].
      intros H q' Hq'. apply H. by constructor.
    + split; [done|]. intros H. destruct Hq. apply H. constructor.
Qed.

Lemma make_query_descriptions_ok queries parsed ds :
  make_query_descriptions queries parsed = Ok ds <->
  Forall2 (fun p d => make_query_description queries p = Ok d) parsed ds.
Proof.
  unfold make_query_descriptions. rewrite foldM_collect. cbn [app].
  split; [by intros (bs & -> & H) | intros H; by exists ds].
Qed.

(** In a table of descriptions with distinct names each name has its text. *)
Lemma query_conf_lookup ds d :
  NoDup (qd_name <$> ds) -> d ∈ ds ->
  qc_queries (make_query_conf ds) !! qd_name d = Some (qd_text d).
Proof.
  unfold make_query_conf. cbn [qc_queries].
  assert (forall ds (m : gmap string string) k t, m !! k = Some t ->
    fold_left (fun m d => match m !! qd_name d with
                          | Some _ => m | None => <[qd_name d := qd_text d]> m end) ds m !! k = Some t)
    as Hkeep.
  { clear. induction ds as [|e ds IH]; intros m k t Hk; [done|]. cbn [fold_left]. apply IH.
    destruct (m !! qd_name e) eqn:He; [done|]. rewrite lookup_insert_ne; [done | congruence]. }
  assert (forall ds (m : gmap string string), NoDup (qd_name <$> ds) -> d ∈ ds ->
    m !! qd_name d = None ->
    fold_left (fun m d => match m !! qd_name d with
                          | Some _ => m | None => <[qd_name d := qd_text d]> m end) ds m
      !! qd_name d = Some (qd_text d)) as H; [|intros Hnd Hd; by apply H].
  clear ds. induction ds as [|e ds IH]; intros m Hnd Hd Hm; [by apply elem_of_nil in Hd|].
  rewrite fmap_cons in Hnd. apply NoDup_cons in Hnd as [He Hnd]. cbn [fold_left].
  apply elem_of_cons in Hd as [->|Hd].
  - rewrite Hm. apply Hkeep, lookup_insert_eq.
  - apply IH; [done..|]. destruct (m !! qd_name e); [done|].
    rewrite lookup_insert_ne; [done|]. intros Heq. apply He. rewrite Heq.
    by apply list_elem_of_fmap_2.
Qed.

Lemma descriptions_names queries parsed ds :
  NoDup (dq_name <$> queries) ->
  Forall2 (fun p d => make_query_description queries p = Ok d) parsed ds ->
  qd_name <$> ds = pq_name <$> parsed.
Proof.
  intros Hnd. induction 1 as [|p d parsed ds Hd _ IH]; [done|]. rewrite !fmap_cons, IH. f_equal.
  apply make_query_description_ok in Hd as (q & _ & _ & Hd); [|done].
  by apply describe_ok in Hd as (ps & _ & ->).
Qed.

(** ** Repositories *)

Lemma forall2_exists {A B} (P : A -> B -> Prop) l :
  (forall a, a ∈ l -> exists b, P a b) -> exists bs, Forall2 P l bs.
Proof.
  induction l as [|a l IH]; intros H; [by exists []|].
  destruct (H a ltac:(constructor)) as [b Hb].
  destruct IH as [bs Hbs]; [intros a' Ha'; apply H; by constructor|].
  exists (b :: bs). by constructor.
Qed.

Lemma same_name {A} (name : A -> string) l x y :
  NoDup (name <$> l) -> x ∈ l -> y ∈ l -> name x = name y -> x = y.
Proof.
  intros Hnd (a & Ha)%list_elem_of_lookup (b & Hb)%list_elem_of_lookup He.
  assert (a = b) as ->; [|congruence].
  apply (NoDup_lookup _ _ _ (name x) Hnd); rewrite list_lookup_fmap;
    [by rewrite Ha | rewrite Hb; cbn; congruence].
Qed.

(** The checks and the descriptions of a repository that was made. *)
Lemma repository_inv text queries repo :
  make_query_repository text queries = Ok repo ->
  NoDup (dq_name <$> queries) /\
  exists parsed ds, parse_query_conf text = Ok parsed /\ NoDup (pq_name <$> parsed) /\
    (forall q, q ∈ queries -> dq_name q ∈ pq_name <$> parsed) /\
    Forall2 (fun p d => exists q, q ∈ queries /\ dq_name q = pq_name p /\ describe q p = Ok d)
            parsed ds /\
    qd_name <$> ds = pq_name <$> parsed /\ repo = make_query_conf ds.
Proof.
  unfold make_query_repository. intros H. outcome_inv. subst repo.
  apply check_declarations_ok in Hr as [Hnd ->]. apply check_definitions_ok in Hr1 as [Hnp ->].
  apply make_query_descriptions_ok in Hr3. pose proof (descriptions_names _ _ _ Hnd Hr3) as Hnames.
  split; [done|]. exists r0, r3. split_and!; try done.
  - intros q Hq. apply (proj1 (check_for_undefined_ok _ _ _) Hr2) in Hq.
    by apply elem_of_list_to_set in Hq.
  - eapply Forall2_impl; [exact Hr3|]. intros p d Hd. by apply make_query_description_ok.
Qed.

(** C23. A repository is made exactly when the names of the declared queries are
    distinct, the configuration can be read, its queries have distinct names, they
    are the declared ones, no more and no less, and every parameter a text names is
    a parameter of the query: a member of its structure of parameters, or the
    number of an element of its tuple. *)
Theorem repository_created_iff text queries :
  (exists repo, make_query_repository text queries = Ok repo) <->
  NoDup (dq_name <$> queries) /\
  exists parsed, parse_query_conf text = Ok parsed /\ NoDup (pq_name <$> parsed) /\
    (forall name, name ∈ dq_name <$> queries <-> name ∈ pq_name <$> parsed) /\
    forall q p n, q ∈ queries -> p ∈ parsed -> dq_name q = pq_name p ->
      query_parameter_name n ∈ pq_text p -> exists k, designates q n k.
Proof.
  split.
  - intros (repo & H). apply repository_inv in H as (Hnd & parsed & ds & Hp & Hnp & Hdef & Hds & _).
    split; [done|]. exists parsed. split_and!; [done..| |].
    + intros name. split; [intros (q & -> & Hq)%list_elem_of_fmap; auto|].
      intros (p & -> & (i & Hi)%list_elem_of_lookup)%list_elem_of_fmap.
      destruct (Forall2_lookup_l _ _ _ _ _ Hds Hi) as (d & _ & q & Hq & <- & _).
      by apply list_elem_of_fmap_2.
    + intros q p n Hq (i & Hi)%list_elem_of_lookup Hname (j & Hj)%list_elem_of_lookup.
      destruct (Forall2_lookup_l _ _ _ _ _ Hds Hi) as (d & _ & q' & Hq' & Hname' & Hd).
      assert (q' = q) as -> by (eapply (same_name dq_name); eauto; congruence).
      apply describe_ok in Hd as (pieces & Hps & _).
      destruct (Forall2_lookup_l _ _ _ _ _ Hps Hj) as (s & _ & Hs). inversion Hs; subst. eauto.
  - intros (Hnd & parsed & Hp & Hnp & Hnames & Hparams).
    assert (forall p, p ∈ parsed -> exists d, make_query_description queries p = Ok d) as Hd.
    { intros p Hin. assert (pq_name p ∈ dq_name <$> queries) as (q & Hq & Hqin)%list_elem_of_fmap
        by (apply Hnames; by apply list_elem_of_fmap_2).
      destruct (forall2_exists (rendered q) (pq_text p)) as [pieces Hps].
      { intros [s|n] Hn; [eexists; constructor|].
        destruct (Hparams q p n Hqin Hin (eq_sym Hq) Hn) as [k Hk]. eexists. by constructor. }
      eexists. apply make_query_description_ok; [done|]. exists q.
      split_and!; [done..|]. apply describe_ok. by exists pieces. }
    apply forall2_exists in Hd as [ds Hds]. exists (make_query_conf ds).
    unfold make_query_repository.
    rewrite (proj2 (check_declarations_ok queries _)) by done.
    rewrite bind_ok, Hp, bind_ok, (proj2 (check_definitions_ok parsed _)) by done.
    rewrite bind_ok, (proj2 (check_for_undefined_ok queries _ tt)), bind_ok.
    { by rewrite (proj2 (make_query_descriptions_ok _ _ _) Hds). }
    intros q Hq. apply elem_of_list_to_set, Hnames. by apply list_elem_of_fmap_2.
Qed.

(** C24. In a repository that was made, the text of a declared query is the text the
    configuration gives under its name, each parameter replaced by [$k] where [k]
    is its place among the parameters of the query counted from one, the whole
    trimmed; a query made from it has that text and the parameters in order. *)
Theorem repository_texts text queries repo q params :
  make_query_repository text queries = Ok repo -> q ∈ queries ->
  exists parsed p pieces,
    parse_query_conf text = Ok parsed /\ p ∈ parsed /\ pq_name p = dq_name q /\
    Forall2 (rendered q) (pq_text p) pieces /\
    repository_query repo q params = Ok (make_query (trim (concat_strings pieces)) params).
Proof.
  intros H Hq. apply repository_inv in H as (Hnd & parsed & ds & Hp & Hnp & Hdef & Hds & Hnames & ->).
  pose proof (Hdef q Hq) as (p & Hname & (i & Hi)%list_elem_of_lookup)%list_elem_of_fmap.
  destruct (Forall2_lookup_l _ _ _ _ _ Hds Hi) as (d & Hdi & q' & Hq' & Hname' & Hd).
  assert (q' = q) as -> by (eapply (same_name dq_name); eauto; congruence).
  apply describe_ok in Hd as (pieces & Hps & ->).
  exists parsed, p, pieces. split_and!; [done | by eapply list_elem_of_lookup_2 | done | done |].
  unfold repository_query, get_description. rewrite Hname.
  change (pq_name p) with (qd_name {| qd_name := pq_name p; qd_text := trim (concat_strings pieces) |}).
  rewrite query_conf_lookup; [done | by rewrite Hnames | by eapply list_elem_of_lookup_2].
Qed.

End QueryConf.

(** A configuration of one query, and the attributes its grammars give. *)
Definition sample_conf : string -> option (list query_line) := fun _ =>
  Some [query_line_comment "-- users of an age"; query_line_comment "-- name: users";
        query_line_text "SELECT id FROM users "; query_line_text "WHERE age > :age AND name = :name"].

Definition sample_header (comment : string) : option string :=
  if String.eqb comment "-- name: users" then Some "users" else None.

Definition sample_text (text : string) : option (list query_text_element) :=
  if String.eqb text "SELECT id FROM users " then Some [query_text_part text]
  else Some [query_text_part "WHERE age > "; query_parameter_name "age";
             query_text_part " AND name = "; query_parameter_name "name"].

Definition sample_query : declared_query :=
  {| dq_name := "users"; dq_parameters := has_members ["name"; "age"] |}.

Definition sample_made : outcome failure query_conf :=
  make_query_repository sample_conf sample_header sample_text (fun s => s) (fun _ => None)
    "" [sample_query].

Definition sample_repository : query_conf :=
  match sample_made with Ok repo => repo | Throw _ => make_query_conf [] end.

Example sample_repository_text :
  get_description sample_repository sample_query =
  Ok "SELECT id FROM users WHERE age > $2 AND name = $1".
Proof. vm_compute. reflexivity. Qed.

Lemma repository_texts_witness :
  sample_made = Ok sample_repository /\
  exists parsed p pieces,
    parse_query_conf sample_conf sample_header sample_text "" = Ok parsed /\ p ∈ parsed /\
    pq_name p = "users" /\
    Forall2 (rendered (fun _ => None) sample_query) (pq_text p) pieces /\
    repository_query sample_repository sample_query [] = Ok (make_query (concat_strings pieces) []).
Proof.
  assert (sample_made = Ok sample_repository) as H by (vm_compute; reflexivity).
  split; [exact H|].
  exact (repository_texts sample_conf sample_header sample_text (fun s => s) (fun _ => None)
    "" [sample_query] sample_repository sample_query [] H (list_elem_of_here sample_query [])).
Defined.

End QueryConf.
