(* ===== verification/QueryGrammar.v ===== *)
(** The grammars of query configurations: [lines_parser], [header_parser] and
    [text_parser] of [src/include/bozo/query_conf.h], written with the combinators
    of [X3].  For each of them a theorem says which inputs it matches and which
    attribute it gives. *)

From S2P Require Import Prelude QueryBuilder QueryConf.
From Stdlib Require Import Arith Lia List String Ascii.
From stdpp Require Import base tactics list strings gmap.
From S2P Require Import X3.

Open Scope string_scope.

Module QueryGrammar.

Import QueryBuilder QueryConf.

(** ** The grammars *)

Definition is_digit (c : ascii) : bool :=
  let n := nat_of_ascii c in ((48 <=? n) && (n <=? 57))%nat.
Definition is_letter (c : ascii) : bool :=
  let n := nat_of_ascii c in ((65 <=? n) && (n <=? 90) || (97 <=? n) && (n <=? 122))%nat.

(** The set ["_0-9A-Za-z"], and [x3::space]. *)
Definition is_name_char (c : ascii) : bool := Ascii.eqb c "_" || is_digit c || is_letter c.
Definition is_space (c : ascii) : bool :=
  let n := nat_of_ascii c in ((n =? 32) || (9 <=? n) && (n <=? 13))%nat.

Definition any_char (c : ascii) : bool := true.
Definition is_char (a c : ascii) : bool := Ascii.eqb c a.

(** [to_string_visitor]: the characters and strings of an attribute, in order. *)
Definition to_string_visitor (cs : list ascii) : string := string_of_list_ascii cs.
Definition concat_all (ss : list string) : string := concat_strings ss.

Section Grammars.
Context `{X3}.

(** *** [lines_parser] *)

Definition end_def : parser string :=
  lexeme (alt (alt (x3_string (String CR (String LF ""))) (x3_string (String CR "")))
              (x3_string (String LF ""))).

Definition not_eol : parser ascii := difference (char_ any_char) eol.

Definition line_def : parser query_line :=
  alt
    (alt
      (action
        (lexeme (seq (seq (x3_string "--") (kleene not_eol)) (alt end_def (action eoi (fun _ => "")))))
        (fun x => query_line_comment (fst (fst x) +:+ to_string_visitor (snd (fst x)) +:+ snd x)))
      (action (lexeme (seq (kleene not_eol) end_def))
        (fun x => query_line_text (to_string_visitor (fst x) +:+ snd x))))
    (action
      (seq (action (lexeme (plus not_eol)) (fun x => query_line_text (to_string_visitor x))) eoi)
      fst).

Definition conf_def : parser (list query_line) := action (seq (kleene line_def) eoi) fst.

(** *** [header_parser] *)

Definition header_def : parser string :=
  action
    (seq (seq (seq (seq (seq (seq (seq (seq (lit "--") (kleene (char_ is_space))) (lit "name"))
      (kleene (char_ is_space))) (lit ":")) (kleene (char_ is_space)))
      (action (lexeme (plus not_eol)) to_string_visitor))
      (optional eol)) eoi)
    (fun x => snd (fst (fst x))).

(** *** [text_parser] *)

Definition text_part_def : parser string :=
  action
    (plus (lexeme (alt (alt (x3_string "::") (x3_string ":="))
      (action (plus (difference (difference (char_ any_char) (char_ (is_char ":")))
                                (char_ (is_char NUL)))) to_string_visitor))))
    concat_all.

Definition parameter_name_def : parser string :=
  action (seq (lit ":") (action (lexeme (plus (char_ is_name_char))) to_string_visitor)) snd.

Definition text_def : parser (list query_text_element) :=
  action
    (seq (kleene (alt (action parameter_name_def query_parameter_name)
                      (action text_part_def query_text_part))) eoi)
    fst.

(** *** The runs: [x3::phrase_parse], the skipper applied to what is left *)

Definition phrase_parse {A} (p : parser A) (s : string) : option A :=
  '(a, _) ← parse p true s; Some a.

Definition conf_parser (s : string) : option (list query_line) := phrase_parse conf_def s.
Definition header_parser (s : string) : option string := phrase_parse header_def s.
Definition text_parser (s : string) : option (list query_text_element) := phrase_parse text_def s.

End Grammars.

Example text_sample :
  text_parser "SELECT :a::integer, f(b := :b1)" =
  Some [query_text_part "SELECT "; query_parameter_name "a"; query_text_part "::integer, f(b := ";
        query_parameter_name "b1"; query_text_part ")"].
Proof. vm_compute. reflexivity. Qed.

Example header_sample : header_parser ("--  name : a query" +:+ String CR (String LF "")) = Some "a query".
Proof. vm_compute. reflexivity. Qed.

Section Laws.
Context `{XL : X3Laws}.

Lemma not_eol_char_like : char_like (fun c => negb (is_eol c)) not_eol false.
Proof.
  unfold not_eol. split; [eauto with x3|].
  intros s Hs. rewrite parse_difference, parse_eol, parse_char. cbn [pre_skip].
  pose proof (strip_eol_is_eol s) as He. destruct s as [|c s]; [done|]. cbn [starts] in He.
  destruct (is_eol c); cbn [negb].
  - destruct (proj2 He eq_refl) as [r ->]. done.
  - destruct (strip_eol (String c s)) as [r|]; [|done].
    discriminate (proj1 He (mk_is_Some _ _ eq_refl)).
Qed.

(** *** Texts *)

(** A text whose colons are those of [::] and [:=]. *)
Fixpoint wf_text (s : string) : bool :=
  match s with
  | EmptyString => true
  | String a r =>
      if Ascii.eqb a ":" then
        match r with
        | String b r => (Ascii.eqb b ":" || Ascii.eqb b "=") && wf_text r
        | EmptyString => false
        end
      else wf_text r
  end.

Definition all_chars (p : ascii -> bool) (s : string) : bool :=
  forallb p (list_ascii_of_string s).

Definition is_text (e : query_text_element) : bool :=
  match e with query_text_part _ => true | query_parameter_name _ => false end.

(** The elements a text is made of: no text is empty or next to a text, and the
    name of a parameter goes as far as it can. *)
Fixpoint wf_elements (es : list query_text_element) : bool :=
  match es with
  | [] => true
  | query_text_part t :: es =>
      negb (String.eqb t "") && wf_text t && wf_elements es &&
      match es with e :: _ => negb (is_text e) | [] => true end
  | query_parameter_name n :: es =>
      negb (String.eqb n "") && all_chars is_name_char n && wf_elements es &&
      match es with query_text_part t :: _ => negb (starts is_name_char t) | _ => true end
  end.

Definition print_element (e : query_text_element) : string :=
  match e with query_text_part t => t | query_parameter_name n => String ":" n end.
Definition print_elements (es : list query_text_element) : string :=
  concat_strings (map print_element es).

Lemma print_elements_cons e es : print_elements (e :: es) = print_element e +:+ print_elements es.
Proof. done. Qed.

Definition chunk_char (c : ascii) : bool := negb (Ascii.eqb c ":") && negb (Ascii.eqb c NUL).

Definition chunk_def : parser string :=
  alt (alt (x3_string "::") (x3_string ":="))
      (action (plus (difference (difference (char_ any_char) (char_ (is_char ":")))
                                (char_ (is_char NUL)))) to_string_visitor).

Lemma chunk_char_like :
  char_like chunk_char (difference (difference (char_ any_char) (char_ (is_char ":")))
                                   (char_ (is_char NUL))) false.
Proof.
  assert (forall s, parse (difference (difference (char_ any_char) (char_ (is_char ":")))
      (char_ (is_char NUL))) false s =
    match s with String c r => if chunk_char c then Some (c, r) else None | _ => None end) as Heq.
  { intros s. rewrite !parse_difference, !parse_char. cbn [pre_skip]. destruct s as [|c s]; [done|].
    unfold is_char, chunk_char. destruct (Ascii.eqb c NUL), (Ascii.eqb c ":"); done. }
  split; [|intros s _; apply Heq]. intros s c r. rewrite Heq. destruct s as [|c' s]; [done|].
  destruct (chunk_char c'); [|done]. intros [= -> ->]. cbn. lia.
Qed.

(** A chunk is [::], [:=] or as many other characters as there are. *)
Lemma chunk_ok s c r :
  nul_free s = true ->
  parse chunk_def false s = Some (c, r) <->
  s = c +:+ r /\
  (c = "::" \/ c = ":=" \/
   exists cs, c = string_of_list_ascii cs /\ cs <> [] /\ Forall (fun c => chunk_char c = true) cs /\
     starts chunk_char r = false).
Proof.
  intros Hs. unfold chunk_def. rewrite !parse_alt, !parse_string, parse_action. cbn [pre_skip].
  pose proof (strip_prefix_app "::" s) as H1. pose proof (strip_prefix_app ":=" s) as H2.
  destruct (strip_prefix "::" s) as [r1|] eqn:E1; cbn [mbind option_bind].
  { pose proof (proj1 (H1 r1) eq_refl) as ->. split; [intros [= <- <-]; auto|].
    intros [He [->|[->|(cs & -> & Hcs & Hf & _)]]]; [by simplify_eq/= | by simplify_eq/= |].
    destruct cs as [|a cs]; [done|]. inversion Hf as [|? ? Ha]; subst.
    by injection He as <-. }
  destruct (strip_prefix ":=" s) as [r2|] eqn:E2; cbn [mbind option_bind].
  { pose proof (proj1 (H2 r2) eq_refl) as ->. split; [intros [= <- <-]; auto|].
    intros [He [->|[->|(cs & -> & Hcs & Hf & _)]]]; [by simplify_eq/= | by simplify_eq/= |].
    destruct cs as [|a cs]; [done|]. inversion Hf as [|? ? Ha]; subst.
    by injection He as <-. }
  split.
  - destruct (parse (plus _) false s) as [[cs r']|] eqn:Hp; cbn; [|done]. intros [= <- <-].
    apply (plus_chars _ _ _ _ _ _ chunk_char_like Hs) in Hp as (Hne & He & Hf & Hr).
    split; [exact He|]. right. right. by exists cs.
  - intros [He [->|[->|(cs & -> & Hne & Hf & Hr)]]].
    + discriminate (proj2 (H1 r) He).
    + discriminate (proj2 (H2 r) He).
    + by rewrite (proj2 (plus_chars _ _ _ s cs r chunk_char_like Hs)).
Qed.

Lemma lexeme_chunk_consumes : consumes (lexeme chunk_def) true.
Proof. unfold chunk_def. typeclasses eauto with x3 typeclass_instances. Qed.

(** *** Text parts *)

Definition text_stops (r : string) : bool :=
  match r with
  | EmptyString => true
  | String a r => Ascii.eqb a ":" && negb (starts (fun c => Ascii.eqb c ":" || Ascii.eqb c "=") r)
  end.

Lemma wf_text_app a b : wf_text a = true -> wf_text (a +:+ b) = wf_text b.
Proof.
  induction a as [a IH] using (induction_ltof1 _ String.length). destruct a as [|x a]; [done|].
  change (String x a +:+ b) with (String x (a +:+ b)). cbn [wf_text].
  destruct (Ascii.eqb x ":").
  - destruct a as [|y a]; [done|]. change (String y a +:+ b) with (String y (a +:+ b)). cbn [wf_text].
    intros [Hy Ha]%andb_true_iff. rewrite Hy. apply IH; [unfold ltof; cbn; lia | done].
  - apply IH. unfold ltof. cbn. lia.
Qed.

Lemma wf_text_chars cs :
  Forall (fun c => chunk_char c = true) cs -> wf_text (string_of_list_ascii cs) = true.
Proof.
  induction 1 as [|c cs [Hc%negb_true_iff _]%andb_true_iff _ IH]; [done|].
  cbn [string_of_list_ascii wf_text]. by rewrite Hc.
Qed.

(** Behind a chunk either a chunk follows or the text part ends. *)
Lemma text_stops_chunk r :
  nul_free r = true -> parse (lexeme chunk_def) true r = None <-> text_stops r = true.
Proof.
  intros Hr. rewrite parse_lexeme, pre_skip_free by done.
  destruct (parse chunk_def false r) as [[c r']|] eqn:Hp.
  - split; [done|]. apply chunk_ok in Hp as [-> [->|[->|(cs & -> & Hne & Hf & _)]]]; [done..| |done].
    destruct cs as [|c cs]; [done|]. inversion Hf as [|? ? [Hc%negb_true_iff _]%andb_true_iff]; subst.
    change (string_of_list_ascii (c :: cs) +:+ r') with (String c (string_of_list_ascii cs +:+ r')).
    cbn [text_stops]. by rewrite Hc.
  - split; [intros _|done]. destruct r as [|a r]; [done|]. cbn [text_stops].
    destruct (Ascii.eqb_spec a ":") as [->|Ha]; cbn [andb].
    + destruct r as [|b r]; [done|]. cbn [starts]. apply negb_true_iff.
      destruct (Ascii.eqb_spec b ":") as [->|]; [|destruct (Ascii.eqb_spec b "=") as [->|]; [|done]].
      * rewrite (proj2 (chunk_ok _ "::" r Hr)) in Hp; [done | auto].
      * rewrite (proj2 (chunk_ok _ ":=" r Hr)) in Hp; [done | auto].
    + exfalso. destruct (kleene_chars _ _ _ r chunk_char_like) as (cs & r' & _ & -> & Hf & Hr').
      { by apply nul_free_cons in Hr as [_ ?]. }
      rewrite (proj2 (chunk_ok _ (String a (string_of_list_ascii cs)) r' Hr)) in Hp; [done|].
      split; [done|]. right. right. exists (a :: cs). split; [done|]. split; [done|].
      split; [|done]. constructor; [|done]. apply nul_free_cons in Hr as [Hn _].
      unfold chunk_char. apply Ascii.eqb_neq in Ha, Hn. by rewrite Ha, Hn.
Qed.

Lemma lexeme_chunk_ok s :
  nul_free s = true -> parse (lexeme chunk_def) true s = parse chunk_def false s.
Proof. intros Hs. by rewrite parse_lexeme, pre_skip_free. Qed.

Lemma many_chunks s cs r :
  nul_free s = true -> many (lexeme chunk_def) true s cs r ->
  s = concat_all cs +:+ r /\ wf_text (concat_all cs) = true /\ text_stops r = true.
Proof.
  intros Hs. induction 1 as [s Hn|s c s' cs r Hc _ IH].
  - split; [done|]. split; [done|]. by apply text_stops_chunk.
  - rewrite lexeme_chunk_ok in Hc by done. apply chunk_ok in Hc as [-> Hc]; [|done].
    rewrite nul_free_app in Hs. apply andb_true_iff in Hs as [_ Hs].
    destruct (IH Hs) as (-> & Hw & Hr). unfold concat_all in *. cbn [concat_strings].
    rewrite append_assoc. split; [done|]. split; [|done].
    rewrite wf_text_app; [done|]. destruct Hc as [->|[->|(l & -> & _ & Hf & _)]]; [done..|].
    by apply wf_text_chars.
Qed.

(** Every text without a colon of its own is a sequence of chunks. *)
Lemma chunks_of_text t r :
  nul_free (t +:+ r) = true -> wf_text t = true -> text_stops r = true ->
  exists cs, many (lexeme chunk_def) true (t +:+ r) cs r /\ concat_all cs = t.
Proof.
  induction t as [t IH] using (induction_ltof1 _ String.length). unfold ltof in IH.
  intros Hn Ht Hr. pose proof Hn as Hn'.
  rewrite nul_free_app in Hn'. apply andb_true_iff in Hn' as [Hnt Hnr].
  destruct t as [|a t]. { exists []. split; [|done]. constructor. by apply text_stops_chunk. }
  assert (forall u v, String a t = u +:+ v -> u <> "" -> wf_text v = true ->
    parse chunk_def false (u +:+ (v +:+ r)) = Some (u, v +:+ r) ->
    exists cs, many (lexeme chunk_def) true (String a t +:+ r) cs r /\ concat_all cs = String a t) as Hgo.
  { intros u v He Hu Hv Hp. rewrite He in IH, Hn |- *. rewrite <- append_assoc in Hn |- *.
    destruct (IH v) as (cs & Hm & Hc);
      [|rewrite nul_free_app in Hn; by apply andb_true_iff in Hn as [_ ?]|done|done|].
    { rewrite length_append. destruct u; [done | cbn; lia]. }
    exists (u :: cs). split; [|by cbn; rewrite <- Hc]. econstructor; [|exact Hm].
    by rewrite lexeme_chunk_ok. }
  cbn [wf_text] in Ht. destruct (Ascii.eqb_spec a ":") as [->|Ha].
  - destruct t as [|b t]; [done|]. apply andb_true_iff in Ht as [Hb Ht].
    apply (Hgo (String ":" (String b "")) t); [done..|]. apply chunk_ok; [exact Hn|]. split; [done|].
    apply orb_true_iff in Hb as [->%Ascii.eqb_eq| ->%Ascii.eqb_eq]; auto.
  - destruct (kleene_chars _ _ _ t chunk_char_like) as (cs & v & _ & -> & Hf & Hv).
    { by apply nul_free_cons in Hnt as [_ ?]. }
    apply (Hgo (String a (string_of_list_ascii cs)) v); [done..| |].
    { rewrite wf_text_app in Ht; [done | by apply wf_text_chars]. }
    apply chunk_ok.
    { by rewrite append_assoc. }
    split; [done|]. right. right. exists (a :: cs). split; [done|]. split; [done|]. split.
    + constructor; [|done]. apply nul_free_cons in Hnt as [Hnt _].
      unfold chunk_char. apply Ascii.eqb_neq in Ha, Hnt. by rewrite Ha, Hnt.
    + destruct v as [|b v]; [|done]. destruct r as [|b r]; [done|].
      cbn [text_stops] in Hr. apply andb_true_iff in Hr as [Hb _].
      change (chunk_char b = false). unfold chunk_char. by rewrite Hb.
Qed.

Lemma concat_all_nil cs s r : many (lexeme chunk_def) true s cs r -> nul_free s = true ->
  concat_all cs = "" -> cs = [].
Proof.
  intros Hm Hs He. destruct Hm as [|s c s' cs r Hc Hm]; [done|]. exfalso.
  rewrite lexeme_chunk_ok in Hc by done. apply chunk_ok in Hc as [_ Hc]; [|done].
  cbn in He. destruct Hc as [->|[->|(l & -> & Hl & _)]]; [done..|]. by destruct l.
Qed.

Lemma text_part_ok s t r :
  nul_free s = true ->
  parse text_part_def true s = Some (t, r) <->
  s = t +:+ r /\ t <> "" /\ wf_text t = true /\ text_stops r = true.
Proof.
  intros Hs. change text_part_def with (action (plus (lexeme chunk_def)) concat_all).
  rewrite parse_action. split.
  - destruct (parse (plus _) true s) as [[cs r']|] eqn:Hp; cbn; [|done]. intros [= <- <-].
    apply plus_many in Hp as (c & s' & cs' & -> & Hc & Hm); [|apply lexeme_chunk_consumes].
    pose proof (many_cons _ _ _ _ _ _ _ Hc Hm) as Hm'.
    destruct (many_chunks _ _ _ Hs Hm') as (He & Hw & Hr). split_and!; try done.
    intros Hnil. by apply (concat_all_nil _ _ _ Hm' Hs) in Hnil.
  - intros (-> & Hne & Hw & Hr). destruct (chunks_of_text t r Hs Hw Hr) as (cs & Hm & He).
    inversion Hm as [|? c s' cs' ? Hc Hm']; subst; [done|].
    rewrite (proj2 (plus_many _ _ _ (c :: cs') r lexeme_chunk_consumes)); [done|].
    by exists c, s', cs'.
Qed.

(** *** Parameters and whole texts *)

Lemma all_chars_forall p cs :
  all_chars p (string_of_list_ascii cs) = true <-> Forall (fun c => p c = true) cs.
Proof.
  unfold all_chars. rewrite list_ascii_of_string_of_list_ascii, forallb_forall.
  by rewrite List.Forall_forall.
Qed.

Lemma parameter_name_ok s n r :
  nul_free s = true ->
  parse parameter_name_def true s = Some (n, r) <->
  s = String ":" (n +:+ r) /\ n <> "" /\ all_chars is_name_char n = true /\
  starts is_name_char r = false.
Proof.
  intros Hs. unfold parameter_name_def. rewrite parse_action, parse_seq, parse_lit.
  rewrite pre_skip_free by done. split.
  - destruct (strip_prefix ":" s) as [s'|] eqn:Hp; cbn [mbind option_bind]; [|done].
    apply strip_prefix_app in Hp as ->. apply nul_free_cons in Hs as [_ Hs].
    rewrite parse_action, parse_lexeme, pre_skip_free by done.
    destruct (parse (plus _) false s') as [[cs r']|] eqn:Hp; cbn; [|done]. intros [= <- <-].
    apply (plus_chars _ _ _ _ _ _ (char_char_like is_name_char false) Hs) in Hp as (Hne & -> & Hf & Hr).
    split; [done|]. split; [by destruct cs|]. split; [by apply all_chars_forall | done].
  - intros (-> & Hne & Hn & Hr). rewrite (proj2 (strip_prefix_app ":" (String ":" (n +:+ r)) (n +:+ r)) eq_refl).
    cbn [mbind option_bind]. apply nul_free_cons in Hs as [_ Hs].
    rewrite parse_action, parse_lexeme, pre_skip_free by done.
    rewrite <- (string_of_list_ascii_of_string n) in Hs, Hn |- *. apply all_chars_forall in Hn.
    rewrite (proj2 (plus_chars _ _ _ _ (list_ascii_of_string n) r (char_char_like is_name_char false) Hs));
      [done|]. split; [by destruct n | done].
Qed.

Definition element_def : parser query_text_element :=
  alt (action parameter_name_def query_parameter_name) (action text_part_def query_text_part).

Lemma element_consumes : consumes element_def true.
Proof. unfold element_def, parameter_name_def, text_part_def. typeclasses eauto with x3 typeclass_instances. Qed.

(** A parameter does not start where a text part does. *)
Lemma no_parameter t r :
  nul_free (t +:+ r) = true -> t <> "" -> wf_text t = true ->
  parse parameter_name_def true (t +:+ r) = None.
Proof.
  intros Hs Ht Hw. destruct (parse parameter_name_def true (t +:+ r)) as [[n r']|] eqn:Hp; [|done].
  exfalso. apply parameter_name_ok in Hp as (He & Hn & Hc & _); [|done].
  destruct t as [|a t]; [done|]. injection He as -> He. cbn [wf_text] in Hw.
  change (Ascii.eqb ":" ":") with true in Hw. destruct t as [|b t]; [done|].
  apply andb_true_iff in Hw as [Hb _]. destruct n as [|x n]; [done|]. injection He as <- _.
  unfold all_chars in Hc. cbn [list_ascii_of_string forallb] in Hc. apply andb_true_iff in Hc as [Hc _].
  apply orb_true_iff in Hb as [->%Ascii.eqb_eq| ->%Ascii.eqb_eq]; discriminate Hc.
Qed.

Lemma element_ok s e r :
  nul_free s = true ->
  parse element_def true s = Some (e, r) <->
  s = print_element e +:+ r /\
  match e with
  | query_text_part t => t <> "" /\ wf_text t = true /\ text_stops r = true
  | query_parameter_name n => n <> "" /\ all_chars is_name_char n = true /\ starts is_name_char r = false
  end.
Proof.
  intros Hs. unfold element_def. rewrite parse_alt, !parse_action. split.
  - destruct (parse parameter_name_def true s) as [[n r']|] eqn:Hp; cbn [mbind option_bind].
    + intros [= <- <-]. by apply parameter_name_ok in Hp.
    + destruct (parse text_part_def true s) as [[t r']|] eqn:Hq; cbn; [|done]. intros [= <- <-].
      by apply text_part_ok in Hq.
  - destruct e as [t|n]; cbn [print_element].
    + intros (-> & Ht & Hw & Hr). rewrite no_parameter by done. cbn [mbind option_bind].
      by rewrite (proj2 (text_part_ok _ t r Hs)).
    + intros (-> & Hn & Hc & Hr). by rewrite (proj2 (parameter_name_ok _ n r Hs)).
Qed.

Lemma starts_app p t r : t <> "" -> starts p (t +:+ r) = starts p t.
Proof. by destruct t. Qed.

Lemma text_not_stops t r : t <> "" -> wf_text t = true -> text_stops (t +:+ r) = false.
Proof.
  destruct t as [|a t]; [done|]. intros _. cbn [wf_text].
  change (String a t +:+ r) with (String a (t +:+ r)). cbn [text_stops].
  destruct (Ascii.eqb a ":"); [|done]. destruct t as [|b t]; [done|].
  intros [Hb _]%andb_true_iff. change (String b t +:+ r) with (String b (t +:+ r)). cbn [starts].
  by rewrite Hb.
Qed.

Lemma many_elements s es r :
  nul_free s = true -> many element_def true s es r ->
  s = print_elements es +:+ r /\ wf_elements es = true.
Proof.
  intros Hs. induction 1 as [s Hn|s e s' es r He _ IH]; [done|].
  apply element_ok in He as [-> He]; [|done]. rewrite nul_free_app in Hs.
  apply andb_true_iff in Hs as [_ Hs]. destruct (IH Hs) as [-> Hw]. clear IH.
  rewrite print_elements_cons, append_assoc. split; [done|]. cbn [wf_elements].
  assert (forall t es', es = query_text_part t :: es' -> t <> "" /\ wf_text t = true) as Hhd.
  { intros t es' ->. cbn [wf_elements] in Hw. repeat (apply andb_true_iff in Hw as [Hw ?]).
    split; [|done]. intros ->. discriminate Hw. }
  destruct e as [t|n]; destruct He as (Hne & Hc & Hr); apply String.eqb_neq in Hne;
    rewrite Hne, Hc, Hw; cbn [negb andb]; destruct es as [|[t'|n'] es]; try done;
    destruct (Hhd t' es eq_refl) as [Ht' Hw']; rewrite print_elements_cons, <- append_assoc in Hr.
  - cbn [print_element] in Hr. by rewrite text_not_stops in Hr.
  - cbn [print_element] in Hr. rewrite starts_app in Hr by done. by rewrite Hr.
Qed.

Lemma elements_many es :
  nul_free (print_elements es) = true -> wf_elements es = true ->
  many element_def true (print_elements es) es "".
Proof.
  induction es as [|e es IH]; intros Hs Hw.
  - constructor. destruct (parse element_def true _) as [[e r]|] eqn:He; [|done].
    apply element_consumes in He. cbn in He. lia.
  - rewrite print_elements_cons in Hs |- *. pose proof Hs as Hs'.
    rewrite nul_free_app in Hs'. apply andb_true_iff in Hs' as [_ Hs'].
    cbn [wf_elements] in Hw.
    destruct e as [t|n]; repeat (apply andb_true_iff in Hw as [Hw ?]);
      apply negb_true_iff, String.eqb_neq in Hw;
      (eapply many_cons; [|by apply IH]); (apply element_ok; [done|]); (split; [done|]); split_and!; try done.
    + destruct es as [|[t'|n'] es]; [done..|]. cbn [wf_elements] in *.
      rewrite print_elements_cons. cbn [print_element].
      repeat match goal with H : _ && _ = true |- _ => apply andb_true_iff in H as [H ?] end.
      destruct n' as [|b n']; [done|]. unfold all_chars in *. cbn [list_ascii_of_string forallb] in *.
      repeat match goal with H : _ && _ = true |- _ => apply andb_true_iff in H as [H ?] end.
      change (negb (Ascii.eqb b ":" || Ascii.eqb b "=") = true). apply negb_true_iff.
      destruct (Ascii.eqb_spec b ":") as [->|]; [done|]. by destruct (Ascii.eqb_spec b "=") as [->|].
    + destruct es as [|[t'|n'] es]; [done| |done]. cbn [wf_elements] in *.
      rewrite print_elements_cons. cbn [print_element].
      repeat match goal with H : _ && _ = true |- _ => apply andb_true_iff in H as [H ?] end.
      rewrite starts_app; [by apply negb_true_iff|]. intros ->. done.
Qed.

(** The reading of texts, for the proofs about whole configurations. *)
Lemma text_grammar_iff s es :
  nul_free s = true ->
  text_parser s = Some es <-> print_elements es = s /\ wf_elements es = true.
Proof.
  intros Hs. unfold text_parser, phrase_parse.
  change text_def with (action (seq (kleene element_def) eoi) fst).
  rewrite parse_action, parse_seq.
  destruct (kleene_some element_def true s element_consumes) as (xs & r & -> & Hm). cbn [mbind option_bind].
  destruct (many_elements s xs r Hs Hm) as [He Hw].
  rewrite parse_eoi_free by (rewrite He, nul_free_app in Hs; by apply andb_true_iff in Hs as [_ ?]).
  split.
  - destruct r as [|c r]; cbn; [|done]. intros [= <-]. by rewrite append_nil_r in He.
  - intros [<- Hw']. apply elements_many in Hw'; [|done].
    apply (kleene_many _ _ _ _ _ element_consumes) in Hm, Hw'. rewrite Hm in Hw'. by simplify_eq.
Qed.

(** C21. The grammar of texts reads a text exactly as it is written: the elements
    printed one after another are the text, names of parameters go as far as they
    can, texts are maximal, and [::] and [:=] belong to texts.  A text that no such
    elements spell, because a colon stands alone, is refused. *)
Theorem text_grammar_correct s es :
  nul_free s = true ->
  text_parser s = Some es <-> print_elements es = s /\ wf_elements es = true.
Proof. apply text_grammar_iff. Qed.

End Laws.

Lemma text_grammar_correct_witness :
  let s := "id = :id::int" in
  let es := [query_text_part "id = "; query_parameter_name "id"; query_text_part "::int"] in
  nul_free s = true /\ (text_parser s = Some es <-> print_elements es = s /\ wf_elements es = true).
Proof. split; [reflexivity|]. apply text_grammar_correct. reflexivity. Defined.

End QueryGrammar.
