(* ===== verification/QueryLines.v ===== *)
(** The grammars of headers and lines of query configurations, and the reading of a
    whole configuration: [header_parser], [lines_parser] and their use by
    [parse_query_conf] in [src/include/bozo/query_conf.h]. *)

From S2P Require Import Prelude QueryBuilder QueryConf QueryGrammar.
From Stdlib Require Import Arith Lia List String Ascii.
From stdpp Require Import base tactics list strings gmap.
From S2P Require Import X3.

Open Scope string_scope.

Module QueryLines.

Import QueryBuilder QueryConf QueryGrammar.

(** ** Ends of lines *)

Definition CRLF : string := String CR (String LF "").
Definition line_end (e : string) : bool :=
  String.eqb e CRLF || String.eqb e (String CR "") || String.eqb e (String LF "").

Definition not_eol_char (c : ascii) : bool := negb (is_eol c).

Ltac nul_free_parts :=
  repeat match goal with
  | H : nul_free (_ +:+ _) = true |- _ => rewrite nul_free_app in H
  | H : _ && _ = true |- _ => apply andb_true_iff in H as [? ?]
  | |- nul_free (_ +:+ _) = true => rewrite nul_free_app
  | |- _ && _ = true => apply andb_true_iff; split
  end; try done.

Lemma strip_eol_all e : strip_eol e = Some "" <-> line_end e = true.
Proof.
  unfold line_end, CRLF. split.
  - destruct e as [|a e]; [done|]. cbn [strip_eol].
    destruct (Ascii.eqb_spec a CR) as [->|]; [|destruct (Ascii.eqb_spec a LF) as [->|]; [|done]].
    + destruct e as [|b e]; [done|]. destruct (Ascii.eqb_spec b LF) as [->|]; [|done].
      by intros [= ->].
    + by intros [= ->].
  - intros [[->%String.eqb_eq| ->%String.eqb_eq]%orb_true_iff| ->%String.eqb_eq]%orb_true_iff; done.
Qed.

Lemma line_end_starts e : line_end e = true -> starts is_eol e = true.
Proof. intros He%strip_eol_all. apply strip_eol_is_eol. by eexists. Qed.

Lemma starts_not_eol r : starts not_eol_char r = false -> r = "" \/ starts is_eol r = true.
Proof.
  destruct r as [|c r]; [by left|]. cbn. unfold not_eol_char. intros Hc%negb_false_iff. by right.
Qed.

Section Laws.
Context `{XL : X3Laws}.

(** ** Headers *)

Lemma parse_lit_app t k r :
  nul_free (t +:+ r) = true -> parse (lit t) k (t +:+ r) = Some (tt, r).
Proof.
  intros Hs. rewrite parse_lit, pre_skip_free by done.
  by rewrite (proj2 (strip_prefix_app t (t +:+ r) r) eq_refl).
Qed.

Lemma parse_lit_inv t k s r :
  nul_free s = true -> parse (lit t) k s = Some (tt, r) -> s = t +:+ r.
Proof.
  intros Hs. rewrite parse_lit, pre_skip_free by done.
  destruct (strip_prefix t s) as [r'|] eqn:Hp; cbn; [|done]. intros [= <-]. by apply strip_prefix_app.
Qed.

(** One step of a sequence, in both directions. *)
Lemma parse_seq_some {A B} (a : parser A) (b : parser B) k s x y r :
  parse (seq a b) k s = Some ((x, y), r) <->
  exists s', parse a k s = Some (x, s') /\ parse b k s' = Some (y, r).
Proof.
  rewrite parse_seq. split.
  - destruct (parse a k s) as [[x' s']|]; cbn; [|done].
    destruct (parse b k s') as [[y' r']|] eqn:Hb; cbn; [|done]. intros [= <- <- <-]. by exists s'.
  - intros (s' & -> & Hb). cbn. by rewrite Hb.
Qed.

Lemma parse_action_some {A B} (a : parser A) (f : A -> B) k s y r :
  parse (action a f) k s = Some (y, r) <-> exists x, parse a k s = Some (x, r) /\ y = f x.
Proof.
  rewrite parse_action. split.
  - destruct (parse a k s) as [[x s']|]; cbn; [|done]. intros [= <- <-]. by exists x.
  - by intros (x & -> & ->).
Qed.

Lemma spaces_ok s cs r :
  nul_free s = true ->
  parse (kleene (char_ is_space)) true s = Some (cs, r) <->
  s = string_of_list_ascii cs +:+ r /\ Forall (fun c => is_space c = true) cs /\ starts is_space r = false.
Proof.
  intros Hs. rewrite kleene_many by apply char_char_like.
  by apply (many_chars is_space _ _ _ _ _ (char_char_like is_space true)).
Qed.

(** The end of a header: nothing, or one end of a line. *)
Lemma header_end_ok s :
  nul_free s = true -> starts not_eol_char s = false ->
  parse (seq (optional eol) eoi) true s = Some ((tt, tt), "") <-> s = "" \/ line_end s = true.
Proof.
  intros Hs Hn. rewrite parse_seq_some, parse_optional, parse_eol, pre_skip_free by done. split.
  - intros (s' & H1 & H2). destruct (strip_eol s) as [r|] eqn:He; cbn in H1; simplify_eq.
    + right. apply strip_eol_all. rewrite He. f_equal.
      assert (nul_free s' = true) as Hs'.
      { clear -Hs He. destruct s as [|a s]; [done|]. apply nul_free_cons in Hs as [_ Hs]. cbn in He.
        destruct (Ascii.eqb a CR); [|destruct (Ascii.eqb a LF); by simplify_eq].
        destruct s as [|b s]; [by simplify_eq|]. pose proof Hs as [_ ?]%nul_free_cons.
        destruct (Ascii.eqb b LF); by simplify_eq. }
      rewrite parse_eoi_free in H2 by done. by destruct s'.
    + rewrite parse_eoi_free in H2 by done. destruct s'; [by left | done].
  - intros [->|He].
    + exists "". split; [done|]. by rewrite parse_eoi_free.
    + apply strip_eol_all in He. rewrite He. exists "". split; [done|]. by rewrite parse_eoi_free.
Qed.

Lemma name_ok s n r :
  nul_free s = true ->
  parse (action (lexeme (plus not_eol)) to_string_visitor) true s = Some (n, r) <->
  s = n +:+ r /\ n <> "" /\ all_chars not_eol_char n = true /\ starts not_eol_char r = false.
Proof.
  intros Hs. rewrite parse_action_some. split.
  - intros (cs & Hp & ->). rewrite parse_lexeme, pre_skip_free in Hp by done.
    apply (plus_chars _ _ _ _ _ _ not_eol_char_like Hs) in Hp as (Hne & -> & Hf & Hr).
    split; [done|]. split; [by destruct cs|]. split; [by apply all_chars_forall | done].
  - intros (-> & Hne & Hc & Hr). exists (list_ascii_of_string n).
    unfold to_string_visitor. rewrite string_of_list_ascii_of_string. split; [|done].
    rewrite parse_lexeme, pre_skip_free by done.
    rewrite <- (string_of_list_ascii_of_string n) in Hs, Hc |- *.
    rewrite list_ascii_of_string_of_list_ascii. apply all_chars_forall in Hc.
    apply (plus_chars _ _ _ _ _ _ not_eol_char_like Hs). split; [by destruct n | done].
Qed.

(** What a header is: [--], [name], [:] and the name, with spaces in between, the
    name going to the end of the line. *)
Definition is_header (s name : string) : Prop :=
  exists a b c e,
    s = "--" +:+ a +:+ "name" +:+ b +:+ ":" +:+ c +:+ name +:+ e /\
    all_chars is_space a = true /\ all_chars is_space b = true /\ all_chars is_space c = true /\
    name <> "" /\ all_chars not_eol_char name = true /\ starts is_space name = false /\
    (e = "" \/ line_end e = true).

Lemma spaces_inv s cs r :
  nul_free s = true -> parse (kleene (char_ is_space)) true s = Some (cs, r) ->
  s = string_of_list_ascii cs +:+ r /\ all_chars is_space (string_of_list_ascii cs) = true /\
  starts is_space r = false.
Proof. intros Hs (-> & Hf & Hr)%spaces_ok; [|done]. split; [done|]. split; [by apply all_chars_forall | done]. Qed.

Lemma spaces_app a r :
  nul_free (a +:+ r) = true -> all_chars is_space a = true -> starts is_space r = false ->
  parse (kleene (char_ is_space)) true (a +:+ r) = Some (list_ascii_of_string a, r).
Proof.
  intros Hs Ha Hr. apply spaces_ok; [done|]. rewrite string_of_list_ascii_of_string.
  split; [done|]. split; [|done]. apply all_chars_forall. by rewrite string_of_list_ascii_of_string.
Qed.

Lemma header_run_inv s name r :
  nul_free s = true -> parse header_def true s = Some (name, r) -> is_header s name.
Proof.
  intros Hs Hp. unfold header_def in Hp. apply parse_action_some in Hp as (x & Hp & ->).
  destruct x as [[[[[[[[[] a] []] b] []] c] n] []] []]. cbn [fst snd].
  apply parse_seq_some in Hp as (s8 & Hp & H8). apply parse_seq_some in Hp as (s7 & Hp & H7).
  apply parse_seq_some in Hp as (s6 & Hp & H6). apply parse_seq_some in Hp as (s5 & Hp & H5).
  apply parse_seq_some in Hp as (s4 & Hp & H4). apply parse_seq_some in Hp as (s3 & Hp & H3).
  apply parse_seq_some in Hp as (s2 & Hp & H2). apply parse_seq_some in Hp as (s1 & H0 & H1).
  apply parse_lit_inv in H0 as ->; [|done]. nul_free_parts.
  apply spaces_inv in H1 as (-> & Ha & _); [|done]. nul_free_parts.
  apply parse_lit_inv in H2 as ->; [|done]. nul_free_parts.
  apply spaces_inv in H3 as (-> & Hb & _); [|done]. nul_free_parts.
  apply parse_lit_inv in H4 as ->; [|done]. nul_free_parts.
  apply spaces_inv in H5 as (-> & Hc & Hsp); [|done]. nul_free_parts.
  apply name_ok in H6 as (-> & Hne & Hn & He); [|done]. nul_free_parts.
  rewrite starts_app in Hsp by done. eexists _, _, _, s7. split; [done|]. split_and!; try done.
  apply header_end_ok; [done..|]. rewrite parse_eoi in H8.
  assert (r = "") as -> by (destruct (pre_skip true s8); by simplify_eq).
  apply parse_seq_some. exists s8. split; [done|]. by rewrite parse_eoi.
Qed.

Lemma header_run s name :
  nul_free s = true -> is_header s name -> parse header_def true s = Some (name, "").
Proof.
  intros Hs (a & b & c & e & -> & Ha & Hb & Hc & Hne & Hn & Hsp & He).
  assert (starts not_eol_char e = false) as Hst.
  { destruct He as [->|He%line_end_starts]; [done|]. destruct e as [|x e]; [done|].
    cbn in *. unfold not_eol_char. by rewrite He. }
  assert (nul_free e = true) as Hfe by nul_free_parts.
  apply (header_end_ok e Hfe Hst) in He. apply parse_seq_some in He as (s8 & H7 & H8).
  apply parse_action_some.
  exists (tt, list_ascii_of_string a, tt, list_ascii_of_string b, tt, list_ascii_of_string c, name, tt, tt).
  split; [|done].
  apply parse_seq_some. exists s8. split; [|done]. apply parse_seq_some. exists e. split; [|done].
  apply parse_seq_some. exists (name +:+ e). split; [|apply name_ok; nul_free_parts].
  assert (starts is_space (name +:+ e) = false) by by rewrite starts_app.
  apply parse_seq_some. exists (c +:+ name +:+ e). split; [|apply spaces_app; nul_free_parts].
  apply parse_seq_some. exists (":" +:+ c +:+ name +:+ e). split; [|apply parse_lit_app; nul_free_parts].
  apply parse_seq_some. exists (b +:+ ":" +:+ c +:+ name +:+ e).
  split; [|apply spaces_app; nul_free_parts].
  apply parse_seq_some. exists ("name" +:+ b +:+ ":" +:+ c +:+ name +:+ e).
  split; [|apply parse_lit_app; nul_free_parts].
  apply parse_seq_some. exists (a +:+ "name" +:+ b +:+ ":" +:+ c +:+ name +:+ e).
  split; [apply parse_lit_app; nul_free_parts | apply spaces_app; nul_free_parts].
Qed.

(** The grammar of headers matches exactly the headers and gives their names. *)
Lemma header_grammar_correct s name :
  nul_free s = true -> header_parser s = Some name <-> is_header s name.
Proof.
  intros Hs. unfold header_parser, phrase_parse. split.
  - destruct (parse header_def true s) as [[n r]|] eqn:Hp; cbn; [|done]. intros [= <-].
    by eapply header_run_inv.
  - intros Hh. by rewrite (header_run s name Hs Hh).
Qed.

(** ** Lines *)

(** The first end of a line, if one is at the front. *)
Definition end_split (s : string) : option (string * string) :=
  match s with
  | String a s' =>
      if Ascii.eqb a CR then
        match s' with
        | String b s'' => if Ascii.eqb b LF then Some (CRLF, s'') else Some (String CR "", s')
        | EmptyString => Some (String CR "", "")
        end
      else if Ascii.eqb a LF then Some (String LF "", s') else None
  | EmptyString => None
  end.

Definition starts_with (t s : string) : bool :=
  match strip_prefix t s with Some _ => true | None => false end.

Definition make_line (body e : string) : query_line :=
  if starts_with "--" body then query_line_comment (body +:+ e) else query_line_text (body +:+ e).

Lemma parse_end k s : nul_free s = true -> parse end_def k s = end_split s.
Proof.
  intros Hs. unfold end_def. rewrite parse_lexeme, pre_skip_free by done.
  rewrite !parse_alt, !parse_string. cbn [pre_skip]. destruct s as [|a s]; [done|]. unfold end_split.
  cbn [strip_prefix]. rewrite (Ascii.eqb_sym CR a), (Ascii.eqb_sym LF a).
  destruct (Ascii.eqb_spec a CR) as [->|Ha].
  - destruct s as [|b s]; [done|]. rewrite (Ascii.eqb_sym LF b). by destruct (Ascii.eqb b LF).
  - by destruct (Ascii.eqb a LF).
Qed.

Lemma end_split_some s e r : end_split s = Some (e, r) -> s = e +:+ r /\ line_end e = true.
Proof.
  destruct s as [|a s]; [done|]. cbn [end_split].
  destruct (Ascii.eqb_spec a CR) as [->|Ha].
  - destruct s as [|b s]; [by intros [= <- <-]|].
    destruct (Ascii.eqb_spec b LF) as [->|Hb]; by intros [= <- <-].
  - destruct (Ascii.eqb_spec a LF) as [->|Hb]; [by intros [= <- <-] | done].
Qed.

Lemma end_split_none s : starts not_eol_char s = false -> end_split s = None -> s = "".
Proof.
  destruct s as [|a s]; [done|]. cbn [end_split starts]. unfold not_eol_char, is_eol.
  destruct (Ascii.eqb a CR); [|by destruct (Ascii.eqb a LF)].
  destruct s as [|b s]; [done|]. by destruct (Ascii.eqb b LF).
Qed.

Lemma line_consumes : consumes line_def true.
Proof. unfold line_def, not_eol, end_def. typeclasses eauto with x3 typeclass_instances. Qed.

Lemma kleene_body b r :
  nul_free (b +:+ r) = true -> all_chars not_eol_char b = true -> starts not_eol_char r = false ->
  parse (kleene not_eol) false (b +:+ r) = Some (list_ascii_of_string b, r).
Proof.
  intros Hs Hb Hr. rewrite <- (string_of_list_ascii_of_string b) in Hs, Hb |- *.
  rewrite list_ascii_of_string_of_list_ascii. apply all_chars_forall in Hb.
  by apply (kleene_chars_app not_eol_char _ _ _ _ not_eol_char_like).
Qed.

Lemma starts_with_prefix t s : starts_with t s = true <-> exists r, s = t +:+ r.
Proof.
  unfold starts_with. pose proof (strip_prefix_app t s) as Hp.
  destruct (strip_prefix t s) as [r|]; split; try done.
  - intros _. exists r. by apply Hp.
  - intros [r Hr]. by apply Hp in Hr.
Qed.

Lemma starts_with_app b r :
  starts not_eol_char r = false -> starts_with "--" (b +:+ r) = starts_with "--" b.
Proof.
  intros Hr. assert (forall y r', r = String y r' -> Ascii.eqb "-" y = false) as Hy.
  { intros y r' ->. destruct (Ascii.eqb_spec "-" y) as [<-|]; [discriminate Hr | done]. }
  unfold starts_with. destruct b as [|x [|z b]]; [destruct r as [|y r]; [done|] | |].
  - change ("" +:+ String y r) with (String y r). cbn [strip_prefix]. by rewrite (Hy y r).
  - change (String x "" +:+ r) with (String x r). cbn [strip_prefix].
    destruct (Ascii.eqb "-" x), r as [|y r]; try done. by rewrite (Hy y r).
  - change (String x (String z b) +:+ r) with (String x (String z (b +:+ r))). cbn [strip_prefix].
    by destruct (Ascii.eqb "-" x), (Ascii.eqb "-" z).
Qed.

(** A line, cut at its first end, is read as one comment or text; what has no end
    must be at the end of the input and not empty. *)
Lemma line_run b r :
  nul_free (b +:+ r) = true -> all_chars not_eol_char b = true -> starts not_eol_char r = false ->
  parse line_def true (b +:+ r) =
  match end_split r with
  | Some (e, r') => Some (make_line b e, r')
  | None => if String.eqb b "" then None else Some (make_line b "", "")
  end.
Proof.
  intros Hs Hb Hr. assert (nul_free r = true) as Hnr by nul_free_parts.
  unfold line_def. rewrite !parse_alt, !parse_action, !parse_lexeme, pre_skip_free by done.
  rewrite !parse_seq. unfold make_line. destruct (starts_with "--" b) eqn:Hc.
  - apply starts_with_prefix in Hc as [b' ->]. rewrite <- append_assoc in Hs |- *.
    rewrite parse_string. cbn [pre_skip].
    rewrite (proj2 (strip_prefix_app "--" _ (b' +:+ r)) eq_refl). cbn [mbind option_bind].
    assert (all_chars not_eol_char b' = true) as Hb' by done.
    rewrite kleene_body by (done || nul_free_parts). cbn [mbind option_bind].
    rewrite parse_alt, parse_end, parse_action, parse_eoi by done. cbn [pre_skip].
    destruct (end_split r) as [[e r']|] eqn:He; cbn [mbind option_bind fst snd].
    + unfold to_string_visitor. by rewrite string_of_list_ascii_of_string, append_assoc.
    + apply end_split_none in He as ->; [|done]. cbn [mbind option_bind fst snd].
      unfold to_string_visitor. by rewrite string_of_list_ascii_of_string, !append_nil_r.
  - rewrite parse_string. cbn [pre_skip]. rewrite <- (starts_with_app b r Hr) in Hc.
    unfold starts_with in Hc. destruct (strip_prefix "--" (b +:+ r)); [done|]. cbn [mbind option_bind].
    rewrite kleene_body by done. cbn [mbind option_bind]. rewrite parse_end by done.
    destruct (end_split r) as [[e r']|] eqn:He; cbn [mbind option_bind fst snd].
    { unfold to_string_visitor. by rewrite string_of_list_ascii_of_string. }
    apply end_split_none in He as ->; [|done]. rewrite append_nil_r in Hs |- *.
    rewrite parse_action, parse_lexeme, pre_skip_free by done.
    destruct b as [|c b].
    + destruct (parse (plus not_eol) false "") as [[cs r]|] eqn:Hp; [|done].
      apply (plus_consumes _ _ (proj1 not_eol_char_like)) in Hp. cbn in Hp. lia.
    + rewrite (proj2 (plus_chars _ _ _ (String c b) (list_ascii_of_string (String c b)) "" not_eol_char_like Hs)).
      * cbn [mbind option_bind fst]. rewrite parse_eoi. cbn [pre_skip mbind option_bind fst].
        unfold to_string_visitor. by rewrite string_of_list_ascii_of_string.
      * rewrite string_of_list_ascii_of_string, append_nil_r. split; [done|]. split; [done|].
        split; [|done]. apply all_chars_forall. by rewrite string_of_list_ascii_of_string.
Qed.

Definition line_value (l : query_line) : string :=
  match l with query_line_comment v | query_line_text v => v end.

(** A line of a configuration: the characters up to an end of a line and that end,
    which only the last line may lack; a comment if it starts with two hyphens. *)
Definition line_ok (last_line : bool) (l : query_line) : Prop :=
  exists body e, l = make_line body e /\ all_chars not_eol_char body = true /\
    (line_end e = true \/ last_line = true /\ e = "" /\ body <> "").

Fixpoint lines_ok (ls : list query_line) : Prop :=
  match ls with
  | [] => True
  | [l] => line_ok true l
  | l :: ls => line_ok false l /\ lines_ok ls
  end.

Lemma cut_line s :
  nul_free s = true ->
  exists b r, s = b +:+ r /\ all_chars not_eol_char b = true /\ starts not_eol_char r = false.
Proof.
  intros Hs. destruct (kleene_chars _ _ _ s not_eol_char_like Hs) as (cs & r & _ & -> & Hf & Hr).
  exists (string_of_list_ascii cs), r. split; [done|]. split; [by apply all_chars_forall | done].
Qed.

Lemma make_line_value b e : line_value (make_line b e) = b +:+ e.
Proof. unfold make_line. by destruct (starts_with "--" b). Qed.

Lemma line_ok_weaken l : line_ok false l -> line_ok true l.
Proof. intros (b & e & Hl & Hb & [He|[? _]]); [|done]. exists b, e. auto. Qed.

Lemma many_lines s ls r :
  nul_free s = true -> many line_def true s ls r ->
  r = "" /\ concat_strings (map line_value ls) = s /\ lines_ok ls.
Proof.
  intros Hs. induction 1 as [s Hn|s l s' ls r Hl Hm IH].
  - destruct (cut_line s Hs) as (b & r & -> & Hb & Hr). rewrite line_run in Hn by done.
    destruct (end_split r) as [[e r']|] eqn:He; [done|]. apply end_split_none in He as ->; [|done].
    destruct (String.eqb b "") eqn:Hnil; [|discriminate Hn]. by apply String.eqb_eq in Hnil as ->.
  - destruct (cut_line s Hs) as (b & t & -> & Hb & Ht). rewrite line_run in Hl by done.
    destruct (end_split t) as [[e t']|] eqn:He.
    + simplify_eq. apply end_split_some in He as [-> He]. nul_free_parts.
      destruct IH as (-> & Hc & Hls); [done|]. split; [done|]. cbn [map concat_strings].
      rewrite make_line_value, Hc, append_assoc. split; [done|].
      assert (line_ok false (make_line b e)) as Hok by (exists b, e; auto).
      destruct ls; [by apply line_ok_weaken | done].
    + apply end_split_none in He as ->; [|done].
      destruct (String.eqb b "") eqn:Hne; [discriminate Hl|]. apply String.eqb_neq in Hne. simplify_eq.
      destruct IH as (-> & Hc & Hls); [done|]. split; [done|].
      inversion Hm as [|? x ? xs ? Hx]; subst; [|apply line_consumes in Hx; cbn in Hx; lia].
      cbn. rewrite make_line_value, !append_nil_r. split; [done|].
      exists b, "". split; [done|]. split; [done|]. by right.
Qed.

(** C38. Every text is a configuration of lines: the grammar of lines never fails,
    the lines one after another are the text, each of them is cut at the first end
    of a line, and a line is a comment exactly if it starts with two hyphens. *)
Theorem lines_grammar_total s :
  nul_free s = true ->
  exists ls, conf_parser s = Some ls /\ concat_strings (map line_value ls) = s /\ lines_ok ls.
Proof.
  intros Hs. unfold conf_parser, phrase_parse, conf_def. rewrite parse_action, parse_seq.
  destruct (kleene_some line_def true s line_consumes) as (ls & r & -> & Hm). cbn [mbind option_bind].
  destruct (many_lines s ls r Hs Hm) as (-> & Hc & Hls). rewrite parse_eoi_free by done.
  exists ls. done.
Qed.

(** ** Whole configurations *)

(** A query of a configuration as an author writes it: its name and the elements of
    each of its lines. *)
Record source_query : Set := { sq_name : string; sq_lines : list (list query_text_element) }.

Definition newline : string := String LF "".

Definition render_line (es : list query_text_element) : string := print_elements es +:+ newline.
Definition render_query (q : source_query) : string :=
  "-- name: " +:+ sq_name q +:+ newline +:+ concat_strings (map render_line (sq_lines q)).
Definition render (qs : list source_query) : string := concat_strings (map render_query qs).

Definition plain (s : string) : bool := nul_free s && all_chars not_eol_char s.

Definition name_wf (n : string) : bool :=
  negb (String.eqb n "") && negb (starts is_space n) && plain n.
Definition line_wf (es : list query_text_element) : bool :=
  wf_elements es && plain (print_elements es) && negb (starts_with "--" (print_elements es)).
Definition source_wf (q : source_query) : bool := name_wf (sq_name q) && forallb line_wf (sq_lines q).

(** The end of the line belongs to the text. *)
Fixpoint end_line (es : list query_text_element) : list query_text_element :=
  match es with
  | [] => [query_text_part newline]
  | [query_text_part t] => [query_text_part (t +:+ newline)]
  | e :: es => e :: end_line es
  end.

Definition parsed_of (q : source_query) : parsed_query :=
  {| pq_name := sq_name q; pq_text := List.concat (map end_line (sq_lines q)) |}.

Lemma print_end_line es : print_elements (end_line es) = print_elements es +:+ newline.
Proof.
  induction es as [|e es IH]; [done|]. destruct e as [t|n].
  - destruct es as [|e' es].
    + cbn. unfold print_elements. cbn. by rewrite !append_nil_r.
    + change (end_line (query_text_part t :: e' :: es)) with (query_text_part t :: end_line (e' :: es)).
      rewrite !(print_elements_cons (query_text_part t)), IH. apply append_assoc.
  - change (end_line (query_parameter_name n :: es)) with (query_parameter_name n :: end_line es).
    rewrite !(print_elements_cons (query_parameter_name n)), IH. apply append_assoc.
Qed.

Lemma wf_end_line es : wf_elements es = true -> wf_elements (end_line es) = true.
Proof.
  induction es as [|e es IH]; [done|]. intros Hw. destruct e as [t|n].
  - destruct es as [|e' es].
    + cbn [wf_elements] in Hw. repeat (apply andb_true_iff in Hw as [Hw ?]).
      cbn [end_line wf_elements]. rewrite wf_text_app by done. by destruct t.
    + change (end_line (query_text_part t :: e' :: es)) with (query_text_part t :: end_line (e' :: es)).
      cbn [wf_elements] in Hw |- *.
      apply andb_true_iff in Hw as [[[Hne Ht]%andb_true_iff Hes]%andb_true_iff Hhd].
      destruct e' as [t'|n']; [done|].
      change (end_line (query_parameter_name n' :: es)) with (query_parameter_name n' :: end_line es) in *.
      rewrite IH by done. by rewrite Hne, Ht.
  - change (end_line (query_parameter_name n :: es)) with (query_parameter_name n :: end_line es).
    cbn [wf_elements] in Hw |- *.
    apply andb_true_iff in Hw as [[[Hne Hn]%andb_true_iff Hes]%andb_true_iff Hhd].
    rewrite IH by done. rewrite Hne, Hn. destruct es as [|[t'|n'] es]; [done| |done].
    destruct es; [|done]. cbn [end_line andb wf_elements] in Hes |- *. by destruct t'.
Qed.

(** The lines of a rendered query. *)
Definition header_line (q : source_query) : query_line :=
  query_line_comment ("-- name: " +:+ sq_name q +:+ newline).
Definition query_lines (q : source_query) : list query_line :=
  header_line q :: map (fun es => query_line_text (render_line es)) (sq_lines q).

Lemma all_chars_app p a b : all_chars p (a +:+ b) = all_chars p a && all_chars p b.
Proof. unfold all_chars. by rewrite list_ascii_of_append, forallb_app. Qed.

(** One line off the front of a text. *)
Lemma read_line b r ls :
  nul_free b = true -> all_chars not_eol_char b = true -> nul_free r = true ->
  many line_def true r ls "" ->
  many line_def true (b +:+ newline +:+ r) (make_line b newline :: ls) "".
Proof.
  intros Hb Hc Hr Hm. econstructor; [|exact Hm].
  change (newline +:+ r) with (String LF r).
  rewrite line_run; [done | | done | done]. rewrite nul_free_app, Hb. exact Hr.
Qed.

Lemma plain_name q : source_wf q = true -> nul_free (sq_name q) = true /\
  all_chars not_eol_char (sq_name q) = true /\ sq_name q <> "" /\ starts is_space (sq_name q) = false.
Proof.
  unfold source_wf, name_wf, plain. intros [H1 _]%andb_true_iff.
  repeat (apply andb_true_iff in H1 as [H1 ?]). nul_free_parts. apply negb_true_iff, String.eqb_neq in H1.
  by split_and!; try apply negb_true_iff.
Qed.

Lemma nul_free_lines lines :
  forallb line_wf lines = true -> nul_free (concat_strings (map render_line lines)) = true.
Proof.
  induction lines as [|es lines IH]; [done|]. cbn [forallb map concat_strings].
  intros [[[_ [Hf _]%andb_true_iff]%andb_true_iff _]%andb_true_iff Hls]%andb_true_iff.
  rewrite nul_free_app, IH by done. unfold render_line. by rewrite nul_free_app, Hf.
Qed.

Lemma nul_free_render qs : forallb source_wf qs = true -> nul_free (render qs) = true.
Proof.
  induction qs as [|q qs IH]; [done|]. unfold render. cbn [forallb map concat_strings].
  intros [Hq Hqs]%andb_true_iff. destruct (plain_name q Hq) as (Hn & _).
  rewrite nul_free_app. unfold render_query. rewrite !nul_free_app, Hn.
  apply andb_true_iff in Hq as [_ Hl]. rewrite nul_free_lines by done. by apply IH.
Qed.

Lemma read_body lines r ls :
  forallb line_wf lines = true -> nul_free r = true -> many line_def true r ls "" ->
  many line_def true (concat_strings (map render_line lines) +:+ r)
    (map (fun es => query_line_text (render_line es)) lines ++ ls) "".
Proof.
  intros Hl Hr Hm. induction lines as [|es lines IH]; [done|].
  cbn [forallb map concat_strings app] in Hl |- *. apply andb_true_iff in Hl as [Hes Hl].
  pose proof Hes as [[_ [Hf Hc]%andb_true_iff]%andb_true_iff Hd%negb_true_iff]%andb_true_iff.
  unfold render_line at 1. rewrite <- !append_assoc.
  assert (query_line_text (render_line es) = make_line (print_elements es) newline) as ->
    by (unfold make_line; by rewrite Hd).
  apply read_line; [done..| |by apply IH]. rewrite nul_free_app, nul_free_lines by done. done.
Qed.

Lemma read_lines qs :
  forallb source_wf qs = true ->
  many line_def true (render qs) (List.concat (map query_lines qs)) "".
Proof.
  induction qs as [|q qs IH]; intros Hqs.
  - constructor. destruct (parse line_def true "") as [[l r]|] eqn:Hp; [|done].
    apply line_consumes in Hp. cbn in Hp. lia.
  - cbn [forallb] in Hqs. apply andb_true_iff in Hqs as [Hq Hqs].
    destruct (plain_name q Hq) as (Hn & Hc & _). pose proof Hq as [_ Hl]%andb_true_iff.
    unfold render. cbn [map concat_strings List.concat]. unfold query_lines, render_query, header_line.
    rewrite (append_assoc "-- name: "), <- !append_assoc, (append_assoc "-- name: ").
    assert (query_line_comment ("-- name: " +:+ sq_name q +:+ newline) =
            make_line ("-- name: " +:+ sq_name q) newline) as -> by (by rewrite append_assoc).
    apply read_line.
    + by rewrite nul_free_app, Hn.
    + by rewrite all_chars_app, Hc.
    + rewrite nul_free_app, nul_free_lines by done. by apply nul_free_render.
    + apply read_body; [done | by apply nul_free_render | by apply IH].
Qed.

Lemma header_of q : source_wf q = true ->
  header_parser ("-- name: " +:+ sq_name q +:+ newline) = Some (sq_name q).
Proof.
  intros Hq. destruct (plain_name q Hq) as (Hn & Hc & Hne & Hs).
  apply header_grammar_correct; [by rewrite !nul_free_app, Hn|].
  exists " ", "", " ", newline. split_and!; try done. by right.
Qed.

Lemma body_of lines :
  forallb line_wf lines = true ->
  body header_parser text_parser (map (fun es => query_line_text (render_line es)) lines)
    (List.concat (map end_line lines)).
Proof.
  induction lines as [|es lines IH]; [constructor|]. cbn [forallb map List.concat].
  intros [Hes Hl]%andb_true_iff. constructor; [|by apply IH].
  pose proof Hes as [[Hw [Hf _]%andb_true_iff]%andb_true_iff _]%andb_true_iff.
  apply text_grammar_iff; [unfold render_line; by rewrite nul_free_app, Hf|].
  split; [apply print_end_line | by apply wf_end_line].
Qed.

(** C8. What an author writes is what the library reads: the text of a
    configuration, with a header for every query and its lines below, is read back
    as the queries with their names and the elements of their lines, each line
    keeping its end. *)
Theorem query_conf_roundtrip qs :
  forallb source_wf qs = true ->
  parse_query_conf conf_parser header_parser text_parser (render qs) = Ok (map parsed_of qs).
Proof.
  intros Hqs. pose proof (nul_free_render qs Hqs) as Hf. pose proof (read_lines qs Hqs) as Hm.
  unfold parse_query_conf, parse_query_conf_lines.
  assert (conf_parser (render qs) = Some (List.concat (map query_lines qs))) as ->.
  { unfold conf_parser, phrase_parse, conf_def. rewrite parse_action, parse_seq.
    apply (kleene_many _ _ _ _ _ line_consumes) in Hm. rewrite Hm. cbn [mbind option_bind].
    by rewrite parse_eoi_free. }
  cbn [mbind outcome_bind]. apply elements_iff. exists [], (List.concat (map query_lines qs)).
  split; [done|]. split; [constructor|]. clear Hf Hm.
  induction qs as [|q qs IH]; [constructor|]. cbn [forallb] in Hqs. apply andb_true_iff in Hqs as [Hq Hqs].
  cbn [map List.concat]. unfold query_lines at 1. apply (sections_cons _ _ _ (sq_name q));
    [by apply header_of | | by apply IH]. apply body_of. by apply andb_true_iff in Hq as [_ ?].
Qed.

End Laws.

Definition sample_source : list source_query :=
  [{| sq_name := "users of an age";
      sq_lines := [[query_text_part "SELECT id::text FROM users"];
                   [query_text_part "WHERE age > "; query_parameter_name "age"]] |};
   {| sq_name := "now"; sq_lines := [[query_text_part "SELECT now()"]] |}].

Lemma query_conf_roundtrip_witness :
  forallb source_wf sample_source = true /\
  parse_query_conf conf_parser header_parser text_parser (render sample_source) =
    Ok (map parsed_of sample_source).
Proof.
  assert (forallb source_wf sample_source = true) as H by (vm_compute; reflexivity).
  split; [exact H|]. exact (query_conf_roundtrip sample_source H).
Defined.

Lemma lines_grammar_total_witness :
  let s := "-- name: now" +:+ newline +:+ "SELECT now()" in
  nul_free s = true /\
  exists ls, conf_parser s = Some ls /\ concat_strings (map line_value ls) = s /\ lines_ok ls.
Proof.
  split; [vm_compute; reflexivity|]. apply lines_grammar_total. vm_compute. reflexivity.
Defined.

End QueryLines.
