(* ===== verification/RequestOidMap.v ===== *)
(** The request for the OIDs of custom types:
    [src/include/bozo/impl/request_oid_map.h].

    When a connection that has types in its OID map is established, the names of
    the types are sent to the server and the OIDs it answers with are stored in
    the map. *)

From S2P Require Import Prelude ErrorCode Errors PgTypes TypeSystem BinaryIO BinaryQuery QueryBuilder.
From Stdlib Require Import ZArith Lia List String.
From stdpp Require Import base tactics list strings.

Open Scope string_scope.
Open Scope Z_scope.

Module RequestOidMap.

Import PgTypes TypeSystem BinaryIO BinaryQuery QueryBuilder.

(** [get_types_names]: the names of the keys, in order. *)
Definition get_types_names (m : oid_map) : list string :=
  map (fun key => match type_name key with Some n => n | None => "" end) (m.*1).

Definition make_oids_query (m : oid_map) : query_builder :=
  let names := get_types_names m in
  plus_builder
    (plus_param (sql "SELECT COALESCE(to_regtype(f)::oid, 0) AS oid FROM UNNEST(")
       (c_array (std_array (List.length names)) (c_prim p_text),
        VList (map (fun n => VBytes (bytes_of_string n)) names)))
    (sql ") AS f").

(** The loop of [set_oid_map] over the keys: the assignments made before an
    exception stay. *)
Fixpoint set_oids (m : oid_map) (keys : list ctype) (res : list Z) : oid_map * outcome exn unit :=
  match keys, res with
  | key :: keys, oid :: res =>
      if oid =? null_oid then (m, Throw ex_invalid_argument)
      else set_oids (set_type_oid m key oid) keys res
  | _, _ => (m, Ok tt)
  end.

Definition set_oid_map (m : oid_map) (res : list Z) : oid_map * outcome exn unit :=
  if negb (List.length m =? List.length res)%nat then (m, Throw ex_length_error)
  else set_oids m (m.*1) res.

(** [request_oid_map_op::operator()]: the error the handler gets and the map of the
    connection, given the error of the request and the rows received. *)
Definition request_oid_map_done (ec : error_code) (m : oid_map) (res : list Z) : error_code * oid_map :=
  if is_error ec then (ec, m) else
  match set_oid_map m res with
  | (m, Ok _) => (ec, m)
  | (m, Throw _) => (error.make_error_code error.oid_request_failed, m)
  end.

(** ** Lemmas *)

(** The keys of a Hana map are different; each is a custom type. *)
Definition registered (m : oid_map) : Prop :=
  NoDup (m.*1) /\ Forall (fun key => built_in key = false /\ unwrap_type key = key) (m.*1).

Lemma set_oids_keys m keys res : (fst (set_oids m keys res)).*1 = m.*1.
Proof.
  revert m res. induction keys as [|key keys IH]; intros m [|oid res]; try done.
  cbn. destruct (oid =? null_oid); [done|]. by rewrite IH, set_type_oid_keys.
Qed.

Lemma set_oids_other m keys res key :
  key ∉ keys -> find_oid (fst (set_oids m keys res)) key = find_oid m key.
Proof.
  revert m res. induction keys as [|k keys IH]; intros m [|oid res] Hk; try done.
  apply not_elem_of_cons in Hk as [Hne Hk]. cbn. destruct (oid =? null_oid); [done|].
  rewrite IH by done. by apply find_oid_set_ne.
Qed.

Lemma set_oids_ok m keys res :
  List.length keys = List.length res ->
  snd (set_oids m keys res) = Ok tt <-> Forall (fun oid => oid <> null_oid) res.
Proof.
  revert m res. induction keys as [|k keys IH]; intros m [|oid res] Hl; try discriminate.
  - split; [constructor | done].
  - cbn. destruct (Z.eqb_spec oid null_oid) as [->|Hne].
    + split; [discriminate|]. intros H. by inversion H.
    + rewrite IH by (cbn in Hl; lia). split; [by constructor | intros H; by inversion H].
Qed.

Lemma set_oids_find m keys res i key oid :
  NoDup keys -> (forall k, k ∈ keys -> k ∈ m.*1) -> snd (set_oids m keys res) = Ok tt ->
  keys !! i = Some key -> res !! i = Some oid ->
  find_oid (fst (set_oids m keys res)) key = Some oid.
Proof.
  revert m res i. induction keys as [|k keys IH]; intros m [|o res] i Hnd Hin Hok Hk Ho;
    try (by rewrite lookup_nil in *).
  cbn in Hok |- *. destruct (o =? null_oid); [discriminate|].
  apply NoDup_cons in Hnd as [Hnk Hnd]. destruct i as [|i]; cbn in Hk, Ho.
  - simplify_eq. rewrite set_oids_other by done. apply find_oid_set_eq, Hin. left.
  - apply (IH _ _ i); try done. intros k' Hk'. rewrite set_type_oid_keys. apply Hin. by right.
Qed.

Lemma type_oid_found m key oid :
  built_in key = false -> unwrap_type key = key -> find_oid m key = Some oid -> type_oid m key = oid.
Proof.
  unfold built_in, type_oid. intros Hb -> ->.
  by destruct (type_traits key) as [[n [o|] s]|].
Qed.

(** C36. The request for OIDs succeeds exactly when the server answered one OID for
    every type and none of them is the null OID; then every registered type has
    the OID of its row, and otherwise the handler gets [oid_request_failed]. *)
Theorem oids_stored ec m res :
  is_error ec = false -> registered m ->
  (List.length res = List.length m /\ Forall (fun oid => oid <> null_oid) res /\
   exists m', request_oid_map_done ec m res = (ec, m') /\ m'.*1 = m.*1 /\
     forall i key oid, m.*1 !! i = Some key -> res !! i = Some oid -> type_oid m' key = oid) \/
  (~ (List.length res = List.length m /\ Forall (fun oid => oid <> null_oid) res) /\
   fst (request_oid_map_done ec m res) = error.make_error_code error.oid_request_failed).
Proof.
  intros He [Hnd Hcustom]. unfold request_oid_map_done, set_oid_map. rewrite He.
  destruct (Nat.eqb_spec (List.length m) (List.length res)) as [Hl|Hl]; cbn [negb].
  2: { right. split; [intros [? _]; congruence | done]. }
  assert (List.length (m.*1) = List.length res) as Hl' by by rewrite length_fmap.
  pose proof (set_oids_ok m (m.*1) res Hl') as Hok.
  pose proof (set_oids_keys m (m.*1) res) as Hkeys.
  pose proof (set_oids_find m (m.*1) res) as Hfind.
  destruct (set_oids m (m.*1) res) as [m' [[]|e]]; cbn [fst snd] in *.
  - left. split; [done|]. split; [by apply Hok|]. exists m'. repeat split; [done|].
    intros i key oid Hk Ho. rewrite Forall_lookup in Hcustom.
    destruct (Hcustom _ _ Hk) as [Hb Hu]. by apply type_oid_found, (Hfind i).
  - right. split; [|done]. intros [_ Hall]. by apply Hok in Hall.
Qed.

Definition sample_map : oid_map :=
  register_types [c_prim p_ltree; c_struct "code.message" dynamic_size [c_prim p_int8]].

Lemma oids_stored_witness :
  let res := [16400; 16401] in
  (List.length res = List.length sample_map /\ Forall (fun oid => oid <> null_oid) res /\
   exists m', request_oid_map_done no_error sample_map res = (no_error, m') /\ m'.*1 = sample_map.*1 /\
     forall i key oid, sample_map.*1 !! i = Some key -> res !! i = Some oid -> type_oid m' key = oid) \/
  (~ (List.length res = List.length sample_map /\ Forall (fun oid => oid <> null_oid) res) /\
   fst (request_oid_map_done no_error sample_map res) = error.make_error_code error.oid_request_failed).
Proof.
  intros res. apply (oids_stored no_error sample_map res); [reflexivity|]. split.
  - apply NoDup_cons. split; [|apply NoDup_cons; split; [|constructor]]; vm_compute.
    + intros H. apply elem_of_cons in H as [H|H]; [discriminate H|]. by apply not_elem_of_nil in H.
    + apply not_elem_of_nil.
  - repeat constructor; vm_compute; done.
Defined.

(** The text of the request has one placeholder, for the array of the names. *)
Example oids_query_text :
  builder_text (make_oids_query sample_map) =
  "SELECT COALESCE(to_regtype(f)::oid, 0) AS oid FROM UNNEST($1) AS f" /\
  get_types_names sample_map = ["ltree"; "code.message"].
Proof. split; vm_compute; reflexivity. Qed.

End RequestOidMap.
