(* ===== verification/Result.v ===== *)
(** Results: [src/include/bozo/result.h], [src/include/bozo/impl/result.h], and
    the functions of [src/include/bozo/io/recv.h] that receive values, rows and
    whole results.

    A [PGresult] of libpq is anything that has the accessors of libpq
    ([PGresult_ops]) with their documented behaviour ([PGresult_laws]).  A value, a
    row and an iterator are coordinates into it. *)

From S2P Require Import Prelude ErrorCode Errors Endian Streams PgTypes TypeSystem Chrono.
From S2P Require Import BinaryIO BinaryRecv.
From Stdlib Require Import ZArith Lia List String Strings.Byte.
From stdpp Require Import base tactics list strings.

Open Scope string_scope.
Open Scope Z_scope.

(** The accessors of libpq. [PQgetvalue] and [PQgetlength] are one function, the
    bytes of the value. *)
Class PGresult_ops (R : Type) := {
  PQntuples : R -> nat;
  PQnfields : R -> nat;
  PQftype : R -> Z -> Z;
  PQfformat : R -> Z -> Z;
  PQfnumber : R -> string -> Z;
  PQgetvalue : R -> Z -> Z -> list byte;
  PQgetisnull : R -> Z -> Z -> bool;
}.

(** [PQfnumber]: "-1 is returned if the given name does not match any column";
    the counts are [int]s; the length of a value is an [int]. *)
Class PGresult_laws (R : Type) `{PGresult_ops R} := {
  PQfnumber_range : forall (r : R) n, PQfnumber r n = -1 \/ 0 <= PQfnumber r n < Z.of_nat (PQnfields r);
  PQntuples_range : forall r : R, Z.of_nat (PQntuples r) <= INT32_MAX;
  PQnfields_range : forall r : R, Z.of_nat (PQnfields r) <= INT32_MAX;
  PQgetlength_range : forall (r : R) i j, Z.of_nat (List.length (PQgetvalue r i j)) <= INT32_MAX;
}.

Module Result.

Import Endian Streams PgTypes TypeSystem BinaryIO.

Section Result.
Context {R : Type} `{PGresult_ops R}.

(** [value::coordinates]. *)
Record coordinates := mk_coordinates { res : R; row_ : Z; col_ : Z }.

(** *** [value] *)

Definition value_oid (v : coordinates) : Z := PQftype (res v) (col_ v).
Definition is_text (v : coordinates) : bool := PQfformat (res v) (col_ v) =? 0.
Definition is_binary (v : coordinates) : bool := PQfformat (res v) (col_ v) =? 1.
Definition data (v : coordinates) : list byte := PQgetvalue (res v) (row_ v) (col_ v).
Definition value_size (v : coordinates) : Z := Z.of_nat (List.length (data v)).
Definition value_is_null (v : coordinates) : bool := PQgetisnull (res v) (row_ v) (col_ v).

(** *** [row], an iterator over it being the coordinates it points to *)

Definition row_begin (r : coordinates) : coordinates := r.
Definition row_size (r : coordinates) : nat := PQnfields (res r).
Definition row_advance (r : coordinates) (n : Z) : coordinates :=
  mk_coordinates (res r) (row_ r) (col_ r + n).
Definition row_end (r : coordinates) : coordinates := row_advance (row_begin r) (Z.of_nat (row_size r)).
Definition row_index (r : coordinates) (index : Z) : coordinates := row_advance (row_begin r) index.

Definition row_find (r : coordinates) (name : string) : coordinates :=
  let i := PQfnumber (res r) name in
  if i =? -1 then row_end r else row_advance (row_begin r) i.

(** [i == in.end()] for an iterator of the row. *)
Definition is_row_end (r i : coordinates) : bool :=
  (col_ i =? col_ (row_end r)) && (row_ i =? row_ (row_end r)).

Definition row_at (r : coordinates) (index : Z) : outcome stop coordinates :=
  if (index <? 0) || (Z.of_nat (row_size r) <=? index) then raise ex_out_of_range
  else Ok (row_index r index).

Definition row_at_name (r : coordinates) (name : string) : outcome stop coordinates :=
  let i := row_find r name in
  if is_row_end r i then raise ex_out_of_range else Ok i.

(** *** [basic_result] *)

Definition result_size (r : R) : nat := PQntuples r.
Definition result_begin (r : R) : coordinates := mk_coordinates r 0 0.
Definition result_index (r : R) (i : Z) : coordinates :=
  mk_coordinates r (0 + i) 0.
Definition result_at (r : R) (i : Z) : outcome stop coordinates :=
  if (i <? 0) || (Z.of_nat (result_size r) <=? i) then raise ex_out_of_range
  else Ok (result_index r i).

(** The rows a range loop visits. *)
Definition result_rows (r : R) : list coordinates :=
  map (fun i => result_index r (Z.of_nat i)) (seq 0 (result_size r)).

(** *** Receiving *)

Section Receive.
Context (native : endian) (ticks : Z) (m : oid_map).

(** [recv(const value<T>&, oids, out)]. *)
Definition recv_value (v : coordinates) (t : ctype) (out : value) : outcome stop value :=
  let size := if value_is_null v then null_state_size else wrapS 32 (value_size v) in
  '(w, _) ← recv native ticks m t (Some (value_oid v)) size (istream_open (data v)) out;
  Ok w.

(** The kinds of objects a row is received into. *)
Inductive row_type : Set :=
| single (t : ctype)
| sequence (ts : list ctype)
| structure (members : list (string * ctype)).

(** The columns of a sequence, in order. *)
Fixpoint recv_columns (i : coordinates) (ts : list ctype) (outs : list value) :
  outcome stop (list value) :=
  match ts, outs with
  | t :: ts, out :: outs =>
      v ← recv_value i t out;
      vs ← recv_columns (row_advance i 1) ts outs;
      Ok (v :: vs)
  | _, _ => Ok []
  end.

(** The columns of a structure, by the names of its members. *)
Fixpoint recv_named (r : coordinates) (members : list (string * ctype)) (outs : list value) :
  outcome stop (list value) :=
  match members, outs with
  | (name, t) :: members, out :: outs =>
      let i := row_find r name in
      if is_row_end r i then raise ex_range_error else
      v ← recv_value i t out;
      vs ← recv_named r members outs;
      Ok (v :: vs)
  | _, _ => Ok []
  end.

Definition recv_row (r : coordinates) (t : row_type) (out : value) : outcome stop value :=
  match t, out with
  | single t, _ =>
      if negb (row_size r =? 1)%nat then raise ex_range_error
      else recv_value (row_begin r) t out
  | sequence ts, VList outs =>
      if negb (List.length ts =? row_size r)%nat then raise ex_range_error
      else VList <$> recv_columns (row_begin r) ts outs
  | structure members, VList outs =>
      if negb (List.length members =? row_size r)%nat then raise ex_range_error
      else VList <$> recv_named r members outs
  | _, _ => Throw undefined
  end.

Definition row_default (t : row_type) : value :=
  match t with
  | single t => default_value t
  | sequence ts => VList (map default_value ts)
  | structure members => VList (map (fun p => default_value (snd p)) members)
  end.

(** [recv_result] with an insert iterator: the rows are appended one by one; what
    was appended before an exception stays. *)
Fixpoint insert_rows (rows : list coordinates) (t : row_type) (out : list value) :
  list value * outcome stop unit :=
  match rows with
  | [] => (out, Ok tt)
  | r :: rows =>
      match recv_row r t (row_default t) with
      | Ok v => insert_rows rows t (out ++ [v])%list
      | Throw e => (out, Throw e)
      end
  end.

Definition recv_result_insert (r : R) (t : row_type) (out : list value) :
  list value * outcome stop unit := insert_rows (result_rows r) t out.

(** [recv_result] with a forward iterator: the rows are received into the objects
    of a range, which has to be long enough. *)
Fixpoint assign_rows (rows : list coordinates) (t : row_type) (out : list value) :
  outcome stop (list value) :=
  match rows, out with
  | [], _ => Ok out
  | r :: rows, v :: out => v ← recv_row r t v; out ← assign_rows rows t out; Ok (v :: out)
  | _ :: _, [] => Throw undefined
  end.

Definition recv_result_forward (r : R) (t : row_type) (out : list value) :
  outcome stop (list value) := assign_rows (result_rows r) t out.
End Receive.
End Result.

Arguments coordinates R : clear implicits.

(** ** Lemmas *)

Section ResultLemmas.
Context {R : Type} `{PGresult_laws R} (native : endian) (ticks : Z) (m : oid_map).

Lemma is_row_end_find (r : coordinates R) name :
  is_row_end r (row_find r name) = (PQfnumber (res r) name =? -1).
Proof.
  unfold is_row_end, row_find. pose proof (PQfnumber_range (res r) name) as Hr.
  destruct (Z.eqb_spec (PQfnumber (res r) name) (-1)) as [Hz|Hz].
  - by rewrite !Z.eqb_refl.
  - unfold row_end, row_advance, row_begin, row_size. cbn.
    destruct (Z.eqb_spec (col_ r + PQfnumber (res r) name) (col_ r + Z.of_nat (PQnfields (res r))));
      [lia|done].
Qed.

Lemma recv_columns_spec i ts outs vs :
  List.length ts = List.length outs -> recv_columns (R:=R) native ticks m i ts outs = Ok vs ->
  List.length vs = List.length ts /\
  forall k t out, ts !! k = Some t -> outs !! k = Some out ->
    exists v, vs !! k = Some v /\
      recv_value native ticks m (row_advance i (Z.of_nat k)) t out = Ok v.
Proof.
  revert i outs vs. induction ts as [|t ts IH]; intros i [|out outs] vs Hl Hr; try discriminate.
  - injection Hr as <-. by split.
  - cbn [recv_columns] in Hr. outcome_inv. subst vs. cbn in Hl. injection Hl as Hl.
    apply (IH _ _ _ Hl) in Hr1 as [Hlen Hk]. split; [cbn; by rewrite Hlen|].
    intros [|k] t' out' Ht Ho; cbn in Ht, Ho.
    + simplify_eq. exists r. split; [done|]. rewrite <- Hr0. f_equal.
      unfold row_advance. destruct i. cbn. f_equal. lia.
    + destruct (Hk k t' out' Ht Ho) as (v & Hv & Hrv). exists v. split; [done|].
      rewrite <- Hrv. f_equal. unfold row_advance. cbn. f_equal. lia.
Qed.

Lemma recv_named_spec r members outs vs :
  List.length members = List.length outs ->
  recv_named (R:=R) native ticks m r members outs = Ok vs ->
  List.length vs = List.length members /\
  forall k name t out, members !! k = Some (name, t) -> outs !! k = Some out ->
    PQfnumber (res r) name <> -1 /\
    exists v, vs !! k = Some v /\
      recv_value native ticks m (row_index r (PQfnumber (res r) name)) t out = Ok v.
Proof.
  revert outs vs. induction members as [|[name t] members IH]; intros [|out outs] vs Hl Hr;
    try discriminate.
  - injection Hr as <-. by split.
  - cbn [recv_named] in Hr. rewrite is_row_end_find in Hr.
    destruct (Z.eqb_spec (PQfnumber (res r) name) (-1)) as [|Hne]; [discriminate|]. outcome_inv.
    subst vs. cbn in Hl. injection Hl as Hl. apply (IH _ _ Hl) in Hr1 as [Hlen Hk].
    split; [cbn; by rewrite Hlen|]. intros [|k] name' t' out' Hm Ho; cbn in Hm, Ho; [|by eapply Hk].
    simplify_eq. split; [done|]. eexists. split; [reflexivity|]. rewrite <- Hr0. f_equal.
    unfold row_find. by rewrite (proj2 (Z.eqb_neq _ _) Hne).
Qed.

Lemma insert_rows_spec rows t out out' :
  insert_rows (R:=R) native ticks m rows t out = (out', Ok tt) ->
  exists vs, out' = (out ++ vs)%list /\
    Forall2 (fun r v => recv_row native ticks m r t (row_default t) = Ok v) rows vs.
Proof.
  revert out. induction rows as [|r rows IH]; intros out; cbn [insert_rows].
  - intros [= <-]. exists []. by rewrite app_nil_r.
  - destruct (recv_row native ticks m r t (row_default t)) as [v|] eqn:Hv; [|discriminate].
    intros (vs & -> & Hall)%IH. exists (v :: vs). rewrite <- app_assoc. split; [done|]. by constructor.
Qed.
End ResultLemmas.

(** ** A result *)

(** Two rows of the columns [name] and [id]; the second name is null. *)
Definition sample_value (i j : Z) : list byte :=
  if j =? 0 then (if i =? 0 then [x61; x62] else []) else [x00; x00; x00; byte_of (i + 1)].

#[global] Instance sample_ops : PGresult_ops unit := {
  PQntuples _ := 2%nat;
  PQnfields _ := 2%nat;
  PQftype _ j := if j =? 0 then 25 else 23;
  PQfformat _ _ := 1;
  PQfnumber _ n := if String.eqb n "name" then 0 else if String.eqb n "id" then 1 else -1;
  PQgetvalue _ := sample_value;
  PQgetisnull _ i j := (i =? 1) && (j =? 0);
}.

#[global] Instance sample_laws : PGresult_laws unit.
Proof.
  split; try (intros; cbn; unfold INT32_MAX; lia).
  - intros r n. cbn. repeat case_match; lia.
  - intros r i j. cbn. unfold sample_value. repeat case_match; cbn; unfold INT32_MAX; lia.
Qed.

Definition sample_type : row_type :=
  structure [("id", c_prim p_int4); ("name", c_nullable std_optional (c_prim p_text))].

(** ** Properties *)

Section Properties.
Context {R : Type} `{PGresult_laws R} (native : endian) (ticks : Z) (m : oid_map).

(** C35. A row is received into a structure by the names of its members: when the
    row is received it has as many columns as the structure has members, there is
    a column for every member, and the member holds the value of that column,
    whatever the order of the columns is. *)
Theorem structure_row_by_name (r : coordinates R) members outs v :
  List.length members = List.length outs ->
  recv_row native ticks m r (structure members) (VList outs) = Ok v ->
  List.length members = PQnfields (res r) /\
  exists vs, v = VList vs /\ List.length vs = List.length members /\
    forall k name t out, members !! k = Some (name, t) -> outs !! k = Some out ->
      PQfnumber (res r) name <> -1 /\
      exists w, vs !! k = Some w /\
        recv_value native ticks m (row_index r (PQfnumber (res r) name)) t out = Ok w.
Proof.
  intros Hl Hr. cbn [recv_row] in Hr.
  destruct (Nat.eqb_spec (List.length members) (row_size r)) as [Hn|]; [|discriminate].
  cbn [negb] in Hr. split; [done|].
  destruct (recv_named native ticks m r members outs) as [vs|] eqn:Hv; [|discriminate].
  injection Hr as <-. exists vs. split; [done|]. by apply recv_named_spec.
Qed.

(** A result received through an insert iterator appends one value for each
    of its rows, in the order of the rows, and keeps what the container held. *)
Theorem result_appended_in_order (r : R) t out out' :
  recv_result_insert native ticks m r t out = (out', Ok tt) ->
  exists vs, out' = (out ++ vs)%list /\ List.length vs = PQntuples r /\
    forall i v, vs !! i = Some v ->
      recv_row native ticks m (mk_coordinates r (Z.of_nat i) 0) t (row_default t) = Ok v.
Proof.
  intros (vs & -> & Hall)%insert_rows_spec. exists vs. split; [done|].
  pose proof (Forall2_length _ _ _ Hall) as Hlen. unfold result_rows in Hlen.
  rewrite length_map, length_seq in Hlen. split; [done|].
  intros i v Hv. destruct (Forall2_lookup_r _ _ _ _ _ Hall Hv) as (row & Hrow & Hr).
  unfold result_rows in Hrow. change (map ?f ?l) with (f <$> l) in Hrow.
  rewrite list_lookup_fmap in Hrow.
  destruct (seq 0 (result_size r) !! i) as [j|] eqn:Hj; [|discriminate].
  apply lookup_seq in Hj as [-> _]. injection Hrow as <-. exact Hr.
Qed.
End Properties.

Lemma structure_row_by_name_witness :
  let r := mk_coordinates tt 0 0 in
  let members := [("id", c_prim p_int4); ("name", c_nullable std_optional (c_prim p_text))] in
  let outs := [VInt 0; VNull] in
  let v := VList [VInt 1; VSome (VBytes [x61; x62])] in
  List.length members = PQnfields (res r) /\
  exists vs, v = VList vs /\ List.length vs = List.length members /\
    forall k name t out, members !! k = Some (name, t) -> outs !! k = Some out ->
      PQfnumber (res r) name <> -1 /\
      exists w, vs !! k = Some w /\
        recv_value little 1000 [] (row_index r (PQfnumber (res r) name)) t out = Ok w.
Proof.
  intros r members outs v.
  apply (structure_row_by_name little 1000 [] r members outs v); vm_compute; reflexivity.
Defined.

Lemma result_appended_in_order_witness :
  let out := [VBool true] in
  let out' := [VBool true; VList [VInt 1; VSome (VBytes [x61; x62])]; VList [VInt 2; VNull]] in
  exists vs, out' = (out ++ vs)%list /\ List.length vs = PQntuples tt /\
    forall i v, vs !! i = Some v ->
      recv_row little 1000 [] (mk_coordinates tt (Z.of_nat i) 0) sample_type (row_default sample_type) = Ok v.
Proof.
  intros out out'.
  apply (result_appended_in_order little 1000 [] tt sample_type out out'). vm_compute. reflexivity.
Defined.

End Result.
