(* ===== verification/Deadline.v ===== *)
(** Time constraints: [src/include/bozo/deadline.h],
    [src/include/bozo/time_traits.h] and the time-out of a connection provider,
    [bind_get_connection_timeout] of [src/include/bozo/connector.h].

    A time point is the count of the steady clock since its epoch, a duration a
    count of the same ticks, both 64 bits wide; [None] is the result of an
    operation that overflows. *)

From S2P Require Import Prelude Chrono.
From Stdlib Require Import ZArith Lia.
From stdpp Require Import base tactics.

Open Scope Z_scope.

Module Deadline.

Import Chrono.

(** [time_point::max()]. *)
Definition time_max : Z := INT64_MAX.

(** [deadline(duration, now)]. *)
Definition deadline (after now : Z) : option Z :=
  if after <? 0 then Some now else
  room ← sub64 time_max now;
  if room <? after then Some time_max else add64 now after.

(** [time_left(t, now)] and [expired(t, now)]. *)
Definition time_left (t now : Z) : option Z := if now <? t then sub64 t now else Some 0.

Definition expired (t now : Z) : option bool := d ← time_left t now; Some (d =? 0).

(** The constraints: [none], a duration or a time point. *)
Inductive time_constraint : Set :=
| no_constraint
| after (d : Z)
| until (t : Z).

(** [deadline] of a constraint, [None] being [none]. *)
Definition deadline_of (c : time_constraint) (now : Z) : option (option Z) :=
  match c with
  | no_constraint => Some None
  | after d => Some <$> deadline d now
  | until t => Some (Some t)
  end.

(** [bind_get_connection_timeout::timeout]. *)
Definition provider_timeout (timeout : Z) (c : time_constraint) (now : Z) : option Z :=
  match c with
  | no_constraint => Some timeout
  | until t => l ← time_left t now; Some (Z.min timeout l)
  | after d => Some (Z.min timeout d)
  end.

(** The readings of the steady clock. *)
Definition clock_ok (now : Z) : bool := (0 <=? now) && (now <=? time_max).

Lemma deadline_value d now :
  clock_ok now = true -> in_S 64 d = true ->
  deadline d now = Some (Z.min time_max (now + Z.max 0 d)).
Proof.
  unfold clock_ok, deadline, time_max. rewrite andb_true_iff, !Z.leb_le, in_S64_iff.
  intros [H0 H1] Hd. unfold sub64, add64, INT64_MIN, INT64_MAX in *.
  destruct (Z.ltb_spec d 0); [f_equal; lia|].
  rewrite (checkS_some 64 (_ - now)) by (apply in_S64_iff; unfold INT64_MIN, INT64_MAX; lia). cbn.
  destruct (Z.ltb_spec (9223372036854775807 - now) d); [f_equal; lia|].
  rewrite checkS_some by (apply in_S64_iff; unfold INT64_MIN, INT64_MAX; lia). f_equal. lia.
Qed.

Lemma time_left_value t now :
  clock_ok now = true -> in_S 64 t = true -> time_left t now = Some (Z.max 0 (t - now)).
Proof.
  unfold clock_ok, time_left, time_max, sub64. rewrite andb_true_iff, !Z.leb_le, in_S64_iff.
  unfold INT64_MIN, INT64_MAX. intros [H0 H1] Ht. destruct (Z.ltb_spec now t); [|f_equal; lia].
  rewrite checkS_some; [f_equal; lia|]. apply in_S64_iff; unfold INT64_MIN, INT64_MAX; lia.
Qed.

(** A time-out becomes a deadline without overflow: the deadline of a duration
    is that much later than now, and never earlier than now nor later than the end
    of time; it has expired exactly when the clock has reached it, and until then
    the time left is the difference. *)
Theorem deadline_sound d now later :
  clock_ok now = true -> clock_ok later = true -> in_S 64 d = true ->
  exists t, deadline d now = Some t /\
    t = Z.min time_max (now + Z.max 0 d) /\ now <= t <= time_max /\
    time_left t later = Some (Z.max 0 (t - later)) /\
    expired t later = Some (t <=? later).
Proof.
  intros Hn Hl Hd. eexists. split; [by apply deadline_value|]. split; [done|].
  pose proof Hn as Hn'. unfold clock_ok in Hn'. rewrite andb_true_iff, !Z.leb_le in Hn'.
  assert (in_S 64 (Z.min time_max (now + Z.max 0 d)) = true) as Ht.
  { apply in_S64_iff. unfold time_max, INT64_MIN, INT64_MAX in *. lia. }
  split; [lia|]. split; [by apply time_left_value|].
  unfold expired. rewrite time_left_value by done. cbn. f_equal.
  set (t := Z.min _ _). destruct (Z.leb_spec t later), (Z.eqb_spec (Z.max 0 (t - later)) 0); lia.
Qed.

Lemma deadline_sound_witness :
  exists t, deadline INT64_MAX 5 = Some t /\ t = Z.min time_max (5 + Z.max 0 INT64_MAX) /\
    5 <= t <= time_max /\ time_left t 7 = Some (Z.max 0 (t - 7)) /\ expired t 7 = Some (t <=? 7).
Proof. apply (deadline_sound INT64_MAX 5 7); reflexivity. Defined.

(** A provider with a time-out never waits longer than its time-out nor, when
    the operation has a deadline, longer than the time that is left to it. *)
Theorem provider_timeout_bounds timeout c now :
  clock_ok now = true -> match c with until t => in_S 64 t = true | _ => True end ->
  exists d, provider_timeout timeout c now = Some d /\ d <= timeout /\
    match c with
    | no_constraint => d = timeout
    | after x => d <= x
    | until t => d <= Z.max 0 (t - now)
    end.
Proof.
  intros Hn Hc. destruct c as [|x|t]; cbn [provider_timeout].
  - exists timeout. split; [done|]. lia.
  - eexists. split; [done|]. lia.
  - rewrite time_left_value by done. eexists. split; [done|]. lia.
Qed.

Lemma provider_timeout_bounds_witness :
  exists d, provider_timeout 10 (until 8) 5 = Some d /\ d <= 10 /\ d <= Z.max 0 (8 - 5).
Proof. apply (provider_timeout_bounds 10 (until 8) 5); reflexivity. Defined.

End Deadline.
