(* ===== verification/Cancel.v ===== *)
(** Waiting with a time limit: [io_deadline_handler] of
    [src/include/bozo/detail/deadline.h], and the cancellation of an operation,
    [src/include/bozo/impl/cancel.h].

    In both an operation and a timer are started together, and each ends in a
    call of its own handler.  The two handlers share a context; which of them comes
    first is decided by one atomic decrement.  Both are modelled as step relations
    in which a handler first decrements and then does the rest, so that the steps
    of the two may interleave in any way. *)

From S2P Require Import Prelude ErrorCode Errors.
From Stdlib Require Import ZArith Lia List String Ascii.
From stdpp Require Import base tactics list strings relations.

Open Scope string_scope.
Open Scope Z_scope.

Module Cancel.

(** Where a handler is: not called yet, after the decrement as the first or as the
    second of the two, or done. *)
Inductive progress : Set :=
| waiting | first | second | finished_first | finished_second.

#[global] Instance progress_eq_dec : EqDecision progress.
Proof. solve_decision. Defined.

(** The decrement [--counter] and the branch it is the condition of. *)
Definition decrement (counter : Z) : Z * progress :=
  let c := counter - 1 in (c, if c =? 0 then second else first).

(** ** [io_deadline_handler] *)

Module IoDeadline.
Section IoDeadline.
Context `{Boost} {Result : Type} (initial : Result).

(** The context the two handlers share, the calls made of the user's handler, and
    the cancellations of the timer and of the stream. *)
Record state := mk_state {
  first_call : Z;
  ctx_ec : error_code;
  ctx_result : Result;
  operation : progress;
  timer : progress;
  calls : list (error_code * Result);
  timer_cancelled : bool;
  stream_cancelled : bool;
}.

Definition start : state := mk_state 2 no_error initial waiting waiting [] false false.

(** The operation ends with [ec] and [result]. *)
Definition operation_decrement (s : state) : state :=
  let '(c, p) := decrement (first_call s) in
  mk_state c (ctx_ec s) (ctx_result s) p (timer s) (calls s) (timer_cancelled s) (stream_cancelled s).

Definition operation_first (ec : error_code) (result : Result) (s : state) : state :=
  mk_state (first_call s) ec result finished_first (timer s) (calls s) true (stream_cancelled s).

Definition operation_second (result : Result) (s : state) : state :=
  mk_state (first_call s) (ctx_ec s) (ctx_result s) finished_second (timer s)
    (calls s ++ [(ctx_ec s, result)])%list (timer_cancelled s) (stream_cancelled s).

(** The timer expires or is cancelled. *)
Definition timer_decrement (s : state) : state :=
  let '(c, p) := decrement (first_call s) in
  mk_state c (ctx_ec s) (ctx_result s) (operation s) p (calls s) (timer_cancelled s) (stream_cancelled s).

Definition timer_first (s : state) : state :=
  mk_state (first_call s) (make_asio_error timed_out) (ctx_result s) (operation s) finished_first
    (calls s) (timer_cancelled s) true.

Definition timer_second (s : state) : state :=
  mk_state (first_call s) (ctx_ec s) (ctx_result s) (operation s) finished_second
    (calls s ++ [(ctx_ec s, ctx_result s)])%list (timer_cancelled s) (stream_cancelled s).

(** Any interleaving of the two handlers. *)
Inductive step (ec : error_code) (result : Result) : state -> state -> Prop :=
| step_operation s : operation s = waiting -> step ec result s (operation_decrement s)
| step_operation_first s : operation s = first -> step ec result s (operation_first ec result s)
| step_operation_second s : operation s = second -> step ec result s (operation_second result s)
| step_timer s : timer s = waiting -> step ec result s (timer_decrement s)
| step_timer_first s : timer s = first -> step ec result s (timer_first s)
| step_timer_second s : timer s = second -> step ec result s (timer_second s).

(** The handlers as one step each: the executor they run on does not run two of
    them at a time. *)
Definition run_operation (ec : error_code) (result : Result) (s : state) : state :=
  let s := operation_decrement s in
  match operation s with first => operation_first ec result s | _ => operation_second result s end.

Definition run_timer (s : state) : state :=
  let s := timer_decrement s in
  match timer s with first => timer_first s | _ => timer_second s end.

(** The counter says how many of the handlers have decremented it, exactly one of
    them being the first; the calls are those of the second one. *)
Definition turn (p : progress) : Z :=
  match p with waiting => 0 | first | finished_first => 1 | second | finished_second => 2 end.

Definition finished (p : progress) : bool :=
  match p with finished_first | finished_second => true | _ => false end.

Definition calls_of (p : progress) : nat := match p with finished_second => 1 | _ => 0 end.

Definition turns_ok (o t : Z) : bool :=
  match o, t with 0, 0 | 1, 0 | 0, 1 | 1, 2 | 2, 1 => true | _, _ => false end.

Definition invariant (s : state) : Prop :=
  turns_ok (turn (operation s)) (turn (timer s)) = true /\
  first_call s = 2 - Z.min 1 (turn (operation s)) - Z.min 1 (turn (timer s)) /\
  length (calls s) = (calls_of (operation s) + calls_of (timer s))%nat.

Lemma io_start_invariant : invariant start.
Proof. done. Qed.

Lemma io_step_invariant ec result s s' : step ec result s s' -> invariant s -> invariant s'.
Proof.
  unfold invariant. destruct 1 as [s Ho|s Ho|s Ho|s Ht|s Ht|s Ht]; destruct s as [c e r o t ca tc sc];
    cbn in *; subst.
  - destruct t; cbn; intros (H1 & -> & H3); cbn; try discriminate; cbn; auto.
  - destruct t; cbn; intros (H1 & H2 & H3); try discriminate; auto.
  - rewrite length_app. destruct t; cbn; intros (H1 & H2 & H3); try discriminate; rewrite H3; auto.
  - destruct o; cbn; intros (H1 & -> & H3); cbn; try discriminate; cbn; auto.
  - destruct o; cbn; intros (H1 & H2 & H3); try discriminate; auto.
  - rewrite length_app. destruct o; cbn; intros (H1 & H2 & H3); try discriminate; rewrite H3; auto.
Qed.

Lemma io_reachable_invariant ec result s : rtc (step ec result) start s -> invariant s.
Proof.
  apply (rtc_ind_r invariant); [apply io_start_invariant | intros y z _ Hs Hy].
  by eapply io_step_invariant.
Qed.

(** An operation with a time limit calls its handler exactly once, however the
    end of the operation and the end of the timer interleave: never more than
    once, exactly once when both have come to an end, and until then one of them
    can go on. *)
Theorem io_deadline_calls_once ec result s :
  rtc (step ec result) start s ->
  (length (calls s) <= 1)%nat /\
  (finished (operation s) = true -> finished (timer s) = true -> length (calls s) = 1%nat) /\
  (finished (operation s) && finished (timer s) = false -> exists s', step ec result s s').
Proof.
  intros Hr. apply io_reachable_invariant in Hr as (Ht & _ & ->). repeat split.
  - destruct (operation s), (timer s); cbn in *; (discriminate || lia).
  - destruct (operation s), (timer s); cbn in *; (discriminate || done).
  - intros Hf. destruct (operation s) eqn:Ho; [eexists; by apply step_operation
      | eexists; by apply step_operation_first | eexists; by apply step_operation_second | |];
    (destruct (timer s) eqn:Htm; [eexists; by apply step_timer | eexists; by apply step_timer_first
      | eexists; by apply step_timer_second | discriminate | discriminate]).
Qed.

(** When the executor runs the two handlers one after the other, the handler
    gets the error and the result of the operation if that ended first, and the
    timer is cancelled; if the timer was first, the stream is cancelled and the
    error is [timed_out]. *)
Theorem io_deadline_outcome ec result :
  calls (run_timer (run_operation ec result start)) = [(ec, result)] /\
  timer_cancelled (run_timer (run_operation ec result start)) = true /\
  stream_cancelled (run_timer (run_operation ec result start)) = false /\
  calls (run_operation ec result (run_timer start)) = [(make_asio_error timed_out, result)] /\
  stream_cancelled (run_operation ec result (run_timer start)) = true.
Proof. done. Qed.

(** Without such an executor the second handler may run between the decrement and
    the assignments of the first, and the handler then misses the error. *)
Lemma io_deadline_needs_strand ec result :
  exists s, rtc (step ec result) start s /\ calls s = [(no_error, initial)] /\
    finished (operation s) = true /\ finished (timer s) = true.
Proof.
  exists (operation_first ec result (timer_second (timer_decrement (operation_decrement start)))).
  split; [|done].
  eapply rtc_l; [by apply step_operation|]. eapply rtc_l; [by apply step_timer|].
  eapply rtc_l; [by apply step_timer_second|]. eapply rtc_l; [by apply step_operation_first|].
  apply rtc_refl.
Qed.
End IoDeadline.
End IoDeadline.

Lemma io_deadline_calls_once_witness :
  let s := @IoDeadline.run_timer linux_boost Z
             (IoDeadline.run_operation no_error 5 (IoDeadline.start 0)) in
  (length (IoDeadline.calls s) <= 1)%nat /\
  (IoDeadline.finished (IoDeadline.operation s) = true ->
   IoDeadline.finished (IoDeadline.timer s) = true -> length (IoDeadline.calls s) = 1%nat) /\
  (IoDeadline.finished (IoDeadline.operation s) && IoDeadline.finished (IoDeadline.timer s) = false ->
   exists s', @IoDeadline.step linux_boost Z no_error 5 s s').
Proof.
  apply (@IoDeadline.io_deadline_calls_once linux_boost Z 0 no_error 5).
  eapply rtc_l; [by apply IoDeadline.step_operation|].
  eapply rtc_l; [by apply IoDeadline.step_operation_first|].
  eapply rtc_l; [by apply IoDeadline.step_timer|].
  eapply rtc_l; [by apply IoDeadline.step_timer_second|]. apply rtc_refl.
Defined.

(** ** [deadline_cancel_handler] *)

(** Here the first of the two calls the handler, and the second does nothing. *)
Module CancelDeadline.
Section CancelDeadline.
Context `{Boost}.

Record state := mk_state {
  state_ : Z;
  operation : progress;
  timer : progress;
  calls : list (error_code * string);
}.

Definition start : state := mk_state 2 waiting waiting [].

Definition time_out_message : string := "cancel() operation waiting aborted by time-out".

(** [operator()(ec, msg)], the decrement and then the call. *)
Definition operation_decrement (s : state) : state :=
  let '(c, p) := decrement (state_ s) in mk_state c p (timer s) (calls s).

Definition operation_call (ec : error_code) (msg : string) (s : state) : state :=
  match operation s with
  | first => mk_state (state_ s) finished_first (timer s) (calls s ++ [(ec, msg)])%list
  | _ => mk_state (state_ s) finished_second (timer s) (calls s)
  end.

(** [on_timer_expired::operator()]. *)
Definition timer_decrement (s : state) : state :=
  let '(c, p) := decrement (state_ s) in mk_state c (operation s) p (calls s).

Definition timer_call (s : state) : state :=
  match timer s with
  | first => mk_state (state_ s) (operation s) finished_first
               (calls s ++ [(make_asio_error timed_out, time_out_message)])%list
  | _ => mk_state (state_ s) (operation s) finished_second (calls s)
  end.

Definition decremented (p : progress) : bool := match p with first | second => true | _ => false end.

Inductive step (ec : error_code) (msg : string) : state -> state -> Prop :=
| step_operation s : operation s = waiting -> step ec msg s (operation_decrement s)
| step_operation_call s : decremented (operation s) = true -> step ec msg s (operation_call ec msg s)
| step_timer s : timer s = waiting -> step ec msg s (timer_decrement s)
| step_timer_call s : decremented (timer s) = true -> step ec msg s (timer_call s).

(** What each handler has called the user's handler with. *)
Definition operation_calls (ec : error_code) (msg : string) (p : progress) : list (error_code * string) :=
  match p with finished_first => [(ec, msg)] | _ => [] end.
Definition timer_calls (p : progress) : list (error_code * string) :=
  match p with finished_first => [(make_asio_error timed_out, time_out_message)] | _ => [] end.

Definition invariant (ec : error_code) (msg : string) (s : state) : Prop :=
  IoDeadline.turns_ok (IoDeadline.turn (operation s)) (IoDeadline.turn (timer s)) = true /\
  state_ s = 2 - Z.min 1 (IoDeadline.turn (operation s)) - Z.min 1 (IoDeadline.turn (timer s)) /\
  calls s = (operation_calls ec msg (operation s) ++ timer_calls (timer s))%list.

Lemma cancel_step_invariant ec msg s s' : step ec msg s s' -> invariant ec msg s -> invariant ec msg s'.
Proof.
  unfold invariant. destruct 1 as [s Ho|s Ho|s Ht|s Ht]; destruct s as [c o t ca]; cbn in *; subst.
  - destruct t; cbn; intros (H1 & -> & H3); try discriminate; cbn; auto.
  - destruct o; try discriminate; destruct t; cbn; intros (H1 & H2 & ->); try discriminate; auto.
  - destruct o; cbn; intros (H1 & -> & H3); try discriminate; cbn; auto.
  - destruct t; try discriminate; destruct o; cbn; intros (H1 & H2 & ->); try discriminate; auto.
Qed.

Lemma cancel_reachable_invariant ec msg s : rtc (step ec msg) start s -> invariant ec msg s.
Proof.
  apply (rtc_ind_r (invariant ec msg)); [done | intros y z _ Hs Hy]. by eapply cancel_step_invariant.
Qed.

(** A cancellation with a time limit tells its handler exactly once, whatever
    the interleaving: the outcome of the cancellation or the time-out, and the
    handler has been called once both have ended. *)
Lemma cancel_deadline_calls_once ec msg s :
  rtc (step ec msg) start s ->
  (calls s = [] \/ calls s = [(ec, msg)] \/
   calls s = [(make_asio_error timed_out, time_out_message)]) /\
  (IoDeadline.finished (operation s) = true -> IoDeadline.finished (timer s) = true ->
   calls s <> []).
Proof.
  intros Hr. apply cancel_reachable_invariant in Hr as (Ht & _ & ->).
  destruct (operation s), (timer s); cbn in *; try discriminate; auto.
Qed.
End CancelDeadline.
End CancelDeadline.

(** ** [dispatch_cancel] *)

(** The message without the zero bytes that follow it: [find_last_not_of] and
    [resize]. *)
Definition nul : ascii := zero.

Definition trim_nul (msg : list ascii) : list ascii := trim_end nul msg.

(** [PQcancel] is a parameter: it gets the buffer of 255 zero bytes and gives
    whether the request was sent and the buffer it leaves. *)
Definition dispatch_cancel (PQcancel : list ascii -> bool * list ascii) : error_code * list ascii :=
  let '(sent, msg) := PQcancel (replicate 255 nul) in
  if sent then (no_error, []) else (error.make_error_code error.pq_cancel_failed, trim_nul msg).

(** The message of a cancellation that failed is what [PQcancel] left in the
    buffer without the zero bytes at its end, and nothing else is cut off. *)
Theorem cancel_message_trimmed PQcancel :
  let '(sent, msg) := PQcancel (replicate 255 nul) in
  (sent = true -> dispatch_cancel PQcancel = (no_error, [])) /\
  (sent = false -> exists text n,
     dispatch_cancel PQcancel = (error.make_error_code error.pq_cancel_failed, text) /\
     msg = (text ++ replicate n nul)%list /\ last text <> Some nul).
Proof.
  unfold dispatch_cancel. destruct (PQcancel (replicate 255 nul)) as [sent msg]. split.
  - by intros ->.
  - intros ->. destruct (trim_end_spec nul msg) as (n & Hm & Hl). exists (trim_nul msg), n. done.
Qed.

End Cancel.
