(* ===== verification/Failover.v ===== *)
(** Failover: [src/include/bozo/failover/strategy.h], [src/include/bozo/failover/retry.h] and
    [src/include/bozo/failover/role_based.h].

    A strategy makes the first try of an operation; when a try ends with an error
    the next one is asked of it, and the handler of the user is called when there
    is none.  [FailoverTry] is the interface of a try, [run] what
    [detail::continuation] and [detail::initiate_operation] make of any of them,
    and [Retry] and [RoleBased] are the two tries of the library. *)

From S2P Require Import Prelude ErrorCode SqlState Errors Chrono Deadline.
From Stdlib Require Import ZArith Lia List.
From stdpp Require Import base tactics list.

Open Scope Z_scope.

Module Failover.

Import Chrono Deadline.

(** ** What happens *)

(** The roles of [role_based.h]: [custom] stands for a role of the user with the
    conditions its [can_recover_impl] has. *)
Inductive role : Set :=
| master
| replica
| custom (n : nat) (conditions : list errc.matcher).

(** The arguments a try gives the operation: the role its provider is bound to,
    if any, and the time constraint ([None] when its computation overflows). *)
Record context := mk_context { ctx_role : option role; ctx_time : option time_constraint }.

(** The end of an operation: its error, and whether the connection is null. *)
Record completion := mk_completion { co_ec : error_code; co_null : bool }.

Inductive event : Set :=
| initiated (c : context)            (** the operation is started *)
| notified (ec : error_code)         (** [on_retry] or [on_fallback] is called *)
| closed                             (** [close_connection] *)
| handled (ec : error_code).         (** the handler of the user is called *)

(** [defer_close_connection] at the end of its scope. *)
Definition close_deferred (close : bool) (c : completion) : list event :=
  if close && negb (co_null c) then [closed] else [].

(** ** The interface of a try *)

(** [get_try_context] at a reading of the clock; [initiate_next_try], that is what
    happens before the next try is initiated, the next try, and what happens
    after. *)
Class FailoverTry (T : Type) := {
  get_try_context : T -> Z -> context;
  initiate_next_try : T -> completion -> list event * option T * list event;
}.

(** What the driver relies on: each next try is further on, and the try itself
    does not start operations or call the handler. *)
Definition quiet (e : event) : bool :=
  match e with initiated _ | handled _ => false | _ => true end.

Class FailoverTryLaws (T : Type) `{FailoverTry T} := {
  tries_bound : T -> nat;
  next_decreases : forall t c pre t' post,
    initiate_next_try t c = (pre, Some t', post) -> (tries_bound t' < tries_bound t)%nat;
  next_quiet : forall t c pre next post,
    initiate_next_try t c = (pre, next, post) ->
    forallb quiet pre = true /\ forallb quiet post = true;
}.

Section Driver.
Context {T : Type} `{FailoverTry T}.
(** The clock when the [i]-th try is initiated, and the end of the [i]-th try. *)
Context (now : nat -> Z) (ends : nat -> completion).

(** [continuation::operator()] after the [i]-th try, with the number of the
    continuations that may follow. *)
Fixpoint continue (fuel : nat) (t : T) (i : nat) : list event :=
  let c := ends i in
  if is_error (co_ec c) then
    match initiate_next_try t c with
    | (pre, Some t', post) =>
        pre ++ [initiated (get_try_context t' (now (S i)))] ++ post ++
        match fuel with O => [] | S fuel => continue fuel t' (S i) end
    | (pre, None, post) => pre ++ post ++ [handled (co_ec c)]
    end
  else [handled (co_ec c)].

(** [initiate_operation] with the first try. *)
Definition run (fuel : nat) (t : T) : list event :=
  initiated (get_try_context t (now 0)) :: continue fuel t 0.
End Driver.

(** The events of one kind. *)
Definition is_initiated (e : event) : bool := match e with initiated _ => true | _ => false end.
Definition is_handled (e : event) : bool := match e with handled _ => true | _ => false end.
Definition is_closed (e : event) : bool := match e with closed => true | _ => false end.
Definition count (f : event -> bool) (es : list event) : nat := length (List.filter f es).

Section DriverLaws.
Context {T : Type} `{FailoverTryLaws T} (now : nat -> Z) (ends : nat -> completion).

Lemma count_app f a b : count f (a ++ b) = (count f a + count f b)%nat.
Proof. unfold count. by rewrite List.filter_app, length_app. Qed.

Lemma quiet_counts es :
  forallb quiet es = true -> count is_handled es = 0%nat /\ count is_initiated es = 0%nat.
Proof.
  induction es as [|e es IH]; [done|]. cbn [forallb]. intros Hq. bool_props.
  destruct e; try discriminate; cbn; by apply IH.
Qed.

(** With as much fuel as the bound of the try the driver runs to its end: the
    handler is called last, with the error of the last try, and every try before it
    ended with an error from which a try with the property [ok] of the first has gone
    on, if the tries keep it. *)
Lemma continue_goes_on (ok : T -> Prop) fuel t i :
  (forall t0 c pre t1 post, ok t0 -> initiate_next_try t0 c = (pre, Some t1, post) -> ok t1) ->
  ok t -> (tries_bound t <= fuel)%nat ->
  exists es, continue now ends fuel t i =
      es ++ [handled (co_ec (ends (i + count is_initiated es)))] /\
    count is_handled es = 0%nat /\ (count is_initiated es <= tries_bound t)%nat /\
    (forall k, (i <= k < i + count is_initiated es)%nat -> is_error (co_ec (ends k)) = true /\
       exists t0 pre t1 post, ok t0 /\ initiate_next_try t0 (ends k) = (pre, Some t1, post)).
Proof.
  intros Hkeep. revert t i. induction fuel as [|fuel IH]; intros t i Hok Hb; cbn [continue];
    (destruct (is_error (co_ec (ends i))) eqn:He;
     [|exists []; cbn; rewrite Nat.add_0_r; repeat split; intros; lia]);
    destruct (initiate_next_try t (ends i)) as [[pre [t'|]] post] eqn:Hn;
    destruct (next_quiet _ _ _ _ _ Hn) as [Hp Hq];
    apply quiet_counts in Hp as [Hp1 Hp2]; apply quiet_counts in Hq as [Hq1 Hq2].
  1: pose proof (next_decreases _ _ _ _ _ Hn); lia.
  1, 3: exists (pre ++ post); rewrite !count_app, Hp1, Hp2, Hq1, Hq2, <- app_assoc, Nat.add_0_r;
    repeat split; intros; lia.
  pose proof (next_decreases _ _ _ _ _ Hn) as Hd.
  destruct (IH t' (S i) (Hkeep _ _ _ _ _ Hok Hn) ltac:(lia)) as (es & Hes & Hh & Hi & Hk).
  exists (pre ++ [initiated (get_try_context t' (now (S i)))] ++ post ++ es).
  rewrite !count_app, Hp1, Hp2, Hq1, Hq2. cbn [count List.filter is_initiated is_handled length].
  rewrite Hes, <- !app_assoc. replace (i + (0 + (1 + (0 + count is_initiated es))))%nat
    with (S i + count is_initiated es)%nat by lia.
  split; [done|]. split; [exact Hh|]. split; [cbn; lia|]. intros k Hrange.
  destruct (decide (k = i)) as [->|]; [by split; [|exists t, pre, t', post]|]. apply Hk. lia.
Qed.

Lemma run_goes_on (ok : T -> Prop) fuel t :
  (forall t0 c pre t1 post, ok t0 -> initiate_next_try t0 c = (pre, Some t1, post) -> ok t1) ->
  ok t -> (tries_bound t <= fuel)%nat ->
  exists es, run now ends fuel t = es ++ [handled (co_ec (ends (count is_initiated es - 1)%nat))] /\
    count is_handled es = 0%nat /\ (1 <= count is_initiated es <= S (tries_bound t))%nat /\
    (forall k, (S k < count is_initiated es)%nat -> is_error (co_ec (ends k)) = true /\
       exists t0 pre t1 post, ok t0 /\ initiate_next_try t0 (ends k) = (pre, Some t1, post)).
Proof.
  intros Hkeep Hok Hb. destruct (continue_goes_on ok fuel t 0 Hkeep Hok Hb) as (es & Hes & Hh & Hi & Hk).
  exists (initiated (get_try_context t (now 0)) :: es). unfold run. rewrite Hes.
  cbn [count List.filter is_initiated is_handled length app]. fold (count is_initiated es).
  cbn. rewrite Nat.sub_0_r. split; [done|]. split; [exact Hh|].
  split; [unfold count in *; lia|]. intros k Hk'. apply Hk. unfold count in *. lia.
Qed.

Lemma run_ends fuel t :
  (tries_bound t <= fuel)%nat ->
  exists es, run now ends fuel t = es ++ [handled (co_ec (ends (count is_initiated es - 1)%nat))] /\
    count is_handled es = 0%nat /\ (1 <= count is_initiated es <= S (tries_bound t))%nat /\
    (forall k, (S k < count is_initiated es)%nat -> is_error (co_ec (ends k)) = true).
Proof.
  intros Hb. destruct (run_goes_on (fun _ => True) fuel t) as (es & Hes & Hh & Hi & Hk); [done..|].
  exists es. repeat split; try done; try lia. intros k Hlt. by apply Hk.
Qed.
End DriverLaws.

(** ** The time of a try *)

(** [get_try_time_constraint]. *)
Definition get_try_time_constraint (t : time_constraint) (n_tries : Z) (now : Z) :
  option time_constraint :=
  match t with
  | no_constraint => Some no_constraint
  | until t => if 0 <? n_tries then l ← time_left t now; Some (after (Z.quot l n_tries))
               else Some (after 0)
  | after d => Some (after (if 0 <? n_tries then Z.quot d n_tries else 0))
  end.

(** [deadline(t)] of the strategies: [none] or a time point. *)
Definition first_deadline (t : time_constraint) (now : Z) : option time_constraint :=
  match deadline_of t now with
  | Some (Some t) => Some (until t)
  | Some None => Some no_constraint
  | None => None
  end.

(** ** [retry.h] *)

Record retry_options := mk_retry_options {
  op_close_connection : bool;
  op_tries : Z;
  op_conditions : list errc.matcher;
}.

(** [basic_try]: the context keeps the deadline of the operation. *)
Record basic_try := mk_basic_try { bt_options : retry_options; bt_deadline : time_constraint }.

Definition tries_remain (t : basic_try) : Z := op_tries (bt_options t).

Definition adjust_tries_remain (t : basic_try) : basic_try :=
  let o := bt_options t in
  mk_basic_try (mk_retry_options (op_close_connection o) (Z.max 0 (op_tries o - 1)) (op_conditions o))
    (bt_deadline t).

Section Strategies.
Context `{Boost}.

Definition can_retry (t : basic_try) (ec : error_code) : bool :=
  if tries_remain t <? 1 then false else
  match op_conditions (bt_options t) with
  | [] => true
  | conditions => errc.match_code conditions ec
  end.

(** [get_next_try], then [initiate_next_try_impl]: the connection is closed when
    [get_next_try] returns. *)
Definition retry_next (t : basic_try) (c : completion) : list event * option basic_try * list event :=
  let close := close_deferred (op_close_connection (bt_options t)) c in
  let t := adjust_tries_remain t in
  if can_retry t (co_ec c) then (notified (co_ec c) :: close, Some t, [])
  else (close, None, []).

#[export] Instance Retry : FailoverTry basic_try := {
  get_try_context t now :=
    mk_context None (get_try_time_constraint (bt_deadline t) (tries_remain t) now);
  initiate_next_try := retry_next;
}.

Lemma close_quiet close c : forallb quiet (close_deferred close c) = true.
Proof. unfold close_deferred. by destruct (close && negb (co_null c)). Qed.

#[export] Instance Retry_laws : FailoverTryLaws basic_try.
Proof.
  apply (Build_FailoverTryLaws _ _ (fun t => Z.to_nat (tries_remain t - 1))).
  - intros t c pre t' post. cbn [initiate_next_try Retry]. unfold retry_next, can_retry.
    destruct (Z.ltb_spec (tries_remain (adjust_tries_remain t)) 1) as [|Hge]; [discriminate|].
    intros Hn. assert (t' = adjust_tries_remain t) as ->.
    { destruct (op_conditions _); [by simplify_eq|]. destruct (errc.match_code _ _); by simplify_eq. }
    unfold tries_remain, adjust_tries_remain in *. cbn in *. lia.
  - intros t c pre next post. cbn [initiate_next_try Retry]. unfold retry_next.
    pose proof (close_quiet (op_close_connection (bt_options t)) c) as Hq.
    destruct (can_retry _ _); intros; simplify_eq; cbn; by rewrite ?Hq.
Defined.

(** [retry_strategy::get_first_try]. *)
Definition retry_first_try (o : retry_options) (t : time_constraint) (now : Z) : option basic_try :=
  mk_basic_try o <$> first_deadline t now.

(** The errors the options say to retry on. *)
Definition retryable (o : retry_options) (ec : error_code) : bool :=
  match op_conditions o with [] => true | conditions => errc.match_code conditions ec end.

Lemma retryable_adjust t ec :
  retryable (bt_options (adjust_tries_remain t)) ec = retryable (bt_options t) ec.
Proof. done. Qed.

Definition retry_context (t : basic_try) (now : nat -> Z) (k : nat) : context :=
  mk_context None (get_try_time_constraint (bt_deadline t) (tries_remain t - Z.of_nat k) (now k)).

Section RetryRun.
Context (now : nat -> Z) (ends : nat -> completion).

(** What the continuation of a try does, [m] being the number of the tries that
    follow it. *)
Definition retries (t : basic_try) (i : nat) (es : list event) (m : nat) : Prop :=
  List.filter is_initiated es =
    map (fun k => initiated (mk_context None (get_try_time_constraint (bt_deadline t)
           (tries_remain t - Z.of_nat k) (now (i + k)%nat)))) (seq 1 m) /\
  (m = 0%nat \/ Z.of_nat m < tries_remain t) /\
  (forall k, (k < m)%nat -> is_error (co_ec (ends (i + k))) = true /\
     retryable (bt_options t) (co_ec (ends (i + k))) = true) /\
  (is_error (co_ec (ends (i + m))) = false \/ tries_remain t <= Z.of_nat m + 1 \/
   retryable (bt_options t) (co_ec (ends (i + m))) = false).

Lemma filter_quiet es : forallb quiet es = true -> List.filter is_initiated es = [].
Proof.
  induction es as [|e es IH]; [done|]. cbn [forallb]. intros Hq. bool_props.
  destruct e; try discriminate; by apply IH.
Qed.

Lemma retry_next_eq t c :
  retry_next t c =
  let close := close_deferred (op_close_connection (bt_options t)) c in
  if (1 <? tries_remain t) && retryable (bt_options t) (co_ec c)
  then (notified (co_ec c) :: close, Some (adjust_tries_remain t), []) else (close, None, []).
Proof.
  unfold retry_next, can_retry, tries_remain. cbn [adjust_tries_remain bt_options op_tries].
  destruct (Z.ltb_spec 1 (op_tries (bt_options t))) as [Hlt|Hge].
  - destruct (Z.ltb_spec (Z.max 0 (op_tries (bt_options t) - 1)) 1); [lia | done].
  - destruct (Z.ltb_spec (Z.max 0 (op_tries (bt_options t) - 1)) 1); [done | lia].
Qed.

Lemma retries_none t i es :
  List.filter is_initiated es = [] ->
  is_error (co_ec (ends i)) = false \/ tries_remain t <= 1 \/
    retryable (bt_options t) (co_ec (ends i)) = false ->
  retries t i es 0.
Proof.
  intros Hes Hstop. unfold retries. rewrite Nat.add_0_r.
  repeat split; [done | by left | lia | lia | destruct Hstop as [|[|]]; auto with lia].
Qed.

Lemma retries_more t i close es m :
  List.filter is_initiated close = [] -> 1 < tries_remain t ->
  is_error (co_ec (ends i)) = true -> retryable (bt_options t) (co_ec (ends i)) = true ->
  retries (adjust_tries_remain t) (S i) es m ->
  retries t i (close ++ initiated (get_try_context (adjust_tries_remain t) (now (S i))) :: es) (S m).
Proof.
  intros Hc Hn He Hr (Hf & Hm & Hk & Hstop). unfold retries, tries_remain in *.
  cbn [adjust_tries_remain bt_options op_tries bt_deadline] in *.
  replace (Z.max 0 (op_tries (bt_options t) - 1)) with (op_tries (bt_options t) - 1) in * by lia.
  rewrite Nat.add_succ_comm in Hstop. split; [|split; [lia|split]].
  - rewrite List.filter_app, Hc. cbn [app List.filter is_initiated seq map]. f_equal.
    + unfold get_try_context, Retry, tries_remain. cbn. rewrite Nat.add_1_r.
      replace (Z.max 0 (op_tries (bt_options t) - 1)) with (op_tries (bt_options t) - 1) by lia. done.
    + rewrite Hf, <- (seq_shift m 1), map_map. apply map_ext. intros k.
      do 2 f_equal. f_equal; [lia | f_equal; lia].
  - intros [|k] Hlt; [by rewrite Nat.add_0_r|]. rewrite <- Nat.add_succ_comm. apply Hk. lia.
  - destruct Hstop as [|[|]]; auto. right. left. lia.
Qed.

Lemma retry_continue fuel t i :
  (Z.to_nat (tries_remain t - 1) <= fuel)%nat ->
  exists es m, continue now ends fuel t i = es ++ [handled (co_ec (ends (i + m)))] /\
    retries t i es m.
Proof.
  revert t i. induction fuel as [|fuel IH]; intros t i Hb; cbn [continue];
    cbn [initiate_next_try Retry]; rewrite retry_next_eq; cbn zeta;
    pose proof (filter_quiet _ (close_quiet (op_close_connection (bt_options t)) (ends i))) as Hq;
    (destruct (is_error (co_ec (ends i))) eqn:He;
      [|exists [], 0%nat; rewrite Nat.add_0_r; split; [done|]; apply retries_none; auto]);
    destruct (Z.ltb_spec 1 (tries_remain t)) as [Hlt|Hge]; cbn [andb];
    try (destruct (retryable (bt_options t) (co_ec (ends i))) eqn:Hr);
    try (eexists _, 0%nat; rewrite Nat.add_0_r; split; [reflexivity|]; apply retries_none; auto);
    try lia.
  destruct (IH (adjust_tries_remain t) (S i)) as (es & m & Hes & Hm).
  { unfold tries_remain in *. cbn. lia. }
  exists ((notified (co_ec (ends i)) :: close_deferred (op_close_connection (bt_options t)) (ends i))
    ++ initiated (get_try_context (adjust_tries_remain t) (now (S i))) :: es), (S m).
  rewrite Hes, <- Nat.add_succ_comm. split; [by rewrite <- app_assoc|].
  apply retries_more; try done; try lia.
Qed.
End RetryRun.

(** ** [role_based.h] *)

(** [can_recover_impl] of each role. *)
Definition recoverable (r : role) : list errc.matcher :=
  match r with
  | master => [errc.match_errc errc.connection_error; errc.match_errc errc.type_mismatch;
               errc.match_errc errc.protocol_error; errc.match_errc errc.database_readonly]
  | replica => [errc.match_errc errc.connection_error; errc.match_errc errc.type_mismatch;
                errc.match_errc errc.protocol_error]
  | custom _ conditions => conditions
  end.

Definition can_recover (r : role) (ec : error_code) : bool := errc.match_code (recoverable r) ec.

(** [role_based_try]: the index of the role is its template parameter. *)
Record role_based_try := mk_role_based_try {
  rb_close_connection : bool;
  rb_roles : list role;
  rb_deadline : time_constraint;
  rb_index : nat;
}.

Definition tries_left (t : role_based_try) : nat := length (rb_roles t) - rb_index t.
Definition role_of (t : role_based_try) : option role := rb_roles t !! rb_index t.

Definition fallback (t : role_based_try) : role_based_try :=
  mk_role_based_try (rb_close_connection t) (rb_roles t) (rb_deadline t) (S (rb_index t)).

(** [role_based_try::initiate_next_try], [n] being [tries_left() - 1]: the guard of
    a role that is passed over is released. *)
Fixpoint fall_back (n : nat) (t : role_based_try) (c : completion) :
  list event * option role_based_try * list event :=
  let close := close_deferred (rb_close_connection t) c in
  match n with
  | O => ([], None, close)
  | S n =>
      match role_of (fallback t) with
      | Some r => if can_recover r (co_ec c) then ([notified (co_ec c)], Some (fallback t), close)
                  else fall_back n (fallback t) c
      | None => fall_back n (fallback t) c
      end
  end.

#[export] Instance RoleBased : FailoverTry role_based_try := {
  get_try_context t now :=
    mk_context (role_of t) (get_try_time_constraint (rb_deadline t) (Z.of_nat (tries_left t)) now);
  initiate_next_try t c := fall_back (tries_left t - 1) t c;
}.

(** [role_based_strategy::get_first_try]. *)
Definition role_based_first_try (close : bool) (roles : list role) (t : time_constraint) (now : Z) :
  option role_based_try :=
  (fun d => mk_role_based_try close roles d 0) <$> first_deadline t now.

(** The next try is the first later role that can recover from the error. *)
Lemma fall_back_spec n t c pre next post :
  fall_back n t c = (pre, next, post) ->
  forallb quiet pre = true /\ post = close_deferred (rb_close_connection t) c /\
  match next with
  | Some t' =>
      exists r, (rb_index t < rb_index t' <= rb_index t + n)%nat /\
        t' = mk_role_based_try (rb_close_connection t) (rb_roles t) (rb_deadline t) (rb_index t') /\
        rb_roles t !! rb_index t' = Some r /\ can_recover r (co_ec c) = true /\
        forall j r', (rb_index t < j < rb_index t')%nat -> rb_roles t !! j = Some r' ->
          can_recover r' (co_ec c) = false
  | None => forall j r', (rb_index t < j <= rb_index t + n)%nat -> rb_roles t !! j = Some r' ->
      can_recover r' (co_ec c) = false
  end.
Proof.
  revert t pre next post. induction n as [|n IH]; intros t pre next post; cbn [fall_back].
  { intros; simplify_eq. repeat split; [done..|]. intros; lia. }
  destruct (role_of (fallback t)) as [r|] eqn:Hr; [destruct (can_recover r (co_ec c)) eqn:Hc|].
  - intros; simplify_eq. repeat split; [done..|]. exists r. cbn.
    repeat split; [lia | lia | done | done |]. intros; lia.
  - intros (Hp & Hq & Hn)%IH. split; [done|]. split; [done|]. destruct next as [t'|]; cbn in Hn.
    + destruct Hn as (r' & Hi & Ht & Hr' & Hc' & Hj). exists r'. repeat split; try done; try lia.
      intros j s Hjs Hs. destruct (decide (j = S (rb_index t))) as [->|]; [|apply (Hj j); [lia|done]].
      unfold role_of in Hr. cbn in Hr. by simplify_eq.
    + intros j s Hjs Hs. destruct (decide (j = S (rb_index t))) as [->|]; [|apply (Hn j); [lia|done]].
      unfold role_of in Hr. cbn in Hr. by simplify_eq.
  - intros (Hp & Hq & Hn)%IH. split; [done|]. split; [done|]. destruct next as [t'|]; cbn in Hn.
    + destruct Hn as (r' & Hi & Ht & Hr' & Hc' & Hj). exists r'. repeat split; try done; try lia.
      intros j s Hjs Hs. destruct (decide (j = S (rb_index t))) as [->|]; [|apply (Hj j); [lia|done]].
      unfold role_of in Hr. cbn in Hr. by simplify_eq.
    + intros j s Hjs Hs. destruct (decide (j = S (rb_index t))) as [->|]; [|apply (Hn j); [lia|done]].
      unfold role_of in Hr. cbn in Hr. by simplify_eq.
Qed.

#[export] Instance RoleBased_laws : FailoverTryLaws role_based_try.
Proof.
  apply (Build_FailoverTryLaws _ _ (fun t => tries_left t - 1)%nat).
  - intros t c pre t' post Hn. apply fall_back_spec in Hn as (_ & _ & r & Hi & Ht & Hr & _).
    apply lookup_lt_Some in Hr. rewrite Ht. unfold tries_left. cbn. lia.
  - intros t c pre next post Hn. apply fall_back_spec in Hn as (Hp & -> & _).
    split; [done | apply close_quiet].
Defined.
End Strategies.

(** ** Properties *)

(** Whatever the strategy, an operation with failover calls the handler of the
    user exactly once, after everything else, with the error of the last try; each
    try before the last ended with an error, and there are no more tries than the
    strategy allows. *)
Theorem failover_calls_handler_once {T} `{FailoverTryLaws T} now ends fuel (t : T) :
  (tries_bound t <= fuel)%nat ->
  exists es, run now ends fuel t = es ++ [handled (co_ec (ends (count is_initiated es - 1)%nat))] /\
    count is_handled es = 0%nat /\ (1 <= count is_initiated es <= S (tries_bound t))%nat /\
    (forall k, (S k < count is_initiated es)%nat -> is_error (co_ec (ends k)) = true).
Proof. apply run_ends. Qed.

Definition lost : error_code := error.make_error_code error.pg_flush_failed.

(** Two tries fail and the third succeeds. *)
Definition sample_ends (k : nat) : completion :=
  if (k <? 2)%nat then mk_completion lost false else mk_completion no_error false.

Definition sample_retry : basic_try :=
  mk_basic_try (mk_retry_options true 5 [errc.match_errc errc.connection_error]) (until 1000).

Lemma failover_calls_handler_once_witness :
  let t := sample_retry in
  exists es, @run _ (@Retry linux_boost) (fun _ => 0) sample_ends 10 t =
      es ++ [handled (co_ec (sample_ends (count is_initiated es - 1)%nat))] /\
    count is_handled es = 0%nat /\
    (1 <= count is_initiated es <= S (@tries_bound _ _ (@Retry_laws linux_boost) t))%nat /\
    (forall k, (S k < count is_initiated es)%nat -> is_error (co_ec (sample_ends k)) = true).
Proof.
  intros t. apply (@failover_calls_handler_once basic_try (@Retry linux_boost) (@Retry_laws linux_boost)
    (fun _ => 0) sample_ends 10 t). vm_compute. lia.
Defined.

(** C14. Retrying: [k] tries are made, no more than the number given (and always
    one); the [j]-th of them has [n - j] tries left to share the time with; every
    try but the last failed with an error to retry on, and the last one succeeded,
    or failed with an error not to retry on, or was the last allowed. *)
Theorem retry_tries `{Boost} now ends t :
  exists es k, run now ends (Z.to_nat (tries_remain t - 1)) t =
      es ++ [handled (co_ec (ends (k - 1)%nat))] /\
    List.filter is_initiated es = map (fun j => initiated (retry_context t now j)) (seq 0 k) /\
    (1 <= k)%nat /\ Z.of_nat k <= Z.max 1 (tries_remain t) /\
    (forall j, (S j < k)%nat -> is_error (co_ec (ends j)) = true /\
       retryable (bt_options t) (co_ec (ends j)) = true) /\
    (is_error (co_ec (ends (k - 1)%nat)) = false \/ tries_remain t <= Z.of_nat k \/
     retryable (bt_options t) (co_ec (ends (k - 1)%nat)) = false).
Proof.
  destruct (retry_continue now ends (Z.to_nat (tries_remain t - 1)) t 0 ltac:(lia))
    as (es & m & Hes & Hf & Hm & Hk & Hstop).
  exists (initiated (get_try_context t (now 0%nat)) :: es), (S m). unfold run. rewrite Hes.
  cbn [Nat.add Nat.sub] in *. rewrite Nat.sub_0_r. split; [done|]. split; [|split; [lia|]].
  - cbn [List.filter is_initiated seq map]. rewrite Hf. f_equal.
    unfold retry_context. cbn. by rewrite Z.sub_0_r.
  - split; [lia|]. split; [intros j Hj; apply Hk; lia|]. destruct Hstop as [|[|]]; auto.
    right. left. lia.
Qed.

(** C27. Falling back by roles: the next role that is tried is the first of the
    later roles that can recover from the error, the time is shared by the roles
    that are left, and when no later role can recover the handler gets the error. *)
Theorem fallback_picks_first_recovering `{Boost} t c pre next post :
  (rb_index t < length (rb_roles t))%nat ->
  initiate_next_try t c = (pre, next, post) ->
  match next with
  | Some t' =>
      exists r, (rb_index t < rb_index t')%nat /\ rb_roles t' = rb_roles t /\
        rb_roles t !! rb_index t' = Some r /\ can_recover r (co_ec c) = true /\
        (forall j r', (rb_index t < j < rb_index t')%nat -> rb_roles t !! j = Some r' ->
           can_recover r' (co_ec c) = false) /\
        forall now, get_try_context t' now = mk_context (Some r)
          (get_try_time_constraint (rb_deadline t)
             (Z.of_nat (length (rb_roles t) - rb_index t')) now)
  | None => forall j r', (rb_index t < j)%nat -> rb_roles t !! j = Some r' ->
      can_recover r' (co_ec c) = false
  end.
Proof.
  intros Hlen Hn. apply fall_back_spec in Hn as (_ & _ & Hn). unfold tries_left in Hn.
  destruct next as [t'|].
  - destruct Hn as (r & Hi & Ht & Hr & Hc & Hj). exists r. rewrite Ht. cbn.
    repeat split; try done; try lia. intros now. unfold role_of. cbn. by rewrite Hr.
  - intros j r' Hj Hr. apply (Hn j); [|done]. apply lookup_lt_Some in Hr. lia.
Qed.

Lemma fallback_picks_first_recovering_witness :
  let readonly := sqlstate.make_error_code (sqlstate.value sqlstate.read_only_sql_transaction) in
  let t := mk_role_based_try true [replica; replica; master] (until 1000) 0 in
  let t' := mk_role_based_try true [replica; replica; master] (until 1000) 2 in
  exists r, (rb_index t < rb_index t')%nat /\ rb_roles t' = rb_roles t /\
    rb_roles t !! rb_index t' = Some r /\ @can_recover linux_boost r readonly = true /\
    (forall j r', (rb_index t < j < rb_index t')%nat -> rb_roles t !! j = Some r' ->
       @can_recover linux_boost r' readonly = false) /\
    forall now, @get_try_context _ (@RoleBased linux_boost) t' now = mk_context (Some r)
      (get_try_time_constraint (rb_deadline t) (Z.of_nat (length (rb_roles t) - rb_index t')) now).
Proof.
  intros readonly t t'.
  apply (@fallback_picks_first_recovering linux_boost t (mk_completion readonly false)
    [notified readonly] (Some t') [closed]); [cbn; lia | vm_compute; reflexivity].
Defined.

(** The time given to the [j]-th try of an operation with a deadline. *)
Definition slice (deadline n now : Z) : Z := Z.quot (Z.max 0 (deadline - now)) n.

Lemma slice_context `{Boost} t d now k :
  bt_deadline t = until d -> in_S 64 d = true -> clock_ok (now k) = true ->
  Z.of_nat k < tries_remain t ->
  ctx_time (retry_context t now k) = Some (after (slice d (tries_remain t - Z.of_nat k) (now k))).
Proof.
  intros Hd Hin Hc Hk. unfold retry_context. rewrite Hd. cbn [ctx_time get_try_time_constraint].
  destruct (Z.ltb_spec 0 (tries_remain t - Z.of_nat k)); [|lia].
  by rewrite time_left_value.
Qed.

Lemma slice_step d n now now' :
  1 < n -> now <= d -> now <= now' <= now + slice d n now ->
  now' <= d /\ slice d n now <= slice d (n - 1) now'.
Proof.
  unfold slice. intros Hn Hd Hnow. rewrite Z.max_r in * by lia.
  rewrite Z.quot_div_nonneg in * by lia.
  pose proof (Z.mul_div_le (d - now) n ltac:(lia)) as Hq. set (q := (d - now) / n) in *.
  assert (0 <= q) by (apply Z.div_pos; lia).
  assert (now' <= d) by nia. split; [done|].
  rewrite Z.max_r, Z.quot_div_nonneg by lia. apply Z.div_le_lower_bound; [lia|]. nia.
Qed.

(** C31. The tries share the time of the operation: when none of them takes longer
    than its constraint, none starts after the deadline of the operation, and no
    try gets less time than the one before it. *)
Theorem retry_time_shared `{Boost} t d now k :
  bt_deadline t = until d -> in_S 64 d = true ->
  (forall j, (j <= k)%nat -> clock_ok (now j) = true) -> now 0%nat <= d ->
  (forall j, (S j <= k)%nat -> now j <= now (S j) <= now j + slice d (tries_remain t - Z.of_nat j) (now j)) ->
  Z.of_nat k < tries_remain t ->
  now k <= d /\
  ctx_time (retry_context t now k) = Some (after (slice d (tries_remain t - Z.of_nat k) (now k))) /\
  slice d (tries_remain t) (now 0%nat) <= slice d (tries_remain t - Z.of_nat k) (now k).
Proof.
  intros Hd Hin Hc H0 Hstep Hk.
  enough (now k <= d /\ slice d (tries_remain t) (now 0%nat) <=
    slice d (tries_remain t - Z.of_nat k) (now k)) as [? ?]
    by (repeat split; [done | by apply slice_context; auto | done]).
  induction k as [|k IH].
  - rewrite Z.sub_0_r. split; [done|lia].
  - destruct IH as [IH1 IH2]; [intros j Hj; apply Hc; lia | intros j Hj; apply Hstep; lia | lia|].
    destruct (slice_step d (tries_remain t - Z.of_nat k) (now k) (now (S k))) as [Hs1 Hs2];
      [lia | done | apply Hstep; lia |].
    split; [done|]. replace (tries_remain t - Z.of_nat (S k)) with (tries_remain t - Z.of_nat k - 1)
      by lia. lia.
Qed.

Lemma retry_time_shared_witness :
  let now := fun j : nat => Z.of_nat j * 100 in
  now 2%nat <= 1000 /\
  ctx_time (retry_context sample_retry now 2) =
    Some (after (slice 1000 (tries_remain sample_retry - Z.of_nat 2) (now 2%nat))) /\
  slice 1000 (tries_remain sample_retry) (now 0%nat) <=
    slice 1000 (tries_remain sample_retry - Z.of_nat 2) (now 2%nat).
Proof.
  intros now. apply (@retry_time_shared linux_boost sample_retry 1000 now 2).
  - reflexivity.
  - reflexivity.
  - intros [|[|[|j]]] Hj; try reflexivity. lia.
  - vm_compute. discriminate.
  - intros [|[|j]] Hj; [split; vm_compute; discriminate | split; vm_compute; discriminate | lia].
  - vm_compute. reflexivity.
Defined.

End Failover.
