(* ===== verification/Options.v ===== *)
(** Options: [src/include/bozo/core/options.h], and the factories of failover strategies
    that are built on them ([retry_strategy] and [retry] of
    [src/include/bozo/failover/retry.h], [role_based_strategy] and [role_based] of
    [src/include/bozo/failover/role_based.h]).

    A set of options is a map from the tags of options to values.  The map of the
    source is heterogeneous and known to the compiler: what does not compile is
    [None] here. *)

From S2P Require Import Prelude ErrorCode SqlState Errors Deadline Failover.
From Stdlib Require Import ZArith Lia List String.
From stdpp Require Import base tactics list gmap strings.

Open Scope Z_scope.

(** The assignment of a value to the place of an option that has one already, which
    has the type of the first value. *)
Class OptionValue (V : Type) := {
  assign_value : V -> V -> option V;
  assign_value_new : forall old v v', assign_value old v = Some v' -> v' = v;
}.

Module Options.

Section Options.
Context {V : Type} `{OptionValue V}.

(** A set of options is a [boost::hana::map] with the tags as keys. *)
Definition has (op : string) (m : gmap string V) : bool := bool_decide (is_Some (m !! op)).

Definition get_option (m : gmap string V) (op : string) : option V := m !! op.
Definition get_option_or (m : gmap string V) (op : string) (default_ : V) : V :=
  if has op m then default default_ (m !! op) else default_.

(** [make_options]: the keys of a map are distinct. *)
Definition make_options (opts : list (string * V)) : option (gmap string V) :=
  if bool_decide (NoDup opts.*1) then Some (list_to_map opts) else None.

(** [hana::insert] leaves a key that is there alone. *)
Definition hana_insert (m : gmap string V) (v : string * V)  : gmap string V :=
  match m !! fst v with Some _ => m | None => <[fst v := snd v]> m end.

(** [options_factory_base::set] for one option and for several. *)
Definition set_one (m : gmap string V) (v : string * V) : option (gmap string V) :=
  if has (fst v) m then
    old ← m !! fst v; new ← assign_value old (snd v); Some (<[fst v := new]> m)
  else Some (hana_insert m v).

Definition set_options (vs : list (string * V)) (m : gmap string V) : option (gmap string V) :=
  foldl (fun self v => m ← self; set_one m v) (Some m) vs.

(** The value that comes last in a list of settings. *)
Fixpoint last_setting (op : string) (vs : list (string * V)) : option V :=
  match vs with
  | [] => None
  | (op', v) :: vs =>
      match last_setting op vs with
      | Some v' => Some v'
      | None => if bool_decide (op' = op) then Some v else None
      end
  end.

Lemma set_one_lookup m v m' op :
  set_one m v = Some m' -> m' !! op = if bool_decide (fst v = op) then Some (snd v) else m !! op.
Proof.
  unfold set_one, has, hana_insert. destruct v as [k v]. cbn. intros Hs.
  assert (m' = <[k := v]> m) as ->.
  { destruct (m !! k) as [old|]; [rewrite bool_decide_eq_true_2 in Hs by eauto|].
    - cbn in Hs. destruct (assign_value old v) as [new|] eqn:Ha; [|done].
      apply assign_value_new in Ha as ->. cbn in Hs. by simplify_eq.
    - rewrite bool_decide_eq_false_2 in Hs by (by intros []). by simplify_eq. }
  clear Hs. case_bool_decide as Hk; [subst; by rewrite lookup_insert_eq | by rewrite lookup_insert_ne].
Qed.

Lemma set_options_none vs : foldl (fun self v => m ← self; set_one m v) None vs = None.
Proof. by induction vs as [|v vs IH]; cbn. Qed.

(** Setting several options at once makes each of them what was set last and leaves
    the others as they were. *)
Lemma set_options_lookup vs m m' op :
  set_options vs m = Some m' ->
  get_option m' op = match last_setting op vs with Some v => Some v | None => get_option m op end.
Proof.
  unfold set_options, get_option. revert m. induction vs as [|[k v] vs IH]; intros m; cbn.
  { by intros [= ->]. }
  destruct (set_one m (k, v)) as [m1|] eqn:Hs; [|by rewrite set_options_none].
  intros Hf. rewrite (IH m1 Hf). destruct (last_setting op vs); [done|].
  rewrite (set_one_lookup _ _ _ op Hs). cbn. by destruct (bool_decide (k = op)).
Qed.

(** A factory that is given the options of a map one by one, in any order of the
    settings, has that map. *)
Lemma set_options_fresh vs m :
  NoDup vs.*1 -> (forall v, v ∈ vs -> m !! fst v = None) ->
  set_options vs m = Some (list_to_map vs ∪ m).
Proof.
  unfold set_options. revert m. induction vs as [|[k v] vs IH]; intros m Hn Hm; cbn.
  { by rewrite (left_id_L ∅ (∪)). }
  apply NoDup_cons in Hn as [Hk Hn].
  assert (m !! k = None) as Hmk by (apply (Hm (k, v)); by left).
  unfold set_one, has, hana_insert at 2. cbn. rewrite Hmk, bool_decide_eq_false_2 by (by intros []).
  cbn. rewrite IH; [|done|].
  - f_equal. rewrite <- insert_union_l, insert_union_r; [done|].
    apply not_elem_of_list_to_map_1. exact Hk.
  - intros [k' v'] Hin. cbn. rewrite lookup_insert_ne; [apply (Hm (k', v')); by right|].
    intros ->. apply Hk. apply list_elem_of_fmap. by exists (k', v').
Qed.

Lemma set_options_make vs m : make_options vs = Some m -> set_options vs ∅ = Some m.
Proof.
  unfold make_options. case_bool_decide as Hn; [|done]. intros [= <-].
  rewrite set_options_fresh; [by rewrite (right_id_L ∅ (∪)) | done | done].
Qed.
End Options.

(** A strategy that is set an option it has may change its value, not its type. *)
Lemma set_options_app {V} `{OptionValue V} vs ws m :
  set_options (vs ++ ws)%list m = set_options vs m ≫= set_options ws.
Proof.
  unfold set_options. rewrite foldl_app.
  destruct (foldl _ (Some m) vs) as [m1|]; [done|]. apply set_options_none.
Qed.

(** ** [retry_strategy] *)

Module RetryStrategy.
Import Failover Deadline.

Inductive retry_value : Set :=
| v_on_retry (type fn : nat)
| v_close_connection (b : bool)
| v_tries (n : Z)
| v_conditions (cs : list errc.matcher).

Definition on_retry : string := "on_retry_tag".
Definition close_connection : string := "close_connection_tag".
Definition tries : string := "tries_tag".
Definition conditions : string := "conditions_tag".

(** The type of an element of the tuple of conditions. *)
Definition matcher_type (x : errc.matcher) : nat * option category :=
  match x with
  | errc.match_sqlstate _ => (0%nat, None)
  | errc.match_asio e => (1%nat, Some (asio_category e))
  | errc.match_io_error => (2%nat, None)
  | errc.match_error _ => (3%nat, None)
  | errc.match_errc _ => (4%nat, None)
  end.

Definition assign_retry_value (old v : retry_value) : option retry_value :=
  match old, v with
  | v_on_retry ty _, v_on_retry ty' _ => if (ty =? ty')%nat then Some v else None
  | v_close_connection _, v_close_connection _ => Some v
  | v_tries _, v_tries _ => Some v
  | v_conditions cs, v_conditions cs' =>
      if bool_decide (map matcher_type cs = map matcher_type cs') then Some v else None
  | _, _ => None
  end.

#[export] Instance retry_option_value : OptionValue retry_value.
Proof.
  refine {| assign_value := assign_retry_value |}.
  intros old v v'. destruct old, v; cbn; repeat case_match; intros; by simplify_eq.
Defined.

(** [retry]. *)
Definition retry (ec : list errc.matcher) : option (gmap string retry_value) :=
  match ec with
  | [] => Some ∅
  | _ => set_options [(conditions, v_conditions ec)] ∅
  end.

(** [tries(n)] and [operator *]. *)
Definition times (n : Z) (rs : gmap string retry_value) : option (gmap string retry_value) :=
  set_one rs (tries, v_tries n).

(** The options as [basic_try] reads them: with the defaults, [tries] being needed. *)
Definition read_options (m : gmap string retry_value) : option retry_options :=
  match get_option m tries with
  | Some (v_tries n) =>
      Some (mk_retry_options
        (match get_option_or m close_connection (v_close_connection true) with
         | v_close_connection b => b | _ => true end) n
        (match get_option_or m conditions (v_conditions []) with
         | v_conditions cs => cs | _ => [] end))
  | _ => None
  end.

(** [retry_strategy::get_first_try]. *)
Definition get_first_try (m : gmap string retry_value) (t : time_constraint) (now : Z) : option basic_try :=
  o ← read_options m; retry_first_try o t now.

Lemma get_option_or_lookup (m : gmap string retry_value) op d :
  get_option_or m op d = default d (get_option m op).
Proof.
  unfold get_option_or, get_option, has. by destruct (m !! op).
Qed.

Lemma retry_lookup cs m op :
  retry cs = Some m ->
  get_option m op = if bool_decide (op = conditions) then
                      match cs with [] => None | _ => Some (v_conditions cs) end else None.
Proof.
  unfold retry. destruct cs as [|c cs]; [intros [= <-]; by case_bool_decide|].
  intros Hs. rewrite (set_options_lookup _ _ _ op Hs). cbn.
  repeat case_bool_decide; by subst.
Qed.

(** What a strategy made by [retry] and any settings has for an option. *)
Lemma strategy_option cs vs m op :
  (retry cs ≫= set_options vs) = Some m -> op <> conditions -> get_option m op = last_setting op vs.
Proof.
  destruct (retry cs) as [m0|] eqn:Hr; [|done]. cbn. intros Hs Hop.
  rewrite (set_options_lookup _ _ _ op Hs), (retry_lookup _ _ op Hr), bool_decide_eq_false_2 by done.
  by destruct (last_setting op vs).
Qed.

Section Runs.
Context `{Boost}.

(** C29. A retry strategy, with whatever it is set by [set], [tries] and [*], makes as
    many tries as it was set last, at least one and no more; it closes
    connections unless it was told not to, and retries on the conditions it was
    set last, else on those [retry] was given. *)
Theorem retry_strategy_runs cs vs m c now0 t now ends :
  (retry cs ≫= set_options vs) = Some m -> get_first_try m c now0 = Some t ->
  exists n, last_setting tries vs = Some (v_tries n) /\
    (1 <= count is_initiated (run now ends (Z.to_nat n) t) <= Z.to_nat (Z.max 1 n))%nat /\
    op_close_connection (bt_options t) =
      match last_setting close_connection vs with Some (v_close_connection b) => b | _ => true end /\
    op_conditions (bt_options t) =
      match last_setting conditions vs with Some (v_conditions cs') => cs' | Some _ => [] | None => cs end.
Proof.
  intros Hs Hf. unfold get_first_try, read_options in Hf. rewrite !get_option_or_lookup in Hf.
  rewrite !(strategy_option _ _ _ _ Hs) in Hf by done.
  assert (get_option m conditions = match last_setting conditions vs with
    Some v => Some v | None => match cs with [] => None | _ => Some (v_conditions cs) end end) as Hc.
  { destruct (retry cs) as [m0|] eqn:Hr; [|done].
    by rewrite (set_options_lookup _ _ _ conditions Hs), (retry_lookup _ _ conditions Hr). }
  rewrite Hc in Hf. destruct (last_setting tries vs) as [[| |n|]|] eqn:Ht; cbn in Hf; try done.
  unfold retry_first_try in Hf. destruct (first_deadline c now0) as [d|]; [|done]. cbn in Hf.
  injection Hf as <-.
  exists n. split; [done|]. split; [|cbn; split; [by destruct (last_setting close_connection vs)|]].
  - set (t := mk_basic_try _ _).
    destruct (run_ends now ends (Z.to_nat n) t) as (es & -> & _ & Hi & _).
    { change (Z.to_nat (n - 1) <= Z.to_nat n)%nat. lia. }
    change (tries_bound t) with (Z.to_nat (n - 1)) in Hi. rewrite count_app. cbn. lia.
  - destruct (last_setting conditions vs) as [[]|]; try done. by destruct cs.
Qed.
End Runs.

Lemma retry_strategy_runs_witness :
  let m : gmap string retry_value := {[ conditions := v_conditions [errc.match_errc errc.connection_error];
              tries := v_tries 3; close_connection := v_close_connection false ]} in
  let t := mk_basic_try (mk_retry_options false 3 [errc.match_errc errc.connection_error]) no_constraint in
  exists n, last_setting tries [(tries, v_tries 5); (close_connection, v_close_connection false);
      (tries, v_tries 3)] = Some (v_tries n) /\
    (1 <= count is_initiated (@run _ (@Retry linux_boost) (fun _ => 0%Z) sample_ends (Z.to_nat n) t)
       <= Z.to_nat (Z.max 1 n))%nat /\
    op_close_connection (bt_options t) = false /\
    op_conditions (bt_options t) = [errc.match_errc errc.connection_error].
Proof.
  intros m t.
  apply (@retry_strategy_runs linux_boost [errc.match_errc errc.connection_error]
    [(tries, v_tries 5); (close_connection, v_close_connection false); (tries, v_tries 3)] m
    no_constraint 0 t); vm_compute; reflexivity.
Defined.

End RetryStrategy.
End Options.
