(* ===== verification/RoleSource.v ===== *)
(** Connection sources with roles: [role_based_connection_source],
    [role_based_connection_provider] and [role_based_strategy] of
    [src/include/bozo/failover/role_based.h].

    A source with roles keeps a source for each role; a try of the role-based
    strategy binds its provider to the role of the try, and so asks the source
    that was registered for that role. *)

From S2P Require Import Prelude ErrorCode SqlState Errors Deadline Failover Options.
From Stdlib Require Import ZArith Lia List String.
From stdpp Require Import base tactics list gmap strings.

Open Scope Z_scope.

Module RoleSource.

Import Failover Deadline Options.

(** The key of a role: its type. *)
Definition role_key (r : role) : nat :=
  match r with master => 0 | replica => 1 | custom n _ => S (S n) end.

Section Sources.
Context {Source : Type}.

(** [role_based_connection_source]. *)
Record role_based_connection_source := mk_source {
  sources_ : gmap nat Source;
  role_ : role;
}.

Definition is_supported (s : role_based_connection_source) (r : role) : bool :=
  bool_decide (is_Some (sources_ s !! role_key r)).

(** The constructor and [make_role_based_connection_source]: the keys are distinct,
    and the first pair has the role the source starts with. *)
Definition make_role_based_connection_source (p1 : role * Source) (ps : list (role * Source)) :
  option role_based_connection_source :=
  let pairs := map (fun p => (role_key (fst p), snd p)) (p1 :: ps) in
  if bool_decide (NoDup pairs.*1) then Some (mk_source (list_to_map pairs) (fst p1)) else None.

Definition rebind_role (s : role_based_connection_source) (r : role) :
  option role_based_connection_source :=
  if is_supported s r then Some (mk_source (sources_ s) r) else None.

(** [operator()]: the source of the role is asked for the connection. *)
Definition asked_source (s : role_based_connection_source) : option Source :=
  sources_ s !! role_key (role_ s).

(** [role_based_connection_provider]: a source and the [io_context]. *)
Record role_based_connection_provider {Io : Type} := mk_provider {
  source_ : role_based_connection_source;
  io_ : Io;
}.

Definition provider_rebind_role {Io} (p : @role_based_connection_provider Io) (r : role) :
  option (@role_based_connection_provider Io) :=
  s ← rebind_role (source_ p) r; Some (mk_provider Io s (io_ p)).

Definition async_get_connection {Io} (p : @role_based_connection_provider Io) : option (Io * Source) :=
  s ← asked_source (source_ p); Some (io_ p, s).

(** [role_based_try::get_context]: the provider a try asks, for the role it has. *)
Definition try_provider {Io} (p : @role_based_connection_provider Io) (c : context) :
  option (@role_based_connection_provider Io) :=
  r ← ctx_role c; provider_rebind_role p r.

Lemma made_source_lookup p1 ps s r src :
  make_role_based_connection_source p1 ps = Some s -> (r, src) ∈ p1 :: ps ->
  sources_ s !! role_key r = Some src.
Proof.
  unfold make_role_based_connection_source. case_bool_decide as Hn; [|done]. intros Hs Hin.
  assert (sources_ s = list_to_map (map (fun p => (role_key (fst p), snd p)) (p1 :: ps))) as ->
    by by injection Hs as <-.
  apply (elem_of_list_to_map_1 (M := gmap nat) (map (fun p => (role_key (fst p), snd p)) (p1 :: ps)));
    [exact Hn|]. apply (list_elem_of_fmap_2 (fun p => (role_key (fst p), snd p)) (p1 :: ps) (r, src) Hin).
Qed.

End Sources.

(** ** [role_based_strategy] *)

Inductive role_value : Set :=
| v_on_fallback (type fn : nat)
| v_close_connection (b : bool)
| v_roles (rs : list role).

Definition on_fallback : string := "on_fallback_tag".
Definition close_connection : string := "close_connection_tag".
Definition roles : string := "roles_tag".

Definition assign_role_value (old v : role_value) : option role_value :=
  match old, v with
  | v_on_fallback ty _, v_on_fallback ty' _ => if (ty =? ty')%nat then Some v else None
  | v_close_connection _, v_close_connection _ => Some v
  | v_roles rs, v_roles rs' =>
      if bool_decide (map role_key rs = map role_key rs') then Some v else None
  | _, _ => None
  end.

#[export] Instance role_option_value : OptionValue role_value.
Proof.
  refine {| assign_value := assign_role_value |}.
  intros old v v'. destruct old, v; cbn; repeat case_match; intros; by simplify_eq.
Defined.

(** [role_based]. *)
Definition role_based (rs : list role) : option (gmap string role_value) :=
  match rs with
  | [] => Some ∅
  | _ => make_options [(roles, v_roles rs)]
  end.

(** [role_based_strategy::get_first_try]: the roles are given and not empty. *)
Definition get_first_try (m : gmap string role_value) (t : time_constraint) (now : Z) :
  option role_based_try :=
  match get_option m roles with
  | Some (v_roles ((_ :: _) as rs)) =>
      let close := match get_option_or m close_connection (v_close_connection true) with
                   | v_close_connection b => b | _ => true end in
      role_based_first_try close rs t now
  | _ => None
  end.

Section Runs.
Context `{Boost}.

(** The roles of the tries are roles of the sequence. *)
Lemma continue_roles now ends fuel t i c :
  initiated c ∈ continue now ends fuel t i -> exists r, ctx_role c = Some r /\ r ∈ rb_roles t.
Proof.
  assert (forall es, forallb quiet es = true -> initiated c ∉ es) as Hquiet.
  { intros es Hq Hin. rewrite forallb_forall in Hq. apply list_elem_of_In, Hq in Hin. done. }
  revert t i. induction fuel as [|fuel IH]; intros t i; cbn [continue];
    (destruct (is_error (co_ec (ends i))); [|intros Hin%list_elem_of_singleton; done]);
    cbn [initiate_next_try RoleBased];
    destruct (fall_back _ t (ends i)) as [[pre next] post] eqn:Hf;
    pose proof (fall_back_spec _ _ _ _ _ _ Hf) as (Hp & Hpost & Hn);
    assert (forallb quiet post = true) as Hq by (rewrite Hpost; apply close_quiet);
    destruct next as [t'|].
  all: rewrite ?elem_of_app, ?list_elem_of_singleton; intros Hin.
  2, 4: destruct Hin as [Hin|[Hin|Hin]]; [by apply Hquiet in Hin | by apply Hquiet in Hin | done].
  all: destruct Hn as (r & Hi & Ht' & Hr & _).
  all: destruct Hin as [Hin|[Hin|[Hin|Hin]]];
    [by apply Hquiet in Hin | | by apply Hquiet in Hin |].
  1, 3: injection Hin as ->; exists r; cbn; unfold role_of; rewrite Ht'; cbn; rewrite Hr;
    split; [done | by eapply list_elem_of_lookup_2].
  - by apply not_elem_of_nil in Hin.
  - destruct (IH _ _ Hin) as (r' & Hr' & Hin'). exists r'. split; [done|]. rewrite Ht' in Hin'. exact Hin'.
Qed.

(** C28. Every try of a role-based strategy asks the source that was registered for
    the role of the try, with the [io_context] of the provider: the strategy and the
    source agree on the roles, whatever the errors are. *)
Theorem role_based_asks_registered_source {Source Io : Type} p1 ps s (io : Io) m rs c now0 t now ends fuel ctx :
  @make_role_based_connection_source Source p1 ps = Some s ->
  get_option m roles = Some (v_roles rs) -> (forall r, r ∈ rs -> exists src, (r, src) ∈ p1 :: ps) ->
  get_first_try m c now0 = Some t -> initiated ctx ∈ run now ends fuel t ->
  exists r src, ctx_role ctx = Some r /\ r ∈ rs /\ (r, src) ∈ p1 :: ps /\
    (try_provider (mk_provider Io s io) ctx ≫= async_get_connection) = Some (io, src).
Proof.
  intros Hs Hrs Hall Hf Hin. unfold get_first_try in Hf. rewrite Hrs in Hf.
  destruct rs as [|r0 rs]; [done|]. unfold role_based_first_try in Hf.
  destruct (first_deadline c now0) as [d|]; [|done]. cbn in Hf. injection Hf as <-.
  assert (exists r, ctx_role ctx = Some r /\ r ∈ r0 :: rs) as (r & Hr & Hin').
  { unfold run in Hin. apply elem_of_cons in Hin as [[= ->]|Hin]; [exists r0; split; [done|by left]|].
    exact (continue_roles _ _ _ _ _ _ Hin). }
  destruct (Hall r Hin') as (src & Hsrc). exists r, src. split; [done|]. split; [done|]. split; [done|].
  unfold try_provider, provider_rebind_role, rebind_role, is_supported. rewrite Hr. cbn.
  pose proof (made_source_lookup _ _ _ _ _ Hs Hsrc) as Hl.
  rewrite bool_decide_eq_true_2 by (rewrite Hl; eauto). cbn.
  unfold async_get_connection, asked_source. cbn. by rewrite Hl.
Qed.
End Runs.

Lemma role_based_asks_registered_source_witness :
  exists r src, @ctx_role (mk_context (Some replica) (Some no_constraint)) = Some r /\
    r ∈ [master; replica] /\ (r, src) ∈ [(master, 1%nat); (replica, 2%nat)] /\
    (try_provider (mk_provider unit (mk_source {[ 0%nat := 1%nat; 1%nat := 2%nat ]} master) tt)
       (mk_context (Some replica) (Some no_constraint)) ≫= async_get_connection) = Some (tt, src).
Proof.
  apply (@role_based_asks_registered_source linux_boost nat unit (master, 1%nat) [(replica, 2%nat)]
    (mk_source {[ 0%nat := 1%nat; 1%nat := 2%nat ]} master) tt
    {[ roles := v_roles [master; replica] ]} [master; replica] no_constraint 0
    (mk_role_based_try true [master; replica] no_constraint 0) (fun _ => 0)
    (fun _ => mk_completion lost false) 2).
  - vm_compute. reflexivity.
  - vm_compute. reflexivity.
  - intros r Hr. rewrite !elem_of_cons in Hr. destruct Hr as [-> | [-> | Hr]];
      [exists 1%nat; by left | exists 2%nat; right; by left | by apply not_elem_of_nil in Hr].
  - vm_compute. reflexivity.
  - apply list_elem_of_In. vm_compute. tauto.
Defined.

End RoleSource.
