(* ===== verification/Operations.v ===== *)
(** The operations as the user calls them: the function objects [request], [execute],
    [get_connection] and [begin] of [src/include/bozo/request.h],
    [src/include/bozo/execute.h], [src/include/bozo/connection.h] and
    [src/include/bozo/transaction.h], with the initiators of [src/include/bozo/asio.h]
    that strategies are built into ([operator[]]), and
    [failover::detail::operation_initiator] of [src/include/bozo/failover/strategy.h].

    [op[strategy]] is an operation again, so that strategies nest:
    [request[retry() * 2][role_based(master, replica)]] retries twice for each role.  An
    initiator is the tree of the strategies over one of the initiators of the library.
    A call runs as in the code: the initiators wrap the handler into continuations
    ([initiate]), and the end of an operation calls the outermost one, which starts
    the next try or calls the handler it has ([handle], [run_operations]).  [course_of]
    is a description of the same by recursion on the tree, and [call_follows] says
    that they agree.  [None] is a program that does not compile, or a time constraint
    that overflows. *)

From S2P Require Import Prelude ErrorCode SqlState Errors Chrono Deadline QueryBuilder Failover Options RoleSource.
From Stdlib Require Import ZArith Lia List.
From stdpp Require Import base tactics list gmap strings.

Open Scope Z_scope.

(** A strategy makes the first try of an operation, [get_first_try], of the time
    constraint it is given; [strategy_bound] is the number of tries it may make. *)
Class FailoverStrategy (St T : Type) `{Failover.FailoverTryLaws T} := {
  get_first_try : St -> Deadline.time_constraint -> Z -> option T;
  strategy_bound : St -> nat;
  first_try_bound : forall s t now t0, get_first_try s t now = Some t0 ->
    (S (Failover.tries_bound t0) <= strategy_bound s)%nat;
}.

Module Operations.

Import Chrono Failover Deadline.

Section Operations.
Context {St T : Type} `{FailoverStrategy St T}.
(** Connection providers, and their [rebind_role]. *)
Context {P : Type} (rebind_role : P -> role -> option P).

(** ** Operations and initiators *)

Inductive argument : Type :=
| a_provider (p : P)
| a_time (t : time_constraint)
| a_query (q : QueryBuilder.query)
| a_out (container : nat)
| a_options (o : QueryBuilder.transaction_options).

Inductive initiator : Type :=
| initiate_async_request
| initiate_async_execute
| initiate_async_get_connection
| initiate_async_start_transaction
| operation_initiator (strategy_ : St) (op_ : operation)
with operation : Type :=
| request_op (initiator_ : initiator)
| execute_op (initiator_ : initiator)
| get_connection_op (initiator_ : initiator)
| begin_op (initiator_ : initiator) (options_ : QueryBuilder.transaction_options).

Definition get_operation_initiator (op : operation) : initiator :=
  match op with
  | request_op i | execute_op i | get_connection_op i | begin_op i _ => i
  end.

Definition rebind_initiator (op : operation) (other : initiator) : operation :=
  match op with
  | request_op _ => request_op other
  | execute_op _ => execute_op other
  | get_connection_op _ => get_connection_op other
  | begin_op _ options => begin_op other options
  end.

(** [failover::construct_initiator_impl] and [operator[]]. *)
Definition construct_initiator (f : St) (op : operation) : initiator := operation_initiator f op.
Definition subscript (op : operation) (f : St) : operation := rebind_initiator op (construct_initiator f op).

Definition with_transaction_options (op : operation) (o : QueryBuilder.transaction_options) : option operation :=
  match op with begin_op i _ => Some (begin_op (get_operation_initiator op) o) | _ => None end.

Definition no_options : QueryBuilder.transaction_options := QueryBuilder.mk_transaction_options None None None.
Definition request : operation := request_op initiate_async_request.
Definition execute : operation := execute_op initiate_async_execute.
Definition get_connection : operation := get_connection_op initiate_async_get_connection.
Definition begin_ : operation := begin_op initiate_async_start_transaction no_options.

(** The calls [operator()]: what the initiator is given.  A call without a time
    constraint is one with [none]. *)
Inductive user_call : Type :=
| call_request (p : P) (q : QueryBuilder.query) (t : option time_constraint) (container : nat)
| call_execute (p : P) (q : QueryBuilder.query) (t : option time_constraint)
| call_get_connection (p : P) (t : option time_constraint)
| call_begin (p : P) (t : option time_constraint).

Definition constraint_or_none (t : option time_constraint) : time_constraint := default no_constraint t.

Definition request_arguments (p : P) (q : QueryBuilder.query) (t : option time_constraint) (out : nat) : list argument :=
  [a_provider p; a_time (constraint_or_none t); a_query q; a_out out].
Definition execute_arguments (p : P) (q : QueryBuilder.query) (t : option time_constraint) : list argument :=
  [a_provider p; a_time (constraint_or_none t); a_query q].
Definition get_connection_arguments (p : P) (t : option time_constraint) : list argument :=
  [a_provider p; a_time (constraint_or_none t)].
Definition begin_arguments (o : QueryBuilder.transaction_options) (p : P) (t : option time_constraint) : list argument :=
  [a_provider p; a_options o; a_query (QueryBuilder.begin_statement o); a_time (constraint_or_none t)].

Definition call_arguments (op : operation) (c : user_call) : option (list argument) :=
  match op, c with
  | request_op _, call_request p q t out => Some (request_arguments p q t out)
  | execute_op _, call_execute p q t => Some (execute_arguments p q t)
  | get_connection_op _, call_get_connection p t => Some (get_connection_arguments p t)
  | begin_op _ o, call_begin p t => Some (begin_arguments o p t)
  | _, _ => None
  end.

(** The parameters of the [operator()] of an initiator. *)
Definition accepts (i : initiator) (args : list argument) : bool :=
  match i, args with
  | initiate_async_request, [a_provider _; a_time _; a_query _; a_out _] => true
  | initiate_async_execute, [a_provider _; a_time _; a_query _] => true
  | initiate_async_get_connection, [a_provider _; a_time _] => true
  | initiate_async_start_transaction, [a_provider _; a_options _; a_query _; a_time _] => true
  | _, _ => false
  end.

(** ** What an initiator does *)

Inductive happening : Type :=
| started (i : initiator) (args : list argument)    (** an operation of the library is initiated *)
| by_strategy (e : event)
| user_handled (ec : error_code).                   (** the handler of the user is called *)

Scheme initiator_operation_ind := Induction for initiator Sort Prop
with operation_initiator_ind := Induction for operation Sort Prop.

(** The clock when the [k]-th operation is started, and its end. *)
Context (now : nat -> Z) (ends : nat -> completion).

(** [get_context] of the tries: the provider is bound to the role, if there is one. *)
Definition try_arguments (p : P) (rest : list argument) (c : context) : option (list argument) :=
  p' ← match ctx_role c with Some r => rebind_role p r | None => Some p end;
  t ← ctx_time c; Some (a_provider p' :: a_time t :: rest).

(** The handler an operation of the library is given: that of the user, or the
    [continuation] of a strategy, which has the operation, the try - its context being
    the provider and the other arguments - and the handler to call in the end. *)
Inductive handler : Type :=
| user_handler
| continuation (op_ : operation) (provider_ : P) (rest_ : list argument) (try_ : T) (handler_ : handler).

(** [initiate_operation]: [inner] is the initiator of the operation. *)
Definition initiate_operation_by (inner : handler -> list argument -> option (happening * handler))
  (op : operation) (p : P) (rest : list argument) (t : T) (h : handler) (k : nat) : option (happening * handler) :=
  args ← try_arguments p rest (get_try_context t (now k)); inner (continuation op p rest t h) args.

(** An initiator called with a handler and the arguments starts one operation of the
    library, with this handler or with a continuation around it. *)
Fixpoint initiate (i : initiator) (h : handler) (args : list argument) (k : nat) : option (happening * handler) :=
  match i with
  | operation_initiator s op =>
      match args with
      | a_provider p :: a_time t :: rest =>
          t0 ← get_first_try s t (now k);
          initiate_operation_by (fun h args => initiate (get_operation_initiator op) h args k) op p rest t0 h k
      | _ => None
      end
  | _ => if accepts i args then Some (started i args, h) else None
  end.

Definition initiate_operation (op : operation) (p : P) (rest : list argument) (t : T) (h : handler) (k : nat) :
  option (happening * handler) :=
  initiate_operation_by (fun h args => initiate (get_operation_initiator op) h args k) op p rest t h k.

(** [operator()] of a handler, [k] operations having been started so far: what happens,
    and the handlers of the operations that are started.  The next try of a
    continuation is initiated within [initiate_next_try]; the handler is called if
    none was. *)
Fixpoint handle (h : handler) (c : completion) (k : nat) : option (list happening * list handler) :=
  match h with
  | user_handler => Some ([user_handled (co_ec c)], [])
  | continuation op p rest t h =>
      '(es, hs) ← (if is_error (co_ec c) then
         match initiate_next_try t c with
         | (pre, Some t', post) =>
             '(e, h') ← initiate_operation op p rest t' h k;
             Some (map by_strategy pre ++ [e] ++ map by_strategy post, [h'])%list
         | (pre, None, post) => Some (map by_strategy pre ++ map by_strategy post, [])%list
         end
       else Some ([], []));
      if (0 <? length hs)%nat then Some (es, hs) else
      '(es', hs') ← handle h c k; Some (es ++ es', hs')%list
  end.

(** The operations that are under way, each with its number and its handler, until none
    is left; they end in the order in which they were started. *)
Definition numbered (k : nat) (hs : list handler) : list (nat * handler) := zip (seq k (length hs)) hs.

Fixpoint run_operations (fuel : nat) (under_way : list (nat * handler)) (k : nat) : option (list happening) :=
  match under_way with
  | [] => Some []
  | (j, h) :: others =>
      match fuel with
      | O => None
      | S fuel =>
          '(es, hs) ← handle h (ends j) k;
          es' ← run_operations fuel (others ++ numbered k hs)%list (k + length hs)%nat;
          Some (es ++ es')%list
      end
  end.

(** The tries that nested strategies may make together. *)
Fixpoint tries_product (i : initiator) : nat :=
  match i with
  | operation_initiator s op => (strategy_bound s * tries_product (get_operation_initiator op))%nat
  | _ => 1
  end.

(** The operation called by the user. *)
Definition call (op : operation) (c : user_call) : option (list happening) :=
  args ← call_arguments op c;
  '(e, h) ← initiate (get_operation_initiator op) user_handler args 0;
  es ← run_operations (tries_product (get_operation_initiator op)) [(0%nat, h)] 1;
  Some (e :: es).

(** ** The course of an operation *)

(** The start of the first try, what happens until the last one has ended, its end, and
    the number of the operations started so far. *)
Record course := mk_course {
  first_start : happening;
  afterwards : list happening;
  ended : completion;
  started_so_far : nat;
}.

(** The course of the tries of a strategy, [inner] being that of the operation it is
    built into; there are [fuel] more tries at most. *)
Fixpoint tries_course (inner : list argument -> nat -> option course) (p : P) (rest : list argument)
  (fuel : nat) (t : T) (k : nat) : option course :=
  args ← try_arguments p rest (get_try_context t (now k));
  c ← inner args k;
  if is_error (co_ec (ended c)) then
    match initiate_next_try t (ended c) with
    | (pre, Some t', post) =>
        match fuel with
        | O => None
        | S fuel =>
            c' ← tries_course inner p rest fuel t' (started_so_far c);
            Some (mk_course (first_start c)
              (afterwards c ++ map by_strategy pre ++ [first_start c'] ++ map by_strategy post ++ afterwards c')%list
              (ended c') (started_so_far c'))
        end
    | (pre, None, post) =>
        Some (mk_course (first_start c) (afterwards c ++ map by_strategy pre ++ map by_strategy post)%list
          (ended c) (started_so_far c))
    end
  else Some c.

(** The course of an initiator: an operation of the library ends once, an
    [operation_initiator] makes the first try of its provider and time constraint. *)
Fixpoint course_of (i : initiator) (args : list argument) (k : nat) : option course :=
  match i with
  | operation_initiator s op =>
      match args with
      | a_provider p :: a_time t :: rest =>
          t0 ← get_first_try s t (now k);
          tries_course (course_of (get_operation_initiator op)) p rest (tries_bound t0) t0 k
      | _ => None
      end
  | _ => if accepts i args then Some (mk_course (started i args) [] (ends k) (S k)) else None
  end.

Definition is_started (h : happening) : bool := match h with started _ _ => true | _ => false end.
Definition is_user_handled (h : happening) : bool := match h with user_handled _ => true | _ => false end.
Definition starts (hs : list happening) : nat := length (List.filter is_started hs).
Definition handler_calls (hs : list happening) : nat := length (List.filter is_user_handled hs).

(** A course that starts at most [n] operations from the [k]-th on: each but the last
    ends with an error. *)
Definition course_ok (n k : nat) (c : course) : Prop :=
  starts (first_start c :: afterwards c) = (started_so_far c - k)%nat /\
  (k < started_so_far c <= k + n)%nat /\ ended c = ends (started_so_far c - 1) /\
  handler_calls (first_start c :: afterwards c) = 0%nat /\
  forall j, (k <= j < started_so_far c - 1)%nat -> is_error (co_ec (ends j)) = true.

Lemma count_starts_app a b : starts (a ++ b) = (starts a + starts b)%nat.
Proof. unfold starts. by rewrite List.filter_app, length_app. Qed.
Lemma handler_calls_app a b : handler_calls (a ++ b) = (handler_calls a + handler_calls b)%nat.
Proof. unfold handler_calls. by rewrite List.filter_app, length_app. Qed.
Lemma count_starts_cons h a : starts (h :: a) = (starts [h] + starts a)%nat.
Proof. apply (count_starts_app [h] a). Qed.
Lemma handler_calls_cons h a : handler_calls (h :: a) = (handler_calls [h] + handler_calls a)%nat.
Proof. apply (handler_calls_app [h] a). Qed.
Lemma by_strategy_counts es : starts (map by_strategy es) = 0%nat /\ handler_calls (map by_strategy es) = 0%nat.
Proof. by induction es. Qed.

Ltac count_happenings :=
  repeat rewrite ?count_starts_app, ?handler_calls_app, ?(proj1 (by_strategy_counts _)), ?(proj2 (by_strategy_counts _)) in *.

Lemma course_ok_mono n n' k c : (n <= n')%nat -> course_ok n k c -> course_ok n' k c.
Proof. intros Hn (H1' & H2' & H3' & H4' & H5'). unfold course_ok. split_and!; try done; lia. Qed.

(** A try that fails and the tries that follow it are one course. *)
Lemma course_ok_next n m k c c' pre post :
  course_ok n k c -> is_error (co_ec (ended c)) = true -> course_ok m (started_so_far c) c' ->
  course_ok (n + m) k (mk_course (first_start c)
    (afterwards c ++ map by_strategy pre ++ [first_start c'] ++ map by_strategy post ++ afterwards c')%list
    (ended c') (started_so_far c')).
Proof.
  intros (Ha & Hb & Hc & Hd & He) Herr (Ha' & Hb' & Hc' & Hd' & He').
  rewrite count_starts_cons in Ha, Ha'. rewrite handler_calls_cons in Hd, Hd'.
  unfold course_ok. cbn [first_start afterwards ended started_so_far].
  rewrite count_starts_cons, handler_calls_cons. count_happenings.
  split_and!; try done; try lia. intros j Hj.
  destruct (decide (j < started_so_far c - 1)%nat); [apply He; lia|].
  destruct (decide (j = started_so_far c - 1)%nat) as [->|]; [by rewrite <- Hc|]. apply He'. lia.
Qed.

Lemma course_ok_last n k c pre post :
  course_ok n k c ->
  course_ok n k (mk_course (first_start c) (afterwards c ++ map by_strategy pre ++ map by_strategy post)%list
    (ended c) (started_so_far c)).
Proof.
  intros (Ha & Hb & Hc & Hd & He). rewrite count_starts_cons in Ha. rewrite handler_calls_cons in Hd.
  unfold course_ok. cbn [first_start afterwards ended started_so_far].
  rewrite count_starts_cons, handler_calls_cons. count_happenings. split_and!; try done; lia.
Qed.

Lemma tries_course_spec inner n p rest fuel t k c :
  (forall args k c, inner args k = Some c -> course_ok n k c) ->
  tries_course inner p rest fuel t k = Some c -> course_ok (S (tries_bound t) * n) k c.
Proof.
  intros Hinner. revert t k c. induction fuel as [|fuel IH]; intros t k c; cbn [tries_course];
    (destruct (try_arguments p rest _) as [args|]; [|done]); cbn;
    (destruct (inner args k) as [c1|] eqn:Hc1; [|done]); cbn; apply Hinner in Hc1;
    assert (course_ok (S (tries_bound t) * n) k c1) as Hc1' by (eapply course_ok_mono; [|exact Hc1]; lia);
    (destruct (is_error (co_ec (ended c1))) eqn:He; [|by intros [= <-]]);
    destruct (initiate_next_try t (ended c1)) as [[pre [t'|]] post] eqn:Hn; try done.
  1, 3: intros [= <-]; by apply course_ok_last.
  destruct (tries_course inner p rest fuel t' (started_so_far c1)) as [c2|] eqn:Hc2; [|done].
  cbn. intros [= <-]. pose proof (next_decreases _ _ _ _ _ Hn). apply IH in Hc2.
  eapply course_ok_mono; [|exact (course_ok_next _ _ _ _ _ pre post Hc1 He Hc2)]. nia.
Qed.

Lemma course_spec i : forall args k c, course_of i args k = Some c -> course_ok (tries_product i) k c.
Proof.
  apply (initiator_operation_ind (fun i => forall args k c, course_of i args k = Some c ->
      course_ok (tries_product i) k c)
    (fun op => forall args k c, course_of (get_operation_initiator op) args k = Some c ->
      course_ok (tries_product (get_operation_initiator op)) k c)); try done.
  1-4: cbn [course_of]; intros args k c; (destruct (accepts _ args); [|done]); intros [= <-];
    unfold course_ok; cbn; rewrite Nat.sub_0_r; split_and!; try done; lia.
  intros s op IH args k c. cbn [course_of tries_product].
  destruct args as [|[p| | | |] [|[|t| | |] rest]]; try done.
  destruct (get_first_try s t (now k)) as [t0|] eqn:Hf; [|done]. cbn [mbind option_bind].
  intros Hc. eapply course_ok_mono; [|exact (tries_course_spec _ _ _ _ _ _ _ _ IH Hc)].
  apply first_try_bound in Hf. nia.
Qed.

(** *** The handlers follow the course *)

(** A handler is called and what it has started runs. *)
Definition finish (fuel : nat) (h : handler) (c : completion) (k : nat) : option (list happening) :=
  '(es, hs) ← handle h c k;
  es' ← run_operations fuel (numbered k hs) (k + length hs)%nat;
  Some (es ++ es')%list.

(** An initiator [start], given a handler, that starts an operation whose course is
    [c]: at the end of it the handler is called. *)
Definition follows (start : handler -> option (happening * handler)) (c : course) (k : nat) : Prop :=
  forall h, exists h1, start h = Some (first_start c, h1) /\
    forall fuel, run_operations (started_so_far c - k + fuel) [(k, h1)] (S k) =
      (es ← finish fuel h (ended c) (started_so_far c); Some (afterwards c ++ es)%list).

Lemma run_one fuel j h k : run_operations (S fuel) [(j, h)] k = finish fuel h (ends j) k.
Proof. done. Qed.

Lemma finish_continuation fuel op p rest t h c k :
  finish fuel (continuation op p rest t h) c k =
  if is_error (co_ec c) then
    match initiate_next_try t c with
    | (pre, Some t', post) =>
        '(e, h') ← initiate_operation op p rest t' h k;
        es ← run_operations fuel [(k, h')] (S k);
        Some (map by_strategy pre ++ [e] ++ map by_strategy post ++ es)%list
    | (pre, None, post) =>
        es ← finish fuel h c k; Some (map by_strategy pre ++ map by_strategy post ++ es)%list
    end
  else finish fuel h c k.
Proof.
  unfold finish. cbn [handle]. destruct (is_error (co_ec c)).
  - destruct (initiate_next_try t c) as [[pre [t'|]] post].
    + destruct (initiate_operation op p rest t' h k) as [[e h']|]; [|done]. cbn.
      rewrite Nat.add_1_r. destruct (run_operations fuel _ _); [|done]. cbn. by rewrite <- !app_assoc.
    + cbn [mbind option_bind]. change ((0 <? length (@nil handler))%nat) with false. cbn iota.
      destruct (handle h c k) as [[es hs]|]; [|done]. cbn [mbind option_bind].
      destruct (run_operations fuel _ _); [|done]. cbn. by rewrite <- !app_assoc.
  - cbn [mbind option_bind]. change ((0 <? length (@nil handler))%nat) with false. cbn iota.
    destruct (handle h c k) as [[es hs]|]; [|done]. cbn [mbind option_bind].
    by destruct (run_operations fuel _ _).
Qed.

Lemma tries_follow op n p rest fuel t k c :
  (forall args k c, course_of (get_operation_initiator op) args k = Some c ->
     course_ok n k c /\ follows (fun h => initiate (get_operation_initiator op) h args k) c k) ->
  tries_course (course_of (get_operation_initiator op)) p rest fuel t k = Some c ->
  follows (fun h => initiate_operation op p rest t h k) c k.
Proof.
  intros Hinner. revert t k c. induction fuel as [|fuel IH]; intros t k c; cbn [tries_course];
    (destruct (try_arguments p rest _) as [args|] eqn:Hargs; [|done]); cbn [mbind option_bind];
    (destruct (course_of _ args k) as [c1|] eqn:Hc1; [|done]); cbn [mbind option_bind];
    apply Hinner in Hc1 as [(_ & Hk1 & _) Hf];
    (assert (forall h, initiate_operation op p rest t h k =
       initiate (get_operation_initiator op) (continuation op p rest t h) args k) as Hi
       by (intros h'; unfold initiate_operation, initiate_operation_by; by rewrite Hargs));
    (destruct (is_error (co_ec (ended c1))) eqn:He;
     [|intros [= <-] h; destruct (Hf (continuation op p rest t h)) as (h1 & Hs & Hr); exists h1; rewrite Hi;
       split; [done|]; intros f; rewrite Hr, finish_continuation, He; done]);
    destruct (initiate_next_try t (ended c1)) as [[pre [t'|]] post] eqn:Hn; try done.
  1, 3: intros [= <-] h; destruct (Hf (continuation op p rest t h)) as (h1 & Hs & Hr); exists h1; rewrite Hi;
    (split; [done|]); intros f; cbn [started_so_far ended afterwards]; rewrite Hr, finish_continuation, He, Hn;
    destruct (finish f h (ended c1) (started_so_far c1)); cbn; by rewrite ?app_assoc.
  destruct (tries_course _ p rest fuel t' (started_so_far c1)) as [c2|] eqn:Hc2; [|done].
  pose proof (tries_course_spec _ n _ _ _ _ _ _ (fun a k c H => proj1 (Hinner a k c H)) Hc2) as (_ & Hk2 & _).
  cbn [mbind option_bind]. intros [= <-] h. destruct (Hf (continuation op p rest t h)) as (h1 & Hs & Hr).
  exists h1. rewrite Hi. split; [done|]. intros f. cbn [started_so_far ended afterwards].
  destruct (IH _ _ _ Hc2 h) as (h2 & Hs2 & Hr2).
  replace (started_so_far c2 - k + f)%nat with (started_so_far c1 - k + (started_so_far c2 - started_so_far c1 + f))%nat by lia.
  rewrite Hr, finish_continuation, He, Hn, Hs2. cbn [mbind option_bind]. rewrite Hr2.
  destruct (finish f h (ended c2) (started_so_far c2)); cbn; [|done]. f_equal.
  rewrite <- !app_assoc. cbn. by rewrite <- ?app_assoc.
Qed.

Lemma initiate_follows i : forall args k c, course_of i args k = Some c -> follows (fun h => initiate i h args k) c k.
Proof.
  apply (initiator_operation_ind (fun i => forall args k c, course_of i args k = Some c ->
      follows (fun h => initiate i h args k) c k)
    (fun op => forall args k c, course_of (get_operation_initiator op) args k = Some c ->
      follows (fun h => initiate (get_operation_initiator op) h args k) c k)); try done.
  1-4: cbn [course_of initiate]; intros args k c; (destruct (accepts _ args); [|done]); intros [= <-] h;
    exists h; (split; [done|]); intros fuel; cbn [started_so_far ended afterwards];
    rewrite Nat.sub_succ_l, Nat.sub_diag by lia; cbn [Nat.add]; rewrite run_one;
    by destruct (finish fuel h (ends k) (S k)).
  intros s op IH args k c. cbn [course_of initiate].
  destruct args as [|[p| | | |] [|[|t| | |] rest]]; try done.
  destruct (get_first_try s t (now k)) as [t0|]; [|done]. cbn [mbind option_bind]. intros Hc.
  refine (tries_follow op (tries_product (get_operation_initiator op)) p rest _ t0 k c _ Hc).
  intros args' k' c' Hc'. split; [by eapply course_spec | by apply IH].
Qed.

(** The handler of the user is called when the course has ended. *)
Lemma call_follows op c args r :
  call_arguments op c = Some args -> course_of (get_operation_initiator op) args 0 = Some r ->
  call op c = Some (first_start r :: afterwards r ++ [user_handled (co_ec (ended r))])%list.
Proof.
  intros Hc Hr. unfold call. rewrite Hc. cbn [mbind option_bind].
  pose proof (course_spec _ _ _ _ Hr) as (_ & Hn & _).
  destruct (initiate_follows _ _ _ _ Hr user_handler) as (h1 & -> & Hrun). cbn [mbind option_bind].
  replace (tries_product (get_operation_initiator op)) with
    (started_so_far r - 0 + (tries_product (get_operation_initiator op) - started_so_far r))%nat by lia.
  rewrite Hrun. cbn. by destruct (tries_product _ - _)%nat.
Qed.

(** ** Operations that can be called *)

(** The initiator below all strategies. *)
Fixpoint base_initiator (i : initiator) : initiator :=
  match i with operation_initiator _ op => base_initiator (get_operation_initiator op) | _ => i end.

(** The operations a user can make of those of the library. *)
Inductive built (strategies : St -> Prop) : operation -> Prop :=
| built_request : built strategies request
| built_execute : built strategies execute
| built_get_connection : built strategies get_connection
| built_begin : built strategies begin_
| built_options op o op' :
    built strategies op -> with_transaction_options op o = Some op' -> built strategies op'
| built_subscript op s : built strategies op -> strategies s -> built strategies (subscript op s).

Fixpoint initiator_strategies (Q : St -> Prop) (i : initiator) : Prop :=
  match i with
  | operation_initiator s op => Q s /\ initiator_strategies Q (get_operation_initiator op)
  | _ => True
  end.

Definition is_begin (op : operation) : bool := match op with begin_op _ _ => true | _ => false end.

Definition initiator_of_begin (i : initiator) : bool :=
  match i with initiate_async_start_transaction => true | _ => false end.

(** An operation stays what it was: its arguments suit the initiator at the base. *)
Lemma built_accepts Q op c args :
  built Q op -> call_arguments op c = Some args ->
  accepts (base_initiator (get_operation_initiator op)) args = true /\
  initiator_strategies Q (get_operation_initiator op) /\
  is_begin op = initiator_of_begin (base_initiator (get_operation_initiator op)).
Proof.
  intros Hb. revert args. induction Hb as [| | | |op o op' Hb IH Ho|op s Hb IH Hs]; intros args Hc.
  1-4: destruct c; try done; cbn in *; by simplify_eq.
  - destruct op as [| | |i o0]; try done. injection Ho as <-. destruct c as [| | |p t]; try done.
    destruct (IH _ eq_refl) as (Ha & Hst & Hbeg). cbn in *. simplify_eq. split_and!; try done.
  - assert (call_arguments op c = Some args) as Hc' by (by destruct op, c).
    destruct (IH _ Hc') as (Ha & Hst & Hbeg). by destruct op.
Qed.

(** A strategy built into [begin] is given the options of the transaction where it
    expects the time constraint: such a call does not compile. *)
Theorem begin_not_failover_compatible s op o p t :
  initiate (get_operation_initiator (subscript (begin_op op o) s)) user_handler
    (default [] (call_arguments (subscript (begin_op op o) s) (call_begin p t))) 0 = None.
Proof. done. Qed.

(** ** Strategies that are never without a try *)

Definition time_fits (t : time_constraint) : bool :=
  match t with no_constraint => true | after d => in_S 64 d | until d => in_S 64 d end.

(** The roles that are supported, and the providers that support them. *)
Context (supported : role -> Prop) (provider_ok : P -> Prop).
Context (strategy_ok : St -> Prop) (try_ok : T -> Prop).

(** What the strategies promise: a first try, and tries whose arguments can be had. *)
Definition strategies_sound : Prop :=
  (forall s t n, strategy_ok s -> time_fits t = true -> clock_ok n = true ->
     exists t0, get_first_try s t n = Some t0 /\ try_ok t0) /\
  (forall t n, try_ok t -> clock_ok n = true -> exists r t', get_try_context t n = mk_context r (Some t') /\
     time_fits t' = true /\ forall x, r = Some x -> supported x) /\
  (forall t c pre t' post, try_ok t -> initiate_next_try t c = (pre, Some t', post) -> try_ok t').

Definition argument_ok (a : argument) : Prop :=
  match a with a_provider p => provider_ok p | a_time t => time_fits t = true | _ => True end.

Context (Hsound : strategies_sound).
Context (Hrebind : forall p r, provider_ok p -> supported r -> exists p', rebind_role p r = Some p' /\ provider_ok p').
Context (Hclock : forall k, clock_ok (now k) = true).

Lemma try_arguments_ok p rest t k :
  try_ok t -> provider_ok p -> exists p' t', provider_ok p' /\ time_fits t' = true /\
    try_arguments p rest (get_try_context t (now k)) = Some (a_provider p' :: a_time t' :: rest).
Proof.
  intros Ht Hp. destruct Hsound as (_ & Hctx & _). destruct (Hctx t (now k) Ht (Hclock k)) as (r & t' & -> & Hf & Hr).
  unfold try_arguments. cbn. destruct r as [r|].
  - destruct (Hrebind p r Hp (Hr r eq_refl)) as (p' & -> & Hp'). by exists p', t'.
  - by exists p, t'.
Qed.

Lemma tries_course_total inner p rest fuel t k :
  (forall p t k, provider_ok p -> time_fits t = true -> is_Some (inner (a_provider p :: a_time t :: rest) k)) ->
  try_ok t -> provider_ok p -> (tries_bound t <= fuel)%nat ->
  is_Some (tries_course inner p rest fuel t k).
Proof.
  intros Hinner. revert t k. induction fuel as [|fuel IH]; intros t k Ht Hp Hb; cbn [tries_course];
    destruct (try_arguments_ok p rest t k Ht Hp) as (p' & t' & Hp' & Ht' & ->); cbn [mbind option_bind];
    destruct (Hinner p' t' k Hp' Ht') as [c ->]; cbn [mbind option_bind];
    (destruct (is_error _); [|done]);
    destruct (initiate_next_try t (ended c)) as [[pre [t''|]] post] eqn:Hn; try done;
    pose proof (next_decreases _ _ _ _ _ Hn); [lia|].
  destruct (IH t'' (started_so_far c)) as [c' ->]; [|done|lia|by eexists].
  destruct Hsound as (_ & _ & Hnext). exact (Hnext _ _ _ _ _ Ht Hn).
Qed.

Lemma course_total i : forall args k,
  initiator_strategies strategy_ok i -> accepts (base_initiator i) args = true ->
  initiator_of_begin (base_initiator i) = false -> Forall argument_ok args -> is_Some (course_of i args k).
Proof.
  apply (initiator_operation_ind (fun i => forall args k,
      initiator_strategies strategy_ok i -> accepts (base_initiator i) args = true ->
      initiator_of_begin (base_initiator i) = false -> Forall argument_ok args -> is_Some (course_of i args k))
    (fun op => forall args k, let i := get_operation_initiator op in
      initiator_strategies strategy_ok i -> accepts (base_initiator i) args = true ->
      initiator_of_begin (base_initiator i) = false -> Forall argument_ok args -> is_Some (course_of i args k)));
    try done.
  1-3: intros args k _ Ha _ _; cbn [course_of]; cbn [base_initiator] in Ha; rewrite Ha; by eexists.
  intros s op IH args k [Hs Hi] Ha Hb Hargs. cbn [base_initiator] in Ha, Hb.
  assert (exists p t rest, args = a_provider p :: a_time t :: rest /\
    forall p t, accepts (base_initiator (get_operation_initiator op)) (a_provider p :: a_time t :: rest) = true)
    as (p & t & rest & -> & Ha').
  { destruct (base_initiator _); try done; destruct args as [|[p| | | |] [|[|t| | |] rest]]; try done; by exists p, t, rest. }
  apply Forall_cons in Hargs as [Hp [Ht Hrest]%Forall_cons]. cbn in Hp, Ht. cbn [course_of].
  destruct Hsound as (Hfirst & _). destruct (Hfirst s t (now k) Hs Ht (Hclock k)) as (t0 & -> & Ht0).
  cbn [mbind option_bind]. apply tries_course_total; try done.
  intros p' t' k' Hp' Ht'. apply IH; try done. by repeat constructor.
Qed.

(** What happens when an operation is called. *)
Lemma call_course op c args :
  built strategy_ok op -> is_begin op = false -> call_arguments op c = Some args -> Forall argument_ok args ->
  exists hs n, call op c = Some (hs ++ [user_handled (co_ec (ends (n - 1)))])%list /\
    handler_calls hs = 0%nat /\ starts hs = n /\
    (1 <= n <= tries_product (get_operation_initiator op))%nat /\
    forall j, (S j < n)%nat -> is_error (co_ec (ends j)) = true.
Proof.
  intros Hb Hbeg Hc Hargs. destruct (built_accepts _ _ _ _ Hb Hc) as (Ha & Hs & Hbeg').
  rewrite Hbeg in Hbeg'. destruct (course_total _ args 0 Hs Ha (eq_sym Hbeg') Hargs) as [r Hr].
  pose proof (course_spec _ _ _ _ Hr) as (H1' & H2' & H3' & H4' & H5').
  exists (first_start r :: afterwards r), (started_so_far r). rewrite (call_follows _ _ _ _ Hc Hr), H3'. split; [done|].
  split_and!; [done | lia | lia | lia |]. intros j Hj. apply H5'. lia.
Qed.

(** Strategies that give up only when they have no try left. *)
Definition strategies_persist (persistent : St -> Prop) (trying : T -> Prop) : Prop :=
  (forall s t n t0, persistent s -> get_first_try s t n = Some t0 ->
     trying t0 /\ S (tries_bound t0) = strategy_bound s) /\
  (forall t c, trying t -> is_error (co_ec c) = true ->
     match initiate_next_try t c with
     | (_, Some t', _) => trying t' /\ tries_bound t = S (tries_bound t')
     | (_, None, _) => tries_bound t = 0%nat
     end).

Lemma tries_course_all_fail trying inner n p rest fuel t k c :
  (forall t c, trying t -> is_error (co_ec c) = true ->
     match initiate_next_try t c with
     | (_, Some t', _) => trying t' /\ tries_bound t = S (tries_bound t')
     | (_, None, _) => tries_bound t = 0%nat
     end) ->
  (forall args k c, inner args k = Some c -> started_so_far c = (k + n)%nat /\ is_error (co_ec (ended c)) = true) ->
  trying t -> tries_course inner p rest fuel t k = Some c ->
  started_so_far c = (k + S (tries_bound t) * n)%nat.
Proof.
  intros Hnext Hinner. revert t k c. induction fuel as [|fuel IH]; intros t k c Ht; cbn [tries_course];
    (destruct (try_arguments p rest _) as [args|]; [|done]); cbn [mbind option_bind];
    (destruct (inner args k) as [c1|] eqn:Hc1; [|done]); cbn [mbind option_bind];
    apply Hinner in Hc1 as [Hc1 He]; rewrite He; specialize (Hnext t (ended c1) Ht He) as Hn;
    destruct (initiate_next_try t (ended c1)) as [[pre [t'|]] post]; try done.
  1, 3: intros [= <-]; cbn; rewrite Hc1, Hn; lia.
  destruct Hn as [Ht' Hb].
  destruct (tries_course inner p rest fuel t' (started_so_far c1)) as [c2|] eqn:Hc2; [|done].
  cbn [mbind option_bind]. intros [= <-]. cbn. rewrite (IH _ _ _ Ht' Hc2), Hc1, Hb. lia.
Qed.

Lemma course_all_fail persistent trying i :
  strategies_persist persistent trying -> (forall j, is_error (co_ec (ends j)) = true) ->
  forall args k c, initiator_strategies persistent i -> course_of i args k = Some c ->
    started_so_far c = (k + tries_product i)%nat.
Proof.
  intros [Hfirst Hnext] Hends.
  apply (initiator_operation_ind (fun i => forall args k c, initiator_strategies persistent i ->
      course_of i args k = Some c -> started_so_far c = (k + tries_product i)%nat)
    (fun op => forall args k c, initiator_strategies persistent (get_operation_initiator op) ->
      course_of (get_operation_initiator op) args k = Some c ->
      started_so_far c = (k + tries_product (get_operation_initiator op))%nat)); try done.
  1-4: cbn [course_of]; intros args k c _; (destruct (accepts _ args); [|done]); intros [= <-]; cbn; lia.
  intros s op IH args k c [Hs Hi]. cbn [course_of tries_product].
  destruct args as [|[p| | | |] [|[|t| | |] rest]]; try done.
  destruct (get_first_try s t (now k)) as [t0|] eqn:Hf; [|done]. cbn [mbind option_bind]. intros Hc.
  destruct (Hfirst _ _ _ _ Hs Hf) as [Ht0 <-].
  eapply tries_course_all_fail; [exact Hnext | | exact Ht0 | exact Hc].
  intros args' k' c' Hc'. split; [by eapply IH|].
  destruct (course_spec _ _ _ _ Hc') as (_ & _ & -> & _). apply Hends.
Qed.

(** ** One strategy *)

(** What happens to the operation of [i] is the event of the driver of [Failover]. *)
Definition shows (i : initiator) (p : P) (rest : list argument) (h : happening) (e : event) : Prop :=
  match h, e with
  | started i' args, initiated c => i' = i /\ try_arguments p rest c = Some args
  | by_strategy e', _ => e' = e
  | user_handled ec, handled ec' => ec = ec'
  | _, _ => False
  end.

Lemma shows_by_strategy i p rest es : Forall2 (shows i p rest) (map by_strategy es) es.
Proof. induction es; by constructor. Qed.

Lemma tries_course_run i p rest fuel t k c :
  base_initiator i = i -> tries_course (course_of i) p rest fuel t k = Some c ->
  Forall2 (shows i p rest) (first_start c :: afterwards c ++ [user_handled (co_ec (ended c))])%list
    (initiated (get_try_context t (now k)) :: continue now ends fuel t k).
Proof.
  intros Hi.
  assert (forall args k c, course_of i args k = Some c -> c = mk_course (started i args) [] (ends k) (S k)) as Hinner.
  { intros args k' c'. destruct i as [| | | |s op]; cbn [course_of].
    1-4: by destruct (accepts _ args); [intros [= <-]|].
    exfalso. clear -Hi. revert Hi.
    assert (forall j s op, base_initiator j <> operation_initiator s op) as Hb.
    { apply (initiator_operation_ind (fun j => forall s op, base_initiator j <> operation_initiator s op)
        (fun o => forall s op, base_initiator (get_operation_initiator o) <> operation_initiator s op)); done. }
    cbn [base_initiator]. apply Hb. }
  revert t k c. induction fuel as [|fuel IH]; intros t k c; cbn [tries_course continue];
    (destruct (try_arguments p rest (get_try_context t (now k))) as [args|] eqn:Hargs; [|done]);
    cbn [mbind option_bind]; (destruct (course_of i args k) as [c1|] eqn:Hc1; [|done]);
    cbn [mbind option_bind]; apply Hinner in Hc1 as ->; cbn [ended started_so_far first_start afterwards];
    (destruct (is_error (co_ec (ends k))) eqn:He;
     [|intros [= <-]; constructor; [done | cbn; by repeat constructor]]);
    destruct (initiate_next_try t (ends k)) as [[pre [t'|]] post]; try done.
  1, 3: intros [= <-]; cbn; constructor; [done|]; rewrite <- app_assoc;
    repeat apply Forall2_app; try apply shows_by_strategy; by repeat constructor.
  destruct (tries_course (course_of i) p rest fuel t' (S k)) as [c2|] eqn:Hc2; [|done].
  cbn [mbind option_bind]. intros [= <-]. cbn [ended first_start afterwards].
  apply IH in Hc2. apply Forall2_cons in Hc2 as [Hs Hc2]. constructor; [done|]. cbn [app].
  rewrite <- !app_assoc. apply Forall2_app; [apply shows_by_strategy|]. cbn [app].
  constructor; [done|]. rewrite <- app_assoc. by apply Forall2_app; [apply shows_by_strategy|].
Qed.

(** ** Properties *)

(** C13. Strategies nest: however many are built into [request], [execute] or
    [get_connection] with [operator[]] ([begin] does not take any), the continuations
    come to an end, and the handler of the user is called exactly once, after everything
    else, with the error of the last operation that was started; every operation
    started before that ended with an error.  There are no more starts than the product
    of the tries of the strategies; and exactly as many if each start fails and each
    of the strategies gives up only without a try left, which unconditional retries do
    ([retries_persist]) and role-based strategies need not. *)
Theorem nested_failover_once op c args :
  built strategy_ok op -> is_begin op = false -> call_arguments op c = Some args -> Forall argument_ok args ->
  exists hs n, call op c = Some (hs ++ [user_handled (co_ec (ends (n - 1)))])%list /\
    handler_calls hs = 0%nat /\ starts hs = n /\
    (1 <= n <= tries_product (get_operation_initiator op))%nat /\
    (forall j, (S j < n)%nat -> is_error (co_ec (ends j)) = true) /\
    (forall persistent trying, strategies_persist persistent trying -> built persistent op ->
       (forall j, is_error (co_ec (ends j)) = true) -> n = tries_product (get_operation_initiator op)).
Proof.
  intros Hb Hbeg Hc Hargs. destruct (call_course op c args Hb Hbeg Hc Hargs) as (hs & n & Hcall & Hh & Hn & Hr & He).
  exists hs, n. split_and!; try done; try lia. intros persistent trying Hp Hbp Hends.
  destruct (built_accepts _ _ _ _ Hbp Hc) as (_ & Hs & _). destruct (built_accepts _ _ _ _ Hb Hc) as (Ha & Hso & Hbeg').
  rewrite Hbeg in Hbeg'. destruct (course_total _ args 0 Hso Ha (eq_sym Hbeg') Hargs) as [r Hi].
  rewrite (call_follows _ _ _ _ Hc Hi) in Hcall.
  injection Hcall as Hcall. rewrite app_comm_cons in Hcall. apply app_inj_tail in Hcall as [<- _].
  rewrite <- Hn. destruct (course_spec _ _ _ _ Hi) as (-> & _).
  rewrite (course_all_fail _ _ _ Hp Hends _ _ _ Hs Hi). lia.
Qed.

(** An operation with one strategy does what the driver of [Failover] does: its events
    are those of [run] for the first try of the strategy, each try being started with
    the provider and the time constraint of its context and the other arguments of
    the call. *)
Theorem one_strategy_runs s op c args r :
  op = request \/ op = execute \/ op = get_connection ->
  call_arguments op c = Some args -> course_of (operation_initiator s op) args 0 = Some r ->
  exists p t rest t0 hs, args = a_provider p :: a_time t :: rest /\
    get_first_try s t (now 0) = Some t0 /\ call (subscript op s) c = Some hs /\
    Forall2 (shows (get_operation_initiator op) p rest) hs (run now ends (tries_bound t0) t0).
Proof.
  intros Hop Hc Hr. assert (call_arguments (subscript op s) c = Some args) as Hc'
    by (by destruct Hop as [->|[->| ->]]; destruct c).
  assert (get_operation_initiator (subscript op s) = operation_initiator s op) as Hi by (by destruct op).
  pose proof (call_follows (subscript op s) c args r Hc') as Hcall. rewrite Hi in Hcall. specialize (Hcall Hr).
  cbn [course_of] in Hr. destruct args as [|[p| | | |] [|[|t| | |] rest]]; try done.
  destruct (get_first_try s t (now 0)) as [t0|] eqn:Hf; [|done]. cbn [mbind option_bind] in Hr.
  exists p, t, rest, t0. eexists. split; [done|]. split; [done|]. split; [exact Hcall|].
  apply tries_course_run; [|done]. by destruct Hop as [->|[->| ->]].
Qed.

End Operations.
Arguments initiator : clear implicits.
Arguments operation : clear implicits.

(** ** The strategies of the library *)

(** The kind of the tries is known from the strategy. *)
#[export] Hint Mode FailoverTry ! : typeclass_instances.
#[export] Hint Mode FailoverTryLaws ! - : typeclass_instances.

(** One of two kinds of tries. *)
#[export] Instance sum_try {A B} `{FailoverTry A} `{FailoverTry B} : FailoverTry (A + B) := {
  get_try_context t n := match t with inl a => get_try_context a n | inr b => get_try_context b n end;
  initiate_next_try t c :=
    match t with
    | inl a => let '(pre, next, post) := initiate_next_try a c in (pre, inl <$> next, post)
    | inr b => let '(pre, next, post) := initiate_next_try b c in (pre, inr <$> next, post)
    end;
}.

#[export] Instance sum_try_laws {A B} `{FailoverTryLaws A} `{FailoverTryLaws B} : FailoverTryLaws (A + B).
Proof.
  apply (Build_FailoverTryLaws _ _ (fun t => match t with inl a => tries_bound a | inr b => tries_bound b end)).
  - intros [a|b] c pre t' post; cbn; destruct (initiate_next_try _ c) as [[pre' [x|]] post'] eqn:Hn;
      intros Heq; simplify_eq/=; by eapply next_decreases.
  - intros [a|b] c pre t' post; cbn; destruct (initiate_next_try _ c) as [[pre' x] post'] eqn:Hn;
      intros Heq; simplify_eq/=; exact (next_quiet _ _ _ _ _ Hn).
Defined.

Section Strategies.
Context `{Boost}.

(** A retry strategy or a role-based one, with its options. *)
Definition strategy : Type := gmap string Options.RetryStrategy.retry_value + gmap string RoleSource.role_value.

Definition first_try (s : strategy) (t : time_constraint) (n : Z) : option (basic_try + role_based_try) :=
  match s with
  | inl m => inl <$> Options.RetryStrategy.get_first_try m t n
  | inr m => inr <$> RoleSource.get_first_try m t n
  end.

Definition tries_of (s : strategy) : nat :=
  match s with
  | inl m => match Options.RetryStrategy.read_options m with
             | Some o => Z.to_nat (Z.max 1 (op_tries o)) | None => 0 end
  | inr m => match Options.get_option m RoleSource.roles with
             | Some (RoleSource.v_roles rs) => length rs | _ => 0 end
  end.

#[export] Instance library_strategies : FailoverStrategy strategy (basic_try + role_based_try).
Proof.
  refine {| get_first_try := first_try; strategy_bound := tries_of |}.
  intros [m|m] t n t0; cbn [first_try tries_of].
  - unfold Options.RetryStrategy.get_first_try. destruct (Options.RetryStrategy.read_options m) as [o|]; [|done].
    cbn. unfold retry_first_try. destruct (first_deadline t n); [|done]. intros [= <-]. cbn.
    unfold tries_remain. cbn. lia.
  - unfold RoleSource.get_first_try. destruct (Options.get_option m RoleSource.roles) as [[| |rs]|]; try done.
    destruct rs as [|r rs]; [done|]. unfold role_based_first_try.
    destruct (first_deadline t n); [|done]. intros [= <-]. cbn. unfold tries_left. cbn. lia.
Defined.

(** A strategy with the options it needs, and with roles that are supported. *)
Definition strategy_complete (supported : role -> Prop) (s : strategy) : Prop :=
  match s with
  | inl m => is_Some (Options.RetryStrategy.read_options m)
  | inr m => exists r rs, Options.get_option m RoleSource.roles = Some (RoleSource.v_roles (r :: rs)) /\
      Forall supported (r :: rs)
  end.

(** The deadline a try keeps is [none] or a time point. *)
Definition deadline_fits (d : time_constraint) : Prop :=
  match d with after _ => False | d => time_fits d = true end.

Definition try_complete (supported : role -> Prop) (t : basic_try + role_based_try) : Prop :=
  match t with
  | inl t => deadline_fits (bt_deadline t)
  | inr t => deadline_fits (rb_deadline t) /\ Forall supported (rb_roles t)
  end.

Lemma first_deadline_fits t n :
  time_fits t = true -> clock_ok n = true -> exists d, first_deadline t n = Some d /\ deadline_fits d.
Proof.
  intros Ht Hn. unfold first_deadline. destruct t as [|d|d]; cbn in *; [by eexists| |by eexists].
  rewrite deadline_value by done. cbn. eexists. split; [done|]. cbn. apply in_S64_iff.
  unfold clock_ok in Hn. apply in_S64_iff in Ht. unfold time_max, INT64_MAX, INT64_MIN in *. lia.
Qed.

Lemma quot_fits l n : 0 <= l <= INT64_MAX -> 0 < n -> in_S 64 (Z.quot l n) = true.
Proof.
  intros Hl Hn. apply in_S64_iff. unfold INT64_MAX, INT64_MIN in *. rewrite Z.quot_div_nonneg by lia.
  pose proof (Z.div_pos l n). pose proof (Z.div_le_upper_bound l n l). nia.
Qed.

Lemma try_time_fits d n tries :
  deadline_fits d -> clock_ok n = true ->
  exists t', get_try_time_constraint d tries n = Some t' /\ time_fits t' = true.
Proof.
  intros Hd Hn. destruct d as [|d|d]; [by eexists|done|]. cbn in *.
  destruct (Z.ltb_spec 0 tries); [|by eexists]. rewrite time_left_value by done. cbn. eexists. split; [done|].
  cbn. apply quot_fits; [|done]. apply in_S64_iff in Hd. unfold clock_ok in Hn.
  unfold time_max, INT64_MAX, INT64_MIN in *. lia.
Qed.

Lemma library_strategies_sound supported :
  strategies_sound supported (strategy_complete supported) (try_complete supported).
Proof.
  split_and!.
  - intros [m|m] t n Hs Ht Hn; destruct (first_deadline_fits t n Ht Hn) as (d & Hd & Hf);
      cbn [get_first_try library_strategies first_try].
    + destruct Hs as [o Ho]. unfold Options.RetryStrategy.get_first_try, retry_first_try. rewrite Ho. cbn. rewrite Hd.
      by eexists.
    + destruct Hs as (r & rs & Hr & Hall). unfold RoleSource.get_first_try, role_based_first_try. rewrite Hr, Hd.
      eexists. by split.
  - intros [t|t] n Ht Hn.
    + destruct (try_time_fits _ n (tries_remain t) Ht Hn) as (t' & Hc & Hf). cbn. rewrite Hc. by exists None, t'.
    + destruct Ht as [Ht Hr]. destruct (try_time_fits _ n (Z.of_nat (tries_left t)) Ht Hn) as (t' & Hc & Hf). cbn. rewrite Hc.
      exists (role_of t), t'. split_and!; try done. unfold role_of. intros x Hx. by eapply Forall_lookup_1.
  - intros [t|t] c pre t' post Ht; cbn -[fall_back].
    + unfold retry_next. destruct (can_retry _ _); cbn; intros Heq; by simplify_eq.
    + destruct (fall_back _ t c) as [[pre' [x|]] post'] eqn:Hf; cbn; intros Heq; simplify_eq/=.
      apply fall_back_spec in Hf as (_ & _ & r & _ & -> & _). exact Ht.
Qed.

(** A retry strategy without conditions does not give up early. *)
Definition retries_on_all (s : strategy) : Prop :=
  match s with
  | inl m => exists o, Options.RetryStrategy.read_options m = Some o /\ op_conditions o = []
  | inr _ => False
  end.

Lemma retries_persist :
  strategies_persist retries_on_all
    (fun t => match t with inl t => op_conditions (bt_options t) = [] | inr _ => False end).
Proof.
  split.
  - intros [m|m] t n t0; [|done]. intros (o & Ho & Hc). cbn [get_first_try strategy_bound library_strategies first_try tries_of].
    unfold Options.RetryStrategy.get_first_try, retry_first_try. rewrite Ho. cbn.
    destruct (first_deadline t n); [|done]. intros [= <-]. cbn. split; [done|]. unfold tries_remain. cbn. lia.
  - intros [t|t] c; [|done]. intros Hc _. cbn. unfold retry_next, can_retry. cbn. rewrite Hc.
    unfold tries_remain. cbn. destruct (Z.ltb_spec (Z.max 0 (op_tries (bt_options t) - 1)) 1); cbn.
    + unfold tries_remain. lia.
    + split; [done|]. unfold tries_remain. cbn. lia.
Qed.
End Strategies.

(** ** Two databases that are down *)

#[local] Existing Instance linux_boost.

Definition sample_provider : @RoleSource.role_based_connection_provider nat unit :=
  RoleSource.mk_provider unit (RoleSource.mk_source {[ 0%nat := 1%nat; 1%nat := 2%nat ]} master) tt.

Definition sample_retry (n : Z) : strategy :=
  inl {[ Options.RetryStrategy.tries := Options.RetryStrategy.v_tries n ]}.
Definition sample_roles : strategy := inr {[ RoleSource.roles := RoleSource.v_roles [master; replica] ]}.

Definition down (k : nat) : completion := mk_completion lost true.

Definition provider_supports (p : @RoleSource.role_based_connection_provider nat unit) : Prop :=
  forall r, r ∈ [master; replica] -> exists p', RoleSource.provider_rebind_role p r = Some p'.

Lemma rebind_supports p r : provider_supports p -> r ∈ [master; replica] ->
  exists p', RoleSource.provider_rebind_role p r = Some p' /\ provider_supports p'.
Proof.
  intros Hp Hr. destruct (Hp r Hr) as [p' Hp']. exists p'. split; [done|]. intros r' Hr'.
  destruct (Hp r' Hr') as [p'' Hp'']. unfold RoleSource.provider_rebind_role, RoleSource.rebind_role in *.
  destruct (RoleSource.is_supported (RoleSource.source_ p) r); [|done]. simplify_eq/=.
  unfold RoleSource.is_supported in *. cbn. case_bool_decide; [by eexists|done].
Qed.

Definition sample_call : user_call :=
  call_request sample_provider (QueryBuilder.build (QueryBuilder.sql "SELECT 1")) None 0.

(** [request[retry() * 2][retry() * 3]] to a database that is down makes six requests. *)
Lemma nested_failover_once_witness :
  let op := subscript (subscript request (sample_retry 2)) (sample_retry 3) in
  exists hs n, call RoleSource.provider_rebind_role (fun _ => 0) down op sample_call =
      Some (hs ++ [user_handled (co_ec (down (n - 1)))])%list /\
    handler_calls hs = 0%nat /\ starts hs = 6%nat.
Proof.
  intros op.
  assert (forall Q : strategy -> Prop, (forall n, Q (sample_retry n)) -> built Q op) as Hbuilt.
  { intros Q HQ. apply built_subscript; [apply built_subscript; [apply built_request|]|]; apply HQ. }
  destruct (nested_failover_once RoleSource.provider_rebind_role (fun _ => 0) down
    (fun r => r ∈ [master; replica]) provider_supports (strategy_complete (fun r => r ∈ [master; replica]))
    (try_complete (fun r => r ∈ [master; replica])) (library_strategies_sound _) rebind_supports
    (fun _ => eq_refl) op sample_call
    [a_provider sample_provider; a_time no_constraint;
     a_query (QueryBuilder.build (QueryBuilder.sql "SELECT 1")); a_out 0])
    as (hs & n & Hc & Hh & Hn & _ & _ & Hp).
  - apply Hbuilt. intros n. by eexists.
  - reflexivity.
  - reflexivity.
  - repeat constructor. intros r Hr. rewrite !elem_of_cons in Hr.
    destruct Hr as [-> | [-> | Hr]]; [by eexists..|by apply not_elem_of_nil in Hr].
  - exists hs, n. split; [exact Hc|]. split; [exact Hh|].
    rewrite Hn, (Hp _ _ retries_persist); [vm_compute; reflexivity| |done].
    apply Hbuilt. intros n'. by eexists.
Defined.

(** The roles of the providers requests were started with. *)
Definition started_role (h : @happening strategy (@RoleSource.role_based_connection_provider nat unit)) : list role :=
  match h with
  | started _ (a_provider p :: _) => [RoleSource.role_ (RoleSource.source_ p)]
  | _ => []
  end.

(** [request[retry() * 2][role_based(master, replica)]]: two requests to the master, then
    two to the replica. *)
Example roles_of_retries :
  option_map (fun hs => concat (map started_role hs))
    (call RoleSource.provider_rebind_role (fun _ => 0) down
      (subscript (subscript request (sample_retry 2)) sample_roles) sample_call)
  = Some [master; master; replica; replica].
Proof. vm_compute. reflexivity. Qed.

End Operations.
