(* ===== verification/AsyncRequest.v ===== *)
(** A request: [src/include/bozo/impl/async_request.h] with the functions of
    [src/include/bozo/impl/io.h] and [src/include/bozo/impl/result_status.h].

    A request sends its query and receives its result at the same time: two
    operations share a context, each waits for the socket of the connection and
    goes on when the socket is ready.  libpq is a parameter ([LibPQ]); the two
    operations are functions on the state of the request, and the waits that end,
    in any order, are the steps of the machine. *)

From S2P Require Import Prelude ErrorCode SqlState Errors Base36 BinaryQuery.
From Stdlib Require Import ZArith Lia List String.
From stdpp Require Import base tactics list strings relations.

Open Scope string_scope.
Open Scope Z_scope.

(** [query_state] of [impl/io.h]. *)
Inductive query_state : Set := qs_error | send_finish | send_in_progress.

#[export] Instance query_state_eq_dec : EqDecision query_state.
Proof. solve_decision. Defined.

(** [ExecStatusType] of libpq. *)
Inductive exec_status : Set :=
| PGRES_EMPTY_QUERY | PGRES_COMMAND_OK | PGRES_TUPLES_OK | PGRES_COPY_OUT | PGRES_COPY_IN
| PGRES_BAD_RESPONSE | PGRES_NONFATAL_ERROR | PGRES_FATAL_ERROR | PGRES_COPY_BOTH
| PGRES_SINGLE_TUPLE | PGRES_PIPELINE_SYNC | PGRES_PIPELINE_ABORTED | PGRES_TUPLES_CHUNK.

#[export] Instance exec_status_eq_dec : EqDecision exec_status.
Proof. solve_decision. Defined.

(** The functions of libpq a request calls: [L] is the state of a [PGconn], [R] a
    [PGresult].  A result tells whether the call succeeded. *)
Class LibPQ (L R : Type) := {
  PQsetnonblocking : L -> bool * L;
  PQsendQueryParams : BinaryQuery.binary_query -> L -> bool * L;
  PQflush : L -> query_state * L;
  PQconsumeInput : L -> bool * L;
  PQisBusy : L -> bool;
  PQgetResult : L -> option R * L;
  PQresultStatus : R -> exec_status;
  PQresultErrorField : R -> option string;
  (** The results that have arrived and were not taken yet. *)
  results_ready : L -> nat;
}.

(** [PQgetResult] "must be called repeatedly until it returns a null pointer",
    which it does: the results that have arrived run out. *)
Class LibPQLaws (L R : Type) `{LibPQ L R} := {
  PQgetResult_decreases : forall l r l',
    PQgetResult l = (Some r, l') -> (results_ready l' < results_ready l)%nat;
}.

Module AsyncRequest.

(** [get_result_status_name]. *)
Definition get_result_status_name (s : exec_status) : string :=
  match s with
  | PGRES_SINGLE_TUPLE => "PGRES_SINGLE_TUPLE"
  | PGRES_TUPLES_OK => "PGRES_TUPLES_OK"
  | PGRES_COMMAND_OK => "PGRES_COMMAND_OK"
  | PGRES_COPY_OUT => "PGRES_COPY_OUT"
  | PGRES_COPY_IN => "PGRES_COPY_IN"
  | PGRES_COPY_BOTH => "PGRES_COPY_BOTH"
  | PGRES_NONFATAL_ERROR => "PGRES_NONFATAL_ERROR"
  | PGRES_BAD_RESPONSE => "PGRES_BAD_RESPONSE"
  | PGRES_EMPTY_QUERY => "PGRES_EMPTY_QUERY"
  | PGRES_FATAL_ERROR => "PGRES_FATAL_ERROR"
  | PGRES_PIPELINE_SYNC => "PGRES_PIPELINE_SYNC"
  | PGRES_PIPELINE_ABORTED => "PGRES_PIPELINE_ABORTED"
  | PGRES_TUPLES_CHUNK => "PGRES_TUPLES_CHUNK"
  end.

Section Request.
Context `{Boost} {L R : Type} `{LibPQ L R}.
(** The result processor: [None] when it returns, the text of the exception when it
    throws. *)
Context (process : R -> option string).

(** Where the coroutine [async_get_result_op] goes on. *)
Inductive position : Set := at_start | in_first_loop | in_drain_loop | at_end.

Record request := mk_request {
  lib : L;
  state : query_state;
  handler_calls : list error_code;
  cancels : nat;
  error_context : string;
  write_wait : bool;
  read_wait : bool;
  where_ : position;
  result_ : option R;
  processed : list R;
}.

Definition with_lib (l : L) (s : request) : request :=
  mk_request l (state s) (handler_calls s) (cancels s) (error_context s) (write_wait s) (read_wait s)
    (where_ s) (result_ s) (processed s).
Definition set_query_state (q : query_state) (s : request) : request :=
  mk_request (lib s) q (handler_calls s) (cancels s) (error_context s) (write_wait s) (read_wait s)
    (where_ s) (result_ s) (processed s).
Definition set_error_context (e : string) (s : request) : request :=
  mk_request (lib s) (state s) (handler_calls s) (cancels s) e (write_wait s) (read_wait s)
    (where_ s) (result_ s) (processed s).
Definition call_handler (ec : error_code) (s : request) : request :=
  mk_request (lib s) (state s) (handler_calls s ++ [ec])%list (cancels s) (error_context s)
    (write_wait s) (read_wait s) (where_ s) (result_ s) (processed s).
Definition cancel (s : request) : request :=
  mk_request (lib s) (state s) (handler_calls s) (S (cancels s)) (error_context s)
    (write_wait s) (read_wait s) (where_ s) (result_ s) (processed s).
Definition set_write_wait (b : bool) (s : request) : request :=
  mk_request (lib s) (state s) (handler_calls s) (cancels s) (error_context s) b (read_wait s)
    (where_ s) (result_ s) (processed s).
Definition set_read_wait (b : bool) (s : request) : request :=
  mk_request (lib s) (state s) (handler_calls s) (cancels s) (error_context s) (write_wait s) b
    (where_ s) (result_ s) (processed s).
Definition set_where (p : position) (s : request) : request :=
  mk_request (lib s) (state s) (handler_calls s) (cancels s) (error_context s) (write_wait s)
    (read_wait s) p (result_ s) (processed s).
Definition set_result (r : option R) (s : request) : request :=
  mk_request (lib s) (state s) (handler_calls s) (cancels s) (error_context s) (write_wait s)
    (read_wait s) (where_ s) r (processed s).
Definition add_processed (r : R) (s : request) : request :=
  mk_request (lib s) (state s) (handler_calls s) (cancels s) (error_context s) (write_wait s)
    (read_wait s) (where_ s) (result_ s) (processed s ++ [r])%list.

(** [done(ctx, ec)] and [done(ctx)]. *)
Definition done_error (ec : error_code) (s : request) : request :=
  call_handler ec (cancel (set_query_state qs_error s)).
Definition done_ok (s : request) : request := call_handler no_error s.

(** *** [async_send_query_params_op] *)

Definition send_resume (ec : error_code) (s : request) : request :=
  if negb (bool_decide (state s = send_in_progress)) then s else
  if is_error ec then done_error ec s else
  let '(q, l) := PQflush (lib s) in
  let s := with_lib l s in
  match q with
  | qs_error => done_error (error.make_error_code error.pg_flush_failed) s
  | send_in_progress => set_write_wait true s
  | send_finish => set_query_state send_finish s
  end.

Definition send_perform (q : BinaryQuery.binary_query) (s : request) : request :=
  let '(ok, l) := PQsetnonblocking (lib s) in
  let s := with_lib l s in
  if negb ok then done_error (error.make_error_code error.pg_set_nonblocking_failed) s else
  let '(ok, l) := PQsendQueryParams q (lib s) in
  let s := with_lib l s in
  if negb ok then done_error (error.make_error_code error.pg_send_query_params_failed) s else
  send_resume no_error s.

(** *** [async_get_result_op] *)

(** The member [done(ec)]. *)
Definition get_done_error (ec : error_code) (s : request) : request :=
  done_error ec (if String.eqb (error_context s) ""
                 then set_error_context "error while get request result" s else s).

(** [result_error]. *)
Definition result_error (r : R) : error_code :=
  match PQresultErrorField r with
  | Some state => sqlstate.make_error_code (Base36.b36tol state)
  | None => error.make_error_code error.no_sql_state_found
  end.

Definition process_and_done (r : R) (s : request) : request :=
  match process r with
  | None => done_ok (add_processed r s)
  | Some what => get_done_error (error.make_error_code error.bad_result_process)
                   (set_error_context what s)
  end.

Definition handle_result (s : request) : request :=
  let s := set_where at_end s in
  match result_ s with
  | None => s
  | Some r =>
      match PQresultStatus r with
      | PGRES_SINGLE_TUPLE | PGRES_TUPLES_OK | PGRES_COMMAND_OK => process_and_done r s
      | PGRES_BAD_RESPONSE =>
          get_done_error (error.make_error_code error.result_status_bad_response) s
      | PGRES_EMPTY_QUERY =>
          get_done_error (error.make_error_code error.result_status_empty_query) s
      | PGRES_FATAL_ERROR => get_done_error (result_error r) s
      | status =>
          get_done_error (error.make_error_code error.result_status_unexpected)
            (set_error_context (get_result_status_name status) s)
      end
  end.

(** The loop that takes the results after the first. *)
Fixpoint drain (fuel : nat) (s : request) : request :=
  if PQisBusy (lib s) then set_read_wait true (set_where in_drain_loop s) else
  match PQgetResult (lib s) with
  | (Some _, l) => match fuel with
                   | O => with_lib l s
                   | S fuel => drain fuel (with_lib l s)
                   end
  | (None, l) => handle_result (with_lib l s)
  end.

Definition first_loop (s : request) : request :=
  if PQisBusy (lib s) then set_read_wait true (set_where in_first_loop s) else
  match PQgetResult (lib s) with
  | (None, l) => done_ok (set_where at_end (with_lib l s))
  | (Some r, l) =>
      let s := set_result (Some r) (with_lib l s) in
      if bool_decide (PQresultStatus r = PGRES_SINGLE_TUPLE) then handle_result s
      else drain (results_ready l) s
  end.

Definition get_resume (ec : error_code) (s : request) : request :=
  if bool_decide (state s = qs_error) then s else
  if is_error ec then
    get_done_error (if bool_decide (ec = make_asio_error bad_descriptor)
                    then make_asio_error operation_aborted else ec) s
  else
  match where_ s with
  | at_start => first_loop s
  | in_first_loop =>
      let '(ok, l) := PQconsumeInput (lib s) in
      let s := with_lib l s in
      if negb ok then get_done_error (error.make_error_code error.pg_consume_input_failed) (set_where at_end s)
      else first_loop s
  | in_drain_loop =>
      let '(ok, l) := PQconsumeInput (lib s) in
      let s := with_lib l s in
      if negb ok then handle_result s else drain (results_ready l) s
  | at_end => s
  end.

(** *** [async_request_op] on a connection without error *)

Definition initial (l : L) : request :=
  mk_request l send_in_progress [] 0 "" false false at_start None [].

Definition start (q : BinaryQuery.binary_query) (l : L) : request :=
  get_resume no_error (send_perform q (initial l)).

(** The ends of the waits.  A wait for writing that fails after the request has
    succeeded is only taken into account in [late] runs. *)
Definition succeeded (s : request) : Prop := no_error ∈ handler_calls s.
Definition late_failure (ec : error_code) (s : request) : Prop :=
  succeeded s /\ (is_error ec = true \/ fst (PQflush (lib s)) = qs_error).

#[export] Instance late_failure_dec ec s : Decision (late_failure ec s).
Proof. unfold late_failure, succeeded. apply _. Defined.

Inductive step (late : bool) : request -> request -> Prop :=
| step_write ec s : write_wait s = true -> late = true \/ ~ late_failure ec s ->
    step late s (send_resume ec (set_write_wait false s))
| step_read ec s : read_wait s = true ->
    step late s (get_resume ec (set_read_wait false s)).

(** ** Invariant *)

(** A result the processor was given and took. *)
Definition accepted (r : R) : Prop :=
  (PQresultStatus r = PGRES_SINGLE_TUPLE \/ PQresultStatus r = PGRES_TUPLES_OK \/
   PQresultStatus r = PGRES_COMMAND_OK) /\ process r = None.

(** The handler was not called yet, nothing was processed, and the states of the
    context are those in which the operations go on. *)
Definition open_request (s : request) : Prop :=
  handler_calls s = [] /\ processed s = [] /\ state s <> qs_error.

(** Waiting for input; failed; succeeded. *)
Definition receiving (s : request) : Prop :=
  open_request s /\ read_wait s = true /\
  (where_ s = in_first_loop \/ where_ s = in_drain_loop /\ result_ s <> None).
Definition failed (s : request) : Prop :=
  (exists ec, handler_calls s = [ec]) /\ processed s = [] /\ state s = qs_error.
Definition finished (s : request) : Prop :=
  handler_calls s = [no_error] /\ read_wait s = false /\ where_ s = at_end /\
  (processed s = [] \/ exists r, processed s = [r] /\ accepted r).

Definition settled (s : request) : Prop := receiving s \/ failed s \/ finished s.

Lemma done_error_failed ec s :
  handler_calls s = [] -> processed s = [] -> failed (done_error ec s).
Proof. intros Hh Hp. unfold failed. cbn. rewrite Hh, Hp. repeat split. by exists ec. Qed.

Lemma get_done_error_failed ec s :
  handler_calls s = [] -> processed s = [] -> failed (get_done_error ec s).
Proof. intros Hh Hp. unfold get_done_error. by destruct (String.eqb _ _); apply done_error_failed. Qed.

Lemma handle_result_settled s :
  open_request s -> read_wait s = false -> result_ s <> None -> settled (handle_result s).
Proof.
  intros (Hh & Hp & Hs) Hw Hr. unfold handle_result. cbn [result_ set_where].
  destruct (result_ s) as [r|]; [|done].
  destruct (PQresultStatus r) eqn:Hst; try (right; left; apply get_done_error_failed; done).
  all: unfold process_and_done; destruct (process r) eqn:Hpr;
    [right; left; by apply get_done_error_failed|];
    right; right; unfold finished; cbn; rewrite Hh, Hp, Hw; repeat split; right; exists r;
    (split; [done|]); split; [rewrite Hst; auto | done].
Qed.

Lemma open_with_lib l s : open_request s -> open_request (with_lib l s).
Proof. done. Qed.

Context `{!LibPQLaws L R}.

Lemma drain_settled fuel s :
  (results_ready (lib s) <= fuel)%nat ->
  open_request s -> read_wait s = false -> result_ s <> None -> settled (drain fuel s).
Proof.
  revert s. induction fuel as [|fuel IH]; intros s Hf Ho Hw Hr; cbn [drain];
    (destruct (PQisBusy (lib s)); [left; split; [done|]; split; [done|]; by right|]);
    destruct (PQgetResult (lib s)) as [[r|] l] eqn:Hg;
    try (apply handle_result_settled; done);
    apply PQgetResult_decreases in Hg; [lia|].
  apply IH; try done. cbn. lia.
Qed.

Lemma first_loop_settled s :
  open_request s -> read_wait s = false -> settled (first_loop s).
Proof.
  intros Ho Hw. unfold first_loop.
  destruct (PQisBusy (lib s)); [left; split; [done|]; split; [done|]; by left|].
  destruct (PQgetResult (lib s)) as [[r|] l] eqn:Hg.
  - destruct (bool_decide _); [by apply handle_result_settled|]. by apply drain_settled.
  - right. right. destruct Ho as (Hh & Hp & _). unfold finished. cbn. rewrite Hh, Hp, Hw.
    repeat split. by left.
Qed.

Lemma get_resume_settled ec s :
  (open_request s /\ read_wait s = false /\
   (where_ s = at_start \/ where_ s = in_first_loop \/ where_ s = in_drain_loop /\ result_ s <> None)) \/
  failed s -> settled (get_resume ec s).
Proof.
  unfold get_resume. intros [(Ho & Hw & Hp)|Hf].
  2: { destruct Hf as (Hh & Hp & Hs). rewrite Hs, bool_decide_eq_true_2 by done.
       right. left. done. }
  pose proof Ho as (Hh & Hpr & Hs). rewrite bool_decide_eq_false_2 by done.
  destruct (is_error ec); [right; left; by apply get_done_error_failed|].
  destruct Hp as [->|[->|[-> Hr]]].
  - by apply first_loop_settled.
  - destruct (PQconsumeInput (lib s)) as [[|] l]; cbn [negb].
    + by apply first_loop_settled.
    + right. left. by apply get_done_error_failed.
  - destruct (PQconsumeInput (lib s)) as [[|] l]; cbn [negb].
    + by apply drain_settled.
    + by apply handle_result_settled.
Qed.

Lemma send_resume_cases ec s :
  open_request s \/ failed s ->
  failed (send_resume ec s) \/
  (open_request (send_resume ec s) /\ read_wait (send_resume ec s) = read_wait s /\
   where_ (send_resume ec s) = where_ s /\ result_ (send_resume ec s) = result_ s).
Proof.
  unfold send_resume. intros [Ho|Hf].
  2: { destruct Hf as (Hh & Hp & Hs). left. rewrite bool_decide_eq_false_2 by (rewrite Hs; done). done. }
  pose proof Ho as (Hh & Hp & Hs). case_bool_decide as Hst; cbn [negb]; [|by right].
  destruct (is_error ec); [left; by apply done_error_failed|].
  destruct (PQflush (lib s)) as [[] l].
  - left. by apply done_error_failed.
  - right. done.
  - right. done.
Qed.

Lemma send_perform_cases q l :
  failed (send_perform q (initial l)) \/
  (open_request (send_perform q (initial l)) /\ read_wait (send_perform q (initial l)) = false /\
   where_ (send_perform q (initial l)) = at_start).
Proof.
  unfold send_perform. destruct (PQsetnonblocking _) as [[|] l1]; cbn [negb];
    [|left; by apply done_error_failed].
  destruct (PQsendQueryParams _ _) as [[|] l2]; cbn [negb]; [|left; by apply done_error_failed].
  destruct (send_resume_cases no_error (with_lib l2 (with_lib l1 (initial l)))) as [Hf|(Ho & Hw & Hp & _)];
    [by left | by left | right; done].
Qed.

Lemma start_settled q l : settled (start q l).
Proof.
  unfold start. apply get_resume_settled.
  destruct (send_perform_cases q l) as [Hf|(Ho & Hw & Hp)]; [by right | left; auto].
Qed.

(** A wait for writing that ends well after the request has succeeded changes only
    what libpq has to send. *)
Lemma send_resume_finished ec s :
  finished s -> ~ late_failure ec s -> finished (send_resume ec (set_write_wait false s)).
Proof.
  intros Hf Hl. unfold send_resume. destruct (negb _); [done|].
  assert (succeeded s) as Hs by (unfold succeeded; destruct Hf as (-> & _); by left).
  destruct (is_error ec) eqn:He; [destruct Hl; split; auto|]. cbn.
  destruct (PQflush (lib s)) as [q l] eqn:Hq. destruct q; [|done..].
  destruct Hl. split; [done|]. right. by rewrite Hq.
Qed.

Lemma request_step_settled s s' : step false s s' -> settled s -> settled s'.
Proof.
  destruct 1 as [ec s Hw Hl|ec s Hr]; intros Hs.
  - destruct Hs as [(Ho & Hrw & Hp)|[Hf|Hf]].
    + destruct (send_resume_cases ec (set_write_wait false s)) as [Hf|(Ho' & Hrw' & Hp' & Hr')];
        [by left | by right; left |]. left. split; [done|]. split; [by rewrite Hrw'|].
      rewrite Hp', Hr'. exact Hp.
    + destruct (send_resume_cases ec (set_write_wait false s)) as [Hf'|(Ho' & _)];
        [by right | by right; left |].
      exfalso. destruct Hf as (Hh & Hp & Hs). unfold send_resume in Ho'.
      rewrite bool_decide_eq_false_2 in Ho' by (cbn; rewrite Hs; done). by destruct Ho' as (_ & _ & Ho').
    + destruct Hl as [?|Hl]; [done|]. right. right. by apply (send_resume_finished ec s).
  - apply get_resume_settled. destruct Hs as [(Ho & Hrw & Hp)|[Hf|(_ & Hrw & _)]].
    + left. split; [done|]. split; [done|]. by right.
    + by right.
    + congruence.
Qed.

Lemma request_settled q l s : rtc (step false) (start q l) s -> settled s.
Proof.
  apply (rtc_ind_r settled); [apply start_settled | intros y z _ Hs Hy].
  by eapply request_step_settled.
Qed.

(** A request calls its handler at most once, and exactly once when it no
    longer waits for input; when it succeeds, the processor has been given at most
    one result, of a status that means success, and has taken it; when it fails
    nothing was processed. *)
Theorem request_completes_once q l s :
  rtc (step false) (start q l) s ->
  (List.length (handler_calls s) <= 1)%nat /\
  (read_wait s = false -> List.length (handler_calls s) = 1%nat) /\
  (forall ec, handler_calls s = [ec] ->
     ec = no_error /\ (processed s = [] \/ exists r, processed s = [r] /\ accepted r) \/
     state s = qs_error /\ processed s = []).
Proof.
  intros [((Hh & _) & Hw & _)|[((ec & Hh) & Hp & Hs)|(Hh & _ & _ & Hp)]]%request_settled.
  - rewrite Hh, Hw. cbn. repeat split; [lia | done | done].
  - rewrite Hh. cbn. repeat split; [lia|]. intros ec' [= <-]. right. done.
  - rewrite Hh. cbn. repeat split; [lia|]. intros ec' [= <-]. left. done.
Qed.
End Request.

(** ** A libpq *)

(** A connection that answers every query with one result of the given status when
    input has been consumed; [true] is "the result has not arrived yet". *)
Inductive toy : Set := pending | arrived | taken.

#[export] Instance toy_libpq (flush : query_state) : LibPQ toy exec_status := {
  PQsetnonblocking l := (true, l);
  PQsendQueryParams _ l := (true, l);
  PQflush l := (flush, l);
  PQconsumeInput l := (true, match l with pending => arrived | l => l end);
  PQisBusy l := match l with pending => true | _ => false end;
  PQgetResult l := match l with arrived => (Some PGRES_TUPLES_OK, taken) | l => (None, l) end;
  PQresultStatus r := r;
  PQresultErrorField _ := None;
  results_ready l := match l with taken => 0%nat | _ => 1%nat end;
}.

#[export] Instance toy_laws flush : @LibPQLaws toy exec_status (toy_libpq flush).
Proof. split. intros [] r l' Hg; cbn in *; simplify_eq. cbn. lia. Qed.

Definition no_query : BinaryQuery.binary_query := BinaryQuery.mk_binary_query "" [] [] [] [] [].

Lemma request_completes_once_witness :
  let s := @get_resume linux_boost _ _ (toy_libpq send_finish) (fun _ => None) no_error
             (set_read_wait false (@start linux_boost _ _ (toy_libpq send_finish) (fun _ => None)
                no_query pending)) in
  (List.length (handler_calls s) <= 1)%nat /\
  (read_wait s = false -> List.length (handler_calls s) = 1%nat) /\
  (forall ec, handler_calls s = [ec] ->
     ec = no_error /\ (processed s = [] \/
       exists r, processed s = [r] /\ @accepted _ _ (toy_libpq send_finish) (fun _ => None) r) \/
     state s = qs_error /\ processed s = []).
Proof.
  intros s. apply (@request_completes_once linux_boost _ _ (toy_libpq send_finish) (fun _ => None)
    (toy_laws send_finish) no_query pending).
  eapply rtc_l; [|apply rtc_refl]. by apply (step_read _ _ no_error).
Defined.

(** A request that has succeeded leaves the state of the context at
    [send_in_progress] when its output was not flushed: a wait for writing that is
    aborted later calls the handler a second time. *)
Theorem late_write_calls_handler_twice :
  exists s, rtc (@step linux_boost _ _ (toy_libpq send_in_progress) (fun _ => None) true)
      (@start linux_boost _ _ (toy_libpq send_in_progress) (fun _ => None) no_query arrived) s /\
    handler_calls s = [no_error; @make_asio_error linux_boost operation_aborted].
Proof.
  eexists. split; [eapply rtc_l; [|apply rtc_refl]|].
  - apply (@step_write _ _ _ _ _ _ (@make_asio_error linux_boost operation_aborted)); [done | by left].
  - vm_compute. reflexivity.
Qed.
End AsyncRequest.
