(* ===== verification/LibpqCalls.v ===== *)
(** The calls of libpq: [src/include/bozo/impl/io.h], with the texts of queries as C
    strings, [to_const_char] of [src/include/bozo/query.h].

    libpq takes and gives C types: results are [int]s, the command is a string that
    ends with a zero byte, and a parameter is a pointer and a length.
    [LibPQFunctions] are its functions with these types; what [impl/io.h] makes of
    them is the interface [LibPQ] the requests of [AsyncRequest] are written for. *)

From S2P Require Import Prelude ErrorCode Errors Endian Streams PgTypes TypeSystem Chrono BinaryIO BinaryQuery AsyncRequest.
From Stdlib Require Import ZArith Lia List String Ascii Strings.Byte.
From stdpp Require Import base tactics list strings.

Open Scope Z_scope.

(** The arguments of [PQsendQueryParams], as libpq reads them: the command up to its
    zero byte, [None] if there is none in the memory of the object; the bytes a
    pointer and a length delimit, [None] for a null pointer. *)
Record send_arguments := mk_send_arguments {
  command : option (list ascii);
  nParams : Z;
  paramTypes : list Z;
  paramValues : list (option (list byte));
  paramFormats : list Z;
  resultFormat : Z;
}.

Class LibPQFunctions (L R : Type) := {
  pq_setnonblocking : Z -> L -> Z * L;
  pq_sendQueryParams : send_arguments -> L -> Z * L;
  pq_flush : L -> Z * L;
  pq_consumeInput : L -> Z * L;
  pq_isBusy : L -> Z;
  pq_getResult : L -> option R * L;
  pq_resultStatus : R -> exec_status;
  pq_resultErrorField : R -> option string;
  pq_results_ready : L -> nat;
}.

Module LibpqCalls.

Import Endian Streams PgTypes TypeSystem Chrono BinaryIO BinaryQuery.

(** ** Texts as C strings *)

Definition nul : ascii := Ascii.zero.

(** The types of query texts: a string literal of Hana, a [std::string], a
    [std::string_view] with what follows it in memory, and a pointer. *)
Inductive query_text : Type :=
| hana_string (s : list ascii)
| std_string (s : list ascii)
| string_view (s : list ascii) (following : list ascii)
| const_char (memory : list ascii).

(** The memory from the pointer [to_const_char] gives. *)
Definition to_const_char (t : query_text) : list ascii :=
  match t with
  | hana_string s | std_string s => (s ++ [nul])%list
  | string_view s following => (s ++ following)%list
  | const_char memory => memory
  end.

(** A string as C reads it. *)
Fixpoint c_string (memory : list ascii) : option (list ascii) :=
  match memory with
  | [] => None
  | c :: memory => if Ascii.eqb c nul then Some [] else s ← c_string memory; Some (c :: s)
  end.

(** The text the user wrote. *)
Definition text_of (t : query_text) : option (list ascii) :=
  match t with
  | hana_string s | std_string s | string_view s _ => Some s
  | const_char memory => c_string memory
  end.

Lemma c_string_app s following :
  Forall (fun c => c <> nul) s -> c_string (s ++ following)%list = (s ++.) <$> c_string following.
Proof.
  induction 1 as [|c s Hc _ IH]; cbn [app c_string]; [by destruct (c_string following)|].
  rewrite (proj2 (Ascii.eqb_neq c nul) Hc), IH. by destruct (c_string following).
Qed.

(** ** The functions of [impl/io.h] *)

Section Calls.
Context {L R : Type} `{LibPQFunctions L R}.

Definition set_nonblocking (l : L) : error_code * L :=
  let '(r, l) := pq_setnonblocking 1 l in
  (if r =? 0 then no_error else error.make_error_code error.pg_set_nonblocking_failed, l).

(** The arguments of [send_query_params]: the count is converted to an [int], the
    results are asked for in the binary format. *)
Definition send_arguments_of (text : query_text) (q : binary_query) : send_arguments :=
  mk_send_arguments (c_string (to_const_char text)) (wrapS 32 (Z.of_nat (List.length (bq_values q))))
    (bq_types q) (omap (param_sent q) (seq 0 (List.length (bq_values q)))) (bq_formats q) binary_format.

Definition send_query_params (text : query_text) (q : binary_query) (l : L) : Z * L :=
  pq_sendQueryParams (send_arguments_of text q) l.

Definition consume_input (l : L) : error_code * L :=
  let '(r, l) := pq_consumeInput l in
  (if r =? 0 then error.make_error_code error.pg_consume_input_failed else no_error, l).

Definition is_busy (l : L) : bool := negb (pq_isBusy l =? 0).

(** [static_cast<query_state>]; [PQflush] gives -1, 0 or 1. *)
Definition flush_output (l : L) : query_state * L :=
  let '(r, l) := pq_flush l in
  (if r =? -1 then qs_error else if r =? 1 then send_in_progress else send_finish, l).

(** What a request sees of libpq. *)
#[export] Instance libpq_calls : LibPQ L R := {
  PQsetnonblocking l := let '(ec, l) := set_nonblocking l in (negb (is_error ec), l);
  PQsendQueryParams q l :=
    let '(r, l) := send_query_params (std_string (list_ascii_of_string (bq_text q))) q l in (negb (r =? 0), l);
  PQflush := flush_output;
  PQconsumeInput l := let '(ec, l) := consume_input l in (negb (is_error ec), l);
  PQisBusy := is_busy;
  PQgetResult := pq_getResult;
  PQresultStatus := pq_resultStatus;
  PQresultErrorField := pq_resultErrorField;
  results_ready := pq_results_ready;
}.
End Calls.

(** ** Properties *)

Lemma param_values_length off ls : List.length (param_values off ls) = List.length ls.
Proof. revert off. induction ls as [|l ls IH]; intros off; [done|]. cbn. by rewrite IH. Qed.

Lemma omap_seq {A} (f : nat -> option A) (l : list A) off :
  (forall i x, l !! i = Some x -> f (off + i)%nat = Some x) -> omap f (seq off (List.length l)) = l.
Proof.
  revert off. induction l as [|x l IH]; intros off Hf; [done|]. cbn [List.length seq omap list_omap].
  pose proof (Hf 0%nat x eq_refl) as Hx. rewrite Nat.add_0_r in Hx. rewrite Hx. f_equal. apply IH.
  intros i y Hy. rewrite <- (Hf (S i) y Hy). f_equal. lia.
Qed.

(** A text that libpq can read as it was written. *)
Definition c_text (t : query_text) (s : list ascii) : Prop :=
  Forall (fun c => c <> nul) s /\
  match t with
  | hana_string s' | std_string s' => s' = s
  | string_view s' following => s' = s /\ head following = Some nul
  | const_char memory => exists following, memory = (s ++ nul :: following)%list
  end.

Lemma c_text_read t s : c_text t s -> c_string (to_const_char t) = Some s.
Proof.
  intros [Hs Ht]. destruct t as [s'|s'|s' following|memory]; cbn [to_const_char].
  - subst. rewrite c_string_app by done. cbn. by rewrite app_nil_r.
  - subst. rewrite c_string_app by done. cbn. by rewrite app_nil_r.
  - destruct Ht as [-> Hf]. destruct following as [|c following]; [done|]. cbn in Hf. simplify_eq.
    rewrite c_string_app by done. cbn. by rewrite app_nil_r.
  - destruct Ht as [following ->]. rewrite c_string_app by done. cbn. by rewrite app_nil_r.
Qed.

(** C22. libpq is given the query the user wrote: its text, one OID, one format and one
    value for every parameter, the value being the bytes of the wire format and a null
    pointer for a value without bytes, and the request for binary results.  The text
    has no zero byte, and a [std::string_view] is followed by one ([c_text]; libpq reads
    on to the next one otherwise, [view_read_past_its_end]).  Each parameter is a value
    whose size [size_of] has right ([param_wire]: no array of nullables of a static size
    mixes nulls with values), and there are at most INT32_MAX parameters and bytes. *)
Theorem libpq_given_query native ticks m text s ps bss :
  c_text text s -> Forall2 (param_wire ticks m) ps bss ->
  Z.of_nat (List.length (concat bss)) <= INT32_MAX -> Z.of_nat (List.length ps) <= INT32_MAX ->
  exists q, make_binary_query native ticks m (string_of_list_ascii s) ps = Some q /\
    send_arguments_of text q =
    mk_send_arguments (Some s) (Z.of_nat (List.length ps)) (map (fun p => type_oid m (fst p)) ps)
      (map (fun bs => match bs with [] => None | _ => Some bs end) bss)
      (replicate (List.length ps) 1) 1.
Proof.
  intros Ht Hall Hle Hn.
  destruct (query_parameters native ticks m (string_of_list_ascii s) ps bss Hall Hle) as (q & Hq & _ & Hp).
  exists q. split; [done|]. rewrite make_binary_query_wire with (bss := bss) in Hq by done. injection Hq as Hq.
  pose proof (Forall2_length _ _ _ Hall) as Hl. unfold send_arguments_of. rewrite (c_text_read _ _ Ht).
  assert (List.length (bq_values q) = List.length bss) as -> by by subst q; cbn; rewrite param_values_length, length_map.
  f_equal; try by subst q.
  - rewrite Hl, wrapS_small; [done|lia|]. apply in_S32_iff. unfold INT32_MAX in *. lia.
  - rewrite <- (length_map (fun bs : list byte => match bs with [] => None | _ => Some bs end) bss).
    apply omap_seq. intros i v. change (map ?f ?l) with (f <$> l). rewrite list_lookup_fmap.
    destruct (bss !! i) as [bs|] eqn:Hb; [|done]. cbn. intros [= <-].
    destruct (Forall2_lookup_r _ _ _ _ _ Hall Hb) as (par & Hpar & _). by apply (Hp i par bs).
Qed.

Definition sample_text : list ascii := list_ascii_of_string "SELECT $1, $2".

Lemma libpq_given_query_witness :
  let ps := [(c_prim p_int2, VInt 258); (c_prim p_text, VBytes [])] in
  exists q, make_binary_query little 1000 [] (string_of_list_ascii sample_text) ps = Some q /\
    send_arguments_of (std_string sample_text) q =
    mk_send_arguments (Some sample_text) 2 [21; 25] [Some [x01; x02]; None] [1; 1] 1.
Proof.
  intros ps. apply (libpq_given_query little 1000 [] (std_string sample_text) sample_text ps [[x01; x02]; []]).
  - split; [|done]. by repeat constructor.
  - constructor; [split; vm_compute; reflexivity|].
    constructor; [split; vm_compute; reflexivity | constructor].
  - vm_compute. discriminate.
  - vm_compute. discriminate.
Defined.

(** A text given as a [std::string_view] is read past its end, up to the next zero byte
    in memory: what follows the view is sent to the server with it. *)
Theorem view_read_past_its_end s following rest :
  Forall (fun c => c <> nul) s -> c_string following = Some rest ->
  text_of (string_view s following) = Some s /\
  c_string (to_const_char (string_view s following)) = Some (s ++ rest)%list.
Proof. intros Hs Hf. split; [done|]. cbn. by rewrite c_string_app, Hf. Qed.

(** A text is cut at a zero byte in it. *)
Theorem text_cut_at_zero s rest :
  Forall (fun c => c <> nul) s ->
  c_string (to_const_char (std_string (s ++ nul :: rest)%list)) = Some s.
Proof.
  intros Hs. cbn. rewrite <- app_assoc, c_string_app by done. cbn. by rewrite app_nil_r.
Qed.

End LibpqCalls.
