(* ===== verification/RequestRuns.v ===== *)
(** The runs of a request: a request of [AsyncRequest] ends with the exchange of the
    bytes of its query and its answer, and never takes back a call of its handler.
    The termination theorem counts the bytes ([LibPQProgress]) and the wake-ups that
    bring none. *)

From S2P Require Import Prelude ErrorCode Errors BinaryQuery AsyncRequest.
From Stdlib Require Import ZArith Lia List String.
From stdpp Require Import base tactics list relations.

Module RequestRuns.

Import AsyncRequest.

(** What is still to be exchanged for a query, in bytes: what the server has to send
    and libpq has not taken, and what libpq has queued and not sent.  No function
    adds to it.  [PQisBusy] is true while [PQgetResult] would block, that is while
    input is missing, and [PQflush] returns 1 while its queue is not empty.  A call of
    [PQconsumeInput] or of [PQflush] may move no byte at all. *)
Class LibPQProgress (L R : Type) `{LibPQ L R} := {
  pending_input : L -> nat;
  pending_output : L -> nat;
  busy_pending : forall l, PQisBusy l = true -> (0 < pending_input l)%nat;
  flush_pending : forall l l', PQflush l = (send_in_progress, l') -> (0 < pending_output l')%nat;
  consume_monotone : forall l ok l', PQconsumeInput l = (ok, l') ->
    (pending_input l' <= pending_input l)%nat /\ (pending_output l' <= pending_output l)%nat;
  result_monotone : forall l r l', PQgetResult l = (r, l') ->
    (pending_input l' <= pending_input l)%nat /\ (pending_output l' <= pending_output l)%nat;
  flush_monotone : forall l q l', PQflush l = (q, l') ->
    (pending_input l' <= pending_input l)%nat /\ (pending_output l' <= pending_output l)%nat;
}.

Section Operations.
Context `{Boost} {L R : Type} `{LibPQ L R}.
Context (process : R -> option string).

(** A result that is handled starts no wait and calls no function of libpq. *)
Lemma handle_result_read_wait s :
  read_wait (handle_result process s) = read_wait s /\ lib (handle_result process s) = lib s.
Proof.
  unfold handle_result. cbn. destruct (result_ s) as [r|]; [|done].
  destruct (PQresultStatus r); unfold process_and_done, get_done_error;
    try destruct (process r); cbn; repeat destruct (String.eqb _ _); done.
Qed.

Lemma get_done_error_lib ec (s : @request L R) : lib (get_done_error ec s) = lib s.
Proof. unfold get_done_error. by destruct (String.eqb _ _). Qed.

(** How flushing, consuming input and taking results change the state of libpq, a
    request changes it after its query is sent. *)
Section Changes.
Context (Q : L -> L -> Prop) `{!PreOrder Q}.
Context (flush_Q : forall l q l', PQflush l = (q, l') -> Q l l').
Context (consume_Q : forall l ok l', PQconsumeInput l = (ok, l') -> Q l l').
Context (result_Q : forall l r l', PQgetResult l = (r, l') -> Q l l').

Lemma send_resume_lib ec (s : @request L R) : Q (lib s) (lib (send_resume ec s)).
Proof using PreOrder0 flush_Q.
  unfold send_resume. destruct (negb _); [done|]. destruct (is_error ec); [done|].
  destruct (PQflush (lib s)) as [q l] eqn:Hf. apply flush_Q in Hf. by destruct q.
Qed.

Lemma drain_lib fuel s : Q (lib s) (lib (drain process fuel s)).
Proof using PreOrder0 result_Q.
  revert s. induction fuel as [|fuel IH]; intros s; cbn [drain]; (destruct (PQisBusy (lib s)); [done|]);
    destruct (PQgetResult (lib s)) as [[r|] l] eqn:Hg; apply result_Q in Hg;
    rewrite ?(proj2 (handle_result_read_wait _)); [done..| |done].
  etransitivity; [exact Hg | apply (IH (with_lib l s))].
Qed.

Lemma first_loop_lib s : Q (lib s) (lib (first_loop process s)).
Proof using PreOrder0 result_Q.
  unfold first_loop. destruct (PQisBusy (lib s)); [done|].
  destruct (PQgetResult (lib s)) as [[r|] l] eqn:Hg; apply result_Q in Hg; [|done].
  destruct (bool_decide _); rewrite ?(proj2 (handle_result_read_wait _)); [done|].
  etransitivity; [exact Hg | apply (drain_lib _ (set_result (Some r) (with_lib l s)))].
Qed.

Lemma get_resume_lib ec s : Q (lib s) (lib (get_resume process ec s)).
Proof using PreOrder0 consume_Q result_Q.
  unfold get_resume. destruct (bool_decide (state s = qs_error)); [done|].
  destruct (is_error ec); [by rewrite get_done_error_lib|].
  destruct (where_ s); [apply first_loop_lib| | |done];
    destruct (PQconsumeInput (lib s)) as [[|] l] eqn:Hc; apply consume_Q in Hc; cbn [negb];
    rewrite ?(proj2 (handle_result_read_wait _)), ?get_done_error_lib; try done; (etransitivity; [exact Hc|]).
  - apply (first_loop_lib (with_lib l s)).
  - apply (drain_lib _ (with_lib l s)).
Qed.
End Changes.

Section Unchanged.
Context {A : Type} (g : L -> A).
Context (flush_g : forall l q l', PQflush l = (q, l') -> g l' = g l).
Context (consume_g : forall l ok l', PQconsumeInput l = (ok, l') -> g l' = g l).
Context (result_g : forall l r l', PQgetResult l = (r, l') -> g l' = g l).

Let same (l l' : L) : Prop := g l' = g l.

#[local] Instance same_preorder : PreOrder same.
Proof. split; unfold same; [by intros l | intros l1 l2 l3; congruence]. Qed.

Lemma send_resume_unchanged ec (s : @request L R) : g (lib (send_resume ec s)) = g (lib s).
Proof using flush_g. by apply (send_resume_lib same). Qed.

Lemma get_resume_unchanged ec s : g (lib (get_resume process ec s)) = g (lib s).
Proof using consume_g result_g. by apply (get_resume_lib same). Qed.
End Unchanged.

(** Each of the two operations leaves the wait of the other alone. *)
Lemma send_resume_read_wait ec (s : @request L R) : read_wait (send_resume ec s) = read_wait s.
Proof.
  unfold send_resume. destruct (negb _); [done|]. destruct (is_error ec); [done|].
  by destruct (PQflush (lib s)) as [[] l].
Qed.

Lemma get_done_error_write_wait ec (s : @request L R) : write_wait (get_done_error ec s) = write_wait s.
Proof. unfold get_done_error. by destruct (String.eqb _ _). Qed.

Lemma handle_result_write_wait s : write_wait (handle_result process s) = write_wait s.
Proof.
  unfold handle_result. cbn. destruct (result_ s) as [r|]; [|done].
  destruct (PQresultStatus r); unfold process_and_done; try destruct (process r);
    by rewrite ?get_done_error_write_wait.
Qed.

Lemma drain_write_wait fuel s : write_wait (drain process fuel s) = write_wait s.
Proof.
  revert s. induction fuel as [|fuel IH]; intros s; cbn [drain]; (destruct (PQisBusy (lib s)); [done|]);
    destruct (PQgetResult (lib s)) as [[r|] l]; rewrite ?handle_result_write_wait; [done..| |done].
  by rewrite IH.
Qed.

Lemma first_loop_write_wait s : write_wait (first_loop process s) = write_wait s.
Proof.
  unfold first_loop. destruct (PQisBusy (lib s)); [done|].
  destruct (PQgetResult (lib s)) as [[r|] l]; [|done].
  destruct (bool_decide _); by rewrite ?handle_result_write_wait, ?drain_write_wait.
Qed.

Lemma get_resume_write_wait ec s : write_wait (get_resume process ec s) = write_wait s.
Proof.
  unfold get_resume. destruct (bool_decide (state s = qs_error)); [done|].
  destruct (is_error ec); [apply get_done_error_write_wait|].
  destruct (where_ s); [apply first_loop_write_wait| | |done];
    destruct (PQconsumeInput (lib s)) as [[|] l]; cbn [negb];
    by rewrite ?first_loop_write_wait, ?drain_write_wait, ?handle_result_write_wait,
      ?get_done_error_write_wait.
Qed.

(** No call of the handler is taken back. *)
Lemma send_resume_calls ec s : handler_calls s `prefix_of` handler_calls (send_resume ec s).
Proof.
  unfold send_resume. destruct (negb _); [done|]. destruct (is_error ec); [by eexists|].
  destruct (PQflush (lib s)) as [[] l]; [by eexists | done | done].
Qed.

Lemma get_done_error_calls ec (s : @request L R) : handler_calls (get_done_error ec s) = (handler_calls s ++ [ec])%list.
Proof. unfold get_done_error. by destruct (String.eqb _ _). Qed.

Lemma handle_result_calls s : handler_calls s `prefix_of` handler_calls (handle_result process s).
Proof.
  unfold handle_result. cbn. destruct (result_ s) as [r|]; [|done].
  destruct (PQresultStatus r); unfold process_and_done; try destruct (process r);
    rewrite ?get_done_error_calls; cbn; by eexists.
Qed.

Lemma drain_calls fuel s : handler_calls s `prefix_of` handler_calls (drain process fuel s).
Proof.
  revert s. induction fuel as [|fuel IH]; intros s; cbn [drain]; (destruct (PQisBusy (lib s)); [done|]);
    destruct (PQgetResult (lib s)) as [[r|] l]; try apply (handle_result_calls (with_lib l s)); [done|].
  apply (IH (with_lib l s)).
Qed.

Lemma first_loop_calls s : handler_calls s `prefix_of` handler_calls (first_loop process s).
Proof.
  unfold first_loop. destruct (PQisBusy (lib s)); [done|].
  destruct (PQgetResult (lib s)) as [[r|] l]; [|by eexists]. destruct (bool_decide _).
  - apply (handle_result_calls (set_result (Some r) (with_lib l s))).
  - apply (drain_calls _ (set_result (Some r) (with_lib l s))).
Qed.

Lemma get_resume_calls ec s : handler_calls s `prefix_of` handler_calls (get_resume process ec s).
Proof.
  unfold get_resume. destruct (bool_decide (state s = qs_error)); [done|]. destruct (is_error ec).
  { rewrite get_done_error_calls. by eexists. }
  destruct (where_ s); [apply first_loop_calls| | |done];
    destruct (PQconsumeInput (lib s)) as [[|] l]; cbn [negb].
  - apply (first_loop_calls (with_lib l s)).
  - rewrite get_done_error_calls. by eexists.
  - apply (drain_calls _ (with_lib l s)).
  - apply (handle_result_calls (with_lib l s)).
Qed.

(** A handler of the read wait that waits again calls nobody. *)
Lemma drain_waits fuel s :
  read_wait s = false -> read_wait (drain process fuel s) = true ->
  handler_calls (drain process fuel s) = handler_calls s.
Proof.
  revert s. induction fuel as [|fuel IH]; intros s; cbn [drain]; (destruct (PQisBusy (lib s)); [done|]);
    destruct (PQgetResult (lib s)) as [[r|] l]; intros Hr Hw;
    try (rewrite (proj1 (handle_result_read_wait _)) in Hw); cbn in Hw; try congruence.
  by rewrite (IH (with_lib l s) Hr Hw).
Qed.

Lemma first_loop_waits s :
  read_wait s = false -> read_wait (first_loop process s) = true ->
  handler_calls (first_loop process s) = handler_calls s.
Proof.
  unfold first_loop. intros Hr. destruct (PQisBusy (lib s)); [done|].
  destruct (PQgetResult (lib s)) as [[r|] l]; [|cbn; congruence]. destruct (bool_decide _).
  - rewrite (proj1 (handle_result_read_wait _)). cbn. congruence.
  - intros Hw. by rewrite (drain_waits _ (set_result (Some r) (with_lib l s)) Hr Hw).
Qed.

Lemma get_resume_waits ec s :
  read_wait s = false -> read_wait (get_resume process ec s) = true ->
  handler_calls (get_resume process ec s) = handler_calls s.
Proof.
  unfold get_resume. intros Hr. destruct (bool_decide (state s = qs_error)); [done|].
  destruct (is_error ec).
  { unfold get_done_error. destruct (String.eqb _ _); cbn; congruence. }
  destruct (where_ s); [by apply first_loop_waits| | |done];
    destruct (PQconsumeInput (lib s)) as [[|] l]; cbn [negb].
  - apply (first_loop_waits (with_lib l s) Hr).
  - unfold get_done_error. destruct (String.eqb _ _); cbn; congruence.
  - apply (drain_waits _ (with_lib l s) Hr).
  - rewrite (proj1 (handle_result_read_wait _)). cbn. congruence.
Qed.

(** The coroutine that waits has passed its start. *)
Lemma drain_waits_where fuel s :
  read_wait s = false -> read_wait (drain process fuel s) = true -> where_ (drain process fuel s) = in_drain_loop.
Proof.
  revert s. induction fuel as [|fuel IH]; intros s; cbn [drain]; (destruct (PQisBusy (lib s)); [done|]);
    destruct (PQgetResult (lib s)) as [[r|] l]; intros Hr Hw;
    try (rewrite (proj1 (handle_result_read_wait _)) in Hw); cbn in Hw; try congruence.
  exact (IH (with_lib l s) Hr Hw).
Qed.

Lemma first_loop_waits_where s :
  read_wait s = false -> read_wait (first_loop process s) = true -> where_ (first_loop process s) <> at_start.
Proof.
  unfold first_loop. intros Hr. destruct (PQisBusy (lib s)); [done|].
  destruct (PQgetResult (lib s)) as [[r|] l]; [|cbn; congruence]. destruct (bool_decide _).
  - rewrite (proj1 (handle_result_read_wait _)). cbn. congruence.
  - intros Hw. by rewrite (drain_waits_where _ (set_result (Some r) (with_lib l s)) Hr Hw).
Qed.

Lemma get_resume_waits_where ec s :
  read_wait s = false -> read_wait (get_resume process ec s) = true -> where_ (get_resume process ec s) <> at_start.
Proof.
  unfold get_resume. intros Hr. destruct (bool_decide (state s = qs_error)); [congruence|].
  destruct (is_error ec).
  { unfold get_done_error. destruct (String.eqb _ _); cbn; congruence. }
  destruct (where_ s); [by apply first_loop_waits_where| | |congruence];
    destruct (PQconsumeInput (lib s)) as [[|] l]; cbn [negb].
  - apply (first_loop_waits_where (with_lib l s) Hr).
  - unfold get_done_error. destruct (String.eqb _ _); cbn; congruence.
  - intros Hw. by rewrite (drain_waits_where _ (with_lib l s) Hr Hw).
  - rewrite (proj1 (handle_result_read_wait _)). cbn. congruence.
Qed.

End Operations.

Section Termination.
Context `{Boost} {L R : Type} `{LibPQ L R} `{!LibPQLaws L R} `{!LibPQProgress L R}.
Context (process : R -> option string).

(** The wake-ups of a wait that ended well in which no byte was moved although some
    are outstanding. *)
Definition idle_read (ec : error_code) (l : L) : bool :=
  negb (is_error ec) && (0 <? pending_input l)%nat &&
  (pending_input (snd (PQconsumeInput l)) =? pending_input l)%nat.
Definition idle_write (ec : error_code) (l : L) : bool :=
  negb (is_error ec) && (0 <? pending_output l)%nat &&
  (pending_output (snd (PQflush l)) =? pending_output l)%nat.

(** Runs with the number of the waits that have ended, whatever they ended with, and
    with that of the idle wake-ups among them. *)
Inductive run : nat -> nat -> request -> request -> Prop :=
| run_refl s : run 0 0 s s
| run_write n i ec s s' : write_wait s = true ->
    run n i (send_resume ec (set_write_wait false s)) s' ->
    run (S n) (Nat.b2n (idle_write ec (lib s)) + i) s s'
| run_read n i ec s s' : read_wait s = true ->
    run n i (get_resume process ec (set_read_wait false s)) s' ->
    run (S n) (Nat.b2n (idle_read ec (lib s)) + i) s s'.

(** *** The measure *)

Definition less_pending (l l' : L) : Prop :=
  (pending_input l' <= pending_input l)%nat /\ (pending_output l' <= pending_output l)%nat.

#[local] Instance less_pending_preorder : PreOrder less_pending.
Proof. split; unfold less_pending; [intros l | intros l1 l2 l3]; lia. Qed.

(** What a wait can still be worth. *)
Definition measure (s : @request L R) : nat :=
  ((if read_wait s then S (pending_input (lib s)) else 0) +
   (if write_wait s then S (pending_output (lib s)) else 0))%nat.

(** The end of a wait for writing: it waits again only for bytes that are left. *)
Lemma send_resume_measure ec s :
  write_wait s = true ->
  (S (measure (send_resume ec (set_write_wait false s))) <= Nat.b2n (idle_write ec (lib s)) + measure s)%nat.
Proof.
  intros Hw. set (s1 := set_write_wait false s).
  pose proof (send_resume_lib less_pending flush_monotone ec s1) as [Hi Ho].
  unfold measure. rewrite (send_resume_read_wait ec s1), Hw. cbn [read_wait s1 set_write_wait] in *.
  assert (write_wait (send_resume ec s1) = true ->
    (S (pending_output (lib (send_resume ec s1))) <= Nat.b2n (idle_write ec (lib s)) + pending_output (lib s))%nat) as Hm.
  { unfold s1, send_resume, idle_write. destruct (negb _) in |- *; [by cbn|]. destruct (is_error ec); [by cbn|]. cbn [lib set_write_wait].
    destruct (PQflush (lib s)) as [[] l] eqn:Hf; [by cbn..|]. intros _.
    pose proof (flush_pending _ _ Hf). apply flush_monotone in Hf as [_ Hf]. cbn [snd].
    destruct (Nat.ltb_spec 0 (pending_output (lib s))); [|lia].
    destruct (Nat.eqb_spec (pending_output l) (pending_output (lib s))); cbn; lia. }
  cbn [lib s1 set_write_wait] in *. destruct (write_wait (send_resume ec s1)), (read_wait s); try specialize (Hm eq_refl); lia.
Qed.

(** A loop that waits again has libpq busy. *)
Lemma drain_busy fuel s :
  read_wait s = false -> read_wait (drain process fuel s) = true -> (0 < pending_input (lib (drain process fuel s)))%nat.
Proof.
  revert s. induction fuel as [|fuel IH]; intros s; cbn [drain];
    (destruct (PQisBusy (lib s)) eqn:Hb; [intros _ _; by apply busy_pending|]);
    destruct (PQgetResult (lib s)) as [[r|] l] eqn:Hg; intros Hr Hw;
    try (rewrite (proj1 (handle_result_read_wait process _)) in Hw); cbn in Hw; try congruence.
  exact (IH (with_lib l s) Hr Hw).
Qed.

Lemma first_loop_busy s :
  read_wait s = false -> read_wait (first_loop process s) = true -> (0 < pending_input (lib (first_loop process s)))%nat.
Proof.
  unfold first_loop. intros Hr. destruct (PQisBusy (lib s)) eqn:Hb; [intros _; by apply busy_pending|].
  destruct (PQgetResult (lib s)) as [[r|] l] eqn:Hg; [|cbn; congruence]. destruct (bool_decide _).
  - rewrite (proj1 (handle_result_read_wait process _)). cbn. congruence.
  - intros Hw. by apply drain_busy in Hw.
Qed.

(** Consuming input is idle or takes some of it, when some is left afterwards. *)
Lemma consume_idle ec l l' l'' :
  is_error ec = false -> PQconsumeInput l = (true, l') -> less_pending l' l'' -> (0 < pending_input l'')%nat ->
  (S (pending_input l'') <= Nat.b2n (idle_read ec l) + pending_input l)%nat.
Proof.
  intros He Hc [Hl _] Hp. unfold idle_read. rewrite He, Hc. apply consume_monotone in Hc as [Hc _]. cbn [snd].
  destruct (Nat.ltb_spec 0 (pending_input l)); [|lia]. destruct (Nat.eqb_spec (pending_input l') (pending_input l)); cbn; lia.
Qed.

(** The end of a wait for reading: it waits again only for input that is left. *)
Lemma get_resume_input ec s :
  read_wait s = false -> where_ s <> at_start -> read_wait (get_resume process ec s) = true ->
  (S (pending_input (lib (get_resume process ec s))) <= Nat.b2n (idle_read ec (lib s)) + pending_input (lib s))%nat.
Proof.
  unfold get_resume. intros Hr Hp. destruct (bool_decide (state s = qs_error)); [congruence|].
  destruct (is_error ec) eqn:He.
  { unfold get_done_error. destruct (String.eqb _ _); cbn; congruence. }
  destruct (where_ s); [done| | |congruence]; destruct (PQconsumeInput (lib s)) as [[|] l] eqn:Hc; cbn [negb].
  - intros Hw. apply (consume_idle ec _ l); [done..| |by apply first_loop_busy].
    exact (first_loop_lib process less_pending result_monotone (with_lib l s)).
  - unfold get_done_error. destruct (String.eqb _ _); cbn; congruence.
  - intros Hw. apply (consume_idle ec _ l); [done..| |by apply drain_busy].
    exact (drain_lib process less_pending result_monotone _ (with_lib l s)).
  - rewrite (proj1 (handle_result_read_wait process _)). cbn. congruence.
Qed.

Lemma get_resume_measure ec s :
  read_wait s = true -> where_ s <> at_start ->
  (S (measure (get_resume process ec (set_read_wait false s))) <= Nat.b2n (idle_read ec (lib s)) + measure s)%nat.
Proof.
  intros Hr Hp. set (s1 := set_read_wait false s).
  pose proof (get_resume_lib process less_pending consume_monotone result_monotone ec s1) as [_ Ho].
  pose proof (get_resume_input ec s1 eq_refl Hp) as Hi.
  unfold measure. rewrite (get_resume_write_wait process ec s1), Hr. cbn [write_wait lib s1 set_read_wait] in *.
  destruct (read_wait (get_resume process ec s1)), (write_wait s); try specialize (Hi eq_refl); lia.
Qed.

(** *** Runs *)

Definition under_way (s : @request L R) : Prop := read_wait s = true -> where_ s <> at_start.

Lemma send_perform_read_wait q l : read_wait (send_perform q (initial l : @request L R)) = false.
Proof.
  unfold send_perform. destruct (PQsetnonblocking _) as [[|] l1]; [|done]. cbn [negb].
  destruct (PQsendQueryParams _ _) as [[|] l2]; [|done]. cbn [negb]. by rewrite send_resume_read_wait.
Qed.

Lemma start_under_way q l : under_way (start process q l).
Proof. intros Hr. apply get_resume_waits_where; [apply send_perform_read_wait | exact Hr]. Qed.

Lemma send_resume_under_way ec s : under_way s -> under_way (send_resume ec (set_write_wait false s)).
Proof.
  unfold under_way, send_resume. intros Hs. destruct (negb _); [done|]. destruct (is_error ec); [done|].
  by destruct (PQflush _) as [[] l].
Qed.

Lemma run_measure n i s s' : run n i s s' -> under_way s -> (n + measure s' <= i + measure s)%nat.
Proof.
  induction 1 as [s|n i ec s s' Hw _ IH|n i ec s s' Hr _ IH]; intros Hs; [lia| |].
  - specialize (IH (send_resume_under_way ec s Hs)). pose proof (send_resume_measure ec s Hw). lia.
  - assert (under_way (get_resume process ec (set_read_wait false s))) as Hs'
      by (intros Hr'; by apply get_resume_waits_where).
    specialize (IH Hs'). pose proof (get_resume_measure ec s Hr (Hs Hr)). lia.
Qed.

Lemma run_calls n i s s' : run n i s s' -> handler_calls s `prefix_of` handler_calls s'.
Proof.
  induction 1 as [s|n i ec s s' Hw _ IH|n i ec s s' Hr _ IH]; [done| |];
    (etransitivity; [|exact IH]).
  - apply (send_resume_calls ec (set_write_wait false s)).
  - apply (get_resume_calls process ec (set_read_wait false s)).
Qed.

(** Before the handler is called no write failure is late. *)
Lemma run_open n i s s' :
  run n i s s' -> handler_calls s' = [] -> rtc (step process false) s s'.
Proof.
  induction 1 as [s|n i ec s s' Hw Hrun IH|n i ec s s' Hr _ IH]; intros Hh; [apply rtc_refl| |];
    (eapply rtc_l; [|exact (IH Hh)]); [|by apply step_read].
  apply step_write; [done|]. right. intros [Hs _]. apply run_calls in Hrun.
  rewrite Hh in Hrun. apply prefix_nil_inv in Hrun.
  pose proof (send_resume_calls ec (set_write_wait false s)) as Hc. rewrite Hrun in Hc. apply prefix_nil_inv in Hc.
  unfold succeeded in Hs. cbn in Hc. rewrite Hc in Hs. by inversion Hs.
Qed.

(** C7. A request ends.  Its waits, for reading and for writing, end at most as often
    as there are bytes to receive and to send when its query is handed to libpq, and
    twice more, not counting idle wake-ups - a wait that ends well although no byte
    can be moved then and some are outstanding.  As long as the handler was not called
    the request waits for input, so that when no wait is left it was called.  All this
    in every run, late write failures included. *)
Theorem request_terminates q l n idle s :
  run n idle (start process q l) s ->
  (n <= idle + pending_input (lib (start process q l)) + pending_output (lib (start process q l)) + 2)%nat /\
  (read_wait s = false -> handler_calls s <> []).
Proof.
  intros Hr. split.
  - pose proof (run_measure _ _ _ _ Hr (start_under_way q l)) as Hm. unfold measure in Hm at 2.
    destruct (read_wait (start process q l)), (write_wait (start process q l)); lia.
  - intros Hw Hh. destruct (request_settled process q l s (run_open _ _ _ _ Hr Hh)) as [(_ & Hw' & _)|[((ec & He) & _)|(He & _)]];
      congruence.
Qed.

End Termination.

(** A libpq whose answer comes in two messages; its output is never reported as sent. *)
#[export] Instance toy_progress (flush : query_state) :
  @LibPQProgress toy exec_status (toy_libpq flush).
Proof.
  refine {| pending_input l := match l with pending => 1 | _ => 0 end; pending_output _ := 1%nat |}; cbn.
  - intros []; cbn; try done; lia.
  - intros; lia.
  - intros [] ok l' Hc; simplify_eq/=; lia.
  - intros [] r l' Hg; simplify_eq/=; lia.
  - intros l q' l' Hf; simplify_eq/=; lia.
Defined.

Lemma request_terminates_witness :
  let s0 := @start linux_boost _ _ (toy_libpq send_finish) (fun _ => None) no_query pending in
  let s := @get_resume linux_boost _ _ (toy_libpq send_finish) (fun _ => None) no_error
             (set_read_wait false s0) in
  (1 <= 0 + @pending_input _ _ (toy_libpq send_finish) _ (lib s0) +
        @pending_output _ _ (toy_libpq send_finish) _ (lib s0) + 2)%nat /\
  (read_wait s = false -> handler_calls s <> []).
Proof.
  intros s0 s.
  apply (@request_terminates linux_boost _ _ (toy_libpq send_finish) (toy_laws send_finish) _
    (fun _ => None) no_query pending 1 0 s).
  exact (@run_read linux_boost _ _ (toy_libpq send_finish) (toy_progress send_finish) (fun _ => None) 0 0 no_error s0 s
    eq_refl (run_refl _ s)).
Defined.

End RequestRuns.
