(* ===== verification/Executors.v ===== *)
(** Where handlers run: the executors the adapters of the library associate with
    themselves, and the executor on which the handler of the user is called at last
    ([get_executor], [asio::dispatch], [asio::post] and the strands of
    [src/include/bozo/detail] and [src/include/bozo/impl]).

    Asio calls the handler of an operation on the executor associated with it.  Every
    operation of the library wraps the handler it is given in an adapter of its own,
    so that what the handler asks for has to be handed through all of them.
    [Handler] is the trait the adapters implement, [HandlerLaws] what is promised of
    it; each adapter is an instance for every handler it can wrap. *)

From S2P Require Import Prelude.
From Stdlib Require Import List.
From stdpp Require Import base tactics list.

(** [caller] is a thread outside of the library, [io_executor] the executor of an
    [io_context]; a strand runs the handlers it is given one at a time. *)
Inductive executor : Set :=
| caller
| io_executor (context : nat)
| other_executor (id : nat)
| strand (id : nat) (inner : executor).

#[export] Instance executor_eq_dec : EqDecision executor.
Proof. solve_decision. Defined.

(** A handler without an executor of its own has the [system_executor], [None], which
    runs what is dispatched to it in place. *)
Definition dispatch (target : option executor) (current : executor) : executor :=
  default current target.

(** [wanted] is the executor of the user's handler; [lands h current] the executors on
    which that may be called when [h] is called on [current], one for each way
    through its [operator()].  [safe] are the executors [h] may be called on. *)
Class Handler (H : Type) := {
  get_associated_executor : H -> option executor;
  wanted : H -> option executor;
  lands : H -> executor -> list executor;
  safe : H -> executor -> Prop;
}.

Class HandlerLaws (H : Type) `{Handler H} := {
  dispatch_safe : forall h current, safe h (dispatch (get_associated_executor h) current);
  lands_wanted : forall h current x, wanted h = Some x -> safe h current -> Forall (eq x) (lands h current);
  lands_called : forall h current, lands h current <> [];
}.

Module Executors.

(** The handler of the user, with or without an executor bound to it. *)
Record user_handler := mk_user_handler { bound : option executor }.

#[export] Instance user_handler_handler : Handler user_handler := {
  get_associated_executor := bound;
  wanted := bound;
  lands _ current := [current];
  safe h current := current = dispatch (bound h) current;
}.

#[export] Instance user_handler_laws : HandlerLaws user_handler.
Proof.
  split; cbn.
  - intros [[x|]] current; done.
  - intros [b] current x -> Hs. cbn in Hs. by repeat constructor.
  - done.
Qed.

(** ** The adapters of [src/include/bozo/detail] *)

Section Adapters.
Context {H : Type} `{Handler H}.

(** [detail::binder] hands on the executor and the call. *)
Record binder := mk_binder { binder_handler_ : H }.

#[export] Instance binder_handler : Handler binder := {
  get_associated_executor h := get_associated_executor (binder_handler_ h);
  wanted h := wanted (binder_handler_ h);
  lands h := lands (binder_handler_ h);
  safe h := safe (binder_handler_ h);
}.

(** [asio::dispatch(detail::bind(std::move(handler), args...))]. *)
Definition dispatch_bound (h : H) (current : executor) : list executor :=
  let b := mk_binder h in lands b (dispatch (get_associated_executor b) current).

(** [detail::wrap_executor] has an executor of its own and dispatches the call. *)
Record wrap_executor := mk_wrap_executor { ex : executor; wrapped : H }.

#[export] Instance wrap_executor_handler : Handler wrap_executor := {
  get_associated_executor h := Some (ex h);
  wanted h := wanted (wrapped h);
  lands h := dispatch_bound (wrapped h);
  safe _ _ := True;
}.

(** [detail::post_handler] posts the call to the executor of the connection, and
    Asio from there to the executor of the handler. *)
Record post_handler := mk_post_handler { connection_ex : executor; posted_handler : H }.

#[export] Instance post_handler_handler : Handler post_handler := {
  get_associated_executor _ := None;
  wanted h := wanted (posted_handler h);
  lands h _ := dispatch_bound (posted_handler h) (connection_ex h);
  safe _ _ := True;
}.

(** [detail::make_copyable] holds a handler and converts to it. *)
Record make_copyable := mk_make_copyable { held : H }.

#[export] Instance make_copyable_handler : Handler make_copyable := {
  get_associated_executor h := get_associated_executor (held h);
  wanted h := wanted (held h);
  lands h := lands (held h);
  safe h := safe (held h);
}.

(** [detail::io_deadline_handler]: the handler is called by the operation or, as the
    handler of the timer, whose executor is the same, on that executor. *)
Record io_deadline_handler := mk_io_deadline_handler { timer_ex : executor; deadline_handler : H }.

Definition timer_handler_executor (h : io_deadline_handler) : option executor :=
  get_associated_executor (deadline_handler h).

#[export] Instance io_deadline_handler_handler : Handler io_deadline_handler := {
  get_associated_executor h := get_associated_executor (deadline_handler h);
  wanted h := wanted (deadline_handler h);
  lands h current :=
    (lands (deadline_handler h) current ++
     lands (deadline_handler h) (dispatch (timer_handler_executor h) (timer_ex h)))%list;
  safe h := safe (deadline_handler h);
}.

(** [failover::detail::continuation]: another try starts, whose handler is a
    continuation again, or the handler is called. *)
Record continuation := mk_continuation { continued : H }.

#[export] Instance continuation_handler : Handler continuation := {
  get_associated_executor h := get_associated_executor (continued h);
  wanted h := wanted (continued h);
  lands h := lands (continued h);
  safe h := safe (continued h);
}.

(** [async_start_transaction_op] and [async_end_transaction_op] have no executor, and
    dispatch the call. *)
Record transaction_op := mk_transaction_op { transaction_handler : H }.

#[export] Instance transaction_op_handler : Handler transaction_op := {
  get_associated_executor _ := None;
  wanted h := wanted (transaction_handler h);
  lands h := dispatch_bound (transaction_handler h);
  safe _ _ := True;
}.

(** [async_connect_op]: the handler is called where the operation is started or, after
    a wait on the socket, on its own executor. *)
Record async_connect_op := mk_async_connect_op { socket_ex : executor; connect_handler : H }.

#[export] Instance async_connect_op_handler : Handler async_connect_op := {
  get_associated_executor h := get_associated_executor (connect_handler h);
  wanted h := wanted (connect_handler h);
  lands h current :=
    (lands (connect_handler h) current ++
     lands (connect_handler h) (dispatch (get_associated_executor (connect_handler h)) (socket_ex h)))%list;
  safe h := safe (connect_handler h);
}.

Context `{!HandlerLaws H}.

#[export] Instance binder_laws : HandlerLaws binder.
Proof. split; cbn; intros; [apply dispatch_safe | by apply lands_wanted | apply lands_called]. Qed.

Lemma dispatch_bound_wanted (h : H) current x : wanted h = Some x -> Forall (eq x) (dispatch_bound h current).
Proof. intros Hw. apply (lands_wanted (mk_binder h)); [done|]. apply dispatch_safe. Qed.

Lemma dispatch_bound_called (h : H) current : dispatch_bound h current <> [].
Proof. apply (lands_called (mk_binder h)). Qed.

Lemma lands_or_dispatch (h : H) current other x :
  wanted h = Some x -> safe h current ->
  Forall (eq x) (lands h current ++ lands h (dispatch (get_associated_executor h) other))%list.
Proof.
  intros Hw Hs. apply Forall_app. split; apply lands_wanted; try done. apply dispatch_safe.
Qed.

Lemma lands_app_called (h : H) current (es : list executor) : (lands h current ++ es)%list <> [].
Proof. pose proof (lands_called h current). by destruct (lands h current). Qed.
End Adapters.
Arguments binder : clear implicits.
Arguments wrap_executor : clear implicits.
Arguments post_handler : clear implicits.
Arguments make_copyable : clear implicits.
Arguments io_deadline_handler : clear implicits.
Arguments continuation : clear implicits.
Arguments transaction_op : clear implicits.
Arguments async_connect_op : clear implicits.

(** An adapter that hands everything on, one that dispatches, and one that does either. *)
Ltac handed_on :=
  split; cbn; intros; [apply dispatch_safe | by apply lands_wanted | apply lands_called].

Ltac dispatched :=
  split; cbn; intros; [done | by apply dispatch_bound_wanted | apply dispatch_bound_called].
Ltac handed_on_or_dispatched :=
  split; cbn; intros; [apply dispatch_safe | by apply lands_or_dispatch | apply lands_app_called].

Section AdapterLaws.
Context {H : Type} `{HandlerLaws H}.

#[export] Instance make_copyable_laws : HandlerLaws (make_copyable H).
Proof. handed_on. Qed.
#[export] Instance continuation_laws : HandlerLaws (continuation H).
Proof. handed_on. Qed.
#[export] Instance wrap_executor_laws : HandlerLaws (wrap_executor H).
Proof. dispatched. Qed.
#[export] Instance post_handler_laws : HandlerLaws (post_handler H).
Proof. dispatched. Qed.
#[export] Instance transaction_op_laws : HandlerLaws (transaction_op H).
Proof. dispatched. Qed.
#[export] Instance io_deadline_handler_laws : HandlerLaws (io_deadline_handler H).
Proof. handed_on_or_dispatched. Qed.
#[export] Instance async_connect_op_laws : HandlerLaws (async_connect_op H).
Proof. handed_on_or_dispatched. Qed.
End AdapterLaws.

(** One of two adapters, as a constant expression chooses. *)
#[export] Instance sum_handler {A B} `{Handler A} `{Handler B} : Handler (A + B) := {
  get_associated_executor h :=
    match h with inl a => get_associated_executor a | inr b => get_associated_executor b end;
  wanted h := match h with inl a => wanted a | inr b => wanted b end;
  lands h := match h with inl a => lands a | inr b => lands b end;
  safe h := match h with inl a => safe a | inr b => safe b end;
}.

#[export] Instance sum_laws {A B} `{HandlerLaws A} `{HandlerLaws B} : HandlerLaws (A + B).
Proof.
  split; intros [a|b]; cbn; intros;
    first [apply dispatch_safe | by apply lands_wanted | apply lands_called].
Qed.

(** ** The operations of [src/include/bozo/impl] *)

Section Operations.
Context {H : Type} `{Handler H}.

(** [wrapper] and [pooled_connection_wrapper]'s own [handler_], [request_oid_map_op]:
    executor and call are handed on. *)
Record request_oid_map_op := mk_request_oid_map_op { oid_ctx_handler_ : H }.

#[export] Instance request_oid_map_op_handler : Handler request_oid_map_op := {
  get_associated_executor h := get_associated_executor (oid_ctx_handler_ h);
  wanted h := wanted (oid_ctx_handler_ h);
  lands h := lands (oid_ctx_handler_ h);
  safe h := safe (oid_ctx_handler_ h);
}.

Record pool_wrapper := mk_pool_wrapper { pool_handler_ : H }.

#[export] Instance pool_wrapper_handler : Handler pool_wrapper := {
  get_associated_executor h := get_associated_executor (pool_handler_ h);
  wanted h := wanted (pool_handler_ h);
  lands h := lands (pool_handler_ h);
  safe h := safe (pool_handler_ h);
}.

(** [async_request_op::apply_time_constaint_or_strand]; the timer is one of the
    connection's executor. *)
Definition apply_time_constaint_or_strand (constrained : bool) (conn_ex : executor) (h : wrap_executor H) :
  io_deadline_handler (wrap_executor H) + wrap_executor H :=
  if constrained then inl (mk_io_deadline_handler conn_ex h) else inr h.

(** [async_request_op]: [request_strand] is the strand [make_strand_executor] makes. *)
Record async_request_op := mk_async_request_op {
  request_constrained : bool;
  request_ex : executor;
  request_strand : nat;
  request_handler_ : H;
}.

(** The handler in the [request_operation_context]. *)
Definition context_handler (o : async_request_op) : io_deadline_handler (wrap_executor H) + wrap_executor H :=
  apply_time_constaint_or_strand (request_constrained o) (request_ex o)
    (mk_wrap_executor (strand (request_strand o) (request_ex o)) (request_handler_ o)).

(** [get_executor] of [async_send_query_params_op] and of [async_get_result_op], which have
    the same text in the two classes, and the executor of the handler of the timer.
    They are the executors the ends of the waits are run on; the first part of both
    operations runs where [async_request_op] is called ([request_started_off_strand]). *)
Definition send_executor (o : async_request_op) : option executor :=
  get_associated_executor (context_handler o).
Definition get_result_executor (o : async_request_op) : option executor :=
  get_associated_executor (context_handler o).
Definition request_timer_executor (o : async_request_op) : list (option executor) :=
  match context_handler o with inl d => [timer_handler_executor d] | inr _ => [] end.

(** [operator()]: the handler is called with the error of the connection, with an
    error when the operations are started, or by one of them after a wait. *)
Definition request_lands (o : async_request_op) (current : executor) : list executor :=
  (lands (request_handler_ o) current ++ lands (context_handler o) current ++
   lands (context_handler o) (dispatch (send_executor o) (request_ex o)))%list.

#[export] Instance async_request_op_handler : Handler async_request_op := {
  get_associated_executor o := get_associated_executor (request_handler_ o);
  wanted o := wanted (request_handler_ o);
  lands := request_lands;
  safe o := safe (request_handler_ o);
}.

(** [forward_connection::apply]. *)
Definition forward_connection (conn_ex : executor) (h : H) : list executor := dispatch_bound h conn_ex.

(** [deadline_cancel_handler] with [on_timer_expired]: the executor of the handler is
    kept when the handler is moved from. *)
Record deadline_cancel_handler := mk_deadline_cancel_handler { cancel_timer_ex : executor; cancel_handler : H }.

#[export] Instance deadline_cancel_handler_handler : Handler deadline_cancel_handler := {
  get_associated_executor h := get_associated_executor (cancel_handler h);
  wanted h := wanted (cancel_handler h);
  lands h current :=
    (lands (cancel_handler h) current ++
     lands (cancel_handler h) (dispatch (get_associated_executor (cancel_handler h)) (cancel_timer_ex h)))%list;
  safe h := safe (cancel_handler h);
}.

(** [cancel_op] runs on the executor of its handle and dispatches the handler. *)
Record cancel_op := mk_cancel_op { handle_ex : executor; cancel_op_handler_ : H }.

Definition run_cancel_op (o : cancel_op) : list executor :=
  dispatch_bound (cancel_op_handler_ o) (handle_ex o).

Context `{!HandlerLaws H}.

#[export] Instance request_oid_map_op_laws : HandlerLaws request_oid_map_op.
Proof. handed_on. Qed.
#[export] Instance pool_wrapper_laws : HandlerLaws pool_wrapper.
Proof. handed_on. Qed.
#[export] Instance deadline_cancel_handler_laws : HandlerLaws deadline_cancel_handler.
Proof. handed_on_or_dispatched. Qed.

Lemma context_handler_safe (o : async_request_op) current : safe (context_handler o) current.
Proof. by destruct o as [[] conn_ex n h]. Qed.

Lemma context_handler_wanted (o : async_request_op) : wanted (context_handler o) = wanted (request_handler_ o).
Proof. by destruct o as [[] conn_ex n h]. Qed.

#[export] Instance async_request_op_laws : HandlerLaws async_request_op.
Proof.
  split; cbn -[request_lands]; intros; [apply dispatch_safe|..]; unfold request_lands.
  - rewrite !Forall_app. split; [by apply lands_wanted|].
    split; (apply lands_wanted; [by rewrite context_handler_wanted | apply context_handler_safe]).
  - apply lands_app_called.
Qed.
End Operations.
Arguments request_oid_map_op : clear implicits.
Arguments pool_wrapper : clear implicits.
Arguments async_request_op : clear implicits.
Arguments deadline_cancel_handler : clear implicits.
Arguments cancel_op : clear implicits.

Section Connecting.
Context {H : Type} `{Handler H}.

(** [request_oid_map_handler]: the OIDs are requested with a time constraint of [none],
    by the connection as the provider. *)
Record request_oid_map_handler := mk_request_oid_map_handler {
  oid_ex : executor;
  oid_strand : nat;
  oid_handler_ : H;
}.

Definition oid_request (h : request_oid_map_handler) : async_request_op (request_oid_map_op H) :=
  mk_async_request_op false (oid_ex h) (oid_strand h) (mk_request_oid_map_op (oid_handler_ h)).

#[export] Instance request_oid_map_handler_handler : Handler request_oid_map_handler := {
  get_associated_executor h := get_associated_executor (oid_handler_ h);
  wanted h := wanted (oid_handler_ h);
  lands h current := (lands (oid_handler_ h) current ++ forward_connection (oid_ex h) (oid_request h))%list;
  safe h := safe (oid_handler_ h);
}.

Context `{!HandlerLaws H}.

#[export] Instance request_oid_map_handler_laws : HandlerLaws request_oid_map_handler.
Proof.
  split; cbn -[forward_connection]; intros.
  - apply dispatch_safe.
  - apply Forall_app. split; [by apply lands_wanted|]. by apply (dispatch_bound_wanted (oid_request h)).
  - apply lands_app_called.
Qed.
End Connecting.
Arguments request_oid_map_handler : clear implicits.

Section Sources.
Context {H : Type} `{Handler H}.
(** The executor of the [io_context], the strands that are made, and whether the OID
    map of the connection has no types. *)
Context (io : executor) (strand_id oid_strand_id : nat) (oid_map_empty : bool).

(** [apply_time_constaint] of [async_connect.h]. *)
Definition apply_time_constaint (constrained : bool) (h : H) :
  io_deadline_handler (wrap_executor H) + wrap_executor H :=
  if constrained
  then inl (mk_io_deadline_handler io (mk_wrap_executor (strand strand_id io) h))
  else inr (mk_wrap_executor io h).

Definition connect_handler_type : Type :=
  let T := (io_deadline_handler (wrap_executor H) + wrap_executor H)%type in
  (request_oid_map_handler T + T)%type.

Definition apply_oid_map_request (h : io_deadline_handler (wrap_executor H) + wrap_executor H) :
  connect_handler_type :=
  if oid_map_empty then inr h else inl (mk_request_oid_map_handler io oid_strand_id h).

Definition async_connect (constrained : bool) (h : H) : async_connect_op connect_handler_type :=
  mk_async_connect_op io (apply_oid_map_request (apply_time_constaint constrained h)).

(** [connection_info::operator()], called on [current]. *)
Definition connection_info_lands (constrained : bool) (h : H) (current : executor) : list executor :=
  lands (async_connect constrained h) current.

(** [initiate_async_cancel::operator()]. *)
Definition cancel_lands (limited : bool) (handle : executor) (h : H) : list executor :=
  if limited
  then run_cancel_op (mk_cancel_op handle
         (mk_deadline_cancel_handler io (mk_wrap_executor (strand strand_id io) h)))
  else run_cancel_op (mk_cancel_op handle h).

Context `{!HandlerLaws H}.

Lemma connection_info_lands_wanted constrained h current x :
  wanted h = Some x -> Forall (eq x) (connection_info_lands constrained h current).
Proof.
  intros Hw. unfold connection_info_lands, async_connect, apply_oid_map_request, apply_time_constaint.
  apply lands_wanted; destruct oid_map_empty, constrained; done.
Qed.
End Sources.

(** [pooled_connection_wrapper] of a pool whose source is a [connection_info]. *)
Section Pool.
Context {H : Type} `{Handler H}.

Record pooled_connection_wrapper := mk_pooled_connection_wrapper {
  io_executor_ : executor;
  wrapper_strand : nat;
  wrapper_oid_strand : nat;
  wrapper_oid_map_empty : bool;
  wrapper_constrained : bool;
  wrapper_handler_ : make_copyable H;
}.

Definition pool_lands (w : pooled_connection_wrapper) (current : executor) : list executor :=
  (lands (wrapper_handler_ w) current ++
   connection_info_lands (io_executor_ w) (wrapper_strand w) (wrapper_oid_strand w)
     (wrapper_oid_map_empty w) (wrapper_constrained w) (mk_pool_wrapper (wrapper_handler_ w)) current)%list.

#[export] Instance pooled_connection_wrapper_handler : Handler pooled_connection_wrapper := {
  get_associated_executor w := get_associated_executor (wrapper_handler_ w);
  wanted w := wanted (wrapper_handler_ w);
  lands := pool_lands;
  safe w := safe (wrapper_handler_ w);
}.

Context `{!HandlerLaws H}.

#[export] Instance pooled_connection_wrapper_laws : HandlerLaws pooled_connection_wrapper.
Proof.
  split; cbn -[pool_lands]; intros; [apply dispatch_safe|..]; unfold pool_lands.
  - apply Forall_app. split; [by apply lands_wanted|].
    exact (connection_info_lands_wanted _ _ _ _ _ (mk_pool_wrapper (wrapper_handler_ h)) _ _ H1).
  - apply lands_app_called.
Qed.
End Pool.
Arguments pooled_connection_wrapper : clear implicits.

(** ** Properties *)

(** C19. A handler that has an executor is called on this executor, whatever operation
    it is given to and on whatever way through it: a request with a connection the
    user has, with one of a connection source or of a pool, with or without a time
    limit and the request for OIDs, a transaction, another try of a failover
    strategy, a cancellation. *)
Theorem handler_called_on_its_executor {H} `{HandlerLaws H} (h : H) x io n n' current oids constrained :
  wanted h = Some x ->
  let request := mk_async_request_op constrained io n h in
  Forall (eq x) (forward_connection io request) /\
  Forall (eq x) (connection_info_lands io n n' oids constrained request current) /\
  Forall (eq x) (dispatch_bound
    (mk_pooled_connection_wrapper io n n' oids constrained (mk_make_copyable request)) current) /\
  Forall (eq x) (forward_connection io (mk_async_request_op constrained io n (mk_transaction_op h))) /\
  Forall (eq x) (forward_connection io (mk_async_request_op constrained io n (mk_continuation h))) /\
  Forall (eq x) (cancel_lands io n constrained current h).
Proof.
  intros Hw request. split_and!.
  - by apply (dispatch_bound_wanted request).
  - exact (connection_info_lands_wanted _ _ _ _ _ request _ _ Hw).
  - by apply (dispatch_bound_wanted (mk_pooled_connection_wrapper io n n' oids constrained (mk_make_copyable request))).
  - by apply (dispatch_bound_wanted (mk_async_request_op constrained io n (mk_transaction_op h))).
  - by apply (dispatch_bound_wanted (mk_async_request_op constrained io n (mk_continuation h))).
  - unfold cancel_lands. destruct constrained; apply dispatch_bound_wanted; exact Hw.
Qed.

(** The ends of the waits of a request and of the timer of its time limit have the strand
    of the request as their executor; so have those of the polling of a connection
    under a time limit. *)
Lemma request_waits_on_one_strand {H} `{Handler H} (o : async_request_op H) :
  Forall (eq (Some (strand (request_strand o) (request_ex o))))
    (send_executor o :: get_result_executor o :: request_timer_executor o) /\
  List.length (request_timer_executor o) = Nat.b2n (request_constrained o) /\
  forall io n n' oids (h : H),
    get_associated_executor (async_connect io n n' oids true h) = Some (strand n io).
Proof.
  split_and!.
  - destruct o as [[] conn_ex n h]; by repeat constructor.
  - by destruct o as [[] conn_ex n h].
  - by intros io n n' [] h.
Qed.

(** The request for the OIDs that follows has a strand of its own, while the timer
    stays on that of the connection: the two are not run one after the other by a
    strand. *)
Theorem oid_request_on_another_strand {H} `{Handler H} io n n' (h : H) :
  n <> n' ->
  match apply_oid_map_request io n' false (apply_time_constaint io n true h) with
  | inl o =>
      send_executor (oid_request o) <>
      get_associated_executor (apply_time_constaint io n true h)
  | inr _ => False
  end.
Proof. cbn. congruence. Qed.

(** A request is started on the executor of its handler or of its connection, and not
    on the strand it makes then. *)
Theorem request_started_off_strand {H} `{Handler H} io n constrained (h : H) :
  wanted h <> Some (strand n io) ->
  get_associated_executor h = wanted h \/ get_associated_executor h = None ->
  let o := mk_async_request_op constrained io n h in
  Some (dispatch (get_associated_executor o) io) <> send_executor o.
Proof.
  intros Hw Ha o. assert (send_executor o = Some (strand n io)) as -> by by destruct constrained.
  cbn. destruct Ha as [-> | ->]; cbn.
  - destruct (wanted h) as [x|]; cbn; [congruence|]. intros [= Hc]. clear -Hc.
    assert (forall e, e <> strand n e) as He by (induction e; congruence). by apply (He io).
  - intros [= Hc]. assert (forall e, e <> strand n e) as He by (induction e; congruence). by apply (He io).
Qed.

Lemma handler_called_on_its_executor_witness :
  let h := mk_transaction_op (mk_user_handler (Some (other_executor 3))) in
  let x := other_executor 3 in let io := io_executor 0 in
  let request := mk_async_request_op true io 1 h in
  Forall (eq x) (forward_connection io request) /\
  Forall (eq x) (connection_info_lands io 1 2 false true request caller) /\
  Forall (eq x) (dispatch_bound
    (mk_pooled_connection_wrapper io 1 2 false true (mk_make_copyable request)) caller) /\
  Forall (eq x) (forward_connection io (mk_async_request_op true io 1 (mk_transaction_op h))) /\
  Forall (eq x) (forward_connection io (mk_async_request_op true io 1 (mk_continuation h))) /\
  Forall (eq x) (cancel_lands io 1 true caller h).
Proof. intros h x io request. by apply (handler_called_on_its_executor h x). Defined.

End Executors.
