(* ===== verification/TimedOperation.v ===== *)
(** Operations under a time limit: what [io_deadline_handler] of
    [src/include/bozo/detail/deadline.h] makes of any operation that waits on the socket
    of a connection.

    [Operation] is the interface of such an operation: the waits it has started,
    what it does when one of them ends, the calls it has made of its handler and
    the cancellations of the socket.  The machine has the operation, the context of
    the deadline and the queue of the handlers that are ready to run.  The handlers
    run one at a time and each is one step; a wait that is not in the queue is in
    the reactor.  The cancellation of the socket queues the waits that are in the
    reactor with [operation_aborted]; a handler that is queued already cannot be
    cancelled any more.

    There are two step relations.  [any_step] has every run: any ready handler may be
    the next, whatever its wait ended with.  [timed_step] has the regular runs of a
    strand: the handlers run in the order in which they became ready, and no wait
    ends in a way the operation makes no promise for ([admissible]; for a request,
    a write wait that fails after the request has succeeded).  [any_step_regular]
    says what is between the two: a run of [any_step] has the invariant of the
    regular runs or it has run the handler of an end that is not admissible. *)

From S2P Require Import Prelude ErrorCode Errors Cancel.
From Stdlib Require Import ZArith Lia List.
From stdpp Require Import base tactics list relations.

(** [async_wait_read] and [async_wait_write]. *)
Inductive wait : Set := for_read | for_write.

#[export] Instance wait_eq_dec : EqDecision wait.
Proof. solve_decision. Defined.

Class Operation (S : Type) := {
  waits_for : wait -> S -> bool;
  on_wait : wait -> error_code -> S -> S;
  outcomes : S -> list error_code;
  cancellations : S -> nat;
}.

(** What an operation promises to the machine that runs it: its handler is called
    at most once and no call is taken back; until the call it waits for the one
    wait that is [essential], and ends when this wait fails; the other wait does
    not interfere.  [admissible] are the ends of waits the promises are made for, all of
    them before the handler was called. *)
Class OperationLaws (S : Type) `{Operation S} := {
  operation_ok : S -> Prop;
  admissible : wait -> error_code -> S -> Prop;
  essential : S -> wait;
  ok_resume : forall k ec s, operation_ok s -> waits_for k s = true -> admissible k ec s ->
    operation_ok (on_wait k ec s);
  ok_outcomes : forall s, operation_ok s -> (length (outcomes s) <= 1)%nat;
  resume_outcomes : forall k ec s, operation_ok s -> waits_for k s = true -> admissible k ec s ->
    outcomes s `prefix_of` outcomes (on_wait k ec s);
  resume_other : forall k k' ec s, operation_ok s -> k' <> k -> waits_for k s = true ->
    waits_for k' s = true -> waits_for k' (on_wait k ec s) = true;
  essential_waits : forall s, operation_ok s -> outcomes s = [] -> waits_for (essential s) s = true;
  essential_aborts : forall ec s, operation_ok s -> outcomes s = [] -> is_error ec = true ->
    outcomes (on_wait (essential s) ec s) <> [];
  other_silent : forall k ec s, operation_ok s -> outcomes s = [] -> waits_for k s = true ->
    k <> essential s -> outcomes (on_wait k ec s) = [] ->
    essential (on_wait k ec s) = essential s /\ cancellations (on_wait k ec s) = cancellations s;
  open_admissible : forall k ec s, outcomes s = [] -> admissible k ec s;
  admissible_dec : forall k ec s, {admissible k ec s} + {~ admissible k ec s};
}.

Module TimedOperation.

Import Cancel.

(** The handlers that become ready: of a wait on the socket, and of the timer. *)
Inductive event : Set := ev_wait (k : wait) (ec : error_code) | ev_timer.

Definition wait_eqb (k k' : wait) : bool :=
  match k, k' with for_read, for_read | for_write, for_write => true | _, _ => false end.

Lemma wait_eqb_spec k k' : reflect (k = k') (wait_eqb k k').
Proof. by destruct k, k'; constructor. Qed.

Definition is_wait (k : wait) (e : event) : bool :=
  match e with ev_wait k' _ => wait_eqb k' k | ev_timer => false end.
Definition is_timer (e : event) : bool := match e with ev_timer => true | _ => false end.

Lemma is_wait_refl k ec : is_wait k (ev_wait k ec) = true.
Proof. by destruct k. Qed.

Section Timed.
Context `{Boost} {S : Type} `{Operation S}.

(** [deadline_] is [None] when the time constraint is [none]; the connection the
    handler gets is the one the operation has, so that the result is [unit]. *)
Record timed := mk_timed {
  op : S;
  deadline_ : option (@IoDeadline.state unit);
  direct_calls : list error_code;
  timer_armed : bool;
  queue : list event;
}.

Definition with_op (s : S) (m : timed) : timed :=
  mk_timed s (deadline_ m) (direct_calls m) (timer_armed m) (queue m).
Definition set_queue (q : list event) (m : timed) : timed :=
  mk_timed (op m) (deadline_ m) (direct_calls m) (timer_armed m) q.

(** The calls the user's handler has got. *)
Definition user_calls (m : timed) : list error_code :=
  match deadline_ m with None => direct_calls m | Some d => map fst (IoDeadline.calls d) end.

Definition in_reactor (k : wait) (m : timed) : bool :=
  waits_for k (op m) && negb (existsb (is_wait k) (queue m)).

(** [cancel()] of the connection, which is that of its socket. *)
Definition aborted (k : wait) (m : timed) : list event :=
  if in_reactor k m then [ev_wait k (make_asio_error operation_aborted)] else [].
Definition cancel_stream (m : timed) : timed :=
  set_queue (queue m ++ aborted for_read m ++ aborted for_write m)%list m.

(** The wait of the timer ends, by [timer_.cancel()] or because the time is up. *)
Definition end_timer (m : timed) : timed :=
  mk_timed (op m) (deadline_ m) (direct_calls m) false
    (queue m ++ if timer_armed m then [ev_timer] else [])%list.

(** The handler of the operation is called: [io_deadline_handler] or the user's. *)
Definition deliver (m : timed) (ec : error_code) : timed :=
  match deadline_ m with
  | None => mk_timed (op m) None (direct_calls m ++ [ec])%list (timer_armed m) (queue m)
  | Some d =>
      let d := IoDeadline.run_operation ec tt d in
      let m := if IoDeadline.timer_cancelled d then end_timer m else m in
      mk_timed (op m) (Some d) (direct_calls m) (timer_armed m) (queue m)
  end.

(** The operation goes on to [s], with the effects that has: first the cancellation
    of the socket, then the calls of the handler. *)
Definition advance (s : S) (m : timed) : timed :=
  let new_calls := drop (length (outcomes (op m))) (outcomes s) in
  let cancelled := (cancellations (op m) <? cancellations s)%nat in
  let m := with_op s m in
  fold_left deliver new_calls (if cancelled then cancel_stream m else m).

(** [timer_handler::operator()]. *)
Definition run_timer (m : timed) : timed :=
  match deadline_ m with
  | None => m
  | Some d =>
      let d := IoDeadline.run_timer d in
      let m := if IoDeadline.stream_cancelled d then cancel_stream m else m in
      mk_timed (op m) (Some d) (direct_calls m) (timer_armed m) (queue m)
  end.

Definition run_event (e : event) (m : timed) : timed :=
  match e with
  | ev_wait k ec => advance (on_wait k ec (op m)) m
  | ev_timer => run_timer m
  end.

(** An operation in the state [s0] is put under a time constraint and started, which
    brings it to [s1]. *)
Definition constrain (constrained : bool) (m : timed) : timed :=
  if constrained
  then mk_timed (op m) (Some (IoDeadline.start tt)) (direct_calls m) true (queue m) else m.

Definition launch (constrained : bool) (s0 s1 : S) : timed :=
  advance s1 (constrain constrained (mk_timed s0 None [] false [])).

Context `{!OperationLaws S}.

(** What happens to an operation: a wait in the reactor ends, with or without an
    error, the time is up, one of the handlers that are ready is run. *)
Inductive any_step : timed -> timed -> Prop :=
| any_wait k ec m : in_reactor k m = true ->
    any_step m (set_queue (queue m ++ [ev_wait k ec])%list m)
| any_timer m : timer_armed m = true -> any_step m (end_timer m)
| any_run q1 e q2 m : queue m = (q1 ++ e :: q2)%list ->
    any_step m (run_event e (set_queue (q1 ++ q2)%list m)).

(** The regular runs of a strand: the handler that is ready for the longest time is
    the next, and the waits end in an admissible way. *)
Inductive timed_step : timed -> timed -> Prop :=
| io_wait k ec m : in_reactor k m = true ->
    timed_step m (set_queue (queue m ++ [ev_wait k ec])%list m)
| io_timer m : timer_armed m = true -> timed_step m (end_timer m)
| run_next e q m : queue m = (e :: q)%list ->
    (forall k ec, e = ev_wait k ec -> admissible k ec (op m)) ->
    timed_step m (run_event e (set_queue q m)).

(** ** Invariant *)

Definition count_events (p : event -> bool) (q : list event) : nat := length (List.filter p q).
#[local] Arguments count_events : simpl never.

(** A wait is in the queue at most once, and only while the operation waits. *)
Definition waits_ok (m : timed) : Prop :=
  forall k, (count_events (is_wait k) (queue m) <= Nat.b2n (waits_for k (op m)))%nat.

(** The context of the deadline as the calls of the operation have made it. *)
Definition tracks (h : list error_code) (d : IoDeadline.state) : Prop :=
  (h = [] /\ (d = IoDeadline.start tt \/ d = IoDeadline.run_timer (IoDeadline.start tt))) \/
  exists ec, h = [ec] /\
    (d = IoDeadline.run_operation ec tt (IoDeadline.start tt) \/
     d = IoDeadline.run_timer (IoDeadline.run_operation ec tt (IoDeadline.start tt)) \/
     d = IoDeadline.run_operation ec tt (IoDeadline.run_timer (IoDeadline.start tt))).

Definition timers_left (d : @IoDeadline.state unit) : nat :=
  match IoDeadline.timer d with waiting => 1 | _ => 0 end.

Definition deadline_ok (m : timed) : Prop :=
  match deadline_ m with
  | None => direct_calls m = outcomes (op m) /\ timer_armed m = false /\
            count_events is_timer (queue m) = 0%nat
  | Some d => tracks (outcomes (op m)) d /\
      (Nat.b2n (timer_armed m) + count_events is_timer (queue m) = timers_left d)%nat
  end.

Definition timed_ok (m : timed) : Prop := operation_ok (op m) /\ waits_ok m /\ deadline_ok m.

Lemma count_events_app p q q' :
  count_events p (q ++ q')%list = (count_events p q + count_events p q')%nat.
Proof. unfold count_events. by rewrite List.filter_app, length_app. Qed.

Lemma count_events_cons p e q :
  count_events p (e :: q) = (Nat.b2n (p e) + count_events p q)%nat.
Proof. unfold count_events. cbn. by destruct (p e). Qed.

Lemma count_events_nil p : count_events p [] = 0%nat.
Proof. done. Qed.

Ltac count := rewrite ?count_events_app, ?count_events_cons, ?count_events_nil in *; cbn in *.

Lemma count_events_none p q : existsb p q = false -> count_events p q = 0%nat.
Proof. induction q as [|e q IH]; [done|]. count. destruct (p e); [done|]. exact IH. Qed.

Lemma count_events_lookup p q (i : nat) e :
  q !! i = Some e -> p e = true -> (1 <= count_events p q)%nat.
Proof.
  revert i. induction q as [|e' q IH]; intros [|i] Hi Hp; cbn in Hi; simplify_eq/=;
    rewrite count_events_cons.
  - rewrite Hp. cbn. lia.
  - specialize (IH i Hi Hp). lia.
Qed.

Lemma in_reactor_count k m :
  in_reactor k m = true -> waits_for k (op m) = true /\ count_events (is_wait k) (queue m) = 0%nat.
Proof.
  intros [Hw Hn]%andb_true_iff. split; [done|]. by apply count_events_none, negb_true_iff.
Qed.

Lemma count_aborted k k' m :
  count_events (is_wait k) (aborted k' m) = Nat.b2n (wait_eqb k' k && in_reactor k' m).
Proof. unfold aborted. destruct (in_reactor k' m); count; [|by rewrite andb_false_r]. by rewrite andb_true_r, Nat.add_0_r. Qed.

(** The cancellation of the stream and the end of the timer leave the invariant. *)
Lemma cancel_stream_ok m : waits_ok m -> waits_ok (cancel_stream m).
Proof.
  unfold waits_ok, cancel_stream. intros Hw k. cbn. specialize (Hw k).
  rewrite !count_events_app, !count_aborted.
  destruct (in_reactor k m) eqn:Hr.
  - apply in_reactor_count in Hr as Hr'. destruct Hr' as [-> Hc]. rewrite Hc.
    destruct k; cbn; rewrite Hr; cbn; lia.
  - destruct k; cbn; rewrite Hr; cbn; lia.
Qed.

Lemma cancel_stream_timers m :
  count_events is_timer (queue (cancel_stream m)) = count_events is_timer (queue m).
Proof.
  unfold cancel_stream, aborted. cbn.
  destruct (in_reactor for_read m), (in_reactor for_write m); count; lia.
Qed.

Lemma cancel_stream_if (b : bool) m :
  waits_ok m ->
  let m' := if b then cancel_stream m else m in
  waits_ok m' /\ op m' = op m /\ deadline_ m' = deadline_ m /\ direct_calls m' = direct_calls m /\
  timer_armed m' = timer_armed m /\
  count_events is_timer (queue m') = count_events is_timer (queue m).
Proof.
  intros Hw. destruct b; [|done]. split; [by apply cancel_stream_ok|].
  do 4 (split; [done|]). apply cancel_stream_timers.
Qed.

Lemma end_timer_waits m : waits_ok m -> waits_ok (end_timer m).
Proof.
  unfold waits_ok, end_timer. cbn. intros Hw k. specialize (Hw k). destruct (timer_armed m); count; lia.
Qed.

Lemma end_timer_timers m :
  (Nat.b2n (timer_armed (end_timer m)) + count_events is_timer (queue (end_timer m)) =
   Nat.b2n (timer_armed m) + count_events is_timer (queue m))%nat.
Proof. unfold end_timer. cbn. destruct (timer_armed m); count; lia. Qed.

(** The states of the context. *)
Lemma io_operation ec :
  IoDeadline.run_operation ec tt (IoDeadline.start tt) =
  IoDeadline.mk_state 1 ec tt finished_first waiting [] true false.
Proof. done. Qed.

Lemma io_operation_timer ec :
  IoDeadline.run_timer (IoDeadline.run_operation ec tt (IoDeadline.start tt)) =
  IoDeadline.mk_state 0 ec tt finished_first finished_second [(ec, tt)] true false.
Proof. done. Qed.

Lemma io_timed_out :
  IoDeadline.run_timer (IoDeadline.start tt) =
  IoDeadline.mk_state 1 (make_asio_error timed_out) tt waiting finished_first [] false true.
Proof. done. Qed.

Lemma io_timed_out_operation ec :
  IoDeadline.run_operation ec tt (IoDeadline.run_timer (IoDeadline.start tt)) =
  IoDeadline.mk_state 0 (make_asio_error timed_out) tt finished_second finished_first
    [(make_asio_error timed_out, tt)] false true.
Proof. done. Qed.

Ltac io_compute :=
  unfold timers_left in *;
  rewrite ?io_operation_timer, ?io_timed_out_operation, ?io_operation, ?io_timed_out in *; cbn in *.

(** A call goes to the handler of the deadline. *)
Lemma deliver_ok s m ec :
  deadline_ok (with_op s m) -> waits_ok m ->
  outcomes s = [] -> outcomes (op m) = [ec] ->
  waits_ok (deliver m ec) /\ deadline_ok (deliver m ec) /\ op (deliver m ec) = op m.
Proof.
  unfold deadline_ok, deliver. intros Hd Hw Hh Hk. cbn in Hd. rewrite Hh in Hd.
  destruct (deadline_ m) as [d|]; cbn in *.
  - destruct Hd as ([[_ Ht]|(ec' & He & _)] & Hc); [|congruence].
    pose proof (end_timer_timers m) as Htm. pose proof (end_timer_waits m Hw).
    split; [|split]; destruct Ht as [-> | ->]; try done; rewrite ?Hk;
      (split; [right; exists ec; split; [done|]; auto|]); io_compute; lia.
  - destruct Hd as (Hd & Ha & Hc). by rewrite Hd, Hk.
Qed.

Lemma advance_op s m : op (advance s m) = s.
Proof.
  assert (forall calls m2, op (fold_left deliver calls m2) = op m2) as Hf.
  { induction calls as [|ec calls IH]; intros m2; [done|]. cbn. rewrite IH. unfold deliver.
    destruct (deadline_ m2); [|done]. by destruct (IoDeadline.timer_cancelled _). }
  unfold advance. rewrite Hf. by destruct (_ <? _)%nat.
Qed.

Lemma advance_ok s m :
  deadline_ok m -> waits_ok (with_op s m) -> outcomes (op m) `prefix_of` outcomes s ->
  operation_ok s -> timed_ok (advance s m).
Proof.
  intros Hd Hw [k Hk] Hs. split; [by rewrite advance_op|].
  pose proof (ok_outcomes _ Hs) as Hl. unfold advance. rewrite Hk, drop_app_length.
  destruct (cancel_stream_if (cancellations (op m) <? cancellations s)%nat _ Hw)
    as (Hw2 & Hr2 & Hd2 & Hc2 & Ha2 & Hq2).
  set (m2 := if (_ <? _)%nat then _ else _) in *. cbn in Hr2, Hd2, Hc2, Ha2, Hq2.
  assert (deadline_ok (with_op (op m) m2)) as Hdm.
  { unfold deadline_ok in *. cbn. rewrite Hd2, Hc2, Ha2, Hq2. exact Hd. }
  rewrite Hk, length_app in Hl. destruct k as [|ec [|ec' k]]; [| |cbn in Hl; lia]; cbn.
  - split; [done|]. rewrite app_nil_r in Hk. unfold deadline_ok in *. rewrite Hr2, Hk. exact Hdm.
  - assert (outcomes (op m) = []) as Hh by (destruct (outcomes (op m)); [done | cbn in Hl; lia]).
    rewrite Hh in Hk. rewrite <- Hr2 in Hk. cbn in Hk.
    destruct (deliver_ok (op m) m2 ec Hdm Hw2 Hh Hk) as (? & ? & _). done.
Qed.

Lemma launch_ok constrained s0 s1 :
  outcomes s0 = [] -> operation_ok s1 -> timed_ok (launch constrained s0 s1).
Proof.
  intros H0' H1. apply advance_ok; [| |destruct constrained; cbn; rewrite H0'; apply prefix_nil | done].
  - destruct constrained; cbn; unfold deadline_ok; cbn; rewrite H0'; [|done]. split; [|done]. left. auto.
  - destruct constrained; intros k; cbn; count; lia.
Qed.

Lemma count_events_middle p q1 e q2 :
  count_events p (q1 ++ e :: q2)%list = (Nat.b2n (p e) + count_events p (q1 ++ q2)%list)%nat.
Proof. rewrite !count_events_app, count_events_cons. lia. Qed.

(** One of the handlers that are ready is run. *)
Lemma run_timer_ok q1 q2 m :
  timed_ok m -> queue m = (q1 ++ ev_timer :: q2)%list -> timed_ok (run_timer (set_queue (q1 ++ q2)%list m)).
Proof.
  intros (Hs & Hw & Hd) Hq. unfold timed_ok, run_timer. cbn.
  assert (waits_ok (set_queue (q1 ++ q2)%list m)) as Hw'.
  { intros k. specialize (Hw k). rewrite Hq, count_events_middle in Hw. exact Hw. }
  unfold deadline_ok in *. rewrite Hq, count_events_middle in Hd. destruct (deadline_ m) as [d|] eqn:Hdm.
  2: { by destruct Hd as (_ & _ & Hc). }
  destruct Hd as (Ht & Hc). cbn in Hc |- *.
  destruct (cancel_stream_if (IoDeadline.stream_cancelled (IoDeadline.run_timer d)) _ Hw')
    as (Hw2 & Hr2 & _ & _ & Ha2 & Hq2). set (m2 := if _ : bool then _ else _) in *.
  split; [by rewrite Hr2|]. split; [exact Hw2|]. rewrite Hr2, Ha2, Hq2. cbn. unfold timers_left in Hc.
  destruct Ht as [(Hh & [-> | ->])|(ec & Hh & [-> | [-> | ->]])]; cbn in Hc; try (io_compute; lia); rewrite Hh;
    (split; [|io_compute; lia]).
  - left. auto.
  - right. exists ec. auto.
Qed.

Lemma queued_waits q1 k ec q2 m :
  waits_ok m -> queue m = (q1 ++ ev_wait k ec :: q2)%list -> waits_for k (op m) = true.
Proof.
  intros Hw Hq. specialize (Hw k). rewrite Hq, count_events_middle in Hw. cbn in Hw.
  destruct (wait_eqb_spec k k); [|done]. destruct (waits_for k (op m)); [done|]. cbn in Hw. lia.
Qed.

Lemma run_event_ok q1 e q2 m :
  timed_ok m -> queue m = (q1 ++ e :: q2)%list -> (forall k ec, e = ev_wait k ec -> admissible k ec (op m)) ->
  timed_ok (run_event e (set_queue (q1 ++ q2)%list m)).
Proof.
  intros Hok Hq Hl. destruct e as [k ec|]; [|by apply run_timer_ok]. cbn [run_event].
  destruct Hok as (Hs & Hw & Hd). pose proof (queued_waits _ _ _ _ _ Hw Hq) as Hk.
  apply advance_ok; cbn [op set_queue].
  - unfold deadline_ok in *. rewrite Hq, count_events_middle in Hd. exact Hd.
  - intros k'. specialize (Hw k'). rewrite Hq, count_events_middle in Hw. cbn in Hw |- *.
    destruct (wait_eqb_spec k k') as [Heq|Hne]; cbn in Hw.
    + subst k'. rewrite Hk in Hw. cbn in Hw. lia.
    + destruct (waits_for k' (op m)) eqn:Hk'; [|cbn in Hw; lia]. by rewrite resume_other.
  - apply resume_outcomes; [done..|]. by apply Hl.
  - apply ok_resume; [done..|]. by apply Hl.
Qed.

(** A wait ends, and the time is up. *)
Lemma end_wait_ok k ec m :
  in_reactor k m = true -> timed_ok m -> timed_ok (set_queue (queue m ++ [ev_wait k ec])%list m).
Proof.
  intros [Hrw Hn]%in_reactor_count (Hs & Hw & Hd). split; [done|]. split.
  - intros k'. specialize (Hw k'). cbn. count. destruct (wait_eqb_spec k k') as [->|]; [|cbn; lia].
    rewrite Hn, Hrw. cbn. lia.
  - unfold deadline_ok in *. cbn. count. by rewrite !Nat.add_0_r.
Qed.

Lemma end_timer_ok m : timer_armed m = true -> timed_ok m -> timed_ok (end_timer m).
Proof.
  intros Ha (Hs & Hw & Hd). split; [done|]. split; [by apply end_timer_waits|].
  pose proof (end_timer_timers m) as Ht.
  unfold deadline_ok in *. cbn in *. destruct (deadline_ m); [|destruct Hd as (_ & ? & _); congruence].
  destruct Hd. split; [done|]. lia.
Qed.

Lemma timed_step_ok m m' : timed_step m m' -> timed_ok m -> timed_ok m'.
Proof.
  destruct 1 as [k ec m Hr|m Ha|e q m Hq Hl]; intros Hok.
  - by apply end_wait_ok.
  - by apply end_timer_ok.
  - by apply (run_event_ok [] e q).
Qed.

(** Every regular run is a run. *)
Lemma timed_step_any m m' : timed_step m m' -> any_step m m'.
Proof. destruct 1 as [k ec m Hr|m Ha|e q m Hq _]; [by constructor..|]. by apply (any_run [] e q). Qed.

(** A handler is run whose wait has ended in a way that is not admissible. *)
Definition irregular_step (m m' : timed) : Prop :=
  exists q1 k ec q2, queue m = (q1 ++ ev_wait k ec :: q2)%list /\ ~ admissible k ec (op m) /\
    m' = run_event (ev_wait k ec) (set_queue (q1 ++ q2)%list m).

Lemma any_step_ok m m' : timed_ok m -> any_step m m' -> irregular_step m m' \/ timed_ok m'.
Proof.
  intros Hok Hs. destruct Hs as [k ec m1 Hr|m1 Ha|q1 e q2 m1 Hq].
  - right. by apply end_wait_ok.
  - right. by apply end_timer_ok.
  - destruct e as [k ec|]; [|right; by apply run_event_ok].
    destruct (admissible_dec k ec (op m1)) as [Had|Had].
    + right. apply run_event_ok; [done..|]. by intros ? ? [= <- <-].
    + left. by exists q1, k, ec, q2.
Qed.

(** Between the states [m0] and [m] there was such a step. *)
Definition irregular (m0 m : timed) : Prop :=
  exists m1 m2, rtc any_step m0 m1 /\ irregular_step m1 m2 /\ rtc any_step m2 m.

(** A run has the invariant of the regular runs, or it was irregular. *)
Lemma any_step_regular m0 m : timed_ok m0 -> rtc any_step m0 m -> irregular m0 m \/ timed_ok m.
Proof.
  intros H0'. apply (rtc_ind_r (fun m => irregular m0 m \/ timed_ok m)); [by right|].
  intros y z Hy Hs [(m1 & m2 & H1 & H2 & H3)|Hok].
  - left. exists m1, m2. do 2 (split; [done|]). by eapply rtc_r.
  - destruct (any_step_ok y z Hok Hs) as [Hi|Hz]; [left; by exists y, z | by right].
Qed.

(** No call of the user's handler is taken back. *)
Lemma run_operation_calls ec (d : @IoDeadline.state unit) :
  IoDeadline.calls d `prefix_of` IoDeadline.calls (IoDeadline.run_operation ec tt d).
Proof.
  unfold IoDeadline.run_operation, IoDeadline.operation_decrement. destruct (decrement _) as [c []]; cbn;
    try done; by eexists.
Qed.

Lemma run_timer_calls (d : @IoDeadline.state unit) :
  IoDeadline.calls d `prefix_of` IoDeadline.calls (IoDeadline.run_timer d).
Proof.
  unfold IoDeadline.run_timer, IoDeadline.timer_decrement. destruct (decrement _) as [c []]; cbn;
    try done; by eexists.
Qed.

Lemma map_prefix {A B} (f : A -> B) l l' : l `prefix_of` l' -> map f l `prefix_of` map f l'.
Proof. intros [k ->]. rewrite map_app. by eexists. Qed.

Lemma deliver_calls m ec : user_calls m `prefix_of` user_calls (deliver m ec).
Proof.
  unfold user_calls, deliver. destruct (deadline_ m) as [d|]; cbn; [|by eexists].
  apply map_prefix, run_operation_calls.
Qed.

Lemma advance_calls s m : user_calls m `prefix_of` user_calls (advance s m).
Proof.
  unfold advance. set (m1 := if (_ <? _)%nat then _ else _).
  assert (user_calls m1 = user_calls m) as <- by (unfold m1; by destruct (_ <? _)%nat).
  generalize (drop (length (outcomes (op m))) (outcomes s)). intros calls.
  generalize m1. induction calls as [|ec calls IH]; intros m'; [done|].
  cbn. etransitivity; [apply deliver_calls | apply IH].
Qed.

Lemma any_step_calls m m' : any_step m m' -> user_calls m `prefix_of` user_calls m'.
Proof.
  intros [k ec m1 _|m1 _|q1 e q2 m1 _]; [done..|]. destruct e; cbn [run_event].
  - exact (advance_calls _ (set_queue (q1 ++ q2)%list m1)).
  - unfold run_timer, user_calls. cbn [deadline_ set_queue]. destruct (deadline_ m1) eqn:Hd; cbn; rewrite ?Hd; [|done].
    apply map_prefix, run_timer_calls.
Qed.

Lemma timed_reachable_ok constrained s0 s1 m :
  outcomes s0 = [] -> operation_ok s1 -> rtc timed_step (launch constrained s0 s1) m -> timed_ok m.
Proof.
  intros H0' H1. apply (rtc_ind_r timed_ok); [by apply launch_ok | intros y z _ Hs Hy].
  by eapply timed_step_ok.
Qed.

(** The time constraint is chosen once. *)
Lemma deliver_constrained m ec : is_Some (deadline_ (deliver m ec)) <-> is_Some (deadline_ m).
Proof. unfold deliver. destruct (deadline_ m); [|done]. by split; eexists. Qed.

Lemma advance_constrained s m : is_Some (deadline_ (advance s m)) <-> is_Some (deadline_ m).
Proof.
  unfold advance. set (m1 := if (_ <? _)%nat then _ else _).
  assert (deadline_ m1 = deadline_ m) as <- by (unfold m1; by destruct (_ <? _)%nat).
  generalize (drop (length (outcomes (op m))) (outcomes s)). intros calls.
  generalize m1. induction calls as [|ec calls IH]; intros m'; [done|].
  cbn. by rewrite IH, deliver_constrained.
Qed.

Lemma any_step_constrained m m' : any_step m m' -> is_Some (deadline_ m') <-> is_Some (deadline_ m).
Proof.
  destruct 1 as [k ec m _|m _|q1 e q2 m _]; try done.
  destruct e; cbn [run_event]; [by rewrite advance_constrained|].
  unfold run_timer. cbn [deadline_ set_queue]. destruct (deadline_ m) eqn:Hd; [|cbn; by rewrite Hd].
  by split; eexists.
Qed.

Lemma any_constrained constrained s0 s1 m :
  rtc any_step (launch constrained s0 s1) m -> is_Some (deadline_ m) <-> constrained = true.
Proof.
  apply (rtc_ind_r (fun m => is_Some (deadline_ m) <-> constrained = true)).
  - unfold launch. rewrite advance_constrained.
    destruct constrained; cbn; [by split; eexists|]. by split; [intros []|].
  - intros y z _ Hs Hy. by rewrite (any_step_constrained _ _ Hs).
Qed.

Lemma timed_run_any m m' : rtc timed_step m m' -> rtc any_step m m'.
Proof. apply (rtc_subrel timed_step any_step). exact timed_step_any. Qed.

Lemma timed_constrained constrained s0 s1 m :
  rtc timed_step (launch constrained s0 s1) m -> is_Some (deadline_ m) <-> constrained = true.
Proof. intros Hr. by apply (any_constrained _ s0 s1), timed_run_any. Qed.

(** The calls of the user's handler are those the state of the deadline allows. *)
Lemma timed_ok_calls m :
  timed_ok m ->
  (length (user_calls m) <= 1)%nat /\
  (waits_for (essential (op m)) (op m) = false -> timer_armed m = false -> queue m = [] ->
   length (user_calls m) = 1%nat) /\
  (forall ec, user_calls m = [ec] -> exists ec', outcomes (op m) = [ec'] /\
     (ec = ec' \/ is_Some (deadline_ m) /\ ec = make_asio_error timed_out)).
Proof.
  intros (Hs & _ & Hd). pose proof (ok_outcomes _ Hs) as Hl.
  assert (waits_for (essential (op m)) (op m) = false -> outcomes (op m) <> []) as Hrw.
  { intros Hr Ho. rewrite (essential_waits _ Hs Ho) in Hr. done. }
  unfold user_calls, deadline_ok in *. destruct (deadline_ m) as [d|].
  - destruct Hd as (Ht & Hc).
    assert (timer_armed m = false -> queue m = [] -> timers_left d = 0%nat) as H2
      by (intros Ha Hq; rewrite <- Hc, Ha, Hq; done). clear Hc. unfold timers_left in H2.
    destruct Ht as [(Hh & [-> | ->])|(ec & Hh & [-> | [-> | ->]])]; cbn in *;
      repeat split; intros; simplify_eq/=; try lia; try (by destruct Hrw); eauto 7;
      try (by specialize (H2 ltac:(done) ltac:(done))).
  - destruct Hd as (-> & _). repeat split; [done| |eauto].
    intros Hr _ _. specialize (Hrw Hr). destruct (outcomes (op m)) as [|? [|]]; cbn in *; done || lia.
Qed.

(** What the invariant says of the calls, under the time constraint of the launch. *)
Lemma launched_calls constrained s0 s1 m :
  rtc any_step (launch constrained s0 s1) m -> timed_ok m ->
  (length (user_calls m) <= 1)%nat /\
  (waits_for (essential (op m)) (op m) = false -> timer_armed m = false -> queue m = [] ->
   length (user_calls m) = 1%nat) /\
  (forall ec, user_calls m = [ec] -> exists ec', outcomes (op m) = [ec'] /\
     (ec = ec' \/ constrained = true /\ ec = make_asio_error timed_out)).
Proof.
  intros Hr Hok. destruct (timed_ok_calls m Hok) as (H2 & H3 & H4). split; [done|]. split; [done|].
  intros ec Hec. destruct (H4 ec Hec) as (ec' & Hh & Hc). exists ec'. split; [done|].
  by rewrite <- (any_constrained _ _ _ _ Hr).
Qed.

(** In a regular run the user's handler is called at most once, with the outcome of
    the operation or, under a time limit, with [timed_out]. *)
Lemma timed_operation_once constrained s0 s1 m :
  outcomes s0 = [] -> operation_ok s1 -> rtc timed_step (launch constrained s0 s1) m ->
  (length (user_calls m) <= 1)%nat /\
  (waits_for (essential (op m)) (op m) = false -> timer_armed m = false -> queue m = [] ->
   length (user_calls m) = 1%nat) /\
  (forall ec, user_calls m = [ec] -> exists ec', outcomes (op m) = [ec'] /\
     (ec = ec' \/ constrained = true /\ ec = make_asio_error timed_out)).
Proof.
  intros H0' H1 Hr. apply (launched_calls _ s0 s1); [by apply timed_run_any|].
  by apply (timed_reachable_ok constrained s0 s1).
Qed.

(** The same of every run that is not irregular. *)
Lemma any_operation_once constrained s0 s1 m :
  outcomes s0 = [] -> operation_ok s1 -> rtc any_step (launch constrained s0 s1) m ->
  irregular (launch constrained s0 s1) m \/
  (length (user_calls m) <= 1)%nat /\
  (waits_for (essential (op m)) (op m) = false -> timer_armed m = false -> queue m = [] ->
   length (user_calls m) = 1%nat) /\
  (forall ec, user_calls m = [ec] -> exists ec', outcomes (op m) = [ec'] /\
     (ec = ec' \/ constrained = true /\ ec = make_asio_error timed_out)).
Proof.
  intros H0' H1 Hr. destruct (any_step_regular _ m (launch_ok constrained s0 s1 H0' H1) Hr) as [Hi|Hok];
    [by left|]. right. by apply (launched_calls _ s0 s1).
Qed.

(** ** Time-outs *)

(** Every run comes to a state of [P], whatever happens. *)
Inductive eventually (P : timed -> Prop) (m : timed) : Prop :=
| now : P m -> eventually P m
| later : (exists m', timed_step m m') -> (forall m', timed_step m m' -> eventually P m') ->
    eventually P m.

(** The time is up and the end of the essential wait, with an error, is the [i]-th in
    the queue. *)
Definition aborting (i : nat) (m : timed) : Prop :=
  timed_ok m /\ outcomes (op m) = [] /\
  deadline_ m = Some (IoDeadline.run_timer (IoDeadline.start tt)) /\
  exists ec, queue m !! i = Some (ev_wait (essential (op m)) ec) /\ is_error ec = true.

Definition timed_out_call (m : timed) : Prop := user_calls m = [make_asio_error timed_out].

(** An outcome after the time-out is a call with [timed_out]. *)
Lemma timed_out_advance s m :
  deadline_ m = Some (IoDeadline.run_timer (IoDeadline.start tt)) ->
  outcomes (op m) = [] -> operation_ok s -> outcomes s <> [] -> timed_out_call (advance s m).
Proof.
  intros Hd Hh Hs Hne. pose proof (ok_outcomes _ Hs) as Hl.
  destruct (outcomes s) as [|ec [|]] eqn:Hec; [done| |cbn in Hl; lia].
  unfold timed_out_call, user_calls, advance. rewrite Hh, Hec. cbn [drop fold_left length].
  set (m1 := if (_ <? _)%nat then _ else _).
  assert (deadline_ m1 = deadline_ m) as Hm by (unfold m1; by destruct (_ <? _)%nat).
  unfold deliver. by rewrite Hm, Hd.
Qed.

Lemma advance_silent s m :
  outcomes s = outcomes (op m) -> cancellations s = cancellations (op m) -> advance s m = with_op s m.
Proof. intros Hh Hc. unfold advance. by rewrite Hh, Hc, drop_all, Nat.ltb_irrefl. Qed.

(** The handler that comes before the aborted one brings it nearer or ends the
    operation. *)
Lemma aborting_other i k ec q m :
  aborting (Datatypes.S i) m -> queue m = (ev_wait k ec :: q)%list -> k <> essential (op m) ->
  timed_out_call (run_event (ev_wait k ec) (set_queue q m)) \/
  aborting i (run_event (ev_wait k ec) (set_queue q m)).
Proof.
  intros (Hok & Hh & Hd & ec' & Hi & He) Hq Hk.
  assert (timed_ok (run_event (ev_wait k ec) (set_queue q m))) as Hok'.
  { apply (timed_step_ok m); [|done]. apply run_next; [done|]. intros. by apply open_admissible. }
  cbn [run_event] in *. pose proof Hok' as (Hs' & _ & _). rewrite advance_op in Hs'. cbn [op set_queue] in *.
  pose proof Hok as (Hs & Hw & _). specialize (Hw k). rewrite Hq, count_events_cons in Hw. cbn in Hw.
  destruct (wait_eqb_spec k k); [|done]. destruct (waits_for k (op m)) eqn:Hwk; [|cbn in Hw; lia].
  destruct (outcomes (on_wait k ec (op m))) as [|ec1 ecs] eqn:Ho.
  - right. destruct (other_silent k ec _ Hs Hh Hwk Hk Ho) as [Hes Hc]. split; [done|].
    rewrite advance_silent by (cbn; congruence). cbn. rewrite Hes. rewrite Hq in Hi. by eauto.
  - left. apply timed_out_advance; [done..|]. by rewrite Ho.
Qed.

Lemma existsb_lookup (p : event -> bool) q (i : nat) e :
  q !! i = Some e -> p e = true -> existsb p q = true.
Proof.
  intros Hi Hp. apply existsb_exists. exists e. split; [|done]. by apply list_elem_of_In, (list_elem_of_lookup_2 _ i).
Qed.

(** Only the wait that is not essential may still be in the reactor. *)
Definition reactor_size (m : timed) : nat :=
  Nat.b2n (in_reactor for_read m) + Nat.b2n (in_reactor for_write m).

Lemma aborting_in_reactor i m : aborting i m -> in_reactor (essential (op m)) m = false.
Proof.
  intros (_ & _ & _ & ec & Hi & _). unfold in_reactor.
  rewrite (existsb_lookup _ _ _ _ Hi (is_wait_refl _ _)). apply andb_false_r.
Qed.

Lemma aborting_reactor_size i m : aborting i m -> (reactor_size m <= 1)%nat.
Proof.
  intros Ha. apply aborting_in_reactor in Ha. unfold reactor_size.
  destruct (essential (op m)); rewrite Ha; cbn; [|rewrite Nat.add_0_r]; apply Nat.b2n_le_1.
Qed.

Lemma io_wait_reactor_size k ec m :
  in_reactor k m = true -> (reactor_size (set_queue (queue m ++ [ev_wait k ec])%list m) < reactor_size m)%nat.
Proof.
  unfold reactor_size. intros Hk.
  assert (forall k', in_reactor k' (set_queue (queue m ++ [ev_wait k ec])%list m) =
    in_reactor k' m && negb (wait_eqb k k')) as Hr.
  { intros k'. unfold in_reactor. cbn. rewrite existsb_app. cbn. rewrite orb_false_r, negb_orb.
    by rewrite andb_assoc. }
  rewrite !Hr. destruct k; rewrite Hk; cbn; rewrite ?andb_true_r, ?andb_false_r; cbn; lia.
Qed.

Lemma aborting_eventually n : forall i m,
  (2 * i + reactor_size m < n)%nat -> aborting i m -> eventually timed_out_call m.
Proof.
  induction n as [|n IH]; [lia|]. intros i m Hn Ha.
  pose proof Ha as ((Hs & Hw & Hdl) & Hh & Hd & ec & Hi & He).
  unfold deadline_ok in Hdl. rewrite Hd in Hdl. destruct Hdl as (_ & Ht). io_compute.
  apply later.
  { destruct (queue m) as [|e q] eqn:Hq; [done|]. eexists. apply (run_next e q); [done|].
    intros. by apply open_admissible. }
  intros m' Hstep. pose proof (timed_step_ok _ _ Hstep (proj1 Ha)) as Hok.
  destruct Hstep as [k ec' m Hr|m Har|e q m Hq Hl].
  - apply (IH i); [pose proof (io_wait_reactor_size k ec' m Hr); lia|].
    split; [done|]. do 2 (split; [done|]). exists ec. split; [|done]. cbn. by apply lookup_app_l_Some.
  - rewrite Har in Ht. cbn in Ht. lia.
  - destruct i as [|i]; rewrite Hq in Hi; cbn in Hi; simplify_eq/=.
    + apply now, timed_out_advance; [done|done| |by apply essential_aborts].
      destruct Hok as (Hok & _). rewrite advance_op in Hok. exact Hok.
    + destruct e as [k ec'|]; [|rewrite Hq, count_events_cons in Ht; cbn in Ht; lia].
      destruct (wait_eqb_spec k (essential (op m))) as [->|Hk].
      * specialize (Hw (essential (op m))). rewrite Hq, count_events_cons in Hw. cbn in Hw.
        pose proof (count_events_lookup _ _ _ _ Hi (is_wait_refl _ _)).
        destruct (essential (op m)), (waits_for _ (op m)); cbn in Hw; lia.
      * destruct (aborting_other i k ec' q m Ha Hq Hk) as [Hc|Ha']; [by apply now|].
        apply (IH i); [|done]. pose proof (aborting_reactor_size _ _ Ha'). cbn in *. lia.
Qed.

(** When the time is up while the essential wait is in the reactor, every run comes
    to a call of the user's handler with [timed_out]. *)
Lemma timeout_reaches constrained s0 s1 m events :
  asio_value operation_aborted <> 0%Z -> outcomes s0 = [] -> operation_ok s1 ->
  rtc timed_step (launch constrained s0 s1) m ->
  queue m = (ev_timer :: events)%list -> in_reactor (essential (op m)) m = true -> outcomes (op m) = [] ->
  eventually timed_out_call (run_event ev_timer (set_queue events m)).
Proof.
  intros Hab H0' H1 Hr Hq Hrr Hh. pose proof (timed_reachable_ok _ _ _ _ H0' H1 Hr) as Hok.
  assert (timed_ok (run_timer (set_queue events m))) as Hok' by by apply (run_timer_ok []).
  destruct Hok as (_ & _ & Hd). unfold deadline_ok in Hd. rewrite Hq, count_events_cons in Hd.
  destruct (deadline_ m) as [d|] eqn:Hm; [|destruct Hd as (_ & _ & Hc); cbn in Hc; lia].
  destruct Hd as ([[_ Ht]|(ec & He & _)] & Hc); [|congruence]. cbn in Hc.
  destruct Ht as [-> | ->]; [|io_compute; lia].
  assert (in_reactor (essential (op m)) (set_queue events m) = true) as Hre.
  { unfold in_reactor in *. rewrite Hq in Hrr. exact Hrr. }
  set (i := (length events + match essential (op m) with
    | for_read => 0 | for_write => length (aborted for_read (set_queue events m)) end)%nat).
  apply (aborting_eventually _ i _ (Nat.lt_succ_diag_r _)).
  cbn [run_event]. unfold run_timer in *. cbn [deadline_ set_queue] in *. rewrite Hm in *.
  rewrite io_timed_out in *. cbn in Hok' |- *. split; [done|]. split; [done|]. split; [done|].
  exists (make_asio_error operation_aborted). split.
  - unfold i, aborted. cbn [queue op set_queue]. destruct (essential (op m)); rewrite Hre.
    + by rewrite lookup_app_r, Nat.add_0_r, Nat.sub_diag by lia.
    + rewrite lookup_app_r, Nat.add_comm, Nat.add_sub by lia. by rewrite lookup_app_r, Nat.sub_diag.
  - unfold is_error. cbn. by destruct (Z.eqb_spec (asio_value operation_aborted) 0).
Qed.

End Timed.
End TimedOperation.
