(* ===== verification/TimedRequest.v ===== *)
(** Requests with a time limit: [async_request_op] of
    [src/include/bozo/impl/async_request.h], which puts the two operations of
    [AsyncRequest] under the [io_deadline_handler] of [src/include/bozo/detail/deadline.h].

    A request is an operation in the sense of [TimedOperation]: its essential wait is
    the one for reading. *)

From S2P Require Import Prelude ErrorCode Errors BinaryQuery Cancel AsyncRequest RequestRuns TimedOperation.
From Stdlib Require Import ZArith Lia List String.
From stdpp Require Import base tactics list relations.

Module TimedRequest.

Import Cancel AsyncRequest RequestRuns TimedOperation.

Section Request.
Context `{Boost} {L R : Type} `{LibPQ L R}.
Context (process : R -> option string).

#[export] Instance request_operation : Operation (@request L R) := {
  waits_for k := match k with for_read => read_wait | for_write => write_wait end;
  on_wait k ec s :=
    match k with
    | for_read => get_resume process ec (set_read_wait false s)
    | for_write => send_resume ec (set_write_wait false s)
    end;
  outcomes := handler_calls;
  cancellations := cancels;
}.

(** [async_request_op::operator()]: a connection with an error is given to the
    handler at once, for another the timer is started and then the two operations. *)
Definition async_request_op (constrained : bool) (q : BinaryQuery.binary_query)
    (ec : error_code) (l : L) : @timed request :=
  if is_error ec then deliver (mk_timed (initial l) None [] false []) ec else
  launch constrained (initial l) (get_resume process no_error (send_perform q (initial l))).

(** ** A request keeps the promises of an operation *)

Context `{!LibPQLaws L R}.

Lemma settled_calls r : settled process r -> (List.length (handler_calls r) <= 1)%nat.
Proof. intros [((-> & _) & _)|[((ec & ->) & _)|(-> & _)]]; cbn; lia. Qed.

Lemma send_resume_effect ec (r : @request L R) :
  (handler_calls (send_resume ec r) = handler_calls r /\ cancels (send_resume ec r) = cancels r) \/
  exists ec', handler_calls (send_resume ec r) = (handler_calls r ++ [ec'])%list.
Proof.
  unfold send_resume. destruct (negb _); [by left|]. destruct (is_error ec); [right; by eexists|].
  destruct (PQflush (lib r)) as [[] lr]; [right; by eexists | by left..].
Qed.

Lemma get_resume_error ec r :
  settled process r -> handler_calls r = [] -> is_error ec = true ->
  handler_calls (get_resume process ec (set_read_wait false r)) <> [].
Proof.
  intros [((_ & _ & Hs) & _)|[((? & ?) & _)|(? & _)]] Hh He; [|congruence..].
  unfold get_resume. rewrite bool_decide_eq_false_2 by done. rewrite He, get_done_error_calls. cbn.
  by rewrite Hh.
Qed.

(** What was processed does not change any more once the handler was called. *)
Lemma processed_stable k ec r :
  settled process r -> waits_for k r = true -> handler_calls r <> [] -> processed (on_wait k ec r) = processed r.
Proof.
  intros Hs Hw Hh. destruct k; cbn in *.
  - destruct Hs as [((? & _) & _)|[(_ & _ & Hq)|(_ & Hr & _)]]; [done| |congruence].
    unfold get_resume. by rewrite bool_decide_eq_true_2.
  - unfold send_resume. destruct (negb _); [done|]. destruct (is_error ec); [done|]. cbn.
    by destruct (PQflush (lib r)) as [[] l].
Qed.

#[export] Instance request_laws : OperationLaws (@request L R).
Proof.
  refine {| operation_ok := settled process;
            admissible k ec s := match k with for_read => True | for_write => ~ late_failure ec s end;
            essential _ := for_read |}.
  - intros [] ec s Hs Hw Ha; apply (request_step_settled process s); [by apply step_read|done| |done].
    apply step_write; [done|]. by right.
  - apply settled_calls.
  - intros [] ec s _ _ _; cbn.
    + apply (get_resume_calls process ec (set_read_wait false s)).
    + apply (send_resume_calls ec (set_write_wait false s)).
  - intros [] [] ec s Hs Hne Hw Hw'; try done; cbn in *.
    + by rewrite get_resume_write_wait.
    + by rewrite send_resume_read_wait.
  - intros s [(_ & Hw & _)|[((? & ?) & _)|(? & _)]] Ho; cbn in *; congruence.
  - intros ec s Hs Ho He. by apply get_resume_error.
  - intros [] ec s Hs Ho Hw Hne Hr; [done|]. cbn in *. split; [done|].
    destruct (send_resume_effect ec (set_write_wait false s)) as [[_ Hc]|(ec' & Hc)]; [exact Hc|].
    rewrite Hr in Hc. by destruct (handler_calls _).
  - intros [] ec s Ho; [done|]. intros [Hs _]. unfold succeeded in Hs. cbn in Ho. rewrite Ho in Hs. by inversion Hs.
  - intros [] ec s; [by left|]. destruct (late_failure_dec ec s); [right; tauto | by left].
Defined.

(** The steps of a request under a time constraint. *)
Definition request_step : @timed request -> @timed request -> Prop := timed_step.

(** A connection that comes with an error is given back with it, and nothing else
    happens. *)
Lemma async_request_op_error constrained q ec0 l m :
  is_error ec0 = true -> rtc any_step (async_request_op constrained q ec0 l) m ->
  m = async_request_op constrained q ec0 l /\ user_calls m = [ec0].
Proof.
  intros He Hr. assert (m = async_request_op constrained q ec0 l) as ->.
  { apply (rtc_ind_r (fun m => m = async_request_op constrained q ec0 l)) with (3 := Hr); [done|].
    intros y z _ Hs ->. unfold async_request_op in Hs. rewrite He in Hs.
    inversion Hs as [k ec m' Hk|m' Hk|q1 e q2 m' Hk]; subst; [by destruct k | done | by destruct q1]. }
  split; [done|]. unfold async_request_op. by rewrite He.
Qed.

(** The handler of a write wait is run that finds an error although the request has
    succeeded already: the wait has failed, or flushing fails. *)
Definition late_write_step (m m' : @timed request) : Prop :=
  exists q1 ec q2, queue m = (q1 ++ ev_wait for_write ec :: q2)%list /\ late_failure ec (op m) /\
    m' = run_event (ev_wait for_write ec) (set_queue (q1 ++ q2)%list m).

(** Nothing else is irregular in a request. *)
Lemma irregular_late m m' : irregular_step m m' -> late_write_step m m'.
Proof.
  intros (q1 & k & ec & q2 & Hq & Ha & ->). destruct k; [by destruct Ha|].
  exists q1, ec, q2. split; [done|]. split; [|done].
  destruct (late_failure_dec ec (op m)); [done|]. by destruct Ha.
Qed.

(** Between [m0] and [m] there was such a step. *)
Definition late_write (m0 m : @timed request) : Prop :=
  exists m1 m2, rtc any_step m0 m1 /\ late_write_step m1 m2 /\ rtc any_step m2 m.

Lemma request_once_or_late constrained q ec0 l m :
  is_error ec0 = false -> rtc any_step (async_request_op constrained q ec0 l) m ->
  late_write (async_request_op constrained q ec0 l) m \/
  (List.length (user_calls m) <= 1)%nat /\
  (read_wait (op m) = false -> timer_armed m = false -> queue m = [] ->
   List.length (user_calls m) = 1%nat) /\
  (forall ec, user_calls m = [ec] -> exists ec', handler_calls (op m) = [ec'] /\
     (ec = ec' \/ constrained = true /\ ec = make_asio_error timed_out)).
Proof.
  unfold async_request_op. intros -> Hr. assert (outcomes (initial l) = []) as H0' by done.
  assert (operation_ok (start process q l)) as H1 by exact (start_settled process q l).
  destruct (any_operation_once constrained (initial l) _ m H0' H1 Hr) as [Hi|Ho];
    [left | by right].
  destruct Hi as (m1 & m2 & ? & ?%irregular_late & ?). by exists m1, m2.
Qed.

Lemma request_once constrained q ec0 l m :
  is_error ec0 = false -> rtc timed_step (async_request_op constrained q ec0 l) m ->
  (List.length (user_calls m) <= 1)%nat /\
  (read_wait (op m) = false -> timer_armed m = false -> queue m = [] ->
   List.length (user_calls m) = 1%nat) /\
  (forall ec, user_calls m = [ec] -> exists ec', handler_calls (op m) = [ec'] /\
     (ec = ec' \/ constrained = true /\ ec = make_asio_error timed_out)).
Proof.
  unfold async_request_op. intros -> Hr.
  exact (timed_operation_once constrained (initial l) _ m eq_refl (start_settled process q l) Hr).
Qed.

Lemma request_reachable_settled constrained q l m :
  rtc timed_step (async_request_op constrained q no_error l) m -> settled process (op m).
Proof.
  intros Hr. assert (operation_ok (start process q l)) as Hs by exact (start_settled process q l).
  by edestruct (timed_reachable_ok constrained (initial l) (start process q l) m).
Qed.

(** C2. What a request calls, in every run: the waits end when and as they like, and of
    the handlers that are ready any one may be the next, one at a time.  Either the
    run has a late write failure - the handler of a write wait found an error after
    the request had succeeded, which [async_request.h] takes for a failure of the
    request ([late_write_calls_handler_twice] of [AsyncRequest]) - or the user's
    handler is called at most once, and exactly once when no wait for reading, no
    timer and no handler is left; it gets the outcome of the request, or [timed_out]
    if there is a time limit, and in both cases only after the request has ended.
    A connection that comes with an error is given back with it at once, in all runs. *)
Theorem timed_request_once constrained q ec0 l m :
  rtc any_step (async_request_op constrained q ec0 l) m ->
  (is_error ec0 = true -> user_calls m = [ec0]) /\
  (is_error ec0 = false -> late_write (async_request_op constrained q ec0 l) m \/
   (List.length (user_calls m) <= 1)%nat /\
   (read_wait (op m) = false -> timer_armed m = false -> queue m = [] ->
    List.length (user_calls m) = 1%nat) /\
   (forall ec, user_calls m = [ec] -> exists ec', handler_calls (op m) = [ec'] /\
      (ec = ec' \/ constrained = true /\ ec = make_asio_error timed_out))).
Proof.
  intros Hr. split; intros He; [|by apply request_once_or_late].
  by apply async_request_op_error in Hr as [_ Hu].
Qed.


End Request.

(** ** A libpq with an answer in parts *)

(** The number of the parts of an answer that have not arrived, then the answer and
    then nothing. *)
#[export] Instance parts_libpq : LibPQ nat exec_status := {
  PQsetnonblocking l := (true, l);
  PQsendQueryParams _ l := (true, l);
  PQflush l := (send_finish, l);
  PQconsumeInput l := (true, if (1 <? l)%nat then (l - 1)%nat else l);
  PQisBusy l := (1 <? l)%nat;
  PQgetResult l := match l with 1 => (Some PGRES_TUPLES_OK, 0) | _ => (None, l) end%nat;
  PQresultStatus r := r;
  PQresultErrorField _ := None;
  results_ready l := l;
}.

#[export] Instance parts_laws : LibPQLaws nat exec_status.
Proof. split. intros [|[|l]] r l' Hg; cbn in *; simplify_eq. lia. Qed.

(** A request for an answer in three parts. *)
Definition parts_start (constrained : bool) : @timed (@request nat exec_status) :=
  @async_request_op linux_boost _ _ parts_libpq (fun _ => None) constrained no_query no_error 3.

#[local] Existing Instance linux_boost.
#[local] Instance parts_operation : Operation (@request nat exec_status) := request_operation (fun _ => None).
#[local] Instance parts_operation_laws : OperationLaws (@request nat exec_status) := request_laws (fun _ => None).

(** The strand runs the handler at the head of the queue. *)
Ltac run_handler e q :=
  eapply rtc_l; [apply (run_next e q); [done | intros ? ? [= <- <-]; exact I || done]|].

(** The read wait ends, and then its handler is run. *)
Lemma timed_request_once_witness :
  let m := run_event (ev_wait for_read no_error) (parts_start true) in
  late_write (fun _ => None) (parts_start true) m \/
  (List.length (user_calls m) <= 1)%nat /\
  (read_wait (op m) = false -> timer_armed m = false -> queue m = [] ->
   List.length (user_calls m) = 1%nat) /\
  (forall ec, user_calls m = [ec] -> exists ec', handler_calls (op m) = [ec'] /\
     (ec = ec' \/ true = true /\ ec = make_asio_error timed_out)).
Proof.
  intros m. apply (timed_request_once (fun _ => None) true no_query no_error 3%nat m); [|done].
  eapply rtc_l; [by apply (any_wait for_read no_error)|].
  eapply rtc_l; [by apply (any_run [] (ev_wait for_read no_error) [])|]. apply rtc_refl.
Defined.


(** A time-out is missed when input has arrived and its handler is queued behind
    that of the timer: the cancellation of the socket finds no wait to cancel, the
    request goes on with the input and waits again, and there is no timer any
    more that would end this wait. *)
Theorem timeout_can_be_missed :
  exists m, rtc timed_step (parts_start true) m /\
    deadline_ m = Some (IoDeadline.run_timer (IoDeadline.start tt)) /\
    in_reactor for_read m = true /\ timer_armed m = false /\ queue m = [] /\ user_calls m = [].
Proof.
  eexists. split; [|repeat split].
  - eapply rtc_l; [by apply io_timer|]. eapply rtc_l; [by apply (io_wait for_read no_error)|].
    eapply rtc_l; [by apply (run_next ev_timer [ev_wait for_read no_error])|].
    run_handler (ev_wait for_read no_error) (@nil event). apply rtc_refl.
  - done.
  - done.
  - done.
  - done.
  - done.
Qed.

End TimedRequest.
