(* ===== verification/Connection.v ===== *)
(** A connection and how it is established: [src/include/bozo/connection.h],
    [src/include/bozo/impl/connection.h], [src/include/bozo/pg/handle.h] and
    [src/include/bozo/impl/async_connect.h].

    A connection owns a handle of libpq and the descriptor of its socket.  libpq is
    a parameter ([LibPQConnect]); what the library does, calls of handlers, waits
    and the end of handles, is an ordered log. *)

From S2P Require Import Prelude ErrorCode Errors TypeSystem RequestOidMap.
From Stdlib Require Import ZArith Lia List String.
From stdpp Require Import base tactics list strings relations.

Open Scope string_scope.
Open Scope Z_scope.

(** [ConnStatusType] and [PostgresPollingStatusType] of libpq. *)
Inductive conn_status : Set := CONNECTION_OK | CONNECTION_BAD | connection_in_progress.
Inductive polling_status : Set :=
| PGRES_POLLING_FAILED | PGRES_POLLING_READING | PGRES_POLLING_WRITING
| PGRES_POLLING_OK | PGRES_POLLING_ACTIVE.

#[export] Instance conn_status_eq_dec : EqDecision conn_status.
Proof. solve_decision. Defined.

(** The functions of libpq: [L] is the state of the library, [H] a [PGconn*]. *)
Class LibPQConnect (L H : Type) := {
  PQconnectStart : string -> L -> option H * L;
  PQstatus : L -> H -> conn_status;
  PQsocket : L -> H -> Z;
  PQconnectPoll : H -> L -> polling_status * L;
}.

Module Connection.

Section Connection.
Context {L H : Type} `{LibPQConnect L H}.

(** [connection]: the fields its members change.  The executor, the OID map and the
    statistics are stored and handed out unchanged. *)
Record connection := mk_connection {
  handle_ : option H;
  socket_ : option Z;
  error_context_ : string;
}.

Inductive event : Type :=
| started (h : H)                    (** [PQconnectStart] gave a handle *)
| finished (h : H)                   (** [PQfinish] *)
| waits_write
| waits_read
| cancelled                          (** the waits on the socket are cancelled *)
| completed (ec : error_code).       (** the handler is called *)

Record world := mk_world { lib : L; conn : connection; log : list event }.

Definition emit (e : event) (w : world) : world :=
  mk_world (lib w) (conn w) (log w ++ [e])%list.
Definition with_conn (c : connection) (w : world) : world := mk_world (lib w) c (log w).
Definition with_lib (l : L) (w : world) : world := mk_world l (conn w) (log w).

(** The destructor of a [pg::conn]. *)
Definition destroy (h : option H) (w : world) : world :=
  match h with Some h => emit (finished h) w | None => w end.

(** *** The members of [connection] *)

Definition connection_status_bad (l : L) (h : option H) : bool :=
  match h with Some h => bool_decide (PQstatus l h = CONNECTION_BAD) | None => true end.
Definition connection_status_ok (l : L) (h : option H) : bool :=
  match h with Some h => bool_decide (PQstatus l h = CONNECTION_OK) | None => false end.

(** [assign]: on failure the handle stays with the caller. *)
Definition assign (h : H) (w : world) : error_code * option H * world :=
  let fd := PQsocket (lib w) h in
  if fd =? -1 then (error.make_error_code error.pq_socket_failed, Some h, w) else
  let c := conn w in
  let w := destroy (handle_ c) (with_conn (mk_connection (Some h) (Some fd) (error_context_ c)) w) in
  (no_error, None, w).

(** [release]: the socket is let go and the handle handed over. *)
Definition release (w : world) : option H * world :=
  let c := conn w in (handle_ c, with_conn (mk_connection None None (error_context_ c)) w).

Definition close (w : world) : error_code * world :=
  let '(h, w) := release w in (no_error, destroy h w).

Definition cancel (w : world) : world := emit cancelled w.

Definition is_bad (w : world) : bool := negb (connection_status_ok (lib w) (handle_ (conn w))).
Definition is_open (w : world) : bool := match handle_ (conn w) with Some _ => true | None => false end.

Definition set_error_context (e : string) (w : world) : world :=
  with_conn (mk_connection (handle_ (conn w)) (socket_ (conn w)) e) w.

(** *** [async_connect_op] *)

Definition done (ec : error_code) (w : world) : world := emit (completed ec) w.

(** [perform]: the local handle is destroyed when the function returns. *)
Definition perform (conninfo : string) (w : world) : world :=
  let '(handle, l) := PQconnectStart conninfo (lib w) in
  let w := with_lib l w in
  match handle with
  | None => done (error.make_error_code error.pq_connection_start_failed) w
  | Some h =>
      let w := emit (started h) w in
      if connection_status_bad (lib w) (Some h) then
        destroy (Some h) (done (error.make_error_code error.pq_connection_status_bad) w)
      else
        match assign h w with
        | (ec, left_, w) =>
            if is_error ec then destroy left_ (done ec w) else destroy left_ (emit waits_write w)
        end
  end.

(** [connect_poll]. *)
Definition connect_poll (w : world) : polling_status * world :=
  match handle_ (conn w) with
  | Some h => let '(p, l) := PQconnectPoll h (lib w) in (p, with_lib l w)
  | None => (PGRES_POLLING_FAILED, w)
  end.

(** [operator()] when a wait has ended with [ec]. *)
Definition resume (ec : error_code) (w : world) : world :=
  if is_error ec then
    done ec (if String.eqb (error_context_ (conn w)) ""
             then set_error_context "error while connection polling" w else w)
  else
  let '(p, w) := connect_poll w in
  match p with
  | PGRES_POLLING_OK => done no_error w
  | PGRES_POLLING_WRITING => emit waits_write w
  | PGRES_POLLING_READING => emit waits_read w
  | PGRES_POLLING_FAILED | PGRES_POLLING_ACTIVE =>
      done (error.make_error_code error.pq_connect_poll_failed) w
  end.

(** *** The machine *)

Definition new_connection : connection := mk_connection None None "".
Definition start (conninfo : string) (l : L) : world :=
  perform conninfo (mk_world l new_connection []).

(** A wait is outstanding when it is the last thing that happened. *)
Definition waiting (w : world) : bool :=
  match last (log w) with Some (waits_write | waits_read) => true | _ => false end.

Inductive step : world -> world -> Prop :=
| step_resume ec w : waiting w = true -> step w (resume ec w).

(** ** Invariants *)

Definition is_completed (e : event) : bool := match e with completed _ => true | _ => false end.
Definition completions (w : world) : list event := List.filter is_completed (log w).

Definition started_handles (es : list event) : list H :=
  es ≫= fun e => match e with started h => [h] | _ => [] end.
Definition finished_handles (es : list event) : list H :=
  es ≫= fun e => match e with finished h => [h] | _ => [] end.
Definition owned (w : world) : list H := match handle_ (conn w) with Some h => [h] | None => [] end.

(** Every handle that was started is owned by the connection or was finished. *)
Definition balanced (w : world) : Prop :=
  started_handles (log w) ≡ₚ (owned w ++ finished_handles (log w))%list.

(** The connection is being polled, or the handler was called once; a successful
    call finds the connection open. *)
Definition connecting (w : world) : Prop :=
  waiting w = true /\ completions w = [] /\ is_open w = true.
Definition ended (w : world) : Prop :=
  waiting w = false /\ exists ec, completions w = [completed ec] /\ (is_error ec = false -> is_open w = true).

Lemma handles_app es fs :
  started_handles (es ++ fs)%list = (started_handles es ++ started_handles fs)%list /\
  finished_handles (es ++ fs)%list = (finished_handles es ++ finished_handles fs)%list.
Proof. unfold started_handles, finished_handles. by rewrite !bind_app. Qed.

Lemma emit_balanced e w :
  (match e with started _ | finished _ => False | _ => True end) -> balanced w -> balanced (emit e w).
Proof.
  unfold balanced. intros He Hb. change (log (emit e w)) with (log w ++ [e])%list.
  change (owned (emit e w)) with (owned w). destruct (handles_app (log w) [e]) as [-> ->].
  destruct e; try done; cbn [started_handles finished_handles mbind list_bind app];
    by rewrite !app_nil_r.
Qed.

Lemma completions_emit e w :
  completions (emit e w) = (completions w ++ if is_completed e then [e] else [])%list.
Proof.
  unfold completions, emit. cbn. rewrite List.filter_app. cbn. by destruct (is_completed e).
Qed.

Lemma waiting_emit e w :
  waiting (emit e w) = match e with waits_write | waits_read => true | _ => false end.
Proof. unfold waiting, emit. cbn. by rewrite last_snoc. Qed.

Lemma done_ended ec w :
  completions w = [] -> (is_error ec = false -> is_open w = true) -> ended (done ec w).
Proof.
  intros Hc Ho. unfold done. split; [by rewrite waiting_emit|]. exists ec.
  rewrite completions_emit, Hc. done.
Qed.

Lemma perform_spec conninfo l :
  let w := start conninfo l in balanced w /\ (connecting w \/ ended w).
Proof.
  unfold start, perform. cbn [lib]. destruct (PQconnectStart conninfo l) as [[h|] l'].
  - destruct (connection_status_bad _ (Some h)).
    + split; [unfold balanced; cbn; reflexivity|]. right. split; [done|].
      eexists. split; [done|]. discriminate.
    + unfold assign. destruct (PQsocket _ h =? -1).
      * split; [unfold balanced; cbn; reflexivity|]. right. split; [done|].
        eexists. split; [done|]. discriminate.
      * split; [unfold balanced; cbn; reflexivity|]. by left.
  - split; [unfold balanced; cbn; reflexivity|]. right. apply done_ended; [done|]. discriminate.
Qed.

Lemma resume_spec ec w :
  balanced w -> connecting w -> balanced (resume ec w) /\ (connecting (resume ec w) \/ ended (resume ec w)).
Proof.
  intros Hb (Hw & Hc & Ho). unfold resume. destruct (is_error ec) eqn:He.
  - split; [apply emit_balanced; [done|]; by destruct (String.eqb _ _)|].
    right. apply done_ended; [by destruct (String.eqb _ _) | congruence].
  - assert (exists p w', connect_poll w = (p, w') /\ balanced w' /\ completions w' = [] /\
      is_open w' = true) as (p & w' & -> & Hb' & Hc' & Ho').
    { unfold connect_poll. destruct (handle_ (conn w)) as [h|].
      - destruct (PQconnectPoll h (lib w)) as [p l]. eexists _, _. by split.
      - eexists _, _. by split. }
    destruct p; (split; [by apply emit_balanced|]);
      try (right; apply done_ended; by intros);
      left; (split; [by rewrite waiting_emit|]); (split; [by rewrite completions_emit, Hc'|]); done.
Qed.

Lemma connect_invariant conninfo l w :
  rtc step (start conninfo l) w -> balanced w /\ (connecting w \/ ended w).
Proof.
  apply (rtc_ind_r (fun w => balanced w /\ (connecting w \/ ended w))); [apply perform_spec|].
  intros y z _ [ec w' Hw] [Hb [Hc|[Hn _]]]; [by apply resume_spec | congruence].
Qed.

Lemma close_balanced w : balanced w -> balanced (snd (close w)) /\ owned (snd (close w)) = [].
Proof.
  unfold balanced, close, release. cbn. destruct (handle_ (conn w)) as [h|] eqn:Hh.
  - cbn [destroy]. intros Hb. split; [|done].
    change (log (emit (finished h) (with_conn (mk_connection None None (error_context_ (conn w))) w)))
      with (log w ++ [finished h])%list.
    destruct (handles_app (log w) [finished h]) as [-> ->].
    cbn [started_handles finished_handles mbind list_bind app]. rewrite app_nil_r.
    unfold owned in *. rewrite Hh in Hb. cbn. rewrite Hb. cbn.
    by rewrite <- Permutation_cons_append.
  - intros Hb. split; [|done]. unfold owned in *. by rewrite Hh in Hb.
Qed.

(** C15. No handle of libpq is lost or finished twice: at every moment the handles
    that were started are those the connection owns and those that were finished,
    each once, and closing the connection finishes the one it owns. *)
Theorem connect_handles_balanced conninfo l w :
  rtc step (start conninfo l) w ->
  started_handles (log w) ≡ₚ (owned w ++ finished_handles (log w))%list /\
  (let w' := snd (close w) in
   is_open w' = false /\ started_handles (log w') ≡ₚ finished_handles (log w')).
Proof.
  intros [Hb _]%connect_invariant. split; [exact Hb|].
  destruct (close_balanced w Hb) as [Hc Ho]. unfold balanced in Hc. rewrite Ho in Hc.
  split; [|exact Hc]. unfold is_open. unfold owned in Ho. by destruct (handle_ _).
Qed.
End Connection.

(** A libpq that is ready at the first poll. *)
#[export] Instance ready_libpq : LibPQConnect unit nat := {
  PQconnectStart _ l := (Some 7%nat, l);
  PQstatus _ _ := connection_in_progress;
  PQsocket _ _ := 3;
  PQconnectPoll _ l := (PGRES_POLLING_OK, l);
}.

Lemma connect_handles_balanced_witness :
  let w := resume no_error (start "host=db" tt) in
  started_handles (log w) ≡ₚ (owned w ++ finished_handles (log w))%list /\
  (let w' := snd (close w) in
   is_open w' = false /\ started_handles (log w') ≡ₚ finished_handles (log w')).
Proof.
  intros w. apply (connect_handles_balanced "host=db" tt w).
  eapply rtc_l; [|apply rtc_refl]. by constructor.
Defined.

(** *** After the connection: the OIDs *)

(** [request_oid_map_handler] and [apply_oid_map_request]: the OIDs are requested
    when there was no error and the map has types; [request] is the outcome of the
    request, [request_oid_map_done] of [RequestOidMap]. *)
Definition after_connect (m : TypeSystem.oid_map) (ec : error_code)
  (request : error_code * list Z) : error_code * TypeSystem.oid_map :=
  if TypeSystem.oid_map_empty m then (ec, m) else
  if is_error ec then (ec, m) else RequestOidMap.request_oid_map_done (fst request) m (snd request).
End Connection.
