(* ===== verification/TimedConnect.v ===== *)
(** Connecting with a time limit: [async_connect], [apply_time_constaint] and
    [apply_oid_map_request] of [src/include/bozo/impl/async_connect.h], with
    [request_oid_map_op] of [src/include/bozo/impl/request_oid_map.h].

    Connecting is an operation of two phases: the connection is polled until libpq
    has it ready, then, if the OID map of the connection has types, their OIDs are
    requested from the server.  The time limit holds for both. *)

From S2P Require Import Prelude ErrorCode Errors Endian TypeSystem BinaryQuery QueryBuilder RequestOidMap Cancel.
From S2P Require Import AsyncRequest RequestRuns TimedOperation TimedRequest Connection.
From Stdlib Require Import ZArith Lia List String.
From stdpp Require Import base tactics list relations.

Module TimedConnect.

Import Connection TimedOperation.

Section Connect.
Context `{Boost} {L P : Type} `{LibPQConnect L P} {Lr R : Type} `{AsyncRequest.LibPQ Lr R}.
(** The state of a connection that is ready, as the functions for requests see it. *)
Context (session : L -> option P -> Lr).
(** The OID map of the connection and the query for its OIDs in its binary form. *)
Context (m : TypeSystem.oid_map) (oids_query : BinaryQuery.binary_query).
(** The rows of a result received as OIDs, or the text of the exception. *)
Context (recv_oids : R -> string + list Z).

Definition process (r : R) : option string :=
  match recv_oids r with inl what => Some what | inr _ => None end.

(** The OIDs [request_oid_map_op] has received. *)
Definition received (r : @AsyncRequest.request Lr R) : list Z :=
  AsyncRequest.processed r ≫= fun x => match recv_oids x with inl _ => [] | inr oids => oids end.

(** The polling of the connection, and the request that follows it. *)
Record connect_state := mk_connect {
  polled : @world L P;
  oid_request : option (@AsyncRequest.request Lr R);
}.

Definition completion_codes (w : @world L P) : list error_code :=
  completions w ≫= fun e => match e with completed ec => [ec] | _ => [] end.

(** The handler of [async_connect_op] is called: [request_oid_map_handler], when the
    map has types, or the next one.  [perform] of [request_oid_map_op] uses the
    connection as a provider, which resets its error context. *)
Definition on_connected (w : world) : connect_state :=
  match completion_codes w with
  | [ec] =>
      if TypeSystem.oid_map_empty m || is_error ec then mk_connect w None
      else mk_connect (set_error_context "" w)
             (Some (AsyncRequest.get_resume process no_error
                (AsyncRequest.send_perform oids_query
                   (AsyncRequest.initial (session (lib w) (handle_ (conn w)))))))
  | _ => mk_connect w None
  end.

(** The error the handler gets. *)
Definition connect_outcomes (s : connect_state) : list error_code :=
  match oid_request s with
  | None => completion_codes (polled s)
  | Some r => map (fun ec => fst (after_connect m no_error (ec, received r)))
                (AsyncRequest.handler_calls r)
  end.

Definition polls_for (k : wait) (w : @world L P) : bool :=
  match k, last (log w) with
  | for_read, Some waits_read | for_write, Some waits_write => true
  | _, _ => false
  end.

#[local] Instance oid_operation : Operation (@AsyncRequest.request Lr R) :=
  TimedRequest.request_operation process.

#[export] Instance connect_operation : Operation connect_state := {
  waits_for k s :=
    match oid_request s with Some r => waits_for k r | None => polls_for k (polled s) end;
  on_wait k ec s :=
    match oid_request s with
    | Some r => mk_connect (polled s) (Some (on_wait k ec r))
    | None => on_connected (Connection.resume ec (polled s))
    end;
  outcomes := connect_outcomes;
  cancellations s := match oid_request s with Some r => cancellations r | None => 0%nat end;
}.

(** [async_connect]. *)
Definition not_connected (l : L) : connect_state := mk_connect (mk_world l new_connection []) None.

Definition async_connect (constrained : bool) (conninfo : string) (l : L) : @timed connect_state :=
  let s := not_connected l in
  launch constrained s (on_connected (perform conninfo (polled s))).

(** ** Connecting keeps the promises of an operation *)

Context `{!AsyncRequest.LibPQLaws Lr R}.

#[local] Instance oid_laws : OperationLaws (@AsyncRequest.request Lr R) :=
  TimedRequest.request_laws process.

Definition connect_ok (s : connect_state) : Prop :=
  balanced (polled s) /\
  match oid_request s with
  | None => connecting (polled s) \/
            ended (polled s) /\
            (TypeSystem.oid_map_empty m = true \/ exists ec, completion_codes (polled s) = [ec] /\ is_error ec = true)
  | Some r => operation_ok r /\ is_open (polled s) = true /\ TypeSystem.oid_map_empty m = false
  end.

Lemma completion_codes_of w ec : completions w = [completed ec] -> completion_codes w = [ec].
Proof. unfold completion_codes. by intros ->. Qed.

Lemma polls_waiting k w : polls_for k w = true -> waiting w = true.
Proof. unfold polls_for, waiting. by destruct k, (last (log w)) as [[]|]. Qed.

Lemma on_connected_ok w : balanced w -> connecting w \/ ended w -> connect_ok (on_connected w).
Proof.
  intros Hb [Hc|He]; unfold on_connected.
  - destruct Hc as (Hw & Hc & Ho). unfold completion_codes. rewrite Hc. cbn. split; [done|]. by left.
  - destruct He as (Hw & ec & Hc & Ho). rewrite (completion_codes_of _ _ Hc).
    destruct (TypeSystem.oid_map_empty m) eqn:Hm; cbn; [|destruct (is_error ec) eqn:He].
    + split; [done|]. right. split; [by split; eauto|]. by left.
    + split; [done|]. right. split; [by split; eauto|]. right. exists ec. cbn. by rewrite (completion_codes_of _ _ Hc).
    + split; [done|]. cbn. split; [|split; [by apply Ho | done]].
      apply (AsyncRequest.start_settled process oids_query).
Qed.

Lemma connect_ok_outcomes s : connect_ok s -> (List.length (connect_outcomes s) <= 1)%nat.
Proof.
  intros (_ & Hs). unfold connect_outcomes. destruct (oid_request s) as [r|].
  - rewrite length_map. exact (ok_outcomes r (proj1 Hs)).
  - destruct Hs as [(_ & Hc & _)|((_ & ec & Hc & _) & _)];
      [unfold completion_codes; rewrite Hc | rewrite (completion_codes_of _ _ Hc)]; cbn; lia.
Qed.

(** A wait that ends while the connection is polled. *)
Lemma connect_polling s k :
  connect_ok s -> oid_request s = None -> polls_for k (polled s) = true ->
  balanced (polled s) /\ connecting (polled s) /\ connect_outcomes s = [].
Proof.
  intros (Hb & Hs) Hr Hk. rewrite Hr in Hs. apply polls_waiting in Hk.
  destruct Hs as [Hc|((Hw & _) & _)]; [|congruence]. split; [done|]. split; [done|].
  unfold connect_outcomes, completion_codes. rewrite Hr. by destruct Hc as (_ & -> & _).
Qed.

Lemma connect_ok_resume k ec s :
  connect_ok s -> waits_for k s = true ->
  match oid_request s with Some r => admissible k ec r | None => True end -> connect_ok (on_wait k ec s).
Proof.
  cbn. intros Hs Hw Ha. destruct (oid_request s) as [r|] eqn:Hr.
  - destruct Hs as (Hb & Hs). rewrite Hr in Hs. destruct Hs as (Hs & Ho & Hm).
    split; [done|]. split; [exact (ok_resume k ec r Hs Hw Ha) | done].
  - destruct (connect_polling s k Hs Hr Hw) as (Hb & Hc & _).
    destruct (resume_spec ec (polled s) Hb Hc). by apply on_connected_ok.
Qed.

Lemma resume_error_codes ec w :
  completion_codes w = [] -> is_error ec = true -> completion_codes (Connection.resume ec w) = [ec].
Proof.
  intros Hc He. unfold Connection.resume. rewrite He. unfold Connection.done, completion_codes.
  rewrite completions_emit. cbn. unfold completion_codes in Hc.
  assert (completions (if (error_context_ (conn w) =? "")%string
    then set_error_context "error while connection polling" w else w) = completions w) as ->
    by by destruct (String.eqb _ _).
  by rewrite bind_app, Hc.
Qed.

Definition connect_essential (s : connect_state) : wait :=
  match oid_request s with
  | Some r => essential r
  | None => if polls_for for_write (polled s) then for_write else for_read
  end.

(** The outcome of the OID request does not change any more. *)
Lemma oid_outcomes_prefix k ec s r :
  oid_request s = Some r -> operation_ok r /\ is_open (polled s) = true /\ TypeSystem.oid_map_empty m = false ->
  waits_for k r = true -> admissible k ec r ->
  connect_outcomes s `prefix_of` connect_outcomes (mk_connect (polled s) (Some (on_wait k ec r))).
Proof.
  intros Hr (Hok & _) Hw Ha. unfold connect_outcomes. rewrite Hr. cbn [oid_request].
  destruct (AsyncRequest.handler_calls r) as [|e es] eqn:He; [apply prefix_nil|].
  pose proof (resume_outcomes k ec r Hok Hw Ha) as [t Ht]. cbn [outcomes oid_operation TimedRequest.request_operation] in Ht.
  assert (received (on_wait k ec r) = received r) as ->.
  { unfold received. f_equal. apply (TimedRequest.processed_stable process k ec r Hok Hw). congruence. }
  rewrite Ht, He, map_app. by eexists.
Qed.

#[export] Instance connect_laws : OperationLaws connect_state.
Proof.
  refine {| operation_ok := connect_ok;
            admissible k ec s := match oid_request s with Some r => admissible k ec r | None => True end;
            essential := connect_essential |}.
  - apply connect_ok_resume.
  - apply connect_ok_outcomes.
  - intros k ec s Hs Hw Ha. cbn in Hw, Ha |- *. destruct (oid_request s) as [r|] eqn:Hr.
    + destruct Hs as (_ & Hs). rewrite Hr in Hs. by apply oid_outcomes_prefix.
    + destruct (connect_polling s k Hs Hr Hw) as (_ & _ & ->). apply prefix_nil.
  - intros k k' ec s Hs Hne Hw Hw'. cbn in Hw, Hw' |- *. destruct (oid_request s) as [r|] eqn:Hr.
    + destruct Hs as (_ & Hs). rewrite Hr in Hs. exact (resume_other k k' ec r (proj1 Hs) Hne Hw Hw').
    + exfalso. unfold polls_for in Hw, Hw'. by destruct k, k', (last (log (polled s))) as [[]|].
  - intros s Hs Ho. cbn in Ho |- *. unfold connect_essential. destruct (oid_request s) as [r|] eqn:Hr.
    + destruct Hs as (_ & Hs). rewrite Hr in Hs. apply (essential_waits r (proj1 Hs)).
      unfold connect_outcomes in Ho. rewrite Hr in Ho. by apply map_eq_nil in Ho.
    + destruct Hs as (_ & Hs). rewrite Hr in Hs. unfold connect_outcomes in Ho. rewrite Hr in Ho.
      destruct Hs as [(Hw & _)|((_ & ec & Hc & _) & _)]; [|rewrite (completion_codes_of _ _ Hc) in Ho; done].
      unfold waiting in Hw. unfold polls_for. by destruct (last (log (polled s))) as [[]|].
  - intros ec s Hs Ho He. cbn in Ho |- *. unfold connect_essential.
    destruct (oid_request s) as [r|] eqn:Hr; unfold connect_outcomes in Ho; rewrite Hr in Ho.
    + destruct Hs as (_ & Hs). rewrite Hr in Hs.
      apply map_eq_nil in Ho. pose proof (essential_aborts ec r (proj1 Hs) Ho He) as Ha.
      unfold connect_outcomes. cbn [oid_request]. intros Hm. by apply map_eq_nil in Hm.
    + unfold on_connected. rewrite (resume_error_codes _ _ Ho He), He, orb_true_r.
      unfold connect_outcomes. cbn. by rewrite (resume_error_codes _ _ Ho He).
  - intros k ec s Hs Ho Hw Hne Hr'. cbn in Ho, Hw, Hr' |- *. unfold connect_essential in *.
    destruct (oid_request s) as [r|] eqn:Hr; unfold connect_outcomes in Ho, Hr'; rewrite ?Hr in Ho.
    + destruct Hs as (_ & Hs). rewrite Hr in Hs. cbn [oid_request] in Hr'. apply map_eq_nil in Ho, Hr'.
      exact (other_silent k ec r (proj1 Hs) Ho Hw Hne Hr').
    + exfalso. unfold polls_for in Hw, Hne. by destruct k, (last (log (polled s))) as [[]|].
  - intros k ec s Ho. cbn in Ho. unfold connect_outcomes in Ho. destruct (oid_request s) as [r|]; [|done].
    apply open_admissible. by apply map_eq_nil in Ho.
  - intros k ec s. destruct (oid_request s) as [r|]; [exact (admissible_dec k ec r) | by left].
Defined.

(** The handler of a write wait of the OID request is run that finds an error although
    the request has succeeded already. *)
Definition late_oid_step (tm tm' : @timed connect_state) : Prop :=
  exists q1 ec q2 r, queue tm = (q1 ++ ev_wait for_write ec :: q2)%list /\ oid_request (op tm) = Some r /\
    AsyncRequest.late_failure ec r /\
    tm' = run_event (ev_wait for_write ec) (set_queue (q1 ++ q2)%list tm).

(** Nothing else is irregular when connecting. *)
Lemma irregular_late_oid tm tm' : irregular_step tm tm' -> late_oid_step tm tm'.
Proof.
  intros (q1 & k & ec & q2 & Hq & Ha & ->). cbn in Ha.
  destruct (oid_request (op tm)) as [r|] eqn:Ho; [|by destruct Ha]. destruct k; [by destruct Ha|].
  exists q1, ec, q2, r. do 2 (split; [done|]). split; [|done].
  destruct (AsyncRequest.late_failure_dec ec r); [done|]. by destruct Ha.
Qed.

(** Between [tm0] and [tm] there was such a step. *)
Definition late_oid_write (tm0 tm : @timed connect_state) : Prop :=
  exists tm1 tm2, rtc any_step tm0 tm1 /\ late_oid_step tm1 tm2 /\ rtc any_step tm2 tm.

Lemma not_connected_open l : outcomes (not_connected l) = [].
Proof. done. Qed.

Lemma connect_started_ok conninfo l : operation_ok (on_connected (perform conninfo (polled (not_connected l)))).
Proof. destruct (perform_spec conninfo l). by apply on_connected_ok. Qed.

Lemma connect_ok_success s ec :
  connect_ok s -> connect_outcomes s = [ec] -> is_error ec = false ->
  is_open (polled s) = true /\
  (TypeSystem.oid_map_empty m = false -> exists r ec', oid_request s = Some r /\
     AsyncRequest.handler_calls r = [ec'] /\ is_error ec' = false /\
     snd (RequestOidMap.set_oid_map m (received r)) = Ok tt).
Proof.
  intros (_ & Hs) Ho He. unfold connect_outcomes in Ho. destruct (oid_request s) as [r|].
  - destruct Hs as (_ & Hopen & Hm). split; [done|]. intros _.
    destruct (AsyncRequest.handler_calls r) as [|ec' [|]] eqn:Hh; [done| |done]. cbn in Ho. simplify_eq.
    exists r, ec'. split; [done|]. split; [done|].
    unfold after_connect, RequestOidMap.request_oid_map_done in He. rewrite Hm in He. cbn in He.
    destruct (is_error ec') eqn:He'; [cbn in He; congruence|]. split; [done|].
    by destruct (RequestOidMap.set_oid_map m (received r)) as [m' [[]|]].
  - destruct Hs as [(_ & Hc & _)|((_ & ec1 & Hc & Hopen) & Hm)].
    + unfold completion_codes in Ho. by rewrite Hc in Ho.
    + rewrite (completion_codes_of _ _ Hc) in Ho. simplify_eq. split; [by apply Hopen|].
      intros Hne. destruct Hm as [|(ec' & He' & Hee)]; [congruence|].
      rewrite (completion_codes_of _ _ Hc) in He'. simplify_eq. congruence.
Qed.

(** What a call without an error comes with. *)
Definition connected_well (s : connect_state) : Prop :=
  is_open (polled s) = true /\
  (TypeSystem.oid_map_empty m = false -> exists r ec', oid_request s = Some r /\
     AsyncRequest.handler_calls r = [ec'] /\ is_error ec' = false /\
     snd (RequestOidMap.set_oid_map m (received r)) = Ok tt).

Lemma connect_ok_connected constrained s0 s1 tm ec :
  asio_value timed_out <> 0%Z -> rtc any_step (launch constrained s0 s1) tm -> timed_ok tm ->
  user_calls tm = [ec] -> is_error ec = false -> connected_well (op tm).
Proof.
  intros Ht Hr Hok Hec He. destruct (launched_calls _ _ _ _ Hr Hok) as (_ & _ & H3').
  destruct (H3' ec Hec) as (ec' & Ho & [<-|(_ & ->)]).
  - destruct Hok as (Hok & _). by apply (connect_ok_success _ ec).
  - unfold is_error in He. cbn in He. by destruct (Z.eqb_spec (asio_value timed_out) 0).
Qed.

Lemma connect_once constrained conninfo l tm :
  rtc any_step (async_connect constrained conninfo l) tm ->
  late_oid_write (async_connect constrained conninfo l) tm \/
  timed_ok tm /\
  (List.length (user_calls tm) <= 1)%nat /\
  ((forall k, waits_for k (op tm) = false) -> timer_armed tm = false -> queue tm = [] ->
   List.length (user_calls tm) = 1%nat) /\
  (asio_value timed_out <> 0%Z -> forall ec, user_calls tm = [ec] -> is_error ec = false ->
   connected_well (op tm)).
Proof.
  intros Hr. pose proof (connect_started_ok conninfo l) as Hs.
  pose proof (launch_ok constrained _ _ (not_connected_open l) Hs) as Hl.
  destruct (any_step_regular _ tm Hl Hr) as [(tm1 & tm2 & ? & ?%irregular_late_oid & ?)|Hok];
    [left; by exists tm1, tm2|].
  right. split; [done|]. destruct (launched_calls _ _ _ _ Hr Hok) as (H1' & H2' & _).
  split; [done|]. split; [by intros Hw; apply H2'|].
  intros Ht ec. by apply (connect_ok_connected _ _ _ _ _ Ht Hr Hok).
Qed.

(** C17. Connecting, with the request for the OIDs of the custom types, as long as its
    handlers run one at a time, in any order, as they do when one thread runs the
    [io_context]; with more threads the OID request is on another strand than the
    timer ([io_deadline_needs_strand] of [Cancel]).  Either the run has a late write
    failure of the OID request - its write wait found an error after it had succeeded
    - or the user's handler is called at most once, with or without a time limit, and
    exactly once when no wait, no timer and no handler is left; a call without an
    error has an open connection and, when the map of the connection has types, comes
    after a request that ended without an error and whose rows are valid OIDs for all
    of them. *)
Theorem timed_connect_once constrained conninfo l tm :
  rtc any_step (async_connect constrained conninfo l) tm ->
  late_oid_write (async_connect constrained conninfo l) tm \/
  (List.length (user_calls tm) <= 1)%nat /\
  ((forall k, waits_for k (op tm) = false) -> timer_armed tm = false -> queue tm = [] ->
   List.length (user_calls tm) = 1%nat) /\
  (asio_value timed_out <> 0%Z -> forall ec, user_calls tm = [ec] -> is_error ec = false ->
   is_open (polled (op tm)) = true /\
   (TypeSystem.oid_map_empty m = false -> exists r ec', oid_request (op tm) = Some r /\
     AsyncRequest.handler_calls r = [ec'] /\ is_error ec' = false /\
     snd (RequestOidMap.set_oid_map m (received r)) = Ok tt)).
Proof. intros Hr. destruct (connect_once _ _ _ _ Hr) as [Hl|(_ & Ho)]; [by left | by right]. Qed.

(** When the time is up while connecting, or requesting the OIDs, waits for the
    socket and the socket is not ready, the handler is called with [timed_out],
    whatever else happens. *)
Theorem connect_timeout_delivered constrained conninfo l tm events :
  asio_value operation_aborted <> 0%Z ->
  rtc timed_step (async_connect constrained conninfo l) tm ->
  queue tm = (ev_timer :: events)%list -> in_reactor (connect_essential (op tm)) tm = true ->
  connect_outcomes (op tm) = [] ->
  eventually (fun tm' => user_calls tm' = [make_asio_error timed_out])
    (run_event ev_timer (set_queue events tm)).
Proof.
  intros Hab Hr Hq Hre Ho.
  exact (timeout_reaches constrained (not_connected l) _ tm events Hab (not_connected_open l)
           (connect_started_ok conninfo l) Hr Hq Hre Ho).
Qed.

End Connect.

(** ** A database that is ready at the first poll and answers with two OIDs *)

#[local] Existing Instance linux_boost.
#[local] Existing Instance TimedRequest.parts_libpq.
#[local] Existing Instance TimedRequest.parts_laws.

Definition sample_query : BinaryQuery.binary_query :=
  match QueryBuilder.to_binary_query Endian.little 1000 RequestOidMap.sample_map
    (QueryBuilder.build (RequestOidMap.make_oids_query RequestOidMap.sample_map)) with
  | Some q => q
  | None => AsyncRequest.no_query
  end.

Definition sample_session (_ : unit) (_ : option nat) : nat := 1%nat.
Definition sample_oids (_ : AsyncRequest.exec_status) : string + list Z := inr [100; 200]%Z.

Definition sample_connect (constrained : bool) : @timed (@connect_state unit nat nat AsyncRequest.exec_status) :=
  async_connect sample_session RequestOidMap.sample_map sample_query sample_oids constrained "host=db" tt.

#[local] Instance sample_operation : Operation (@connect_state unit nat nat AsyncRequest.exec_status) :=
  connect_operation sample_session RequestOidMap.sample_map sample_query sample_oids.
#[local] Instance sample_laws : OperationLaws (@connect_state unit nat nat AsyncRequest.exec_status) :=
  connect_laws sample_session RequestOidMap.sample_map sample_query sample_oids.

(** The wait for writing ends and its handler is run: libpq is connected, and the answer
    of the OID request is there at once. *)
Lemma timed_connect_once_witness :
  let tm := run_event (ev_wait for_write no_error) (sample_connect false) in
  user_calls tm = [no_error] /\
  (late_oid_write sample_session RequestOidMap.sample_map sample_query sample_oids (sample_connect false) tm \/
   is_open (polled (op tm)) = true /\
   exists r ec', oid_request (op tm) = Some r /\
     AsyncRequest.handler_calls r = [ec'] /\ is_error ec' = false /\
     snd (RequestOidMap.set_oid_map RequestOidMap.sample_map (received sample_oids r)) = Ok tt).
Proof.
  intros tm. assert (user_calls tm = [no_error]) as Hu by done. split; [exact Hu|].
  destruct (timed_connect_once sample_session RequestOidMap.sample_map sample_query sample_oids
    false "host=db" tt tm) as [Hl|(_ & _ & H3)]; [|left; exact Hl|right].
  - eapply rtc_l; [by apply (any_wait for_write no_error)|].
    eapply rtc_l; [by apply (any_run [] (ev_wait for_write no_error) [])|]. apply rtc_refl.
  - destruct (H3 ltac:(done) no_error Hu eq_refl) as [Ho Hm]. split; [exact Ho|]. by apply Hm.
Defined.

Lemma connect_timeout_delivered_witness :
  let tm := end_timer (sample_connect true) in
  queue tm = [ev_timer] /\
  eventually (fun tm' => user_calls tm' = [make_asio_error timed_out])
    (run_event ev_timer (set_queue [] tm)).
Proof.
  split; [done|].
  apply (connect_timeout_delivered sample_session RequestOidMap.sample_map sample_query sample_oids
    true "host=db" tt (end_timer (sample_connect true))); [done | | done..].
  eapply rtc_l; [by apply io_timer | apply rtc_refl].
Defined.

End TimedConnect.
