(* ===== verification/ConnectionPool.v ===== *)
(** The pool of connections: [src/include/bozo/connection_pool.h],
    [src/include/bozo/impl/connection_pool.h] and
    [src/include/bozo/impl/transaction_status.h].

    The storage of the pool is a third-party component, which hands out slots: a
    slot is empty or holds the representation of a connection.  What the library
    does with a slot is modelled: it checks the connection the slot holds or asks
    its source for a new one, and when the user drops the connection it decides
    whether the slot goes back to the pool or is wasted. *)

From S2P Require Import Prelude ErrorCode Errors TypeSystem Chrono Deadline Connection.
From Stdlib Require Import ZArith Lia List String.
From stdpp Require Import base tactics list strings.

Open Scope string_scope.
Open Scope Z_scope.

(** [PGTransactionStatusType] of libpq. *)
Inductive pq_transaction_status : Set :=
| PQTRANS_IDLE | PQTRANS_ACTIVE | PQTRANS_INTRANS | PQTRANS_INERROR | PQTRANS_UNKNOWN.

Class LibPQTransaction (L H : Type) := {
  PQtransactionStatus : L -> option H -> pq_transaction_status;
}.

Module ConnectionPool.

Import Deadline.

(** [transaction_status]. *)
Inductive transaction_status : Set := ts_unknown | ts_idle | ts_active | ts_transaction | ts_error.

#[global] Instance transaction_status_eq_dec : EqDecision transaction_status.
Proof. solve_decision. Defined.

Section Pool.
Context {L H : Type} `{LibPQConnect L H} `{LibPQTransaction L H}.

(** [connection_rep], a slot ([yamail::resource_pool::handle]) and
    [pooled_connection]; the statistics and the executor, which no member changes,
    are left out. *)
Record connection_rep := mk_connection_rep {
  safe_native_handle : option H;
  rep_oid_map : TypeSystem.oid_map;
  rep_error_context : string;
}.

Definition slot := option connection_rep.

Record pooled_connection := mk_pooled_connection { rep_ : slot; stream_ : option Z }.

(** [get_transaction_status] of a connection that is not null. *)
Definition get_transaction_status (l : L) (h : option H) : transaction_status :=
  match PQtransactionStatus l h with
  | PQTRANS_UNKNOWN => ts_unknown
  | PQTRANS_IDLE => ts_idle
  | PQTRANS_ACTIVE => ts_active
  | PQTRANS_INTRANS => ts_transaction
  | PQTRANS_INERROR => ts_error
  end.

Definition native_handle (c : pooled_connection) : option H := r ← rep_ c; safe_native_handle r.

(** The constructor of [pooled_connection]. *)
Definition create_pooled_connection (l : L) (s : slot) : pooled_connection :=
  let h := r ← s; safe_native_handle r in
  let fd := match h with Some h => PQsocket l h | None => -1 end in
  mk_pooled_connection s (if fd =? -1 then None else Some fd).

Definition is_bad (l : L) (c : pooled_connection) : bool :=
  negb (Connection.connection_status_ok l (native_handle c)).

(** [close]: the handle is finished and the slot keeps the rest. *)
Definition close (c : pooled_connection) : pooled_connection :=
  mk_pooled_connection
    ((fun r => mk_connection_rep None (rep_oid_map r) (rep_error_context r)) <$> rep_ c) None.

(** What becomes of the slot when the connection is dropped: the pool takes it back
    unless it is wasted. *)
Inductive fate : Set := recycled | wasted.

Definition destroy (l : L) (c : pooled_connection) : fate :=
  match rep_ c with
  | None => recycled
  | Some _ =>
      if is_bad l c || negb (bool_decide (get_transaction_status l (native_handle c) = ts_idle))
      then wasted else recycled
  end.

(** *** [pooled_connection_wrapper] *)

(** The handler of the user is called, or the source is asked for a connection in
    the given time and the slot waits for it. *)
Inductive action : Type :=
| call_handler (ec : error_code) (c : option pooled_connection)
| ask_source (t : time_constraint) (s : slot).

Definition on_slot (l : L) (t : time_constraint) (ec : error_code) (s : slot) : action :=
  if is_error ec then call_handler ec None else
  match s with
  | Some r =>
      if Connection.connection_status_bad l (safe_native_handle r) then ask_source t s
      else call_handler ec (Some (create_pooled_connection l s))
  | None => ask_source t s
  end.

(** What the source gives: the handle, the OID map and the error context of its
    connection, unless that is null. *)
Definition source_connection : Type := option H * TypeSystem.oid_map * string.

(** [wrapper::operator()]. *)
Definition on_connection (l : L) (ec : error_code) (conn : option source_connection) (s : slot) :
  action :=
  match conn with
  | Some (h, m, context) =>
      call_handler ec (Some (create_pooled_connection l (Some (mk_connection_rep h m context))))
  | None => call_handler ec None
  end.

(** [queue_timeout]. *)
Definition queue_timeout (t : time_constraint) (now : Z) : option Z :=
  match t with
  | until t => time_left t now
  | after d => Some d
  | no_constraint => Some 0
  end.

(** [operator()]: the time to wait for a slot and what is done with it. *)
Definition get_connection (now : Z) (t : time_constraint) :
  option Z * (L -> error_code -> slot -> action) :=
  (queue_timeout t now, fun l ec s => on_slot l t ec s).

(** A connection of the pool is given to the user without connecting anew only
    if the pool gave a slot without an error and the slot holds a handle that libpq
    does not report bad; the user gets that handle, with its socket.  An error of
    the pool goes to the user with a null connection, and in all other cases the
    source is asked, in the time of the operation. *)
Theorem pool_gives_checked_connections l t ec s :
  match on_slot l t ec s with
  | call_handler ec' (Some c) =>
      ec' = ec /\ is_error ec = false /\ rep_ c = s /\
      exists r h, s = Some r /\ safe_native_handle r = Some h /\ PQstatus l h <> CONNECTION_BAD /\
        native_handle c = Some h /\
        stream_ c = if PQsocket l h =? -1 then None else Some (PQsocket l h)
  | call_handler ec' None => ec' = ec /\ is_error ec = true
  | ask_source t' s' => t' = t /\ s' = s /\ is_error ec = false /\
      forall r h, s = Some r -> safe_native_handle r = Some h -> PQstatus l h = CONNECTION_BAD
  end.
Proof.
  unfold on_slot. destruct (is_error ec) eqn:He; [done|]. destruct s as [r|]; [|done].
  unfold Connection.connection_status_bad. destruct (safe_native_handle r) as [h|] eqn:Hh.
  - case_bool_decide as Hb.
    + repeat split; try done. intros r' h' [= <-] Hh'. congruence.
    + cbn. rewrite Hh. repeat split; try done. by exists r, h.
  - repeat split; try done. intros r' h' [= <-] Hh'. congruence.
Qed.

(** C32. A connection goes back to the pool only in a state to be used again: libpq
    reports it good and it is in no transaction and running no command.  Otherwise
    it is wasted; in particular one that was closed is. *)
Theorem pool_recycles_idle_connections l c r :
  rep_ c = Some r ->
  (destroy l c = recycled <->
   exists h, native_handle c = Some h /\ PQstatus l h = CONNECTION_OK /\
     PQtransactionStatus l (Some h) = PQTRANS_IDLE) /\
  destroy l (close c) = wasted.
Proof.
  intros Hr. unfold destroy, is_bad, native_handle. rewrite Hr. cbn [mbind option_bind close rep_].
  split; [|by rewrite Hr].
  unfold Connection.connection_status_ok, get_transaction_status.
  destruct (safe_native_handle r) as [h|]; [|split; [done | intros (h & ? & _); done]].
  case_bool_decide as Hs; cbn [negb orb].
  2: { split; [done|]. intros (h' & [= <-] & Hok & _). done. }
  destruct (PQtransactionStatus l (Some h)) eqn:Ht; cbn; split; try done; intros Hx;
    try (by exists h); destruct Hx as (h' & [= <-] & _ & Hi); congruence.
Qed.
End Pool.

(** A libpq that reports every handle good and idle. *)
#[export] Instance idle_libpq : LibPQTransaction unit nat := {
  PQtransactionStatus _ h := match h with Some _ => PQTRANS_IDLE | None => PQTRANS_UNKNOWN end;
}.

#[export] Instance good_libpq : LibPQConnect unit nat := {
  PQconnectStart _ l := (Some 7%nat, l);
  PQstatus _ _ := CONNECTION_OK;
  PQsocket _ _ := 3;
  PQconnectPoll _ l := (PGRES_POLLING_OK, l);
}.

Lemma pool_recycles_idle_connections_witness :
  let c := @create_pooled_connection unit nat good_libpq tt (Some (mk_connection_rep (Some 7%nat) [] "")) in
  (@destroy unit nat good_libpq idle_libpq tt c = recycled <->
   exists h, native_handle c = Some h /\ @PQstatus unit nat good_libpq tt h = CONNECTION_OK /\
     PQtransactionStatus tt (Some h) = PQTRANS_IDLE) /\
  @destroy unit nat good_libpq idle_libpq tt (close c) = wasted.
Proof.
  intros c. exact (@pool_recycles_idle_connections unit nat good_libpq idle_libpq tt c
    (mk_connection_rep (Some 7%nat) [] "") eq_refl).
Defined.

End ConnectionPool.
