(* ===== verification/PoolMachine.v ===== *)
(** The pool of connections at work: [connection_pool::operator()] of
    [src/include/bozo/connection_pool.h] and [src/include/bozo/impl/connection_pool.h], with
    the storage of the pool, the source of its connections and its users.

    [ConnectionPool] says what the library does with one slot.  Here many requests
    share one pool: each waits for a slot, may wait for the source with the slot in
    its hand, holds a connection and drops it.  The storage is a third-party
    component; [ResourcePool] is its interface and [ResourcePoolLaws] what it is
    documented to do with the values that are put into it. *)

From S2P Require Import Prelude ErrorCode Errors TypeSystem Chrono Deadline Connection ConnectionPool.
From Stdlib Require Import ZArith Lia List String.
From stdpp Require Import base tactics list relations.
From AAC_tactics Require Import AAC.
From AAC_tactics Require Instances.

(** [yamail::resource_pool::async::pool]: a value served from the pool or an empty
    slot, a slot taken back, a slot wasted.  A list of values are those the pool drops
    on the way, because they are idle or alive for too long. *)
Class ResourcePool (S Rep : Type) := {
  pool_idle : S -> list Rep;
  pool_used : S -> nat;
  pool_capacity : S -> nat;
  pool_serves : S -> option Rep -> list Rep -> S -> Prop;
  pool_recycles : S -> option Rep -> list Rep -> S -> Prop;
  pool_wastes : S -> S -> Prop;
}.

Class ResourcePoolLaws (S Rep : Type) `{ResourcePool S Rep} := {
  serves_idle : forall s slot dropped s', pool_serves s slot dropped s' ->
    pool_idle s ≡ₚ (option_list slot ++ dropped ++ pool_idle s')%list;
  serves_used : forall s slot dropped s', pool_serves s slot dropped s' ->
    pool_used s' = (1 + pool_used s)%nat /\ (pool_used s' <= pool_capacity s')%nat /\
    pool_capacity s' = pool_capacity s;
  recycles_idle : forall s slot dropped s', pool_recycles s slot dropped s' ->
    (option_list slot ++ pool_idle s)%list ≡ₚ (dropped ++ pool_idle s')%list;
  recycles_used : forall s slot dropped s', pool_recycles s slot dropped s' ->
    pool_used s = (1 + pool_used s')%nat /\ pool_capacity s' = pool_capacity s;
  wastes_idle : forall s s', pool_wastes s s' -> pool_idle s' ≡ₚ pool_idle s;
  wastes_used : forall s s', pool_wastes s s' ->
    pool_used s = (1 + pool_used s')%nat /\ pool_capacity s' = pool_capacity s;
}.

Module PoolMachine.

Import Deadline ConnectionPool.
Import Instances.Lists.

#[local] Instance permutation_lift {A} : AAC_lift (@Permutation A) (@Permutation A).
Proof. split; [apply _|]. intros x y Hxy x' y' Hxy'. by rewrite Hxy, Hxy'. Qed.

Section Machine.
Context {L H S : Type} `{LibPQConnect L H} `{LibPQTransaction L H}.
Context `{ResourcePool S (@connection_rep H)}.

(** A request for a connection: in the queue of the pool, with a slot in the hand of
    [wrapper] while the source connects, with a connection the user holds, or over. *)
Inductive phase : Type :=
| queued (t : time_constraint)
| connecting (handle_ : @slot H)
| holding (c : @pooled_connection H)
| over.

Record request := mk_request { at_ : phase; called : list error_code }.

(** [finished] are the calls of [PQfinish], [started] the handles the source gave. *)
Record world := mk_world {
  lib : L;
  pool : S;
  requests : list request;
  started : list H;
  finished : list H;
}.

Definition rep_handles (r : @connection_rep H) : list H := option_list (safe_native_handle r).
Definition slot_handles (s : @slot H) : list H := option_list s ≫= rep_handles.

Definition set_request (i : nat) (r : request) (w : world) : world :=
  mk_world (lib w) (pool w) (<[i := r]> (requests w)) (started w) (finished w).
Definition set_pool (s : S) (w : world) : world :=
  mk_world (lib w) s (requests w) (started w) (finished w).
Definition finish (hs : list H) (w : world) : world :=
  mk_world (lib w) (pool w) (requests w) (started w) (finished w ++ hs)%list.
Definition start_handle (h : option H) (w : world) : world :=
  mk_world (lib w) (pool w) (requests w) (started w ++ option_list h)%list (finished w).

(** What [ConnectionPool.on_slot] and [on_connection] say to do, for the request [i]. *)
Definition perform (i : nat) (calls : list error_code) (a : @action H) (w : world) : world :=
  match a with
  | call_handler ec (Some c) => set_request i (mk_request (holding c) (calls ++ [ec])%list) w
  | call_handler ec None => set_request i (mk_request over (calls ++ [ec])%list) w
  | ask_source _ s => set_request i (mk_request (connecting s) calls) w
  end.

(** [connection_pool::operator()]. *)
Definition get_connection (t : time_constraint) (w : world) : world :=
  mk_world (lib w) (pool w) (requests w ++ [mk_request (queued t) []])%list (started w) (finished w).

(** [pooled_connection_wrapper::operator()] with an error of the pool or with a slot. *)
Definition pool_failed (i : nat) (t : time_constraint) (calls : list error_code) (ec : error_code)
  (w : world) : world := perform i calls (on_slot (lib w) t ec None) w.
Definition pool_served (i : nat) (t : time_constraint) (calls : list error_code) (s : @slot H)
  (w : world) : world := perform i calls (on_slot (lib w) t no_error s) w.

(** [wrapper::operator()] with a connection: [handle_.reset] destroys what the slot
    holds.  A null connection leaves the slot to the destructor of [wrapper]. *)
Definition source_connected (i : nat) (calls : list error_code) (s : @slot H) (ec : error_code)
  (conn : @source_connection H) (w : world) : world :=
  perform i calls (on_connection (lib w) ec (Some conn) s)
    (finish (slot_handles s) (start_handle (fst (fst conn)) w)).
Definition source_failed (i : nat) (calls : list error_code) (s : @slot H) (ec : error_code)
  (w : world) : world := perform i calls (on_connection (lib w) ec None s) w.

(** The user closes the connection or drops the last pointer to it. *)
Definition user_closes (i : nat) (calls : list error_code) (c : @pooled_connection H) (w : world) : world :=
  set_request i (mk_request (holding (close c)) calls) (finish (option_list (native_handle c)) w).
Definition user_drops (i : nat) (calls : list error_code) (w : world) : world :=
  set_request i (mk_request over calls) w.

Inductive step : world -> world -> Prop :=
| step_get t w : step w (get_connection t w)
| step_failed i t cs ec w :
    requests w !! i = Some (mk_request (queued t) cs) -> is_error ec = true ->
    step w (pool_failed i t cs ec w)
| step_served i t cs s dropped p w :
    requests w !! i = Some (mk_request (queued t) cs) ->
    pool_serves (pool w) s dropped p ->
    step w (finish (dropped ≫= rep_handles) (pool_served i t cs s (set_pool p w)))
| step_connected i cs s ec h m context w :
    requests w !! i = Some (mk_request (connecting s) cs) ->
    (forall x, h = Some x -> x ∉ started w) ->
    step w (source_connected i cs s ec (h, m, context) w)
| step_not_connected i cs s ec dropped p w :
    requests w !! i = Some (mk_request (connecting s) cs) ->
    pool_recycles (pool w) s dropped p ->
    step w (finish (dropped ≫= rep_handles) (set_pool p (source_failed i cs s ec w)))
| step_close i cs c w :
    requests w !! i = Some (mk_request (holding c) cs) -> step w (user_closes i cs c w)
| step_recycle i cs c dropped p w :
    requests w !! i = Some (mk_request (holding c) cs) -> destroy (lib w) c = recycled ->
    pool_recycles (pool w) (rep_ c) dropped p ->
    step w (finish (dropped ≫= rep_handles) (set_pool p (user_drops i cs w)))
| step_waste i cs c p w :
    requests w !! i = Some (mk_request (holding c) cs) -> destroy (lib w) c = wasted ->
    pool_wastes (pool w) p ->
    step w (finish (slot_handles (rep_ c)) (set_pool p (user_drops i cs w)))
| step_lib l w : step w (mk_world l (pool w) (requests w) (started w) (finished w)).

Definition initial (l : L) (s : S) : world := mk_world l s [] [] [].

(** ** Invariant *)

Definition phase_handles (p : phase) : list H :=
  match p with
  | connecting s => slot_handles s
  | holding c => slot_handles (rep_ c)
  | _ => []
  end.
Definition request_handles (r : request) : list H := phase_handles (at_ r).

Definition has_slot (r : request) : bool :=
  match at_ r with connecting _ | holding _ => true | _ => false end.
Definition slots_out (rs : list request) : nat := List.length (List.filter has_slot rs).

Definition idle_handles (s : S) : list H := pool_idle s ≫= rep_handles.

(** A handle is in a request, idle in the pool or finished. *)
Definition places (w : world) : list H :=
  ((requests w ≫= request_handles) ++ idle_handles (pool w) ++ finished w)%list.

Definition called_ok (r : request) : Prop :=
  List.length (called r) = match at_ r with queued _ | connecting _ => 0 | _ => 1 end%nat.

(** What a request holds came with a slot that is not empty. *)
Definition held_ok (r : request) : Prop :=
  match at_ r with holding c => is_Some (rep_ c) | _ => True end.

Definition pool_ok (w : world) : Prop :=
  started w ≡ₚ places w /\ NoDup (started w) /\
  slots_out (requests w) = pool_used (pool w) /\
  Forall called_ok (requests w) /\ Forall held_ok (requests w).

Context `{!ResourcePoolLaws S (@connection_rep H)}.

Lemma requests_bind {A} (f : request -> list A) rs i r r' :
  rs !! i = Some r ->
  exists rest, rs ≫= f ≡ₚ (f r ++ rest)%list /\ <[i := r']> rs ≫= f ≡ₚ (f r' ++ rest)%list.
Proof.
  intros Hi. exists ((take i rs ≫= f) ++ (drop (Datatypes.S i) rs ≫= f))%list. split.
  - rewrite <- (take_drop_middle rs i r Hi) at 1. rewrite bind_app, bind_cons. aac_reflexivity.
  - rewrite insert_take_drop by (by eapply lookup_lt_Some).
    rewrite bind_app, bind_cons. aac_reflexivity.
Qed.

Lemma slots_out_bind rs : slots_out rs = List.length (rs ≫= fun r => if has_slot r then [tt] else []).
Proof.
  unfold slots_out. induction rs as [|r rs IH]; [done|]. cbn [List.filter]. rewrite bind_cons, length_app.
  destruct (has_slot r); cbn; by rewrite IH.
Qed.

Lemma slots_out_insert rs i r r' :
  rs !! i = Some r ->
  (slots_out (<[i := r']> rs) + Nat.b2n (has_slot r) = slots_out rs + Nat.b2n (has_slot r'))%nat.
Proof.
  intros Hi. rewrite !slots_out_bind.
  destruct (requests_bind (fun r => if has_slot r then [tt] else []) rs i r r' Hi) as (rest & -> & ->).
  rewrite !length_app. destruct (has_slot r), (has_slot r'); cbn; lia.
Qed.

Lemma bind_NoDup_lookup {A B} (f : A -> list B) rs i j x r r' :
  NoDup (rs ≫= f) -> rs !! i = Some r -> rs !! j = Some r' -> x ∈ f r -> x ∈ f r' -> i = j.
Proof.
  revert i j. induction rs as [|r0 rs IH]; intros i j Hn Hi Hj Hx Hx'; [done|].
  rewrite bind_cons in Hn. apply NoDup_app in Hn as (_ & Hd & Hn).
  assert (forall k r1, rs !! k = Some r1 -> x ∈ f r1 -> x ∈ rs ≫= f) as Hrest.
  { intros k r1 Hk Hx1. apply list_elem_of_bind. exists r1. split; [done|]. by eapply list_elem_of_lookup_2. }
  destruct i as [|i], j as [|j]; cbn in Hi, Hj; simplify_eq; [done|..].
  - exfalso. by apply (Hd x Hx), (Hrest j r').
  - exfalso. by apply (Hd x Hx'), (Hrest i r).
  - f_equal. by apply IH.
Qed.

Lemma idle_of_perm a b : a ≡ₚ b -> a ≫= rep_handles ≡ₚ b ≫= rep_handles.
Proof. by intros ->. Qed.

(** One request changes its phase, and handles move between it, the pool and those
    that are started and finished. *)
Lemma pool_ok_update w w' i r r' new old :
  pool_ok w -> requests w !! i = Some r ->
  requests w' = <[i := r']> (requests w) ->
  started w' = (started w ++ new)%list -> finished w' = (finished w ++ old)%list ->
  NoDup (started w') ->
  (new ++ request_handles r ++ idle_handles (pool w))%list ≡ₚ
    (request_handles r' ++ idle_handles (pool w') ++ old)%list ->
  (pool_used (pool w') + Nat.b2n (has_slot r) = pool_used (pool w) + Nat.b2n (has_slot r'))%nat ->
  called_ok r' -> held_ok r' -> pool_ok w'.
Proof.
  intros (Hp & _ & Hu & Hc & Hh) Hi Hrq Hst Hfi Hn Hm Hs Hc' Hh'. unfold pool_ok, places in *.
  rewrite Hrq, Hfi.
  destruct (requests_bind request_handles _ _ _ r' Hi) as (rest & Hr & Hr').
  split_and!; [|done| |by apply Forall_insert..].
  - rewrite Hst, Hp, Hr, Hr'.
    transitivity ((new ++ request_handles r ++ idle_handles (pool w)) ++ rest ++ finished w)%list;
      [aac_reflexivity|]. rewrite Hm. aac_reflexivity.
  - pose proof (slots_out_insert _ _ _ r' Hi). unfold slots_out in *. lia.
Qed.

Lemma idle_serves s slot dropped s' :
  pool_serves s slot dropped s' ->
  idle_handles s ≡ₚ (slot_handles slot ++ (dropped ≫= rep_handles) ++ idle_handles s')%list.
Proof. intros Hs%serves_idle%idle_of_perm. unfold idle_handles, slot_handles. by rewrite Hs, !bind_app. Qed.

Lemma idle_recycles s slot dropped s' :
  pool_recycles s slot dropped s' ->
  (slot_handles slot ++ idle_handles s)%list ≡ₚ ((dropped ≫= rep_handles) ++ idle_handles s')%list.
Proof.
  intros Hs%recycles_idle%idle_of_perm. unfold idle_handles, slot_handles. by rewrite <- !bind_app.
Qed.

Lemma request_ok w i r : pool_ok w -> requests w !! i = Some r -> called_ok r /\ held_ok r.
Proof. intros (_ & _ & _ & Hc & Hh) Hi. by split; eapply Forall_lookup_1. Qed.

(** The phase of a request after a slot was served. *)
Lemma on_slot_phase l t (s : @slot H) :
  exists p, (forall i cs w, perform i cs (on_slot l t no_error s) w =
      set_request i (mk_request p (cs ++ match p with holding _ => [no_error] | _ => [] end)%list) w) /\
    phase_handles p = slot_handles s /\
    match p with holding c => rep_ c = s /\ is_Some s | connecting _ => True | _ => False end.
Proof.
  unfold on_slot. cbn [is_error no_error]. destruct s as [r|].
  - cbn. destruct (Connection.connection_status_bad l (safe_native_handle r)).
    + exists (connecting (Some r)). split; [|done]. intros. cbn. by rewrite app_nil_r.
    + eexists (holding _). split; [done|]. split; [done|]. by split; [|eexists].
  - exists (connecting None). split; [|done]. intros. cbn. by rewrite app_nil_r.
Qed.

Lemma close_handles (c : @pooled_connection H) : slot_handles (rep_ (close c)) = [].
Proof. unfold close, slot_handles. by destruct (rep_ c). Qed.

Lemma native_handle_slot (c : @pooled_connection H) : slot_handles (rep_ c) = option_list (native_handle c).
Proof. unfold native_handle, slot_handles, rep_handles. destruct (rep_ c) as [r|]; [|done]. cbn. by rewrite app_nil_r. Qed.

Lemma pool_ok_get t w : pool_ok w -> pool_ok (get_connection t w).
Proof.
  unfold pool_ok, places. cbn. intros (Hp & Hn & Hu & Hc & Hh). split_and!; [|done| |by apply Forall_app_2; repeat constructor..].
  - rewrite bind_app. cbn. by rewrite app_nil_r.
  - unfold slots_out in *. by rewrite List.filter_app, app_nil_r.
Qed.

Lemma pool_ok_failed i t cs ec w :
  pool_ok w -> requests w !! i = Some (mk_request (queued t) cs) -> is_error ec = true ->
  pool_ok (pool_failed i t cs ec w).
Proof.
  intros Hok Hi He. destruct (request_ok _ _ _ Hok Hi) as [Hc _].
  unfold pool_failed, on_slot. rewrite He. unfold called_ok in Hc. cbn in Hc.
  eapply (pool_ok_update w _ i _ _ [] []); rewrite ?app_nil_r; try done.
  - apply Hok.
  - unfold called_ok. cbn. rewrite length_app. cbn. lia.
Qed.

Lemma pool_ok_served i t cs s dropped p w :
  pool_ok w -> requests w !! i = Some (mk_request (queued t) cs) -> pool_serves (pool w) s dropped p ->
  pool_ok (finish (dropped ≫= rep_handles) (pool_served i t cs s (set_pool p w))).
Proof.
  intros Hok Hi Hs. destruct (request_ok _ _ _ Hok Hi) as [Hc _]. unfold called_ok in Hc. cbn in Hc.
  destruct (serves_used _ _ _ _ Hs) as (Hu & _). pose proof (idle_serves _ _ _ _ Hs) as Hm.
  unfold pool_served. destruct (on_slot_phase (lib (set_pool p w)) t s) as (ph & -> & Hph & Hk).
  eapply (pool_ok_update w _ i _ _ []); [done|exact Hi|done|by rewrite app_nil_r|done|apply Hok|..].
  - cbn -[slot_handles]. unfold request_handles. cbn -[slot_handles]. rewrite Hph, Hm. aac_reflexivity.
  - cbn. unfold has_slot. destruct ph; cbn; try done; lia.
  - unfold called_ok. cbn. rewrite length_app. destruct ph; cbn; try done; lia.
  - unfold held_ok. cbn. destruct ph; try done. by destruct Hk as [-> ?].
Qed.

Lemma pool_ok_connected i cs s ec h m context w :
  pool_ok w -> requests w !! i = Some (mk_request (connecting s) cs) ->
  (forall x, h = Some x -> x ∉ started w) -> pool_ok (source_connected i cs s ec (h, m, context) w).
Proof.
  intros Hok Hi Hf. destruct (request_ok _ _ _ Hok Hi) as [Hc _]. unfold called_ok in Hc. cbn in Hc.
  eapply (pool_ok_update w _ i _ _ (option_list h) (slot_handles s)); [done|exact Hi|done|done|done|..].
  - cbn. apply NoDup_app. split_and!; [apply Hok| |destruct h; repeat constructor; set_solver].
    intros x Hx Hx'. destruct h as [h|]; cbn in Hx'; [|by apply not_elem_of_nil in Hx'].
    apply list_elem_of_singleton in Hx' as ->. by apply (Hf h).
  - unfold request_handles. cbn -[slot_handles]. unfold slot_handles at 2. cbn. rewrite app_nil_r.
    unfold rep_handles. cbn. aac_reflexivity.
  - cbn. lia.
  - unfold called_ok. cbn. rewrite length_app. cbn. lia.
  - by eexists.
Qed.

Lemma pool_ok_not_connected i cs s ec dropped p w :
  pool_ok w -> requests w !! i = Some (mk_request (connecting s) cs) -> pool_recycles (pool w) s dropped p ->
  pool_ok (finish (dropped ≫= rep_handles) (set_pool p (source_failed i cs s ec w))).
Proof.
  intros Hok Hi Hs. destruct (request_ok _ _ _ Hok Hi) as [Hc _]. unfold called_ok in Hc. cbn in Hc.
  destruct (recycles_used _ _ _ _ Hs) as (Hu & _). pose proof (idle_recycles _ _ _ _ Hs) as Hm.
  eapply (pool_ok_update w _ i _ _ []); [done|exact Hi|done|by rewrite app_nil_r|done|apply Hok|..].
  - cbn -[slot_handles]. unfold request_handles. cbn -[slot_handles]. rewrite Hm. aac_reflexivity.
  - cbn. lia.
  - unfold called_ok. cbn. rewrite length_app. cbn. lia.
  - done.
Qed.

Lemma pool_ok_close i cs c w :
  pool_ok w -> requests w !! i = Some (mk_request (holding c) cs) -> pool_ok (user_closes i cs c w).
Proof.
  intros Hok Hi. destruct (request_ok _ _ _ Hok Hi) as [Hc Hh].
  eapply (pool_ok_update w _ i _ _ []); [done|exact Hi|done|by rewrite app_nil_r|done|apply Hok|..].
  - unfold request_handles. cbn -[slot_handles close]. rewrite close_handles, native_handle_slot. cbn. aac_reflexivity.
  - cbn. lia.
  - exact Hc.
  - unfold held_ok in *. cbn in *. destruct Hh as [r ->]. by eexists.
Qed.

Lemma pool_ok_drop i cs c dropped p w :
  pool_ok w -> requests w !! i = Some (mk_request (holding c) cs) ->
  (slot_handles (rep_ c) ++ idle_handles (pool w))%list ≡ₚ (dropped ++ idle_handles p)%list ->
  pool_used (pool w) = (1 + pool_used p)%nat ->
  pool_ok (finish dropped (set_pool p (user_drops i cs w))).
Proof.
  intros Hok Hi Hm Hu. destruct (request_ok _ _ _ Hok Hi) as [Hc Hh].
  eapply (pool_ok_update w _ i _ _ []); [done|exact Hi|done|by rewrite app_nil_r|done|apply Hok|..].
  - unfold request_handles. cbn -[slot_handles]. rewrite Hm. aac_reflexivity.
  - cbn. lia.
  - exact Hc.
  - done.
Qed.

Lemma pool_step_ok w w' : step w w' -> pool_ok w -> pool_ok w'.
Proof.
  intros [t w0|i t cs ec w0 Hi He|i t cs s dropped p w0 Hi Hs|i cs s ec h m context w0 Hi Hf
    |i cs s ec dropped p w0 Hi Hs|i cs c w0 Hi|i cs c dropped p w0 Hi Hd Hs|i cs c p w0 Hi Hd Hs|l w0] Hok.
  - by apply pool_ok_get.
  - by apply pool_ok_failed.
  - by apply pool_ok_served.
  - by apply pool_ok_connected.
  - by apply pool_ok_not_connected.
  - by apply pool_ok_close.
  - apply (pool_ok_drop i cs c); [done..|by apply idle_recycles | by apply (recycles_used _ _ _ _ Hs)].
  - apply (pool_ok_drop i cs c); [done..| |by apply (wastes_used _ _ Hs)].
    unfold idle_handles. by rewrite (idle_of_perm _ _ (wastes_idle _ _ Hs)).
  - exact Hok.
Qed.

Lemma pool_reachable_ok l s w :
  pool_idle s = [] -> pool_used s = 0%nat -> rtc step (initial l s) w -> pool_ok w.
Proof.
  intros Hi Hu. apply (rtc_ind_r pool_ok); [|intros y z _ Hs; by apply pool_step_ok].
  unfold pool_ok, places, idle_handles. cbn. rewrite Hi, Hu. repeat split; try done; repeat constructor.
Qed.

Lemma pool_capacity_kept l s w :
  pool_used s = 0%nat -> rtc step (initial l s) w ->
  (pool_used (pool w) <= pool_capacity s)%nat /\ pool_capacity (pool w) = pool_capacity s.
Proof.
  intros Hu. apply (rtc_ind_r (fun w => (pool_used (pool w) <= pool_capacity s)%nat /\
    pool_capacity (pool w) = pool_capacity s)); [cbn; split; [lia|done]|].
  assert (forall i cs a w, pool (perform i cs a w) = pool w) as Hp by by intros i cs [ec [c|]|] w0.
  intros y z _ Hs [H1' H2'].
  destruct Hs as [t w0|i t cs ec w0 Hi He|i t cs sl dropped p w0 Hi Hs|i cs sl ec h m context w0 Hi Hf
    |i cs sl ec dropped p w0 Hi Hs|i cs c w0 Hi|i cs c dropped p w0 Hi Hd Hs|i cs c p w0 Hi Hd Hs|l' w0].
  3: { change (pool (finish _ ?w1)) with (pool w1). unfold pool_served. rewrite Hp. cbn.
       destruct (serves_used _ _ _ _ Hs) as (? & ? & ?). split; [lia|congruence]. }
  all: try (unfold pool_failed, source_connected; rewrite ?Hp; done).
  - cbn. destruct (recycles_used _ _ _ _ Hs). split; [lia|congruence].
  - cbn. destruct (recycles_used _ _ _ _ Hs). split; [lia|congruence].
  - cbn. destruct (wastes_used _ _ Hs). split; [lia|congruence].
Qed.

(** C16. However requests for a pool of connections interleave, a connection is never
    used by two at once: the handle of libpq that a user holds is in no other
    request, not idle in the pool and not finished; every handle the source gave is in
    exactly one of these places, so that none is lost or finished twice.  No more
    slots are out than the pool has, and the handler of a request is called exactly
    once, when it leaves the pool. *)
Theorem pool_connections_exclusive l s w :
  pool_idle s = [] -> pool_used s = 0%nat -> rtc step (initial l s) w ->
  (forall i j c c' cs cs' h, i <> j ->
     requests w !! i = Some (mk_request (holding c) cs) ->
     requests w !! j = Some (mk_request (holding c') cs') ->
     native_handle c = Some h -> native_handle c' <> Some h) /\
  (forall i c cs h, requests w !! i = Some (mk_request (holding c) cs) -> native_handle c = Some h ->
     (h ∉ idle_handles (pool w)) /\ (h ∉ finished w)) /\
  (started w ≡ₚ (requests w ≫= request_handles) ++ idle_handles (pool w) ++ finished w)%list /\
  (slots_out (requests w) <= pool_capacity s)%nat /\
  (forall i r, requests w !! i = Some r ->
     List.length (called r) = match at_ r with queued _ | connecting _ => 0 | _ => 1 end%nat).
Proof.
  intros Hi Hu Hr. pose proof (pool_reachable_ok l s w Hi Hu Hr) as (Hp & Hn & Ho & Hc & _).
  pose proof (pool_capacity_kept l s w Hu Hr) as [Hcap _]. rewrite Hp in Hn. unfold places in Hn.
  assert (forall i c cs h, requests w !! i = Some (mk_request (holding c) cs) -> native_handle c = Some h ->
    h ∈ request_handles (mk_request (holding c) cs)) as Hin.
  { intros i c cs h _ Hh. unfold request_handles. cbn -[slot_handles]. rewrite native_handle_slot, Hh.
    by apply list_elem_of_singleton. }
  split_and!; [| |done|lia|].
  - intros i j c c' cs cs' h Hij Hi' Hj' Hh Hh'. apply NoDup_app in Hn as (Hn & _ & _).
    apply Hij. eapply (bind_NoDup_lookup request_handles); eauto.
  - intros i c cs h Hi' Hh. apply NoDup_app in Hn as (_ & Hx & _). specialize (Hx h).
    rewrite elem_of_app in Hx. apply Decidable.not_or, Hx. apply list_elem_of_bind.
    exists (mk_request (holding c) cs). split; [by eapply Hin|]. by eapply list_elem_of_lookup_2.
  - intros i r Hr'. exact (Forall_lookup_1 _ _ _ _ Hc Hr').
Qed.

End Machine.

(** ** A pool that keeps its values in a list *)

Record list_pool {Rep : Type} := mk_list_pool { capacity : nat; idle : list Rep; used : nat }.
Arguments list_pool : clear implicits.
Arguments mk_list_pool {Rep} capacity idle used.

Inductive list_pool_serves {Rep} : list_pool Rep -> option Rep -> list Rep -> list_pool Rep -> Prop :=
| serve_idle c r rs u : (u < c)%nat ->
    list_pool_serves (mk_list_pool c (r :: rs) u) (Some r) [] (mk_list_pool c rs (1 + u))
| serve_empty c rs u : (u < c)%nat ->
    list_pool_serves (mk_list_pool c rs u) None [] (mk_list_pool c rs (1 + u))
| serve_expired c r rs u : (u < c)%nat ->
    list_pool_serves (mk_list_pool c (r :: rs) u) None [r] (mk_list_pool c rs (1 + u)).

#[export] Instance list_pool_ops {Rep} : ResourcePool (list_pool Rep) Rep := {
  pool_idle := idle;
  pool_used := used;
  pool_capacity := capacity;
  pool_serves := list_pool_serves;
  pool_recycles s slot dropped s' :=
    exists c u, capacity s = c /\ used s = (1 + u)%nat /\ dropped = [] /\
      s' = mk_list_pool c (option_list slot ++ idle s)%list u;
  pool_wastes s s' :=
    exists u, used s = (1 + u)%nat /\ s' = mk_list_pool (capacity s) (idle s) u;
}.

#[export] Instance list_pool_laws {Rep} : ResourcePoolLaws (list_pool Rep) Rep.
Proof.
  split.
  - by intros s slot dropped s' [c r rs u Hu|c rs u Hu|c r rs u Hu].
  - intros s slot dropped s' [c r rs u Hu|c rs u Hu|c r rs u Hu]; cbn; split_and!; done || lia.
  - by intros s slot dropped s' (c & u & _ & _ & -> & ->).
  - by intros s slot dropped s' (c & u & <- & Hu & _ & ->).
  - by intros s s' (u & _ & ->).
  - by intros s s' (u & Hu & ->).
Qed.

(** Two users of a pool of two slots, the second of which gets the connection the
    first has given back. *)
Lemma pool_connections_exclusive_witness :
  let s := @mk_list_pool (@connection_rep nat) 2 [] 0 in
  let conn := create_pooled_connection tt (Some (mk_connection_rep (Some 7%nat) [] "")) in
  exists w, rtc step (initial tt s) w /\
    requests w = [mk_request over [no_error]; mk_request (holding conn) [no_error]] /\
    (forall i c cs h, requests w !! i = Some (mk_request (holding c) cs) -> native_handle c = Some h ->
       (h ∉ idle_handles (pool w)) /\ (h ∉ finished w)) /\
    (slots_out (requests w) <= 2)%nat.
Proof.
  intros s conn.
  assert (exists w, rtc step (initial tt s) w /\
    requests w = [mk_request over [no_error]; mk_request (holding conn) [no_error]]) as (w & Hr & Hw).
  { eexists. split.
    - eapply rtc_l; [apply (step_get no_constraint)|]. eapply rtc_l; [apply (step_get no_constraint)|].
      eapply rtc_l; [apply (step_served 0 no_constraint [] None); [done | apply (serve_empty 2 [] 0); lia]|].
      eapply rtc_l; [apply (step_connected 0 [] None no_error (Some 7%nat) [] "");
        [done | intros x _ Hx; by apply not_elem_of_nil in Hx]|].
      eapply rtc_l; [apply (step_recycle 0 [no_error] conn []); [done | done | by eexists _, _]|].
      eapply rtc_l; [apply (step_served 1 no_constraint [] (rep_ conn)); [done | apply (serve_idle 2 (mk_connection_rep (Some 7%nat) [] "") [] 0); lia]|].
      apply rtc_refl.
    - done. }
  exists w. destruct (pool_connections_exclusive tt s w ltac:(done) ltac:(done) Hr) as (_ & H2 & _ & H4 & _).
  done.
Defined.

End PoolMachine.
