(* ===== verification/Handles.v ===== *)
(** Connections as the user holds them: the free functions of
    [src/include/bozo/connection.h] and [src/include/bozo/impl/connection.h], the
    nullable wrappers of [src/include/bozo/core/nullable.h], [unwrap.h] and
    [recursive.h], and the class [transaction] of [src/include/bozo/transaction.h].

    A user has a connection itself, a pointer to one, which may be null, or a
    transaction around either.  Connections live in a store, so that two pointers may
    share one.  [None] is the dereference of a null pointer. *)

From S2P Require Import Prelude ErrorCode Errors QueryBuilder Connection ConnectionPool.
From Stdlib Require Import ZArith Lia List String Ascii.
From stdpp Require Import base tactics list gmap strings.

Open Scope Z_scope.

Module Handles.

Import Connection.

(** What a [Connection] of the library is made of: a connection, a pointer to a
    [Connection] and the class [transaction]. *)
Inductive handle : Type :=
| object (id : nat)
| null_pointer
| pointer (h : handle)
| transaction (impl_ : handle) (options_ : QueryBuilder.transaction_options).

(** [unwrap]: only pointers have something to unwrap. *)
Definition unwrap (h : handle) : option handle :=
  match h with null_pointer => None | pointer h => Some h | h => Some h end.

Fixpoint unwrap_recursive (h : handle) : option handle :=
  match h with null_pointer => None | pointer h => unwrap_recursive h | h => Some h end.

(** [is_null]; that of a transaction is [is_null] of the connection in it. *)
Fixpoint is_null (h : handle) : bool :=
  match h with
  | null_pointer => true
  | object _ | pointer _ => false
  | transaction impl_ _ => is_null impl_
  end.

Fixpoint is_null_recursive (h : handle) : bool :=
  match h with
  | null_pointer => true
  | pointer h => is_null_recursive h
  | h => is_null h
  end.

(** [transaction::lowest_layer] and [unwrap_connection]. *)
Definition unwrap_connection (h : handle) : option handle :=
  match h with transaction impl_ _ => unwrap impl_ | h => unwrap_recursive h end.

(** The connection whose member a member of [h] calls: those of a transaction call
    the members of its lowest layer, and pointers have none. *)
Fixpoint member_of (h : handle) : option nat :=
  match h with
  | object id => Some id
  | transaction (pointer h) _ => member_of h
  | transaction null_pointer _ => None
  | transaction h _ => member_of h
  | _ => None
  end.

Definition target (h : handle) : option nat := unwrap_connection h ≫= member_of.

Definition release_connection (h : handle) : option handle :=
  match h with transaction impl_ _ => Some impl_ | _ => None end.

(** What the sources of the library give, and the transactions made of it. *)
Inductive provided : handle -> Prop :=
| provided_object id : provided (object id)
| provided_null : provided null_pointer
| provided_pointer id : provided (pointer (object id))
| provided_transaction h o : provided h -> provided (transaction h o).

Section Functions.
Context {L H : Type} `{LibPQConnect L H} `{LibPQTransaction L H}.
(** [PQerrorMessage]. *)
Context (PQerrorMessage : L -> option H -> string).

Record store := mk_store {
  st_lib : L;
  st_objects : gmap nat (@connection H);
  st_log : list (@event H);
}.

(** A member of the connection [id]. *)
Definition world_of (st : store) (c : connection) : world := mk_world (st_lib st) c (st_log st).
Definition with_world (id : nat) (st : store) (w : world) : store :=
  mk_store (lib w) (<[id := conn w]> (st_objects st)) (log w).

Definition get_object (st : store) (h : handle) : option (nat * connection) :=
  id ← target h; c ← st_objects st !! id; Some (id, c).

Definition get_native_handle (st : store) (h : handle) : option (option H) :=
  '(_, c) ← get_object st h; Some (handle_ c).

Definition connection_bad (st : store) (h : handle) : option bool :=
  if is_null_recursive h then Some true else
  '(_, c) ← get_object st h; Some (is_bad (world_of st c)).

Definition connection_good (st : store) (h : handle) : option bool := negb <$> connection_bad st h.

Definition get_error_context (st : store) (h : handle) : option string :=
  '(_, c) ← get_object st h; Some (error_context_ c).

(** [detail::connection_error_message]. *)
Definition connection_error_message (l : L) (h : option H) : string :=
  string_of_list_ascii (trim_end " " (list_ascii_of_string (PQerrorMessage l h))).

Definition error_message (st : store) (h : handle) : option string :=
  if is_null_recursive h then Some ""%string else
  h ← get_native_handle st h; Some (connection_error_message (st_lib st) h).

Definition close_connection (h : handle) (st : store) : option (error_code * store) :=
  '(id, c) ← get_object st h;
  let '(ec, w) := close (world_of st c) in Some (ec, with_world id st w).

(** [defer_close_connection], when the guard is destroyed. *)
Definition do_close (h : handle) (st : store) : option store :=
  if is_null_recursive h then Some st else snd <$> close_connection h st.

(** [forward_connection]: a [Connection] that is used as a provider is given to the
    handler with its error context reset. *)
Definition forward_connection (h : handle) (st : store) : option (error_code * handle * store) :=
  '(id, c) ← get_object st h;
  Some (no_error, h, with_world id st (set_error_context "" (world_of st c))).

(** [get_transaction_status]. *)
Definition get_transaction_status (st : store) (h : handle) : option ConnectionPool.transaction_status :=
  if is_null h then Some ConnectionPool.ts_unknown else
  h ← get_native_handle st h; Some (ConnectionPool.get_transaction_status (st_lib st) h).

(** The strings libpq has of a connection, null for none. *)
Context (PQdb PQhost PQport PQuser PQpass : L -> option H -> option string).

Definition make_string_view (src : option string) : string := default ""%string src.

Definition get_database (st : store) (h : handle) : option string :=
  n ← get_native_handle st h; Some (make_string_view (PQdb (st_lib st) n)).
Definition get_host (st : store) (h : handle) : option string :=
  n ← get_native_handle st h; Some (make_string_view (PQhost (st_lib st) n)).
Definition get_port (st : store) (h : handle) : option string :=
  n ← get_native_handle st h; Some (make_string_view (PQport (st_lib st) n)).
Definition get_user (st : store) (h : handle) : option string :=
  n ← get_native_handle st h; Some (make_string_view (PQuser (st_lib st) n)).
Definition get_password (st : store) (h : handle) : option string :=
  n ← get_native_handle st h; Some (make_string_view (PQpass (st_lib st) n)).

(** *** [transaction] *)

(** [options] and the functions that read them. *)
Definition transaction_options_of (h : handle) : option QueryBuilder.transaction_options :=
  match h with transaction _ o => Some o | _ => None end.
Definition get_transaction_isolation_level (h : handle) : option QueryBuilder.isolation_level :=
  transaction_options_of h ≫= QueryBuilder.opt_isolation_level.
Definition get_transaction_mode (h : handle) : option QueryBuilder.transaction_mode :=
  transaction_options_of h ≫= QueryBuilder.opt_mode.
Definition get_transaction_deferrability (h : handle) : option bool :=
  transaction_options_of h ≫= QueryBuilder.opt_deferrability.

Definition transaction_is_bad (st : store) (h : handle) : option bool :=
  id ← member_of h; c ← st_objects st !! id; Some (is_bad (world_of st c)).

(** [operator bool] and [is_open]. *)
Definition transaction_bool (st : store) (h : handle) : option bool :=
  if is_null h then Some false else negb <$> transaction_is_bad st h.

Definition transaction_is_open (st : store) (h : handle) : option bool :=
  if is_null h then Some false else
  id ← member_of h; c ← st_objects st !! id; Some (is_open (world_of st c)).

(** ** Properties *)

Lemma target_transaction h o : target (transaction h o) = member_of (transaction h o).
Proof. by destruct h. Qed.

(** For what the library provides, a transaction is null when its connection is, and
    its members are those of the connection. *)
Lemma provided_is_null h : provided h -> is_null h = is_null_recursive h.
Proof. by destruct 1. Qed.

Lemma provided_target_transaction h o : provided h -> target (transaction h o) = target h.
Proof. destruct 1 as [| | |h' o' _]; try done. rewrite (target_transaction h' o'). done. Qed.

Lemma provided_target h : provided h -> is_null_recursive h = false -> is_Some (target h).
Proof.
  induction 1 as [id| |id|h o Hp IH]; intros Hn; [by eexists | done | by eexists|].
  rewrite provided_target_transaction by done. apply IH.
  by rewrite <- (provided_is_null h Hp).
Qed.

Lemma provided_null_target h : provided h -> is_null_recursive h = true -> target h = None.
Proof.
  induction 1 as [id| |id|h o Hp IH]; intros Hn; try done.
  rewrite provided_target_transaction by done. apply IH. by rewrite <- (provided_is_null h Hp).
Qed.

(** C25. Which functions on connections can be called with a null one.  For anything the
    library provides - a connection, a pointer, transactions of it - whose connections
    exist: [connection_bad], [error_message], the guard of [defer_close_connection] and
    [get_transaction_status] never dereference a null pointer; a null one is bad, has
    no message, is not closed and has an unknown status.  [get_native_handle],
    [get_error_context], [get_database], [get_host], [get_port], [get_user],
    [get_password], [close_connection] and [forward_connection] do not ask, and
    dereference a null pointer exactly if the connection is null. *)
Theorem handle_functions_safe st h :
  provided h -> (forall id, target h = Some id -> is_Some (st_objects st !! id)) ->
  (is_Some (connection_bad st h) /\ is_Some (error_message st h) /\ is_Some (do_close h st) /\
   is_Some (get_transaction_status st h)) /\
  (is_null_recursive h = true ->
   connection_bad st h = Some true /\ error_message st h = Some ""%string /\
   do_close h st = Some st /\ get_transaction_status st h = Some ConnectionPool.ts_unknown) /\
  ((get_native_handle st h = None <-> is_null_recursive h = true) /\
   (get_error_context st h = None <-> is_null_recursive h = true) /\
   (get_database st h = None <-> is_null_recursive h = true) /\
   (get_host st h = None <-> is_null_recursive h = true) /\
   (get_port st h = None <-> is_null_recursive h = true) /\
   (get_user st h = None <-> is_null_recursive h = true) /\
   (get_password st h = None <-> is_null_recursive h = true) /\
   (close_connection h st = None <-> is_null_recursive h = true) /\
   (forward_connection h st = None <-> is_null_recursive h = true)).
Proof.
  intros Hp Hlive. unfold connection_bad, error_message, do_close, get_transaction_status, get_error_context,
    get_database, get_host, get_port, get_user, get_password, close_connection, forward_connection,
    get_native_handle, get_object.
  rewrite (provided_is_null h Hp). destruct (is_null_recursive h) eqn:Hn.
  - rewrite (provided_null_target h Hp Hn). cbn. split_and!; try done; by eexists.
  - destruct (provided_target h Hp Hn) as [id Hid]. destruct (Hlive id Hid) as [c Hc].
    rewrite Hid. cbn. rewrite Hc. cbn. split_and!; try done; by eexists.
Qed.

(** A transaction is as good as the connection it was made of: the functions on
    connections give the same for both and act on the same connection, it is true
    when the connection is good, releasing it gives the connection back, and it keeps
    the options it was begun with. *)
Theorem transaction_transparent st h o :
  provided h ->
  target (transaction h o) = target h /\
  connection_bad st (transaction h o) = connection_bad st h /\
  transaction_bool st (transaction h o) = connection_good st h /\
  error_message st (transaction h o) = error_message st h /\
  get_error_context st (transaction h o) = get_error_context st h /\
  get_transaction_status st (transaction h o) = get_transaction_status st h /\
  get_database st (transaction h o) = get_database st h /\
  get_host st (transaction h o) = get_host st h /\ get_port st (transaction h o) = get_port st h /\
  get_user st (transaction h o) = get_user st h /\ get_password st (transaction h o) = get_password st h /\
  close_connection (transaction h o) st = close_connection h st /\
  release_connection (transaction h o) = Some h /\
  QueryBuilder.mk_transaction_options (get_transaction_isolation_level (transaction h o))
    (get_transaction_mode (transaction h o)) (get_transaction_deferrability (transaction h o)) = o.
Proof.
  intros Hp. pose proof (provided_target_transaction h o Hp) as Ht.
  pose proof (provided_is_null h Hp) as Hn.
  unfold transaction_bool, connection_good, connection_bad, error_message, get_error_context,
    get_transaction_status, get_database, get_host, get_port, get_user, get_password,
    close_connection, get_native_handle, get_object, transaction_is_bad.
  rewrite Ht, <- (target_transaction h o), Ht. cbn [is_null is_null_recursive]. rewrite Hn.
  repeat split; try done; [|by destruct o]. destruct (is_null_recursive h); [done|].
  destruct (target h) as [id|]; [|done]. cbn. by destruct (st_objects st !! id).
Qed.

(** C26. Closing a connection closes it for every handle that shares it and leaves all
    other connections alone; the handle of libpq is finished once, and closing
    again does nothing more. *)
Theorem close_connection_shared st st' ec h :
  close_connection h st = Some (ec, st') ->
  ec = no_error /\
  (forall h', is_null_recursive h' = false -> target h' = target h -> connection_bad st' h' = Some true) /\
  (forall h', target h' <> target h -> get_object st' h' = get_object st h') /\
  (exists c, snd <$> get_object st h = Some c /\
     st_log st' = (st_log st ++ match handle_ c with Some p => [finished p] | None => [] end)%list) /\
  close_connection h st' = Some (no_error, st').
Proof.
  unfold close_connection, get_object. destruct (target h) as [id|] eqn:Ht; [|done]. cbn.
  destruct (st_objects st !! id) as [c|] eqn:Hc; [|done]. cbn.
  intros [= <- <-]. split; [done|]. unfold connection_bad, get_object, close, release, with_world, world_of.
  cbn. split; [|split; [|split]].
  - intros h' -> ->. cbn. destruct (handle_ c); cbn; by rewrite lookup_insert_eq.
  - intros h' Hne. destruct (target h') as [id'|]; [|done]. cbn.
    rewrite lookup_insert_ne by congruence. done.
  - exists c. split; [done|]. destruct (handle_ c); cbn; [done|by rewrite app_nil_r].
  - destruct (handle_ c); cbn; rewrite lookup_insert_eq; cbn; by rewrite insert_insert_eq.
Qed.

End Functions.

(** A store with one connection that two pointers share. *)
Definition shared_store : @store unit nat :=
  mk_store tt {[ 0%nat := mk_connection (Some 7%nat) (Some 3) "" ]} [].

#[local] Instance idle_libpq : LibPQTransaction unit nat :=
  {| PQtransactionStatus _ _ := PQTRANS_IDLE |}.

Lemma handle_functions_safe_witness :
  let h := transaction (pointer (object 0)) (QueryBuilder.mk_transaction_options None None None) in
  let h0 := transaction null_pointer (QueryBuilder.mk_transaction_options None None None) in
  let message (_ : unit) (_ : option nat) := "lost  "%string in
  let host (_ : unit) (h : option nat) := (fun _ => "db"%string) <$> h in
  is_Some (connection_bad shared_store h) /\ is_Some (error_message message shared_store h) /\
  (get_host host shared_store h = None <-> is_null_recursive h = true) /\
  error_message message shared_store h0 = Some ""%string /\ (get_host host shared_store h0 = None <-> is_null_recursive h0 = true).
Proof.
  intros h h0 message host.
  destruct (handle_functions_safe message host host host host host shared_store h) as ((H1 & H2 & _) & _ & (_ & _ & _ & H3 & _)).
  - by repeat constructor.
  - intros id [= <-]. by eexists.
  - destruct (handle_functions_safe message host host host host host shared_store h0) as (_ & H4 & (_ & _ & _ & H5 & _)).
    + by repeat constructor.
    + intros id Hid. discriminate Hid.
    + destruct (H4 eq_refl) as (_ & H6 & _). split_and!; assumption.
Defined.

Lemma transaction_transparent_witness :
  let h := pointer (object 0) in
  let o := QueryBuilder.mk_transaction_options None None (Some true) in
  let message (_ : unit) (_ : option nat) := "lost  "%string in
  let host (_ : unit) (h : option nat) := (fun _ => "db"%string) <$> h in
  target (transaction h o) = target h /\
  connection_bad shared_store (transaction h o) = connection_bad shared_store h /\
  transaction_bool shared_store (transaction h o) = connection_good shared_store h /\
  error_message message shared_store (transaction h o) = error_message message shared_store h /\
  get_error_context shared_store (transaction h o) = get_error_context shared_store h /\
  get_transaction_status shared_store (transaction h o) = get_transaction_status shared_store h /\
  get_host host shared_store (transaction h o) = get_host host shared_store h /\
  close_connection (transaction h o) shared_store = close_connection h shared_store /\
  release_connection (transaction h o) = Some h /\
  get_transaction_deferrability (transaction h o) = Some true.
Proof.
  intros h o message host.
  destruct (transaction_transparent message host host host host host shared_store h o)
    as (H1 & H2 & H3 & H4 & H5 & H6 & _ & H7 & _ & _ & _ & H8 & H9 & _); [by constructor|].
  by split_and!.
Defined.

Lemma close_connection_shared_witness :
  exists st', close_connection (pointer (object 0)) shared_store = Some (no_error, st') /\
    connection_bad st' (object 0) = Some true.
Proof.
  eexists. split; [reflexivity|].
  refine (proj1 (proj2 (close_connection_shared shared_store _ no_error (pointer (object 0)) _))
    (object 0) _ _); reflexivity.
Defined.

(** A pointer to a transaction inside of a transaction hides its null connection. *)
Lemma nested_pointer_hides_null o :
  let h := transaction (pointer (transaction null_pointer o)) o in
  is_null_recursive h = false /\ connection_bad shared_store h = None.
Proof. done. Qed.

End Handles.
