(* ===== verification/Cancellation.v ===== *)
(** The cancellation of a request on the server, as a whole: [get_cancel_handle],
    [cancel], [initiate_async_cancel] and [cancel_op] of [src/include/bozo/cancel.h] and
    [src/include/bozo/impl/cancel.h].

    The handle of the cancellation is posted with the operation to the executor of
    the handle.  There the operation calls [PQcancel], frees the handle, and
    dispatches the handler to another executor.  With a time limit the handler is the
    [deadline_cancel_handler] of [Cancel], whose timer has been running since the
    start.  Steps of the two executors and of the timer interleave in any way. *)

From S2P Require Import Prelude ErrorCode Errors Cancel Connection Handles.
From Stdlib Require Import ZArith Lia List String Ascii.
From stdpp Require Import base tactics list strings gmap relations.

(** The functions of libpq: [C] is a [PGcancel*], [P] a [PGconn*]. *)
Class LibPQCancel (C P : Type) := {
  PQgetCancel : option P -> option C;
  PQcancel : option C -> list ascii -> bool * list ascii;
}.

Module Cancellation.

Import Cancel.

Section Cancellation.
Context `{Boost} {L C P : Type} `{LibPQCancel C P}.

(** [cancel_handle] is the native handle, which may be null, and an executor. *)
Definition get_cancel_handle (st : @Handles.store L P) (h : Handles.handle) : option (option C) :=
  n ← Handles.get_native_handle st h; Some (PQgetCancel n).

(** [wait_] is the context of [deadline_cancel_handler], when there is one. *)
Record cancellation := mk_cancellation {
  posted : option (option C);                      (** the operation waits for its executor *)
  dispatched : option (error_code * string);       (** the handler waits for its executor *)
  wait_ : option CancelDeadline.state;
  direct_calls : list (error_code * string);
  requests : list (option C);                      (** the calls of [PQcancel] *)
  freed : list C;                                  (** the calls of [PQfreeCancel] *)
}.

Definition user_calls (s : cancellation) : list (error_code * string) :=
  match wait_ s with Some d => CancelDeadline.calls d | None => direct_calls s end.

(** [initiate_async_cancel::operator()], with and without a time limit. *)
Definition cancel (limited : bool) (handle : option C) : cancellation :=
  mk_cancellation (Some handle) None (if limited then Some CancelDeadline.start else None) [] [] [].

(** The deleter of a [cancel_handle]. *)
Definition free_handle (handle : option C) (s : cancellation) : cancellation :=
  mk_cancellation (posted s) (dispatched s) (wait_ s) (direct_calls s) (requests s)
    (freed s ++ option_list handle)%list.

Definition outcome_of (handle : option C) : error_code * string :=
  let '(ec, msg) := dispatch_cancel (PQcancel handle) in (ec, string_of_list_ascii msg).

(** [cancel_op::operator()]: [pq_cancel] takes the handle by value. *)
Definition run_cancel_op (handle : option C) (s : cancellation) : cancellation :=
  let result := outcome_of handle in
  let s := mk_cancellation None (dispatched s) (wait_ s) (direct_calls s)
             (requests s ++ [handle])%list (freed s) in
  let s := free_handle handle s in
  mk_cancellation (posted s) (Some result) (wait_ s) (direct_calls s) (requests s) (freed s).

Definition with_wait (d : CancelDeadline.state) (s : cancellation) : cancellation :=
  mk_cancellation (posted s) (dispatched s) (Some d) (direct_calls s) (requests s) (freed s).
Definition handled (s : cancellation) : cancellation :=
  mk_cancellation (posted s) None (wait_ s) (direct_calls s) (requests s) (freed s).

(** The handler without a time limit is the user's. *)
Definition call_directly (result : error_code * string) (s : cancellation) : cancellation :=
  mk_cancellation (posted s) None (wait_ s) (direct_calls s ++ [result])%list (requests s) (freed s).

Inductive step : cancellation -> cancellation -> Prop :=
| step_op handle s : posted s = Some handle -> step s (run_cancel_op handle s)
| step_direct result s : dispatched s = Some result -> wait_ s = None -> step s (call_directly result s)
| step_decrement result d s : dispatched s = Some result -> wait_ s = Some d ->
    CancelDeadline.operation d = waiting ->
    step s (with_wait (CancelDeadline.operation_decrement d) s)
| step_call ec msg d s : dispatched s = Some (ec, msg) -> wait_ s = Some d ->
    CancelDeadline.decremented (CancelDeadline.operation d) = true ->
    step s (handled (with_wait (CancelDeadline.operation_call ec msg d) s))
| step_timer d s : wait_ s = Some d -> CancelDeadline.timer d = waiting ->
    step s (with_wait (CancelDeadline.timer_decrement d) s)
| step_timer_call d s : wait_ s = Some d ->
    CancelDeadline.decremented (CancelDeadline.timer d) = true ->
    step s (with_wait (CancelDeadline.timer_call d) s).

(** ** The abstract cancellation: the race of an outcome with a timer *)

(** Where the operation is: [queued] in its executor, its handler dispatched, done. *)
Definition operation_ok (handle : option C) (s : cancellation) : Prop :=
  (posted s = Some handle /\ dispatched s = None /\ requests s = [] /\ freed s = []) \/
  (posted s = None /\ requests s = [handle] /\ freed s = option_list handle /\
   (dispatched s = None \/ dispatched s = Some (outcome_of handle))).

(** The operation has not begun to call the handler until it is dispatched, and is
    done with it when it no longer is. *)
Definition wait_ok (handle : option C) (s : cancellation) (d : CancelDeadline.state) : Prop :=
  match posted s, dispatched s with
  | Some _, _ => CancelDeadline.operation d = waiting
  | None, Some _ => IoDeadline.finished (CancelDeadline.operation d) = false
  | None, None => IoDeadline.finished (CancelDeadline.operation d) = true
  end.

(** What is reached is reached by the race of [CancelDeadline]. *)
Definition refines (limited : bool) (handle : option C) (s : cancellation) : Prop :=
  operation_ok handle s /\
  match wait_ s with
  | Some d => limited = true /\ direct_calls s = [] /\ wait_ok handle s d /\
      rtc (CancelDeadline.step (fst (outcome_of handle)) (snd (outcome_of handle))) CancelDeadline.start d
  | None => limited = false /\
      direct_calls s = match posted s, dispatched s with None, None => [outcome_of handle] | _, _ => [] end
  end.

Lemma refines_start limited handle : refines limited handle (cancel limited handle).
Proof.
  split; [by left|]. destruct limited; cbn; [|done]. repeat split. apply rtc_refl.
Qed.

Lemma refines_step limited handle s s' :
  step s s' -> refines limited handle s -> refines limited handle s'.
Proof.
  intros Hs [Ho Hd]. unfold wait_ok in Hd.
  destruct Hs as [handle' s Hp|result s Hr Hw|result d s Hr Hw Hq|ec msg d s Hr Hw Hq|d s Hw Hq|d s Hw Hq].
  - destruct Ho as [(Hp' & Hr & Hq & Hf)|(Hp' & _)]; [|congruence]. rewrite Hp in Hp'. simplify_eq.
    rewrite Hp in Hd. split.
    + right. cbn. rewrite Hq, Hf. by repeat split; right.
    + cbn. destruct (wait_ s) as [d|]; [|done]. destruct Hd as (? & ? & Hw & ?).
      unfold wait_ok. cbn. by rewrite Hw.
  - destruct Ho as [(_ & Hr' & _)|(Hp & Hq & Hf & Hr')]; [congruence|].
    rewrite Hw, Hp, Hr in Hd. split; [by right; repeat split; [..|left]|]. cbn. rewrite Hw, Hp.
    destruct Hd as (? & ->). destruct Hr' as [Hr'|Hr']; [congruence|]. rewrite Hr in Hr'. by simplify_eq.
  - destruct Ho as [(_ & Hr' & _)|(Hp & Hq' & Hf & Hr')]; [congruence|].
    rewrite Hw, Hp, Hr in Hd. destruct Hd as (Hl & Hc & Hn & Hd). split; [right; by repeat split|].
    cbn. unfold wait_ok. cbn. rewrite Hp, Hr. repeat split; [done..| |].
    + unfold CancelDeadline.operation_decrement, decrement. by destruct (_ =? 0)%Z.
    + eapply rtc_r; [exact Hd|]. by constructor.
  - destruct Ho as [(_ & Hr' & _)|(Hp & Hq' & Hf & Hr')]; [congruence|].
    rewrite Hw, Hp, Hr in Hd. destruct Hd as (Hl & Hc & Hn & Hd).
    destruct Hr' as [Hr'|Hr']; [congruence|]. rewrite Hr in Hr'. simplify_eq.
    split; [by right; repeat split; [..|left]|]. cbn. unfold wait_ok. cbn. rewrite Hp, <- Hr' in *.
    repeat split; [done..| |].
    + unfold CancelDeadline.operation_call. by destruct (CancelDeadline.operation d).
    + eapply rtc_r; [exact Hd|]. by constructor.
  - split; [exact Ho|]. rewrite Hw in Hd. cbn. destruct Hd as (Hl & Hc & Hn & Hd).
    repeat split; [done..| |eapply rtc_r; [exact Hd|]; by constructor].
    unfold wait_ok, CancelDeadline.timer_decrement, decrement. exact Hn.
  - split; [exact Ho|]. rewrite Hw in Hd. cbn. destruct Hd as (Hl & Hc & Hn & Hd).
    repeat split; [done..| |eapply rtc_r; [exact Hd|]; by constructor].
    unfold wait_ok, CancelDeadline.timer_call in *. cbn. by destruct (CancelDeadline.timer d).
Qed.

Lemma refines_reachable limited handle s : rtc step (cancel limited handle) s -> refines limited handle s.
Proof.
  apply (rtc_ind_r (refines limited handle)); [apply refines_start|]. intros y z _ Hs. by apply refines_step.
Qed.
(** ** The cancellation ends *)

Definition steps_of (p : progress) : nat :=
  match p with waiting => 2 | first | second => 1 | _ => 0 end.

Definition steps_left (s : cancellation) : nat :=
  (match posted s with Some _ => 2 | None => 0 end + match dispatched s with Some _ => 1 | None => 0 end +
   match wait_ s with
   | Some d => match CancelDeadline.operation d with waiting => 1 | _ => 0 end +
       steps_of (CancelDeadline.timer d)
   | None => 0
   end)%nat.

Lemma steps_left_step s s' : step s s' -> (steps_left s' < steps_left s)%nat.
Proof.
  unfold steps_left. intros [handle' t Hp|result t Hr Hw|result d t Hr Hw Hq|ec msg d t Hr Hw Hq|d t Hw Hq|d t Hw Hq];
    cbn.
  - rewrite Hp. destruct (dispatched t); lia.
  - rewrite Hr. lia.
  - rewrite Hw, Hq. unfold CancelDeadline.operation_decrement, decrement. destruct (_ =? 0)%Z; cbn; lia.
  - rewrite Hr, Hw. unfold CancelDeadline.operation_call. destruct (CancelDeadline.operation d); cbn; done || lia.
  - rewrite Hw, Hq. unfold CancelDeadline.timer_decrement, decrement. destruct (_ =? 0)%Z; cbn; lia.
  - rewrite Hw. unfold CancelDeadline.timer_call. destruct (CancelDeadline.timer d); cbn; done || lia.
Qed.

Lemma cancellation_steps limited handle s n :
  nsteps step n (cancel limited handle) s -> (n <= if limited then 5 else 2)%nat.
Proof.
  assert (forall n s s', nsteps step n s s' -> (n + steps_left s' <= steps_left s)%nat) as Hn.
  { induction 1 as [|m' x y z Hs _ IH]; [lia|]. apply steps_left_step in Hs. lia. }
  intros Hs%Hn. unfold steps_left in Hs at 2. destruct limited; cbn in Hs; lia.
Qed.

(** The two ends of the operation and the timer that something waits for. *)
Lemma cancellation_progress limited handle s :
  refines limited handle s ->
  (exists s', step s s') \/ (posted s = None /\ dispatched s = None /\
    forall d, wait_ s = Some d -> IoDeadline.finished (CancelDeadline.operation d) = true /\
      IoDeadline.finished (CancelDeadline.timer d) = true).
Proof.
  intros [Ho Hd]. destruct (posted s) as [h|] eqn:Hp; [left; eexists; by apply (step_op h)|].
  unfold wait_ok in Hd. rewrite Hp in Hd.
  destruct (dispatched s) as [[ec msg]|] eqn:Hr; destruct (wait_ s) as [d|] eqn:Hw.
  - left. destruct Hd as (_ & _ & Hf & _).
    destruct (CancelDeadline.operation d) eqn:Hq; [|eexists; apply (step_call ec msg d); [done..|]; by rewrite Hq..|done|done].
    eexists. by apply (step_decrement (ec, msg) d).
  - left. eexists. by apply (step_direct (ec, msg)).
  - destruct Hd as (_ & _ & Hf & _). destruct (CancelDeadline.timer d) eqn:Ht.
    + left. eexists. by apply (step_timer d).
    + left. eexists. apply (step_timer_call d); [done|]. by rewrite Ht.
    + left. eexists. apply (step_timer_call d); [done|]. by rewrite Ht.
    + right. split; [done|]. split; [done|]. intros d' [= <-]. by rewrite Ht.
    + right. split; [done|]. split; [done|]. intros d' [= <-]. by rewrite Ht.
  - right. by repeat split.
Qed.

(** C18. A cancellation asks the server at most once, with the handle it was given,
    and frees this handle once, right after; its handler is called at most once, with
    the outcome of [PQcancel], or with the time-out if there is a time limit.  It
    ends after at most five steps, and when no step is left the server was asked,
    whether the time was up or not, and the handler was called. *)
Theorem cancellation_calls_once limited handle s n :
  nsteps step n (cancel limited handle) s ->
  (user_calls s = [] \/ user_calls s = [outcome_of handle] \/
   limited = true /\ user_calls s = [(make_asio_error timed_out, CancelDeadline.time_out_message)]) /\
  ((requests s = [] /\ freed s = []) \/ (requests s = [handle] /\ freed s = option_list handle)) /\
  (n <= if limited then 5 else 2)%nat /\
  ((exists s', step s s') \/ (user_calls s <> [] /\ requests s = [handle])).
Proof.
  intros Hn. pose proof (cancellation_steps _ _ _ _ Hn) as Hle.
  pose proof (refines_reachable _ _ _ (rtc_nsteps_2 _ _ _ Hn)) as Hr.
  pose proof (cancellation_progress _ _ _ Hr) as Hp. destruct Hr as [Ho Hd].
  split_and!; [| |done|].
  - unfold user_calls. destruct (wait_ s) as [d|].
    + destruct Hd as (Hl & _ & _ & Hd). apply CancelDeadline.cancel_deadline_calls_once in Hd as [Hd _].
      destruct (outcome_of handle) as [ec msg]. cbn in Hd. destruct Hd as [->|[->| ->]]; auto.
    + destruct Hd as (_ & ->). destruct (posted s), (dispatched s); auto.
  - destruct Ho as [(_ & _ & -> & ->)|(_ & -> & -> & _)]; auto.
  - destruct Hp as [Hp|(Hp & Hq & Hf)]; [by left|right]. rewrite Hp, Hq in Hd.
    split; [|by destruct Ho as [(? & _)|(_ & ? & _)]; [congruence|]]. unfold user_calls.
    destruct (wait_ s) as [d|]; [|by destruct Hd as (_ & ->)].
    destruct Hd as (_ & _ & _ & Hd). apply CancelDeadline.cancel_deadline_calls_once in Hd as [_ Hd].
    by destruct (Hf d eq_refl); apply Hd.
Qed.

(** The handle of a null connection, which [connection_bad] counts as bad, is asked
    of a null pointer. *)
Lemma cancel_handle_of_null st : get_cancel_handle st Handles.null_pointer = None.
Proof. done. Qed.

End Cancellation.

(** A server that refuses the cancellation. *)
#[export] Instance refusing_libpq : LibPQCancel nat nat := {
  PQgetCancel h := h;
  PQcancel _ buffer := (false, ["n"%char; "o"%char] ++ drop 2 buffer)%list;
}.

#[local] Existing Instance linux_boost.

Lemma cancellation_calls_once_witness :
  let s := call_directly (outcome_of (Some 7)) (run_cancel_op (Some 7) (cancel false (Some 7))) in
  outcome_of (Some 7) = (error.make_error_code error.pq_cancel_failed, "no"%string) /\
  (user_calls s = [] \/ user_calls s = [outcome_of (Some 7)] \/
   false = true /\ user_calls s = [(make_asio_error timed_out, CancelDeadline.time_out_message)]) /\
  ((requests s = [] /\ freed s = []) \/ (requests s = [Some 7] /\ freed s = option_list (Some 7))) /\
  (2 <= if false then 5 else 2) /\
  ((exists s', step s s') \/ (user_calls s <> [] /\ requests s = [Some 7])).
Proof.
  intros s. split; [reflexivity|]. apply (cancellation_calls_once false (Some 7) s 2).
  eapply nsteps_l; [by apply (step_op (Some 7))|].
  eapply nsteps_l; [by apply (step_direct (outcome_of (Some 7)))|]. apply nsteps_O.
Defined.

End Cancellation.
