(* ===== verification/Transaction.v ===== *)
(** Transactions: [begin], [commit] and [rollback] of
    [src/include/bozo/transaction.h] with the operations of
    [src/include/bozo/impl/transaction.h], on top of [async_execute] of
    [src/include/bozo/impl/async_execute.h].

    A transaction is begun by executing a [BEGIN] statement and wrapping the
    connection, and ended by executing [COMMIT] or [ROLLBACK] and unwrapping it.  The
    executions are runs of the machine of [TimedRequest], on a libpq that records
    the queries it accepts. *)

From S2P Require Import Prelude ErrorCode Errors Endian TypeSystem BinaryQuery QueryBuilder Deadline.
From S2P Require Import Cancel AsyncRequest RequestRuns TimedOperation TimedRequest Connection ConnectionPool Handles.
From Stdlib Require Import ZArith Lia List String.
From stdpp Require Import base tactics list relations.

Module Transaction.

Import Cancel AsyncRequest RequestRuns TimedOperation TimedRequest.

(** ** The queries a request sends *)

Section Recording.
Context `{Boost} {L R : Type} `{LibPQ L R} `{!LibPQLaws L R}.

(** libpq with the queries it has accepted. *)
#[export] Instance recording : LibPQ (L * list BinaryQuery.binary_query) R := {
  PQsetnonblocking l := let '(ok, l') := PQsetnonblocking (fst l) in (ok, (l', snd l));
  PQsendQueryParams q l :=
    let '(ok, l') := PQsendQueryParams q (fst l) in
    (ok, (l', if ok then snd l ++ [q] else snd l)%list);
  PQflush l := let '(q, l') := PQflush (fst l) in (q, (l', snd l));
  PQconsumeInput l := let '(ok, l') := PQconsumeInput (fst l) in (ok, (l', snd l));
  PQisBusy l := PQisBusy (fst l);
  PQgetResult l := let '(r, l') := PQgetResult (fst l) in (r, (l', snd l));
  PQresultStatus := PQresultStatus;
  PQresultErrorField := PQresultErrorField;
  results_ready l := results_ready (fst l);
}.

#[export] Instance recording_laws : LibPQLaws (L * list BinaryQuery.binary_query) R.
Proof.
  split. intros [l qs] r [l' qs'] Hg. cbn in *. destruct (PQgetResult l) as [r' l1] eqn:Hr.
  simplify_eq. by apply PQgetResult_decreases in Hr.
Qed.

Context (process : R -> option string).

Definition sent (r : @request (L * list BinaryQuery.binary_query) R) : list BinaryQuery.binary_query :=
  snd (lib r).

Lemma sent_send_resume ec r : sent (send_resume ec r) = sent r.
Proof.
  apply send_resume_unchanged. intros [l qs] q l' Hf. cbn in Hf. destruct (PQflush l). by simplify_eq.
Qed.

Lemma sent_get_resume ec r : sent (get_resume process ec r) = sent r.
Proof.
  apply get_resume_unchanged; intros [l qs] q l' Hf; cbn in Hf;
    [destruct (PQconsumeInput l) | destruct (PQgetResult l)]; by simplify_eq.
Qed.

(** A request sends its query when it starts, or fails. *)
Lemma start_sent q l before :
  let r := get_resume process no_error (send_perform q (initial (l, before))) in
  sent r = (before ++ [q])%list \/
  (sent r = before /\ exists e, handler_calls r = [e] /\ is_error e = true).
Proof.
  cbn zeta. rewrite sent_get_resume. unfold send_perform. cbn.
  destruct (PQsetnonblocking l) as [[|] l1]; cbn.
  - destruct (PQsendQueryParams q l1) as [[|] l2]; cbn.
    + left. by rewrite sent_send_resume.
    + right. split; [done|]. eexists. by split; [reflexivity|].
  - right. split; [done|]. eexists. by split; [reflexivity|].
Qed.

Lemma request_step_sent m m' :
  request_step process m m' ->
  sent (op m') = sent (op m) /\ handler_calls (op m) `prefix_of` handler_calls (op m').
Proof.
  destruct 1 as [k ec m _|m _|e q m _ _]; [done..|]. destruct e as [k ec|]; cbn [run_event].
  - rewrite advance_op. destruct k; cbn.
    + rewrite sent_get_resume. split; [done|].
      apply (get_resume_calls process ec (set_read_wait false (op m))).
    + rewrite sent_send_resume. split; [done|].
      apply (send_resume_calls ec (set_write_wait false (op m))).
  - unfold run_timer. cbn. destruct (deadline_ m); [|done].
    by destruct (IoDeadline.stream_cancelled _).
Qed.

(** The queries sent and the calls made from a state on. *)
Lemma request_steps_sent m m' :
  rtc (request_step process) m m' ->
  sent (op m') = sent (op m) /\ handler_calls (op m) `prefix_of` handler_calls (op m').
Proof.
  induction 1 as [m|m1 m2 m3 Hs _ (IH1 & IH2)]; [done|].
  destruct (request_step_sent _ _ Hs) as (H1 & H2). split; [congruence | by etransitivity].
Qed.

(** A request sends its query at most once, and exactly once if the user's handler
    is called without an error; it sends nothing else. *)
Lemma request_sent constrained q ec0 l before m :
  is_error (make_asio_error timed_out) = true ->
  rtc (request_step process) (async_request_op process constrained q ec0 (l, before)) m ->
  (sent (op m) = before \/ sent (op m) = (before ++ [q])%list) /\
  (user_calls m = [no_error] -> sent (op m) = (before ++ [q])%list).
Proof.
  intros Hto Hr. pose proof Hr as Hr0. apply request_steps_sent in Hr as [Hs Hp]. revert Hs Hp.
  destruct (is_error ec0) eqn:He.
  - destruct (async_request_op_error process _ _ _ _ _ He (timed_run_any _ _ Hr0)) as [-> ->].
    unfold async_request_op. rewrite He. cbn. intros _ _. split; [by left|].
    intros [= Hec]. by rewrite Hec in He.
  - destruct (request_once process _ _ _ _ _ He Hr0) as (_ & _ & Hcalls).
    unfold async_request_op. rewrite He. unfold launch. rewrite advance_op.
    destruct (start_sent q l before) as [Hq|(Hq & e & Hh & Hee)]; intros Hs Hp; rewrite Hs, Hq;
      [by auto|]. split; [by left|]. intros Hu. exfalso. rewrite Hh in Hp.
    destruct (Hcalls no_error Hu) as (ec' & Hc & Heq).
    rewrite Hc in Hp. apply prefix_cons_inv_1 in Hp. subst.
    destruct Heq as [<-|(_ & Ht)]; [done|]. by rewrite <- Ht in Hto.
Qed.
End Recording.

(** ** [begin], [commit] and [rollback] *)

Section Session.
Context `{Boost} {L R : Type} `{LibPQ L R} `{!LibPQLaws L R}.
(** The byte order, the clock of the conversion of durations and the OID map of the
    connection, which the conversion of a query to its binary form needs. *)
Context (native : Endian.endian) (ticks : Z) (m : TypeSystem.oid_map).

Import QueryBuilder Handles Deadline.

(** [deadline(t)] is [none] or a time point. *)
Definition constrained (t : time_constraint) : bool :=
  match t with no_constraint => false | _ => true end.

(** [async_execute] with a connection the provider has given, up to the call of the
    handler: the results are dropped ([none] is the processor) and the connection is
    handed on. *)
Inductive async_execute (q : query) (t : time_constraint) :
  error_code * handle -> L * list BinaryQuery.binary_query ->
  error_code * handle -> L * list BinaryQuery.binary_query -> Prop :=
| executed bq ec0 h l w ec :
    to_binary_query native ticks m q = Some bq ->
    rtc (request_step (fun _ : R => None)) (async_request_op (fun _ => None) (constrained t) bq ec0 l) w ->
    user_calls w = [ec] ->
    async_execute q t (ec0, h) l (ec, h) (lib (op w)).

(** [async_start_transaction_op::operator()] and [begin_op]. *)
Definition start_transaction_done (options : transaction_options) (r : error_code * handle) :
  error_code * handle := (fst r, transaction (snd r) options).

Inductive begin (options : transaction_options) (t : time_constraint) :
  error_code * handle -> L * list BinaryQuery.binary_query ->
  error_code * handle -> L * list BinaryQuery.binary_query -> Prop :=
| begun provided l r l' :
    async_execute (begin_statement options) t provided l r l' ->
    begin options t provided l (start_transaction_done options r) l'.

(** [async_end_transaction_op::operator()], [commit_op] and [rollback_op]: the
    transaction itself is the provider. *)
Definition end_transaction_done (r : error_code * handle) : option (error_code * handle) :=
  h ← release_connection (snd r); Some (fst r, h).

Definition commit_statement : query := build (sql "COMMIT").
Definition rollback_statement : query := build (sql "ROLLBACK").

Inductive async_end_transaction (q : query) (t : time_constraint) (tr : handle) :
  L * list BinaryQuery.binary_query -> error_code * handle -> L * list BinaryQuery.binary_query -> Prop :=
| ended l r l' res :
    async_execute q t (no_error, tr) l r l' -> end_transaction_done r = Some res ->
    async_end_transaction q t tr l res l'.

Definition commit : time_constraint -> handle -> _ := async_end_transaction commit_statement.
Definition rollback : time_constraint -> handle -> _ := async_end_transaction rollback_statement.

(** Queries that are executed one after the other on a transaction. *)
Inductive executes (tr : handle) : list query -> L * list BinaryQuery.binary_query ->
  L * list BinaryQuery.binary_query -> Prop :=
| executes_nil l : executes tr [] l l
| executes_cons q t qs l l1 l2 :
    async_execute q t (no_error, tr) l (no_error, tr) l1 -> executes tr qs l1 l2 ->
    executes tr (q :: qs) l l2.

(** ** Properties *)

Lemma execute_sent q t provided l h l' :
  is_error (make_asio_error timed_out) = true ->
  async_execute q t provided l (no_error, h) l' ->
  h = snd provided /\ exists bq, to_binary_query native ticks m q = Some bq /\ snd l' = (snd l ++ [bq])%list.
Proof.
  intros Hto He. inversion He as [bq ec0 h' l0 w ec Hq Hr Hu]; subst. split; [done|]. exists bq.
  split; [done|]. destruct l as [l before].
  by apply (request_sent (fun _ => None) (constrained t) bq ec0 l before w Hto Hr).
Qed.

Lemma executes_sent tr qs l l' :
  is_error (make_asio_error timed_out) = true -> executes tr qs l l' ->
  exists bqs, mapM (to_binary_query native ticks m) qs = Some bqs /\ snd l' = (snd l ++ bqs)%list.
Proof.
  intros Hto. induction 1 as [l|q t qs l l1 l2 He _ (bqs & Hq & Hl)].
  - exists []. by rewrite app_nil_r.
  - apply execute_sent in He as (_ & bq & Hbq & Hl1); [|done]. exists (bq :: bqs).
    split; [cbn; by rewrite Hbq; cbn; rewrite Hq|]. rewrite Hl, Hl1. by rewrite <- app_assoc.
Qed.

Lemma begin_inv options t provided l ec tr l' :
  begin options t provided l (ec, tr) l' ->
  exists h, async_execute (begin_statement options) t provided l (ec, h) l' /\ tr = transaction h options.
Proof.
  intros Hb. remember (ec, tr) as r0 eqn:Hr. destruct Hb as [provided l [ec' h] l' He].
  exists h. unfold start_transaction_done in Hr. cbn in Hr. by injection Hr as -> ->.
Qed.

Lemma end_inv q t tr l ec h l' :
  async_end_transaction q t tr l (ec, h) l' ->
  exists tr', async_execute q t (no_error, tr) l (ec, tr') l' /\ release_connection tr' = Some h.
Proof.
  intros He. remember (ec, h) as r0 eqn:Hr. destruct He as [l [ec' tr'] l' res He Hd]. subst.
  exists tr'. unfold end_transaction_done in Hd. cbn in Hd.
  destruct (release_connection tr'); by simplify_eq/=.
Qed.

(** C9. A transaction that is begun, used and ended without an error sends its
    [BEGIN] statement with the options, the queries in their order, and [COMMIT] or
    [ROLLBACK], and nothing else; the user gets back the connection it began the
    transaction with. *)
Theorem transaction_session options t0 t1 h tr h' qs q l l1 l2 l3 :
  is_error (make_asio_error timed_out) = true ->
  begin options t0 (no_error, h) l (no_error, tr) l1 -> executes tr qs l1 l2 ->
  (q = commit_statement \/ q = rollback_statement) ->
  async_end_transaction q t1 tr l2 (no_error, h') l3 ->
  h' = h /\ tr = transaction h options /\
  exists bqs, mapM (to_binary_query native ticks m) (begin_statement options :: qs ++ [q])%list = Some bqs /\
    snd l3 = (snd l ++ bqs)%list.
Proof.
  intros Hto Hb Hq _ He.
  apply begin_inv in Hb as (hb & Hb & ->). apply execute_sent in Hb as (-> & bb & Hbb & Hl1); [|done].
  apply executes_sent in Hq as (bqs & Hbqs & Hl2); [|done].
  apply end_inv in He as (he & He & Hrel). apply execute_sent in He as (-> & be & Hbe & Hl3); [|done].
  cbn in Hrel. split; [by simplify_eq|]. split; [done|]. exists (bb :: bqs ++ [be])%list.
  split; [|rewrite Hl3, Hl2, Hl1, <- !app_assoc; done].
  apply mapM_Some. constructor; [exact Hbb|]. apply Forall2_app; [by apply mapM_Some | by repeat constructor].
Qed.
End Session.

(** A libpq that has no result to give: a request ends as soon as it is sent. *)
#[local] Existing Instance linux_boost.

Definition sample_options : QueryBuilder.transaction_options :=
  QueryBuilder.mk_transaction_options (Some QueryBuilder.serializable) None None.

Definition sample_query (text : string) : BinaryQuery.binary_query :=
  BinaryQuery.mk_binary_query text [] [] [] [] [].

Definition sample_run (q : BinaryQuery.binary_query) (before : list BinaryQuery.binary_query) :
  @timed (@request (toy * list BinaryQuery.binary_query) exec_status) :=
  @async_request_op linux_boost _ _ (@recording _ _ (toy_libpq send_finish)) (fun _ => None) false q
    no_error (taken, before).

Lemma transaction_session_witness :
  let h := Handles.pointer (Handles.object 0) in
  let begin_query := sample_query "BEGIN ISOLATION LEVEL SERIALIZABLE" in
  h = h /\ Handles.transaction h sample_options = Handles.transaction h sample_options /\
  exists bqs, mapM (QueryBuilder.to_binary_query Endian.little 0 [])
      ([QueryBuilder.begin_statement sample_options] ++ [] ++ [commit_statement])%list = Some bqs /\
    [begin_query; sample_query "COMMIT"] = ([] ++ bqs)%list.
Proof.
  intros h begin_query.
  apply (@transaction_session _ _ _ (toy_libpq send_finish) (toy_laws send_finish) Endian.little 0 []
    sample_options Deadline.no_constraint Deadline.no_constraint h (Handles.transaction h sample_options)
    h [] commit_statement (taken, []) (taken, [begin_query]) (taken, [begin_query])
    (taken, [begin_query; sample_query "COMMIT"])).
  - reflexivity.
  - apply (begun _ _ _ _ _ _ _ (no_error, h)).
    refine (executed _ _ _ _ _ begin_query no_error h (taken, []) (sample_run begin_query []) no_error _ _ _);
      [reflexivity | apply rtc_refl | reflexivity].
  - apply executes_nil.
  - by left.
  - apply (ended _ _ _ _ _ _ _ (no_error, Handles.transaction h sample_options)); [|reflexivity].
    refine (executed _ _ _ _ _ (sample_query "COMMIT") no_error _ (taken, [begin_query])
      (sample_run (sample_query "COMMIT") [begin_query]) no_error _ _ _);
      [reflexivity | apply rtc_refl | reflexivity].
Defined.

End Transaction.
