(* ===== verification/RowRequest.v ===== *)
(** A request with its rows, from the query the user builds to the container the rows
    are received into: [async_request] with [async_request_out_handler] of
    [src/include/bozo/impl/async_request.h].

    The query is converted to its binary form and sent, and the result is received by
    the functions of [Result] into the container, under the time limit of the
    request.  libpq is one that records the queries it accepts ([Transaction]). *)

From S2P Require Import Prelude ErrorCode Errors Endian Streams TypeSystem BinaryIO BinaryQuery QueryBuilder Result.
From S2P Require Import AsyncRequest RequestRuns Cancel TimedOperation TimedRequest Transaction.
From Stdlib Require Import ZArith Lia List String Strings.Byte.
From stdpp Require Import base tactics list relations.

Module RowRequest.

Import AsyncRequest TimedOperation TimedRequest Transaction.

(** ** A request that succeeds has a result *)

Section Answered.
Context `{Boost} {L R : Type} `{LibPQ L R} (process : R -> option string).
Context (Hab : is_error (make_asio_error operation_aborted) = true).

(** A call without an error is the last step, with a result that was processed or
    without any; a result is taken when the first loop ends. *)
Definition answered (r : @request L R) : Prop :=
  (no_error ∈ handler_calls r -> where_ r = at_end /\ (processed r <> [] \/ result_ r = None)) /\
  match where_ r with at_start | in_first_loop => result_ r = None | _ => True end.

Lemma error_no_error ec : is_error ec = true -> ec <> no_error.
Proof. by intros He ->. Qed.

Lemma not_called_error (r : @request L R) ec :
  ec <> no_error -> no_error ∈ (handler_calls r ++ [ec])%list -> no_error ∈ handler_calls r.
Proof. intros He [Hc|Hc%list_elem_of_singleton]%elem_of_app; [done | congruence]. Qed.

Lemma done_error_answered ec r : ec <> no_error -> answered r -> answered (done_error ec r).
Proof. intros He [H1' H2']. split; [|exact H2']. cbn. intros Hc. apply H1'. by eapply not_called_error. Qed.

Lemma get_done_error_answered ec r : ec <> no_error -> answered r -> answered (get_done_error ec r).
Proof. intros He Ha. unfold get_done_error. by destruct (String.eqb _ _); apply done_error_answered. Qed.

Lemma send_resume_answered ec r : answered r -> answered (send_resume ec r).
Proof.
  intros Ha. unfold send_resume. destruct (negb _); [done|].
  destruct (is_error ec) eqn:He; [apply done_error_answered; [by apply error_no_error|done]|].
  destruct (PQflush (lib r)) as [[] l]; [by apply done_error_answered|exact Ha|exact Ha].
Qed.

Lemma send_perform_answered q r : answered r -> answered (send_perform q r).
Proof.
  intros Ha. unfold send_perform. destruct (PQsetnonblocking (lib r)) as [[] l]; [|by apply done_error_answered].
  cbn. destruct (PQsendQueryParams q l) as [[] l']; [|by apply done_error_answered].
  by apply send_resume_answered.
Qed.

Lemma handle_result_answered r : no_error ∉ handler_calls r -> answered (handle_result process r).
Proof.
  intros Hn. unfold handle_result. cbn [result_ set_where].
  assert (answered (set_where at_end r)) as Ha by done. assert (forall e, answered (set_error_context e (set_where at_end r))) by done.
  destruct (result_ r) as [x|] eqn:Hr; [|done].
  assert (forall e, answered (get_done_error (error.make_error_code e) (set_where at_end r))) by (intros; by apply get_done_error_answered).
  assert (answered (process_and_done process x (set_where at_end r))).
  { unfold process_and_done. destruct (process x); [by apply get_done_error_answered|].
    split; [|done]. intros _. split; [done|]. left. cbn. by destruct (processed r). }
  destruct (PQresultStatus x); try done; try (by apply get_done_error_answered).
  apply get_done_error_answered; [|done]. unfold result_error. by destruct (PQresultErrorField x).
Qed.

Context `{!LibPQLaws L R}.

Lemma drain_answered fuel r :
  (results_ready (lib r) <= fuel)%nat -> no_error ∉ handler_calls r -> answered (drain process fuel r).
Proof.
  revert r. induction fuel as [|fuel IH]; intros r Hf Hn; cbn [drain];
    (destruct (PQisBusy (lib r)); [by split|]); destruct (PQgetResult (lib r)) as [[x|] l] eqn:Hg;
    try (by apply handle_result_answered); apply PQgetResult_decreases in Hg; [lia|].
  apply IH; [cbn; lia | done].
Qed.

Lemma first_loop_answered r :
  no_error ∉ handler_calls r -> result_ r = None -> answered (first_loop process r).
Proof.
  intros Hn Hr. unfold first_loop. destruct (PQisBusy (lib r)); [by split|].
  destruct (PQgetResult (lib r)) as [[x|] l].
  - destruct (bool_decide _); [by apply handle_result_answered | by apply drain_answered].
  - split; [|done]. intros _. by split; [|right].
Qed.

Lemma get_resume_answered ec r : answered r -> answered (get_resume process ec r).
Proof.
  intros Ha. unfold get_resume. destruct (bool_decide (state r = qs_error)); [done|].
  destruct (is_error ec) eqn:He.
  { apply get_done_error_answered; [|done]. apply error_no_error. by destruct (bool_decide _). }
  destruct Ha as [H1' H2']. destruct (where_ r) eqn:Hw; [| | |by split; rewrite ?Hw].
  - apply first_loop_answered; [|done]. intros Hc. by destruct (H1' Hc).
  - destruct (PQconsumeInput (lib r)) as [[] l]; cbn [negb].
    + apply first_loop_answered; [|done]. intros Hc. by destruct (H1' Hc).
    + apply get_done_error_answered; [done|]. split; [|done]. intros Hc. by destruct (H1' Hc).
  - destruct (PQconsumeInput (lib r)) as [[] l]; cbn [negb].
    + apply drain_answered; [done|]. intros Hc. by destruct (H1' Hc).
    + apply handle_result_answered. intros Hc. by destruct (H1' Hc).
Qed.

Lemma steps_answered constrained q l w :
  rtc (request_step process) (async_request_op process constrained q no_error l) w -> answered (op w).
Proof.
  apply (rtc_ind_r (fun w => answered (op w))).
  - unfold async_request_op, launch. cbn [is_error no_error]. cbn -[advance get_resume send_perform].
    rewrite advance_op. apply get_resume_answered, send_perform_answered. split; [|done].
    intros Hc. by apply not_elem_of_nil in Hc.
  - intros y z _ [k ec w0 _|w0 _|e q' w0 _ _] Ha; [exact Ha..|]. destruct e as [k ec|]; cbn [run_event].
    + rewrite advance_op. destruct k; [by apply get_resume_answered | by apply send_resume_answered].
    + unfold run_timer. cbn. destruct (deadline_ w0); [|exact Ha].
      by destruct (Cancel.IoDeadline.stream_cancelled _).
Qed.
End Answered.

Section Rows.
Context `{Boost} {L R : Type} `{LibPQ L R} `{!LibPQLaws L R} `{PGresult_laws R}.
Context (native : Endian.endian) (ticks : Z) (m : TypeSystem.oid_map).
(** [std::exception::what]. *)
Context (what : BinaryIO.stop -> string).
(** The type of a row and the container, through an insert iterator ([bozo::into]). *)
Context (t : Result.row_type) (before : list BinaryIO.value).

(** [async_request_out_handler::operator()]: what the container holds after the
    processor was called, and the exception it has thrown. *)
Definition out_handler (r : R) : list BinaryIO.value * outcome BinaryIO.stop unit :=
  Result.recv_result_insert native ticks m r t before.

Definition process (r : R) : option string :=
  match snd (out_handler r) with Ok _ => None | Throw e => Some (what e) end.

(** The statuses of results that are given to the processor. *)
Definition processed_status (s : exec_status) : bool :=
  match s with PGRES_SINGLE_TUPLE | PGRES_TUPLES_OK | PGRES_COMMAND_OK => true | _ => false end.

(** The container: after the result that was received, or after the one that the
    processor has thrown at, the first rows of which stay. *)
Definition rows (r : @request (L * list BinaryQuery.binary_query) R) : list BinaryIO.value :=
  match processed r with
  | x :: _ => fst (out_handler x)
  | [] =>
      match where_ r, result_ r, state r with
      | at_end, Some x, qs_error => if processed_status (PQresultStatus x) then fst (out_handler x) else before
      | _, _, _ => before
      end
  end.

(** [async_request]: [deadline(t)] is a time limit or [none]. *)
Definition async_request (constrained : bool) (q : QueryBuilder.query) (ec : error_code)
  (l : L * list BinaryQuery.binary_query) : option (@timed (@request (L * list BinaryQuery.binary_query) R)) :=
  bq ← QueryBuilder.to_binary_query native ticks m q;
  Some (async_request_op process constrained bq ec l).

Lemma insert_rows_prefix rs out : out `prefix_of` fst (Result.insert_rows (R:=R) native ticks m rs t out).
Proof.
  revert out. induction rs as [|r rs IH]; intros out; cbn; [done|].
  destruct (Result.recv_row native ticks m r t (Result.row_default t)); [|done].
  etransitivity; [|apply IH]. by apply prefix_app_r.
Qed.

Lemma processed_rows r :
  process r = None -> exists vs, fst (out_handler r) = (before ++ vs)%list /\ List.length vs = PQntuples r /\
    forall i v, vs !! i = Some v ->
      Result.recv_row native ticks m (Result.mk_coordinates r (Z.of_nat i) 0) t (Result.row_default t) = Ok v.
Proof.
  unfold process. destruct (out_handler r) as [out [[]|]] eqn:Ho; [|done]. intros _.
  by apply Result.result_appended_in_order in Ho.
Qed.

Lemma rows_prefix r : before `prefix_of` rows r.
Proof.
  unfold rows, out_handler, Result.recv_result_insert.
  destruct (processed r); [|apply insert_rows_prefix].
  destruct (where_ r), (result_ r), (state r); try done.
  destruct (processed_status _); [apply insert_rows_prefix | done].
Qed.

Lemma rows_delivered constrained q l sent0 w0 w :
  is_error (make_asio_error timed_out) = true -> is_error (make_asio_error operation_aborted) = true ->
  async_request constrained q no_error (l, sent0) = Some w0 -> rtc (request_step process) w0 w ->
  before `prefix_of` rows (op w) /\
  (user_calls w = [no_error] -> exists bq,
     QueryBuilder.to_binary_query native ticks m q = Some bq /\ sent (op w) = (sent0 ++ [bq])%list /\
     (result_ (op w) = None /\ rows (op w) = before \/ exists r vs,
        processed (op w) = [r] /\ processed_status (PQresultStatus r) = true /\
        rows (op w) = (before ++ vs)%list /\ List.length vs = PQntuples r /\
        forall i v, vs !! i = Some v ->
          Result.recv_row native ticks m (Result.mk_coordinates r (Z.of_nat i) 0) t (Result.row_default t) = Ok v)).
Proof.
  intros Hto Hab Hq Hr. split; [apply rows_prefix|]. intros Hu. unfold async_request in Hq.
  destruct (QueryBuilder.to_binary_query native ticks m q) as [bq|]; [|done].
  apply (inj Some) in Hq as <-.
  exists bq. split; [done|].
  split; [exact (proj2 (request_sent process constrained bq no_error l sent0 w Hto Hr) Hu)|].
  destruct (request_once process constrained bq no_error (l, sent0) w eq_refl Hr) as (_ & _ & Hc).
  destruct (Hc _ Hu) as (ec' & Hh & [<-|(_ & Ht)]); [|by rewrite <- Ht in Hto].
  destruct (steps_answered process Hab constrained bq (l, sent0) w Hr) as [Ha _].
  rewrite Hh in Ha. destruct (Ha (list_elem_of_here _ _)) as [_ Hp].
  destruct (request_reachable_settled process constrained bq (l, sent0) w Hr)
    as [((Hn & _) & _)|[(_ & Hn & _)|(_ & _ & _ & Hn)]].
  - congruence.
  - left. destruct Hp as [Hp|Hp]; [done|]. unfold rows. rewrite Hn, Hp. by destruct (where_ (op w)).
  - destruct Hn as [Hn|(r & Hn & Hst & Hpr)].
    + left. destruct Hp as [Hp|Hp]; [done|]. unfold rows. rewrite Hn, Hp. by destruct (where_ (op w)).
    + right. apply processed_rows in Hpr as (vs & Ho & Hl & Hv). exists r, vs. unfold rows. rewrite Hn.
      split_and!; try done.
      destruct Hst as [Hst|[Hst|Hst]]; cbn in Hst |- *; by rewrite Hst.
Qed.

(** C3. A request that succeeds has sent its query, once and nothing else, and, unless
    the server gave no result, has appended to the container one value for every row of
    its result, in order, each received from its row; nothing the container held before
    is ever changed, whatever the outcome is. *)
Theorem request_delivers_rows constrained q l sent0 w0 w :
  is_error (make_asio_error timed_out) = true -> is_error (make_asio_error operation_aborted) = true ->
  async_request constrained q no_error (l, sent0) = Some w0 -> rtc (request_step process) w0 w ->
  before `prefix_of` rows (op w) /\
  (user_calls w = [no_error] -> exists bq,
     QueryBuilder.to_binary_query native ticks m q = Some bq /\ sent (op w) = (sent0 ++ [bq])%list /\
     (result_ (op w) = None /\ rows (op w) = before \/ exists r vs,
        processed (op w) = [r] /\ processed_status (PQresultStatus r) = true /\
        rows (op w) = (before ++ vs)%list /\ List.length vs = PQntuples r /\
        forall i v, vs !! i = Some v ->
          Result.recv_row native ticks m (Result.mk_coordinates r (Z.of_nat i) 0) t (Result.row_default t) = Ok v)).
Proof. apply rows_delivered. Qed.

End Rows.

(** ** An answer of two rows in three parts *)

#[local] Existing Instance linux_boost.

Definition rows_libpq : LibPQ nat unit := {|
  PQsetnonblocking l := (true, l);
  PQsendQueryParams _ l := (true, l);
  PQflush l := (send_finish, l);
  PQconsumeInput l := (true, if (1 <? l)%nat then (l - 1)%nat else l);
  PQisBusy l := (1 <? l)%nat;
  PQgetResult l := match l with 1 => (Some tt, 0) | _ => (None, l) end%nat;
  PQresultStatus _ := PGRES_TUPLES_OK;
  PQresultErrorField _ := None;
  results_ready l := l;
|}.
#[local] Existing Instance rows_libpq.

#[local] Instance rows_laws : LibPQLaws nat unit.
Proof. split. intros [|[|l]] r l' Hg; cbn in *; simplify_eq. lia. Qed.

Definition rows_query : QueryBuilder.query := QueryBuilder.build (QueryBuilder.sql "SELECT name, id FROM users").

(** A container that holds a row already. *)
Definition old_row : BinaryIO.value := BinaryIO.VList [BinaryIO.VInt 7; BinaryIO.VNull].

Definition rows_process : unit -> option string :=
  process Endian.little 1000 [] (fun _ => ""%string) Result.sample_type [old_row].

Definition rows_start : @timed (@request (nat * list BinaryQuery.binary_query) unit) :=
  async_request_op rows_process true (Transaction.sample_query "SELECT name, id FROM users") no_error (2%nat, []).

#[local] Instance rows_operation : Operation (@request (nat * list BinaryQuery.binary_query) unit) :=
  request_operation rows_process.

Definition rows_end : @timed (@request (nat * list BinaryQuery.binary_query) unit) :=
  run_event ev_timer (set_queue [] (run_event (ev_wait for_read no_error) rows_start)).

Lemma request_delivers_rows_witness :
  user_calls rows_end = [no_error] /\
  exists vs, rows Endian.little 1000 [] Result.sample_type [old_row] (op rows_end) = ([old_row] ++ vs)%list /\
    List.length vs = 2%nat.
Proof.
  assert (user_calls rows_end = [no_error]) as Hu by (vm_compute; reflexivity). split; [exact Hu|].
  destruct (request_delivers_rows Endian.little 1000 [] (fun _ => ""%string) Result.sample_type [old_row]
    true rows_query 2%nat [] rows_start rows_end) as (_ & Hd).
  - reflexivity.
  - reflexivity.
  - vm_compute. reflexivity.
  - eapply rtc_l; [by apply (io_wait for_read no_error)|].
    TimedRequest.run_handler (ev_wait for_read no_error) (@nil TimedOperation.event).
    TimedRequest.run_handler ev_timer (@nil TimedOperation.event).
    match goal with |- rtc _ ?a ?b => replace a with b by (vm_compute; reflexivity) end. apply rtc_refl.
  - destruct (Hd Hu) as (bq & _ & _ & [[Hn _]|(r & vs & _ & _ & Hv & Hl & _)]); [vm_compute in Hn; discriminate|].
    by exists vs.
Defined.

End RowRequest.
