(* ===== verification/RowFailover.v ===== *)
(** Requests that are tried again, and the container their rows are received into: the
    tries of [src/include/bozo/failover/strategy.h] are requests of
    [src/include/bozo/impl/async_request.h], each with the same output iterator
    ([basic_context::args]).

    [Failover] says which tries are made for given ends of the tries, [RowRequest] what
    one request does to the container.  Here the ends are those of requests, each of
    which goes on with the container the one before it has left. *)

From S2P Require Import Prelude ErrorCode SqlState Errors Endian TypeSystem BinaryIO BinaryQuery QueryBuilder Result Deadline Failover.
From S2P Require Import AsyncRequest RequestRuns Cancel TimedOperation TimedRequest Transaction RowRequest.
From Stdlib Require Import ZArith Lia List String.
From stdpp Require Import base tactics list relations.

Module RowFailover.

Import Failover AsyncRequest TimedOperation TimedRequest Transaction RowRequest.

(** ** Strategies that give up at an error *)

(** A strategy whose tries, as long as they have the property [stop_ok], are not
    followed by another after the error [ec]. *)
Class StopsAt (T : Type) `{Failover.FailoverTry T} (ec : error_code) := {
  stop_ok : T -> Prop;
  stop_kept : forall s c pre s' post,
    stop_ok s -> Failover.initiate_next_try s c = (pre, Some s', post) -> stop_ok s';
  stop_gives_up : forall s c pre s' post,
    stop_ok s -> Failover.co_ec c = ec -> Failover.initiate_next_try s c <> (pre, Some s', post);
}.

Section Stops.
Context `{Boost} (ec : error_code).

(** Roles none of which recovers from the error. *)
#[export] Instance roles_stop_at : StopsAt Failover.role_based_try ec.
Proof.
  refine {| stop_ok s := Forall (fun r => Failover.can_recover r ec = false) (Failover.rb_roles s) |}.
  - intros s c pre s' post Hok (_ & _ & r & _ & Hs & _)%Failover.fall_back_spec. by rewrite Hs.
  - intros s c pre s' post Hok Hc (_ & _ & r & _ & _ & Hr & Hrec & _)%Failover.fall_back_spec.
    eapply Forall_lookup_1 in Hok; [|exact Hr]. rewrite Hc in Hrec. congruence.
Defined.

(** Conditions of a retry the error does not satisfy. *)
#[export] Instance retry_stops_at : StopsAt Failover.basic_try ec.
Proof.
  refine {| stop_ok s := Failover.retryable (Failover.bt_options s) ec = false |}.
  - intros s c pre s' post Hok. cbn. rewrite Failover.retry_next_eq. cbn zeta.
    destruct (_ && _); [|done]. by intros [= _ <- _].
  - intros s c pre s' post Hok Hc. cbn. rewrite Failover.retry_next_eq. cbn zeta.
    rewrite Hc, Hok, andb_false_r. done.
Defined.
End Stops.

(** ** A request that fails at a result *)

Section Blamed.
Context `{Boost} {L R : Type} `{LibPQ L R} `{!LibPQLaws L R} (process : R -> option string).

Definition bad_process : error_code := error.make_error_code error.bad_result_process.

(** A result that was given to the processor and not taken has ended the request with
    [bad_result_process]. *)
Definition blamed (r : @request L R) : Prop :=
  where_ r = at_end -> processed r = [] ->
  forall x, result_ r = Some x -> processed_status (PQresultStatus x) = true ->
    handler_calls r = [bad_process] /\ state r = qs_error.

Lemma get_done_error_where ec (r : @request L R) : where_ (get_done_error ec r) = where_ r.
Proof. unfold get_done_error. by destruct (String.eqb _ _). Qed.

Lemma get_done_error_result ec (r : @request L R) : result_ (get_done_error ec r) = result_ r.
Proof. unfold get_done_error. by destruct (String.eqb _ _). Qed.

Lemma handle_result_blamed r : handler_calls r = [] -> blamed (handle_result process r).
Proof.
  intros Hh _. unfold handle_result. cbn [result_ set_where].
  destruct (result_ r) as [x|] eqn:Hr; [|by cbn; rewrite Hr].
  destruct (PQresultStatus x) eqn:Hs; rewrite ?get_done_error_result; intros Hp y Hy Hst;
    try (cbn in Hy; rewrite Hr in Hy; injection Hy as <-; by rewrite Hs in Hst).
  all: clear Hy Hst; revert Hp; unfold process_and_done; destruct (process x) as [what|].
  all: try (cbn; by destruct (processed r)).
  all: intros _; unfold get_done_error; destruct (String.eqb _ _); cbn; by rewrite Hh.
Qed.

Lemma drain_blamed fuel r :
  (results_ready (lib r) <= fuel)%nat -> handler_calls r = [] -> blamed (drain process fuel r).
Proof.
  revert r. induction fuel as [|fuel IH]; intros r Hf Hh; cbn [drain];
    (destruct (PQisBusy (lib r)); [done|]); destruct (PQgetResult (lib r)) as [[x|] l] eqn:Hg;
    try (by apply handle_result_blamed); apply PQgetResult_decreases in Hg; [lia|].
  apply IH; [cbn; lia | done].
Qed.

Lemma first_loop_blamed r :
  handler_calls r = [] -> result_ r = None -> blamed (first_loop process r).
Proof.
  intros Hh Hr. unfold first_loop. destruct (PQisBusy (lib r)); [done|].
  destruct (PQgetResult (lib r)) as [[x|] l].
  - destruct (bool_decide _); [by apply handle_result_blamed | by apply drain_blamed].
  - intros _ _ x Hx. cbn in Hx. congruence.
Qed.

Lemma get_resume_blamed ec r :
  handler_calls r = [] -> where_ r <> at_end ->
  match where_ r with at_start | in_first_loop => result_ r = None | _ => True end ->
  blamed (get_resume process ec r).
Proof.
  intros Hh Hw Hr. unfold get_resume. destruct (bool_decide (state r = qs_error)); [done|].
  destruct (is_error ec).
  { intros He. by rewrite get_done_error_where in He. }
  destruct (where_ r) eqn:Hwr; [by apply first_loop_blamed| | |done].
  all: destruct (PQconsumeInput (lib r)) as [[] l]; cbn [negb].
  - by apply first_loop_blamed.
  - intros _ _ x Hx. rewrite get_done_error_result in Hx. cbn in Hx. congruence.
  - by apply drain_blamed.
  - by apply handle_result_blamed.
Qed.

(** The write wait moves neither the result nor the place. *)
Lemma send_resume_kept ec (r : @request L R) :
  where_ (send_resume ec r) = where_ r /\ result_ (send_resume ec r) = result_ r /\
  processed (send_resume ec r) = processed r.
Proof.
  unfold send_resume. destruct (negb _); [done|]. destruct (is_error ec); [done|].
  by destruct (PQflush (lib r)) as [[] l].
Qed.

Lemma on_wait_blamed k ec r :
  settled process r -> answered r -> waits_for (Operation := request_operation process) k r = true ->
  blamed r -> blamed (on_wait (Operation := request_operation process) k ec r).
Proof.
  intros Hs [_ Hres] Hw Hb. destruct k; cbn in *.
  - destruct Hs as [((Hh & _ & _) & _ & Hp)|[(Hh & _ & Hq)|(_ & Hrw & _)]]; [| |congruence].
    + apply get_resume_blamed; cbn; [done|by destruct Hp as [->|[-> _]] | done].
    + unfold get_resume. by rewrite bool_decide_eq_true_2.
  - destruct (send_resume_kept ec (set_write_wait false r)) as (Hk1 & Hk2 & Hk3).
    destruct Hs as [(_ & _ & Hp)|[(_ & _ & Hq)|(Hh & _ & He & _)]].
    + intros Hat. rewrite Hk1 in Hat. cbn in Hat. by destruct Hp as [Hp|[Hp _]]; rewrite Hp in Hat.
    + unfold send_resume. cbn. by rewrite Hq.
    + intros _ Hn x Hx Hst. rewrite Hk3 in Hn. rewrite Hk2 in Hx.
      destruct (Hb He Hn x Hx Hst) as [Hc _]. by rewrite Hh in Hc.
Qed.

Lemma start_blamed q l : blamed (start process q l).
Proof.
  unfold start. assert (where_ (send_perform q (initial l)) = at_start /\ result_ (send_perform q (initial l)) = None)
    as [Hw Hn].
  { unfold send_perform. destruct (PQsetnonblocking _) as [[|] l1]; [|done]. cbn [negb].
    destruct (PQsendQueryParams _ _) as [[|] l2]; [|done]. cbn [negb].
    by destruct (send_resume_kept no_error (with_lib l2 (with_lib l1 (initial l)))) as (-> & -> & _). }
  destruct (send_perform_cases q l) as [(_ & _ & Hq)|((Hh & _) & _ & Hp)].
  - unfold get_resume. rewrite bool_decide_eq_true_2 by done. intros Hat. congruence.
  - apply get_resume_blamed; [done | congruence | by rewrite Hw].
Qed.

Context (Hab : is_error (make_asio_error operation_aborted) = true).
#[local] Instance blamed_operation : Operation (@request L R) := request_operation process.
#[local] Instance blamed_laws : OperationLaws (@request L R) := request_laws process.

(** No step of the machine breaks this, since a handler in the queue is that of a wait
    the request has started. *)
Lemma steps_blamed constrained q l w :
  rtc (request_step process) (async_request_op process constrained q no_error l) w -> blamed (op w).
Proof.
  apply (rtc_ind_r (fun w => blamed (op w))).
  - unfold async_request_op, launch. cbn [is_error no_error]. cbn -[advance get_resume send_perform].
    rewrite advance_op. apply start_blamed.
  - intros y z Hr Hs Hb. pose proof (request_reachable_settled process _ _ _ _ Hr) as Hset.
    pose proof (steps_answered process Hab _ _ _ _ Hr) as Han.
    assert (waits_ok y) as Hok.
    { assert (operation_ok (start process q l)) as Hst by exact (start_settled process q l).
      by edestruct (timed_reachable_ok constrained (initial l) (start process q l) y) as (_ & ? & _). }
    destruct Hs as [k ec y _|y _|e q' y He _]; [exact Hb..|]. destruct e as [k ec|]; cbn [run_event].
    + rewrite advance_op. apply on_wait_blamed; try done. specialize (Hok k). rewrite He in Hok.
      rewrite count_events_cons, is_wait_refl in Hok. unfold set_queue. cbn [op].
      destruct (waits_for k (op y)); [done|]. cbn in Hok. lia.
    + unfold run_timer. cbn. destruct (deadline_ y); [|exact Hb].
      by destruct (Cancel.IoDeadline.stream_cancelled _).
Qed.
End Blamed.

(** ** What one try does to the container *)

Section Tries.
Context `{Boost} {L R : Type} `{LibPQ L R} `{!LibPQLaws L R} `{PGresult_laws R}.
Context (native : Endian.endian) (ticks : Z) (what : BinaryIO.stop -> string) (t : Result.row_type).
Context (Hto : is_error (make_asio_error timed_out) = true).
Context (Hab : is_error (make_asio_error operation_aborted) = true).

(** Values received from the first rows of a result, with the OID map of the connection
    it came over. *)
Definition received (m : TypeSystem.oid_map) (x : R) (vs : list BinaryIO.value) : Prop :=
  (List.length vs <= PQntuples x)%nat /\
  forall i v, vs !! i = Some v ->
    Result.recv_row native ticks m (Result.mk_coordinates x (Z.of_nat i) 0) t (Result.row_default t) = Ok v.

Lemma insert_rows_taken m rs out :
  exists vs, fst (Result.insert_rows (R:=R) native ticks m rs t out) = (out ++ vs)%list /\
    (List.length vs <= List.length rs)%nat /\
    Forall2 (fun r v => Result.recv_row native ticks m r t (Result.row_default t) = Ok v) (take (List.length vs) rs) vs.
Proof.
  revert out. induction rs as [|r rs IH]; intros out; cbn; [exists []; by rewrite app_nil_r|].
  destruct (Result.recv_row native ticks m r t (Result.row_default t)) as [v|] eqn:Hv.
  - destruct (IH (out ++ [v])%list) as (vs & -> & Hl & Hall). exists (v :: vs). rewrite <- app_assoc. cbn.
    split; [done|]. split; [lia|]. by constructor.
  - exists []. rewrite app_nil_r. split; [done|]. split; [cbn; lia | constructor].
Qed.

(** A result that is given to the processor appends values of its first rows. *)
Lemma out_handler_received m before x :
  exists vs, fst (out_handler native ticks m t before x) = (before ++ vs)%list /\ received m x vs.
Proof.
  destruct (insert_rows_taken m (Result.result_rows x) before) as (vs & Ho & Hl & Hall).
  exists vs. split; [exact Ho|]. unfold Result.result_rows in *. rewrite length_map, length_seq in Hl.
  split; [exact Hl|]. intros i v Hv. destruct (Forall2_lookup_r _ _ _ _ _ Hall Hv) as (row & Hrow & Hr).
  apply lookup_take_Some in Hrow as [Hrow _]. change (map ?f ?l) with (f <$> l) in Hrow.
  rewrite list_lookup_fmap in Hrow.
  destruct (seq 0 (Result.result_size x) !! i) as [j|] eqn:Hj; [|discriminate].
  apply lookup_seq in Hj as [-> _]. injection Hrow as <-. exact Hr.
Qed.

(** The rows a request has appended come from one result, and a request that fails has
    appended some only if it has failed at receiving them. *)
Lemma rows_received m before constrained bq l w :
  rtc (request_step (process native ticks m what t before))
    (async_request_op (process native ticks m what t before) constrained bq no_error l) w ->
  exists vs, rows native ticks m t before (op w) = (before ++ vs)%list /\
    (vs = [] \/ exists x, received m x vs) /\
    (vs = [] \/ handler_calls (op w) = [no_error] \/ handler_calls (op w) = [bad_process]).
Proof.
  intros Hr. pose proof (steps_blamed _ Hab _ _ _ _ Hr) as Hb.
  pose proof (request_reachable_settled _ _ _ _ _ Hr) as Hs. unfold rows.
  destruct (processed (op w)) as [|x xs] eqn:Hp.
  - assert (exists vs, before = (before ++ vs)%list /\ (vs = [] \/ exists x, received m x vs) /\
      (vs = [] \/ handler_calls (op w) = [no_error] \/ handler_calls (op w) = [bad_process])) as Hnone
      by (exists []; rewrite app_nil_r; auto).
    destruct (where_ (op w)) eqn:Hw, (result_ (op w)) as [x|] eqn:Hx, (state (op w)); try exact Hnone.
    destruct (processed_status _) eqn:Hst; [|exact Hnone].
    destruct (Hb Hw Hp x Hx Hst) as [Hc _]. destruct (out_handler_received m before x) as (vs & Ho & Hv).
    exists vs. split; [exact Ho|]. split; [right; by exists x | auto].
  - destruct Hs as [((_ & Hn & _) & _)|[(_ & Hn & _)|(Hh & _)]]; [congruence..|].
    destruct (out_handler_received m before x) as (vs & Ho & Hv). exists vs. split; [exact Ho|]. split; [right; by exists x | auto].
Qed.

(** A try: a request over some connection, with the error the provider has given it,
    that has called its handler.  It finds the container as [before] and leaves it as
    [after]; [qs] are the queries it has sent. *)
Inductive attempt (m : TypeSystem.oid_map) (constrained : bool) (q : QueryBuilder.query) (before : list BinaryIO.value) :
  error_code -> list BinaryIO.value -> list BinaryQuery.binary_query -> Prop :=
| attempted l ec0 w0 w ec :
    async_request native ticks m what t before constrained q ec0 (l, []) = Some w0 ->
    rtc (request_step (process native ticks m what t before)) w0 w -> user_calls w = [ec] ->
    attempt m constrained q before ec (rows native ticks m t before (op w)) (sent (op w)).

(** What a try promises to the strategy that has made it. *)
Definition attempt_ok (m : TypeSystem.oid_map) (constrained : bool) (q : QueryBuilder.query) (ec : error_code)
  (vs : list BinaryIO.value) (qs : list BinaryQuery.binary_query) : Prop :=
  (List.length qs <= 1)%nat /\ (vs = [] \/ exists x, received m x vs) /\
  (constrained = false -> is_error ec = true -> vs <> [] -> ec = bad_process) /\
  (ec = no_error -> exists bq, QueryBuilder.to_binary_query native ticks m q = Some bq /\ qs = [bq] /\
     (vs = [] \/ exists x, received m x vs /\ List.length vs = PQntuples x)).

Lemma attempt_refused m constrained q before ec after qs l ec0 w0 w :
  is_error ec0 = true -> async_request native ticks m what t before constrained q ec0 (l, []) = Some w0 ->
  rtc (request_step (process native ticks m what t before)) w0 w -> user_calls w = [ec] ->
  after = rows native ticks m t before (op w) -> qs = sent (op w) ->
  after = before /\ attempt_ok m constrained q ec [] qs.
Proof.
  intros He Hq Hr Hu -> ->. unfold async_request in Hq.
  destruct (QueryBuilder.to_binary_query native ticks m q) as [bq|]; [|done]. apply (inj Some) in Hq as <-.
  apply timed_run_any, async_request_op_error in Hr as [-> Hu0]; [|done]. rewrite Hu in Hu0. injection Hu0 as ->.
  unfold async_request_op. rewrite He. split; [done|]. unfold attempt_ok. cbn.
  split; [lia|]. split; [by left|]. split; [done|]. by intros ->.
Qed.

Lemma attempt_spec m constrained q before ec after qs :
  attempt m constrained q before ec after qs ->
  exists vs, after = (before ++ vs)%list /\ attempt_ok m constrained q ec vs qs.
Proof.
  intros [l ec0 w0 w ec' Hq Hr Hu]. destruct (is_error ec0) eqn:He.
  { destruct (attempt_refused m constrained q before ec' _ _ l ec0 w0 w He Hq Hr Hu eq_refl eq_refl) as [-> Hok].
    exists []. by rewrite app_nil_r. }
  assert (async_request native ticks m what t before constrained q no_error (l, []) = Some w0) as Hq0.
  { revert Hq. unfold async_request, async_request_op. by rewrite He. }
  destruct (rows_delivered native ticks m what t before constrained q l [] w0 w Hto Hab Hq0 Hr) as [_ Hdel].
  unfold async_request in Hq0. destruct (QueryBuilder.to_binary_query native ticks m q) as [bq|] eqn:Hbq; [|done].
  apply (inj Some) in Hq0 as <-. destruct (rows_received m before constrained bq _ w Hr) as (vs & Hv & Hrec & Hfail).
  exists vs. split; [exact Hv|]. rewrite Hv in Hdel. split; [|split; [exact Hrec|split]].
  - destruct (request_sent _ _ _ _ _ _ _ Hto Hr) as [[-> | ->] _]; cbn; lia.
  - intros -> Hec Hne. destruct (request_once _ _ _ _ _ _ (eq_refl : is_error no_error = false) Hr) as (_ & _ & Hc).
    destruct (Hc _ Hu) as (e & Hh & [->|[? _]]); [|done].
    destruct Hfail as [|[Hf|Hf]]; [done| |]; rewrite Hh in Hf; injection Hf as ->; done.
  - intros ->. destruct (Hdel Hu) as (bq' & Hb & Hs & Hrows). exists bq'. split; [congruence|]. split; [exact Hs|].
    destruct Hrows as [[_ Hn]|(x & vs' & _ & _ & Hvs & Hl & Hall)].
    + left. apply (app_inv_head before). by rewrite app_nil_r.
    + apply app_inv_head in Hvs as <-. right. exists x. unfold received. auto with lia.
Qed.

(** ** The tries of an operation *)

(** What the [k]-th try has appended, [containers k] being what it has found. *)
Definition appended (containers : nat -> list BinaryIO.value) (k : nat) : list BinaryIO.value :=
  drop (List.length (containers k)) (containers (S k)).

Definition attempts (oids : nat -> TypeSystem.oid_map) (constrained : bool) (q : QueryBuilder.query)
  (ends : nat -> Failover.completion) (containers : nat -> list BinaryIO.value)
  (queries : nat -> list BinaryQuery.binary_query) (n : nat) : Prop :=
  forall k, (k <= n)%nat ->
    attempt (oids k) constrained q (containers k) (Failover.co_ec (ends k)) (containers (S k)) (queries k).

Section Series.
Context (oids : nat -> TypeSystem.oid_map) (constrained : bool) (q : QueryBuilder.query).
Context (ends : nat -> Failover.completion) (containers : nat -> list BinaryIO.value).
Context (queries : nat -> list BinaryQuery.binary_query).

Lemma attempts_ok n k :
  attempts oids constrained q ends containers queries n -> (k <= n)%nat ->
  containers (S k) = (containers k ++ appended containers k)%list /\
  attempt_ok (oids k) constrained q (Failover.co_ec (ends k)) (appended containers k) (queries k).
Proof.
  intros Ha Hk. destruct (attempt_spec _ _ _ _ _ _ _ (Ha k Hk)) as (vs & Hc & Hok).
  unfold appended. rewrite Hc, drop_app_length. done.
Qed.

Lemma attempts_appended n :
  attempts oids constrained q ends containers queries n ->
  containers (S n) = (containers 0%nat ++ concat (map (appended containers) (seq 0 (S n))))%list.
Proof.
  intros Ha. assert (forall k, (k <= S n)%nat ->
    containers k = (containers 0%nat ++ concat (map (appended containers) (seq 0 k)))%list) as Hk; [|by apply Hk].
  induction k as [|k IH]; intros Hk; [by rewrite app_nil_r|].
  destruct (attempts_ok n k Ha ltac:(lia)) as [-> _]. rewrite seq_S, map_app, concat_app, app_assoc, <- IH by lia.
  cbn. by rewrite app_nil_r.
Qed.

(** Tries that fail otherwise than at receiving rows leave the container alone. *)
Lemma nothing_appended n :
  attempts oids constrained q ends containers queries n -> constrained = false ->
  (forall k, (k < n)%nat -> is_error (Failover.co_ec (ends k)) = true /\ Failover.co_ec (ends k) <> bad_process) ->
  containers n = containers 0%nat.
Proof.
  intros Ha Hc Hk. enough (forall k, (k <= n)%nat -> containers k = containers 0%nat) by auto.
  induction k as [|k IH]; intros Hkn; [done|]. destruct (attempts_ok n k Ha ltac:(lia)) as (-> & _ & _ & Hbad & _).
  destruct (Hk k ltac:(lia)) as [He Hne]. destruct (appended containers k) eqn:Happ.
  - rewrite app_nil_r. apply IH. lia.
  - destruct Hne. by apply Hbad.
Qed.

(** The tries a strategy makes, and the property [ok] of a try that is kept and from
    which each try but the last has gone on. *)
Section Strategy.
Context {T : Type} `{Failover.FailoverTryLaws T} (now : nat -> Z) (fuel : nat) (s : T).
Context (Hfuel : (Failover.tries_bound s <= fuel)%nat).
Context (Hall : attempts oids constrained q ends containers queries
  (Failover.count Failover.is_initiated (Failover.run now ends fuel s) - 1)).

Lemma attempts_run (ok : T -> Prop) :
  (forall t0 c pre t1 post, ok t0 -> Failover.initiate_next_try t0 c = (pre, Some t1, post) -> ok t1) -> ok s ->
  exists es n, Failover.run now ends fuel s = (es ++ [Failover.handled (Failover.co_ec (ends n))])%list /\
    Failover.count Failover.is_initiated es = S n /\ Failover.count Failover.is_handled es = 0%nat /\
    (n <= Failover.tries_bound s)%nat /\ attempts oids constrained q ends containers queries n /\
    forall k, (k < n)%nat -> is_error (Failover.co_ec (ends k)) = true /\
      exists t0 pre t1 post, ok t0 /\ Failover.initiate_next_try t0 (ends k) = (pre, Some t1, post).
Proof using Hfuel Hall.
  intros Hkeep Hok. destruct (Failover.run_goes_on now ends ok fuel s Hkeep Hok Hfuel) as (es & Hes & Hh & Hi & Hk).
  rewrite Hes, Failover.count_app in Hall. cbn in Hall. rewrite Nat.add_0_r in Hall.
  exists es, (Failover.count Failover.is_initiated es - 1)%nat.
  split_and!; try done; try lia. intros k Hlt. apply Hk. lia.
Qed.

End Strategy.
End Series.

(** C11. A request with failover, whatever the strategy: the handler of the user is called
    once, after the last try, with the error of this try.  Each try has sent at most
    one query and appended to the container values of the first rows of one result or
    nothing, so that the container holds at the end what it held and then what the
    tries have appended, in order.  Without a time limit a try that has failed has
    appended something only when its rows could not be received; a try that has
    succeeded has sent exactly the query and received all the rows of its result. *)
Theorem failover_request_rows {T} `{Failover.FailoverTryLaws T} now fuel (s : T) oids constrained q ends containers queries :
  (Failover.tries_bound s <= fuel)%nat ->
  attempts oids constrained q ends containers queries
    (Failover.count Failover.is_initiated (Failover.run now ends fuel s) - 1) ->
  exists es n, Failover.run now ends fuel s = (es ++ [Failover.handled (Failover.co_ec (ends n))])%list /\
    Failover.count Failover.is_initiated es = S n /\ Failover.count Failover.is_handled es = 0%nat /\
    (n <= Failover.tries_bound s)%nat /\
    (forall k, (k < n)%nat -> is_error (Failover.co_ec (ends k)) = true) /\
    containers (S n) = (containers 0%nat ++ concat (map (appended containers) (seq 0 (S n))))%list /\
    forall k, (k <= n)%nat ->
      attempt_ok (oids k) constrained q (Failover.co_ec (ends k)) (appended containers k) (queries k).
Proof using Hto Hab.
  intros Hfuel Hall.
  destruct (attempts_run oids constrained q ends containers queries now fuel s Hfuel Hall (fun _ => True))
    as (es & n & Hrun & Hi & Hh & Hn & Ha & Hk); [done..|].
  exists es, n. split_and!; try done.
  - intros k Hlt. by apply Hk.
  - by eapply attempts_appended.
  - intros k Hkn. by apply (attempts_ok oids constrained q ends containers queries n k Ha).
Qed.

(** C12. Without a time limit, and with a strategy that gives up when rows cannot be
    received (its error is [bad_result_process], whatever exception the processor has
    thrown; [library_roles_stop]), nothing is received twice.  The tries before the last
    leave the container as it was.  If the handler of the user gets no error, the
    container holds what it held and then all the rows of the result of the last try;
    if it gets an error other than [bad_result_process] the container is as it was.
    After [bad_result_process] the rows received before the bad one are left in it. *)
Theorem failover_rows_once {T} `{Failover.FailoverTryLaws T} `{!StopsAt T bad_process} now fuel (s : T)
    oids q ends containers queries :
  (Failover.tries_bound s <= fuel)%nat -> stop_ok s ->
  attempts oids false q ends containers queries
    (Failover.count Failover.is_initiated (Failover.run now ends fuel s) - 1) ->
  exists es n, Failover.run now ends fuel s = (es ++ [Failover.handled (Failover.co_ec (ends n))])%list /\
    Failover.count Failover.is_initiated es = S n /\ containers n = containers 0%nat /\
    (Failover.co_ec (ends n) = no_error -> exists bq vs,
       QueryBuilder.to_binary_query native ticks (oids n) q = Some bq /\ queries n = [bq] /\
       containers (S n) = (containers 0%nat ++ vs)%list /\
       (vs = [] \/ exists x, received (oids n) x vs /\ List.length vs = PQntuples x)) /\
    (is_error (Failover.co_ec (ends n)) = true -> Failover.co_ec (ends n) <> bad_process ->
       containers (S n) = containers 0%nat).
Proof using Hto Hab.
  intros Hfuel Hok Hall.
  destruct (attempts_run oids false q ends containers queries now fuel s Hfuel Hall stop_ok stop_kept Hok)
    as (es & n & Hrun & Hi & _ & _ & Ha & Hk).
  assert (containers n = containers 0%nat) as Hn.
  { apply (nothing_appended oids false q ends containers queries n Ha eq_refl). intros k Hlt.
    destruct (Hk k Hlt) as (He & s0 & pre & s1 & post & Hs0 & Hnext). split; [exact He|].
    intros Hb. by eapply stop_gives_up. }
  destruct (attempts_ok oids false q ends containers queries n n Ha ltac:(lia)) as (Hc & _ & _ & Hbad & Hdone).
  exists es, n. split_and!; try done.
  - intros Hec. destruct (Hdone Hec) as (bq & Hbq & Hq & Hrows). exists bq, (appended containers n). by rewrite Hc, Hn.
  - intros He Hne. destruct (appended containers n) as [|v vs] eqn:Hv; [by rewrite Hc, app_nil_r|].
    destruct Hne. by apply Hbad.
Qed.
End Tries.

(** An error of the library is recovered by the roles that name its condition. *)
Lemma can_recover_library `{Boost} r c :
  r = Failover.master \/ r = Failover.replica ->
  Failover.can_recover r (error.make_error_code c) =
  existsb (fun x => match x with errc.match_errc k => bool_decide (errc.condition_of c = Some k) | _ => false end)
    (Failover.recoverable r).
Proof.
  intros Hr. unfold Failover.can_recover, errc.match_code.
  assert (forall k, errc.eq_matcher (error.make_error_code c) (errc.match_errc k) = bool_decide (errc.condition_of c = Some k))
    as Hk.
  { intros k. cbn [errc.eq_matcher]. rewrite equivalent_code_other by done. cbn [orb].
    apply eq_true_iff_eq. by rewrite errc.library_errors_classified, bool_decide_eq_true. }
  destruct Hr as [->| ->]; cbn [Failover.recoverable existsb]; by rewrite !Hk.
Qed.

(** The roles of the library give up when rows cannot be received, so that
    [failover_rows_once] holds of them.  They name [type_mismatch], but a mismatch of
    the type of a row is an exception of the processor, and this has become
    [bad_result_process] when the strategy sees it. *)
Lemma library_roles_stop `{Boost} r :
  r = Failover.master \/ r = Failover.replica ->
  Failover.can_recover r (error.make_error_code error.oid_type_mismatch) = true /\
  Failover.can_recover r bad_process = false.
Proof. intros Hr. unfold bad_process. rewrite !can_recover_library by done. by destruct Hr as [->| ->]. Qed.

Lemma library_roles_ok `{Boost} (s : Failover.role_based_try) :
  Forall (fun r => r = Failover.master \/ r = Failover.replica) (Failover.rb_roles s) ->
  stop_ok (ec := bad_process) s.
Proof. intros Hs. eapply Forall_impl; [exact Hs|]. intros r Hr. by apply library_roles_stop. Qed.

(** ** Two roles and an answer of two rows *)

#[local] Existing Instance linux_boost.
#[local] Existing Instance rows_libpq.
#[local] Existing Instance rows_laws.
#[local] Existing Instance rows_operation.

Definition sample_roles (d : Deadline.time_constraint) : Failover.role_based_try :=
  Failover.mk_role_based_try true [Failover.replica; Failover.master] d 0.

Definition users_query : BinaryQuery.binary_query := Transaction.sample_query "SELECT name, id FROM users".

(** The replica cannot be reached, the master answers. *)
Definition calm_start (ec : error_code) : @timed (@request (nat * list BinaryQuery.binary_query) unit) :=
  async_request_op rows_process false users_query ec (2%nat, []).
Definition calm_end : @timed (@request (nat * list BinaryQuery.binary_query) unit) :=
  run_event (ev_wait for_read no_error) (calm_start no_error).

Definition calm_ends (k : nat) : Failover.completion :=
  Failover.mk_completion (if (k =? 0)%nat then Failover.lost else no_error) false.
Definition calm_containers (k : nat) : list BinaryIO.value :=
  if (k <? 2)%nat then [old_row] else rows Endian.little 1000 [] Result.sample_type [old_row] (op calm_end).
Definition calm_queries (k : nat) : list BinaryQuery.binary_query :=
  if (k =? 0)%nat then [] else sent (op calm_end).

Lemma calm_attempts :
  attempts Endian.little 1000 (fun _ => ""%string) Result.sample_type (fun _ => []) false rows_query
    calm_ends calm_containers calm_queries 1.
Proof.
  intros [|[|k]] Hk; [| |lia].
  - apply (attempted Endian.little 1000 (fun _ => ""%string) Result.sample_type [] false rows_query [old_row]
      2%nat Failover.lost (calm_start Failover.lost) (calm_start Failover.lost) Failover.lost);
      [vm_compute; reflexivity | apply rtc_refl | vm_compute; reflexivity].
  - apply (attempted Endian.little 1000 (fun _ => ""%string) Result.sample_type [] false rows_query [old_row]
      2%nat no_error (calm_start no_error) calm_end no_error);
      [vm_compute; reflexivity| |vm_compute; reflexivity].
    eapply rtc_l; [by apply (io_wait for_read no_error)|].
    TimedRequest.run_handler (ev_wait for_read no_error) (@nil TimedOperation.event).
    match goal with |- rtc _ ?a ?b => replace a with b by (vm_compute; reflexivity) end. apply rtc_refl.
Qed.

Lemma failover_request_rows_witness :
  let s := sample_roles Deadline.no_constraint in
  exists es n, Failover.run (fun _ => 0%Z) calm_ends 1 s = (es ++ [Failover.handled (Failover.co_ec (calm_ends n))])%list /\
    Failover.count Failover.is_initiated es = S n /\ Failover.count Failover.is_handled es = 0%nat /\
    (n <= Failover.tries_bound s)%nat /\
    (forall k, (k < n)%nat -> is_error (Failover.co_ec (calm_ends k)) = true) /\
    calm_containers (S n) = (calm_containers 0%nat ++ concat (map (appended calm_containers) (seq 0 (S n))))%list /\
    forall k, (k <= n)%nat ->
      attempt_ok Endian.little 1000 Result.sample_type [] false rows_query (Failover.co_ec (calm_ends k))
        (appended calm_containers k) (calm_queries k).
Proof.
  intros s. assert (is_error (make_asio_error timed_out) = true) as Hto by reflexivity.
  assert (is_error (make_asio_error operation_aborted) = true) as Hab by reflexivity.
  apply (failover_request_rows Endian.little 1000 (fun _ => ""%string) Result.sample_type Hto Hab
    (fun _ => 0%Z) 1 s (fun _ => []) false rows_query calm_ends calm_containers calm_queries); [cbn; lia|].
  exact calm_attempts.
Defined.

Lemma failover_rows_once_witness :
  let s := sample_roles Deadline.no_constraint in
  exists es n, Failover.run (fun _ => 0%Z) calm_ends 1 s = (es ++ [Failover.handled (Failover.co_ec (calm_ends n))])%list /\
    Failover.count Failover.is_initiated es = S n /\ calm_containers n = calm_containers 0%nat /\
    (Failover.co_ec (calm_ends n) = no_error -> exists bq vs,
       QueryBuilder.to_binary_query Endian.little 1000 [] rows_query = Some bq /\ calm_queries n = [bq] /\
       calm_containers (S n) = (calm_containers 0%nat ++ vs)%list /\
       (vs = [] \/ exists x : unit, received Endian.little 1000 Result.sample_type [] x vs /\ List.length vs = PQntuples x)) /\
    (is_error (Failover.co_ec (calm_ends n)) = true -> Failover.co_ec (calm_ends n) <> bad_process ->
       calm_containers (S n) = calm_containers 0%nat).
Proof.
  intros s. assert (is_error (make_asio_error timed_out) = true) as Hto by reflexivity.
  assert (is_error (make_asio_error operation_aborted) = true) as Hab by reflexivity.
  apply (failover_rows_once Endian.little 1000 (fun _ => ""%string) Result.sample_type Hto Hab
    (fun _ => 0%Z) 1 s (fun _ => []) rows_query calm_ends calm_containers calm_queries);
    [cbn; lia | apply library_roles_ok; cbn; constructor; [by right|]; constructor; [by left | constructor] | exact calm_attempts].
Defined.

(** *** The time is up while the answer arrives *)

Definition first_user : BinaryIO.value :=
  BinaryIO.VList [BinaryIO.VInt 1; BinaryIO.VSome (BinaryIO.VBytes [Byte.x61; Byte.x62])].
Definition second_user : BinaryIO.value := BinaryIO.VList [BinaryIO.VInt 2; BinaryIO.VNull].

Section Late.
Context (before : list BinaryIO.value).

Definition users_process : unit -> option string :=
  process Endian.little 1000 [] (fun _ => ""%string) Result.sample_type before.
#[local] Instance users_operation : Operation (@request (nat * list BinaryQuery.binary_query) unit) :=
  request_operation users_process.

Definition timed_start : @timed (@request (nat * list BinaryQuery.binary_query) unit) :=
  async_request_op users_process true users_query no_error (2%nat, []).

(** The timer ends before the wait for the answer, or only after the answer. *)
Definition late_end : @timed (@request (nat * list BinaryQuery.binary_query) unit) :=
  run_event (ev_wait for_read no_error) (set_queue []
    (run_event ev_timer (set_queue [ev_wait for_read no_error] (end_timer timed_start)))).
Definition timely_end : @timed (@request (nat * list BinaryQuery.binary_query) unit) :=
  run_event ev_timer (set_queue [] (run_event (ev_wait for_read no_error) timed_start)).

Lemma late_steps : rtc (request_step users_process) timed_start late_end.
Proof.
  eapply rtc_l; [by apply io_timer|]. eapply rtc_l; [by apply (io_wait for_read no_error)|].
  eapply rtc_l; [by apply (run_next ev_timer [ev_wait for_read no_error])|].
  TimedRequest.run_handler (ev_wait for_read no_error) (@nil TimedOperation.event).
  match goal with |- rtc _ ?a ?b => replace a with b by (vm_compute; reflexivity) end. apply rtc_refl.
Qed.

Lemma timely_steps : rtc (request_step users_process) timed_start timely_end.
Proof.
  eapply rtc_l; [by apply (io_wait for_read no_error)|].
  TimedRequest.run_handler (ev_wait for_read no_error) (@nil TimedOperation.event).
  TimedRequest.run_handler ev_timer (@nil TimedOperation.event).
  match goal with |- rtc _ ?a ?b => replace a with b by (vm_compute; reflexivity) end. apply rtc_refl.
Qed.

Lemma late_rows (r : @timed (@request (nat * list BinaryQuery.binary_query) unit)) :
  r = late_end \/ r = timely_end ->
  rows Endian.little 1000 [] Result.sample_type before (op r) = (before ++ [first_user; second_user])%list.
Proof.
  intros Hr. transitivity ((before ++ [first_user]) ++ [second_user])%list; [|by rewrite <- app_assoc].
  destruct Hr as [->| ->]; vm_compute; reflexivity.
Qed.
End Late.

(** The replica is late, the master answers in time. *)
Definition late_ends (k : nat) : Failover.completion :=
  Failover.mk_completion (if (k =? 0)%nat then make_asio_error timed_out else no_error) false.
Definition late_containers (k : nat) : list BinaryIO.value :=
  ([old_row] ++ concat (repeat [first_user; second_user] k))%list.

(** A request whose answer arrives when its time is up has appended the rows before it
    reports [timed_out], from which the roles of the library recover: the next try
    appends them again, and the user, who gets no error, finds every row twice. *)
Theorem timed_out_rows_duplicated :
  attempts Endian.little 1000 (fun _ => ""%string) Result.sample_type (fun _ => []) true rows_query
    late_ends late_containers (fun _ => [users_query]) 1 /\
  Failover.run (fun _ => 0%Z) late_ends 1 (sample_roles (Deadline.until 1000)) =
    [Failover.initiated (Failover.mk_context (Some Failover.replica) (Some (Deadline.after 500)));
     Failover.notified (make_asio_error timed_out);
     Failover.initiated (Failover.mk_context (Some Failover.master) (Some (Deadline.after 1000)));
     Failover.closed; Failover.handled no_error] /\
  late_containers 2 = [old_row; first_user; second_user; first_user; second_user].
Proof.
  split; [|split; [vm_compute; reflexivity | done]]. intros [|[|k]] Hk; [| |lia].
  - replace (late_containers 1) with (rows Endian.little 1000 [] Result.sample_type [old_row] (op (late_end [old_row])))
      by (by rewrite late_rows by auto).
    apply (attempted Endian.little 1000 (fun _ => ""%string) Result.sample_type [] true rows_query [old_row]
      2%nat no_error (timed_start [old_row]) (late_end [old_row]) (make_asio_error timed_out));
      [vm_compute; reflexivity | apply late_steps | vm_compute; reflexivity].
  - set (before := late_containers 1).
    replace (late_containers 2) with (rows Endian.little 1000 [] Result.sample_type before (op (timely_end before)))
      by (by rewrite late_rows by auto).
    apply (attempted Endian.little 1000 (fun _ => ""%string) Result.sample_type [] true rows_query before
      2%nat no_error (timed_start before) (timely_end before) no_error);
      [vm_compute; reflexivity | apply timely_steps | vm_compute; reflexivity].
Qed.
End RowFailover.
