(* ===== verification/Providers.v ===== *)
(** Where connections come from: [connection_provider] and
    [bind_get_connection_timeout] of [src/include/bozo/connector.h],
    [async_get_connection] of [src/include/bozo/connection.h], and what the front ends
    [request] and [execute] make of a provider and a time constraint
    ([src/include/bozo/impl/async_request.h], [src/include/bozo/impl/async_execute.h]).

    A provider is a connection the user has, a source bound to an [io_context], or
    another provider with a limit on the time to get a connection. *)

From S2P Require Import Prelude Chrono Deadline Handles.
From Stdlib Require Import ZArith Lia List.
From stdpp Require Import base tactics list.

Open Scope Z_scope.

Module Providers.

Import Chrono Deadline.

Section Providers.
Context {Source : Type}.

Inductive provider : Type :=
| from_connection (h : Handles.handle)
| connection_provider (source_ : Source)
| bind_get_connection_timeout (target_ : provider) (timeout_ : Z).

(** What comes of [async_get_connection]: a connection is handed on by
    [forward_connection], or a source is asked under a time constraint. *)
Inductive acquisition : Type :=
| forwarded (h : Handles.handle)
| asked (s : Source) (t : time_constraint).

(** [now] is what the clock shows when the constraint is passed on; [None] is an
    overflow. *)
Fixpoint async_get_connection (p : provider) (t : time_constraint) (now : Z) : option acquisition :=
  match p with
  | from_connection h => Some (forwarded h)
  | connection_provider s => Some (asked s t)
  | bind_get_connection_timeout p timeout =>
      d ← provider_timeout timeout t now; async_get_connection p (after d) now
  end.

Definition constraint_of (d : option Z) : time_constraint :=
  match d with Some t => until t | None => no_constraint end.

(** [async_request] and [async_execute]: the deadline is computed for the connection
    and again for the request, before either starts. *)
Definition async_request (p : provider) (t : time_constraint) (now_c now_r now : Z) :
  option (acquisition * time_constraint) :=
  d ← deadline_of t now_c;
  d' ← deadline_of t now_r;
  a ← async_get_connection p (constraint_of d) now;
  Some (a, constraint_of d').

(** ** Properties *)

Fixpoint timeouts (p : provider) : list Z :=
  match p with bind_get_connection_timeout p timeout => timeout :: timeouts p | _ => [] end.

(** A constraint that is no weaker than another at a time. *)
Definition within (c t : time_constraint) (now : Z) : Prop :=
  match t with
  | no_constraint => True
  | after d => exists x, c = after x /\ x <= d
  | until T => c = until T \/ exists x, c = after x /\ x <= Z.max 0 (T - now)
  end.

Lemma async_get_connection_within p t now s c :
  clock_ok now = true -> match t with until T => in_S 64 T = true | _ => True end ->
  async_get_connection p t now = Some (asked s c) ->
  within c t now /\ forall b, b ∈ timeouts p -> exists x, c = after x /\ x <= b.
Proof.
  intros Hn. revert t. induction p as [h|s'|p IH b]; intros t Ht Hg; cbn in Hg.
  - done.
  - injection Hg as -> <-. split; [|intros b Hb; by apply not_elem_of_nil in Hb].
    destruct t; cbn; [done | eauto | by left]. exists d. split; [done|lia].
  - destruct (provider_timeout b t now) as [d|] eqn:Hd; [|done]. cbn in Hg.
    destruct (IH (after d) I Hg) as ((x & -> & Hx) & Hb).
    assert (d <= b /\ within (after d) t now) as [Hdb Hw].
    { destruct t as [|e|T]; cbn in Hd; [by simplify_eq | simplify_eq; split; [lia|eexists; split; [done|lia]]|].
      rewrite (time_left_value T now Hn Ht) in Hd. cbn in Hd. simplify_eq.
      split; [lia|]. right. eexists. split; [done|]. lia. }
    split.
    + destruct t as [|e|T]; cbn in *; [done | |]; destruct Hw as [[=]|(y & [= <-] & Hy)] || destruct Hw as (y & [= <-] & Hy).
      * eexists. split; [done|]. lia.
      * right. eexists. split; [done|]. lia.
    + intros b' [->|Hb']%elem_of_cons; [eexists; split; [done|]; lia | by apply Hb].
Qed.

(** A constraint as it is stored, and the time point it means when the clock shows
    [now], in numbers without bounds. *)
Definition constraint_fits (t : time_constraint) : bool :=
  match t with no_constraint => true | after d => in_S 64 d | until T => in_S 64 T end.

Definition limit_of (t : time_constraint) (now : Z) : time_constraint :=
  match t with
  | no_constraint => no_constraint
  | after d => until (Z.min time_max (now + Z.max 0 d))
  | until T => until T
  end.

(** The provider inside of all limits. *)
Fixpoint innermost (p : provider) : provider :=
  match p with bind_get_connection_timeout p _ => innermost p | p => p end.

Lemma deadline_of_limit t now :
  clock_ok now = true -> constraint_fits t = true ->
  exists d, deadline_of t now = Some d /\ constraint_of d = limit_of t now /\
    match limit_of t now with until T => in_S 64 T = true | _ => True end.
Proof.
  intros Hn Ht. destruct t as [|d|T]; cbn in *; [by eexists| |by eexists].
  rewrite deadline_value by done. eexists. split; [done|]. split; [done|]. apply in_S64_iff.
  unfold clock_ok in Hn. rewrite andb_true_iff, !Z.leb_le in Hn. unfold time_max, INT64_MIN, INT64_MAX in *. lia.
Qed.

Lemma async_get_connection_total p t now :
  clock_ok now = true -> match t with until T => in_S 64 T = true | _ => True end ->
  exists a, async_get_connection p t now = Some a /\
    match innermost p, a with
    | from_connection h, forwarded h' => h = h'
    | connection_provider s, asked s' _ => s = s'
    | _, _ => False
    end.
Proof.
  intros Hn. revert t. induction p as [h|s'|p IH b]; intros t Ht; cbn; [by eexists..|].
  destruct (provider_timeout_bounds b t now Hn Ht) as (d & -> & _). cbn. by apply IH.
Qed.

(** C30. The limits of a request, for every time constraint - none, a duration of any
    sign and size, a time point - and every nest of limits on its provider, and every
    reading of the clock: nothing overflows; the request itself has the time point of
    the constraint from when it was started, the greatest there is at most; a source
    is asked with the time point of the connection or for no more than what is left
    to it, and for no more than any of the limits of its provider; and it is the
    source, or the connection, inside of all limits. *)
Theorem request_time_limits p t now_c now_r now :
  clock_ok now_c = true -> clock_ok now_r = true -> clock_ok now = true -> constraint_fits t = true ->
  exists a, async_request p t now_c now_r now = Some (a, limit_of t now_r) /\
    match innermost p, a with
    | from_connection h, forwarded h' => h = h'
    | connection_provider s, asked s' c => s = s' /\
        match limit_of t now_c with
        | no_constraint | after _ => True
        | until T => c = until T \/ exists x, c = after x /\ x <= Z.max 0 (T - now)
        end /\
        (timeouts p = [] -> c = limit_of t now_c) /\
        (forall b, b ∈ timeouts p -> exists x, c = after x /\ x <= b)
    | _, _ => False
    end.
Proof.
  intros Hc Hr Hn Ht. unfold async_request.
  destruct (deadline_of_limit t now_c Hc Ht) as (d & -> & Hd & Hf).
  destruct (deadline_of_limit t now_r Hr Ht) as (d' & -> & Hd' & _). cbn. rewrite Hd, Hd'.
  destruct (async_get_connection_total p _ now Hn Hf) as (a & Ha & Hin). rewrite Ha. cbn.
  exists a. split; [done|]. destruct (innermost p) as [h|s|] eqn:Hp, a as [h'|s' c]; try done.
  apply async_get_connection_within in Ha as Hw; [|done|done]. destruct Hw as [Hw Hb].
  split; [done|]. split; [by destruct (limit_of t now_c)|]. split; [|done].
  intros Ho. destruct p; cbn in *; [done | by simplify_eq | done].
Qed.
End Providers.

(** A duration that is too long for the clock, and a provider with a limit of its own. *)
Lemma request_time_limits_witness :
  let p := bind_get_connection_timeout (connection_provider 7%nat) 10 in
  async_request p (after INT64_MAX) 100 101 102 = Some (asked 7%nat (after 10), until time_max) /\
  exists x, after 10 = after x /\ x <= 10.
Proof.
  intros p. destruct (request_time_limits p (after INT64_MAX) 100 101 102 eq_refl eq_refl eq_refl eq_refl) as (a & Ha & Hb).
  assert (async_request p (after INT64_MAX) 100 101 102 = Some (asked 7%nat (after 10), until time_max)) as He
    by (vm_compute; reflexivity).
  split; [exact He|]. rewrite He in Ha. injection Ha as <-. cbn in Hb. destruct Hb as (_ & _ & _ & Hb). apply Hb. by left.
Defined.

End Providers.
