(* ===== verification/ConnectionInfo.v ===== *)
(** Connections by a connection string: [connection_info] of
    [src/include/bozo/connection_info.h], and a request whose provider is one.

    A [connection_info] is a source: it makes a connection and connects it.  A request
    with such a provider is a connection that is established and then used, each under
    the time limit of the request.  The two machines are those of [TimedConnect] and
    [TimedRequest]: the request starts in the handler call that ends the connecting,
    and what is left of the connecting then - a write wait of the OID request - goes
    on beside it, on the same connection of libpq. *)

From S2P Require Import Prelude ErrorCode Errors Endian TypeSystem BinaryQuery QueryBuilder RequestOidMap Deadline.
From S2P Require Import Cancel AsyncRequest RequestRuns TimedOperation TimedRequest Connection TimedConnect Providers.
From Stdlib Require Import ZArith Lia List String.
From stdpp Require Import base tactics list relations.

Module ConnectionInfo.

Import Connection TimedOperation TimedConnect.

(** [connection_info]: the OID map is that of the connection, the statistics are handed
    on and are not used. *)
Record connection_info := mk_connection_info { conn_str : string }.

Definition make_connection_info (conn_str : string) : connection_info := mk_connection_info conn_str.

(** [operator[]] and [make_connector]. *)
Definition provider_of (info : connection_info) : @Providers.provider connection_info :=
  Providers.connection_provider info.
Definition make_connector (info : connection_info) (timeout : Z) : @Providers.provider connection_info :=
  Providers.bind_get_connection_timeout (provider_of info) timeout.

(** [deadline_of] makes [none] or a time point of a time constraint. *)
Definition constrained (t : Deadline.time_constraint) : bool :=
  match t with Deadline.no_constraint => false | _ => true end.

Section Request.
Context `{Boost} {L P : Type} `{LibPQConnect L P} {Lr R : Type} `{AsyncRequest.LibPQ Lr R} `{!AsyncRequest.LibPQLaws Lr R}.
Context (session : L -> option P -> Lr) (m : TypeSystem.oid_map) (oids_query : BinaryQuery.binary_query).
Context (recv_oids : R -> string + list Z).
(** The processor of the request. *)
Context (process : R -> option string).

#[local] Instance connecting_operation : Operation (@connect_state L P Lr R) :=
  connect_operation session m oids_query recv_oids.
#[local] Instance connecting_laws : OperationLaws (@connect_state L P Lr R) :=
  connect_laws session m oids_query recv_oids.
#[local] Instance requesting_operation : Operation (@AsyncRequest.request Lr R) :=
  TimedRequest.request_operation process.
#[local] Instance requesting_laws : OperationLaws (@AsyncRequest.request Lr R) :=
  TimedRequest.request_laws process.

(** [operator()]: a new connection is connected. *)
Definition connection_info_call (info : connection_info) (t : Deadline.time_constraint) (l : L) :
  @timed (@connect_state L P Lr R) :=
  async_connect session m oids_query recv_oids (constrained t) (conn_str info) l.

(** The state libpq is in when the connection is handed over. *)
Definition session_after (s : @connect_state L P Lr R) : Lr :=
  match oid_request s with
  | Some r => AsyncRequest.lib r
  | None => session (lib (polled s)) (handle_ (conn (polled s)))
  end.

Record state := mk_state {
  connecting_ : @timed (@connect_state L P Lr R);
  requesting_ : option (@timed (@AsyncRequest.request Lr R));
}.

(** The connection is given to [async_request_op]; [t'] is the deadline of the request. *)
Definition got_connection (q : BinaryQuery.binary_query) (t' : Deadline.time_constraint) (ec : error_code)
  (c : @timed (@connect_state L P Lr R)) : state :=
  mk_state c (Some (TimedRequest.async_request_op process (constrained t') q ec (session_after (op c)))).

(** The two requests use one connection of libpq. *)
Definition share_request (l : Lr) (r : @timed (@AsyncRequest.request Lr R)) : @timed (@AsyncRequest.request Lr R) :=
  with_op (AsyncRequest.with_lib l (op r)) r.
Definition share_connect (l : Lr) (c : @timed (@connect_state L P Lr R)) : @timed (@connect_state L P Lr R) :=
  match oid_request (op c) with
  | Some ro => with_op (mk_connect (polled (op c)) (Some (AsyncRequest.with_lib l ro))) c
  | None => c
  end.

(** The connecting goes on to [c]: the first call of its handler starts the request,
    in the same step. *)
Definition connecting_to (q : BinaryQuery.binary_query) (t' : Deadline.time_constraint)
  (c : @timed (@connect_state L P Lr R)) (r : option (@timed (@AsyncRequest.request Lr R))) : state :=
  match r, TimedOperation.user_calls c with
  | None, [] => mk_state c None
  | None, (ec :: _)%list => got_connection q t' ec c
  | Some r, _ =>
      mk_state c (Some (match oid_request (op c) with
                        | Some ro => share_request (AsyncRequest.lib ro) r
                        | None => r
                        end))
  end.

(** [async_request] with the provider of a [connection_info]: [t] is the deadline of
    the connection. *)
Definition async_request (q : BinaryQuery.binary_query) (t' : Deadline.time_constraint)
  (info : connection_info) (t : Deadline.time_constraint) (l : L) : state :=
  connecting_to q t' (connection_info_call info t l) None.

Inductive step (q : BinaryQuery.binary_query) (t' : Deadline.time_constraint) : state -> state -> Prop :=
| step_connecting c c' r : any_step c c' -> step q t' (mk_state c r) (connecting_to q t' c' r)
| step_requesting c r r' : any_step r r' ->
    step q t' (mk_state c (Some r)) (mk_state (share_connect (AsyncRequest.lib (op r')) c) (Some r')).

Definition user_calls (s : state) : list error_code :=
  match requesting_ s with Some r => TimedOperation.user_calls r | None => [] end.

(** Nothing is left to happen to an operation. *)
Definition quiet {S} `{Operation S} (w : @timed S) : Prop :=
  (forall k, waits_for k (op w) = false) /\ timer_armed w = false /\ queue w = [].

(** One of the two requests runs a late write handler. *)
Inductive late_step (q : BinaryQuery.binary_query) (t' : Deadline.time_constraint) : state -> state -> Prop :=
| late_connecting c c' r : late_oid_step session m oids_query recv_oids c c' ->
    late_step q t' (mk_state c r) (connecting_to q t' c' r)
| late_requesting c r r' : TimedRequest.late_write_step process r r' ->
    late_step q t' (mk_state c (Some r)) (mk_state (share_connect (AsyncRequest.lib (op r')) c) (Some r')).

Definition late_write (q : BinaryQuery.binary_query) (t' : Deadline.time_constraint) (s0 s : state) : Prop :=
  exists s1 s2, rtc (step q t') s0 s1 /\ late_step q t' s1 s2 /\ rtc (step q t') s2 s.

(** ** Invariant *)

(** The sharing does not matter to what the machines promise. *)
Lemma share_request_ok l r : timed_ok r -> timed_ok (share_request l r).
Proof.
  intros (Hs & Hw & Hd). split; [exact Hs|]. split; [|exact Hd]. intros []; [exact (Hw for_read) | exact (Hw for_write)].
Qed.

Lemma share_connect_ok l c : timed_ok c -> timed_ok (share_connect l c).
Proof.
  unfold share_connect. destruct (oid_request (op c)) as [ro|] eqn:Ho; [|done]. intros (Hs & Hw & Hd).
  split_and!.
  - unfold operation_ok in *. cbn in *. unfold connect_ok in *. rewrite Ho in Hs. exact Hs.
  - intros k. specialize (Hw k). cbn in *. rewrite Ho in Hw. by destruct k.
  - unfold deadline_ok in *. cbn in *. unfold connect_outcomes in *. rewrite Ho in Hd. exact Hd.
Qed.

Lemma share_connect_calls l c : TimedOperation.user_calls (share_connect l c) = TimedOperation.user_calls c.
Proof. unfold share_connect. by destruct (oid_request (op c)). Qed.

Lemma share_connect_deadline l c : deadline_ (share_connect l c) = deadline_ c.
Proof. unfold share_connect. by destruct (oid_request (op c)). Qed.

(** The request has got its connection with [ec]: with an error it does nothing but to
    hand it on. *)
Definition request_consistent (t' : Deadline.time_constraint) (ec : error_code)
  (r : @timed (@AsyncRequest.request Lr R)) : Prop :=
  if is_error ec
  then exists l, r = mk_timed (AsyncRequest.initial l) None [ec] false []
  else timed_ok r /\ (is_Some (deadline_ r) <-> constrained t' = true).

Definition consistent (t' t : Deadline.time_constraint) (s : state) : Prop :=
  timed_ok (connecting_ s) /\ (is_Some (deadline_ (connecting_ s)) <-> constrained t = true) /\
  match requesting_ s with
  | None => TimedOperation.user_calls (connecting_ s) = []
  | Some r => exists ec, TimedOperation.user_calls (connecting_ s) = [ec] /\ request_consistent t' ec r
  end.

Lemma request_started q t' ec l :
  request_consistent t' ec (TimedRequest.async_request_op process (constrained t') q ec l).
Proof.
  unfold request_consistent, TimedRequest.async_request_op. destruct (is_error ec) eqn:He; [by eexists|].
  assert (operation_ok (AsyncRequest.start process q l)) as Hs by exact (AsyncRequest.start_settled process q l).
  split; [by apply launch_ok|]. by apply (any_constrained _ (AsyncRequest.initial l) (AsyncRequest.start process q l)), rtc_refl.
Qed.

Lemma request_shared t' ec l r : request_consistent t' ec r -> request_consistent t' ec (share_request l r).
Proof.
  unfold request_consistent. destruct (is_error ec).
  - intros (l' & ->). by exists l.
  - intros [Hok Hd]. split; [by apply share_request_ok | exact Hd].
Qed.

Lemma connecting_to_consistent q t' t c r :
  timed_ok c -> (is_Some (deadline_ c) <-> constrained t = true) ->
  match r with
  | None => True
  | Some r => exists ec, TimedOperation.user_calls c = [ec] /\ request_consistent t' ec r
  end -> consistent t' t (connecting_to q t' c r).
Proof.
  intros Hok Hd Hr. unfold connecting_to. destruct r as [r|].
  - destruct Hr as (ec & Hu & Hr). split; [done|]. split; [done|]. exists ec. split; [done|].
    cbn. destruct (oid_request (op c)); [by apply request_shared | done].
  - destruct (TimedOperation.user_calls c) as [|ec [|]] eqn:Hu; [done| |].
    + split; [done|]. split; [done|]. exists ec. split; [done | apply request_started].
    + destruct (timed_ok_calls c Hok) as (Hl & _). rewrite Hu in Hl. cbn in Hl. lia.
Qed.

(** The calls of the connecting stay as they are. *)
Lemma calls_stay (c c' : @timed (@connect_state L P Lr R)) ec :
  any_step c c' -> timed_ok c' -> TimedOperation.user_calls c = [ec] -> TimedOperation.user_calls c' = [ec].
Proof.
  intros Hs Hok Hu. apply any_step_calls in Hs as [k Hk]. destruct (timed_ok_calls c' Hok) as (Hl & _).
  rewrite Hk, Hu in Hl |- *. destruct k; [done|]. cbn in Hl. lia.
Qed.

Lemma step_consistent q t' t s s' : consistent t' t s -> step q t' s s' -> late_step q t' s s' \/ consistent t' t s'.
Proof.
  intros Hc Hs. destruct Hs as [c c' r Hs|c r r' Hs]; destruct Hc as (Hok & Hd & Hr); cbn in *.
  - destruct (any_step_ok c c' Hok Hs) as [Hi%irregular_late_oid|Hok']; [left; by constructor|]. right.
    apply connecting_to_consistent; [done|by rewrite (any_step_constrained _ _ Hs)|].
    destruct r as [r|]; [|done]. destruct Hr as (ec & Hu & Hr). exists ec. split; [|done].
    by apply (calls_stay c).
  - destruct Hr as (ec & Hu & Hr). assert (consistent t' t (mk_state (share_connect (AsyncRequest.lib (op r')) c) (Some r'))
      \/ TimedRequest.late_write_step process r r') as [?|?]; [|by right|left; by constructor].
    unfold consistent. cbn. rewrite share_connect_calls, share_connect_deadline.
    unfold request_consistent in *. destruct (is_error ec) eqn:He.
    + destruct Hr as (l & ->). exfalso. inversion Hs as [[] | |q1 e q2 ? Hq]; try done. by destruct q1.
    + destruct Hr as [Hor Hdr]. destruct (any_step_ok r r' Hor Hs) as [Hi%TimedRequest.irregular_late|Hok']; [by right|].
      left. split; [by apply share_connect_ok|]. split; [done|]. exists ec. split; [done|]. rewrite He.
      split; [done|]. by rewrite (any_step_constrained _ _ Hs).
Qed.

Lemma async_request_consistent q t' info t l : consistent t' t (async_request q t' info t l).
Proof.
  pose proof (connect_started_ok session m oids_query recv_oids (conn_str info) l) as Hs.
  apply connecting_to_consistent; [|by apply (any_constrained _ _ _ _ (rtc_refl _ _))|done].
  apply launch_ok; [apply not_connected_open | exact Hs].
Qed.

Lemma steps_consistent q t' info t l s :
  rtc (step q t') (async_request q t' info t l) s ->
  late_write q t' (async_request q t' info t l) s \/ consistent t' t s.
Proof.
  apply (rtc_ind_r (fun s => late_write q t' (async_request q t' info t l) s \/ consistent t' t s)).
  - right. apply async_request_consistent.
  - intros y z Hy Hs [(s1 & s2 & H1' & H2' & H3')|Hc].
    + left. exists s1, s2. do 2 (split; [done|]). by eapply rtc_r.
    + destruct (step_consistent _ _ _ _ _ Hc Hs) as [Hl|Hz]; [left; by exists y, z | by right].
Qed.

Lemma not_timed_out ec : asio_value timed_out <> 0%Z -> is_error ec = false -> ec <> make_asio_error timed_out.
Proof. intros Ht He ->. unfold is_error in He. cbn in He. by destruct (Z.eqb_spec (asio_value timed_out) 0). Qed.

(** C10. A request whose provider is a connection string, in every run of the connecting
    and of the request in which their handlers run one at a time, in any order: the
    request starts in the handler call that ends the connecting, and what is left of
    the OID request goes on beside it.  Either one of the two requests runs a late
    write handler - its write wait has failed after it had succeeded - or the user's
    handler is called at most once, for the connection and the request together: when
    nothing is left of the connecting the request was started, and when nothing is
    left of it either, the handler was called.  An error of the connection is what the
    handler gets, and the request is not begun then; without an error the connection
    was open, the OIDs of its types were stored, and the request itself ended without
    an error. *)
Theorem connected_request_once q t' info t l s :
  asio_value timed_out <> 0%Z ->
  rtc (step q t') (async_request q t' info t l) s ->
  late_write q t' (async_request q t' info t l) s \/
  (List.length (user_calls s) <= 1)%nat /\
  (quiet (connecting_ s) -> exists r, requesting_ s = Some r /\
     (quiet r -> List.length (user_calls s) = 1%nat)) /\
  (forall ec, TimedOperation.user_calls (connecting_ s) = [ec] -> is_error ec = true ->
     user_calls s = [ec] /\ exists r l', requesting_ s = Some r /\ op r = AsyncRequest.initial l') /\
  (forall ec, user_calls s = [ec] -> is_error ec = false ->
     exists r, requesting_ s = Some r /\ AsyncRequest.handler_calls (op r) = [ec] /\
       is_open (polled (op (connecting_ s))) = true /\
       (TypeSystem.oid_map_empty m = false -> exists ro, oid_request (op (connecting_ s)) = Some ro /\
          snd (RequestOidMap.set_oid_map m (received recv_oids ro)) = Ok tt)).
Proof.
  intros Hto Hr. destruct (steps_consistent _ _ _ _ _ _ Hr) as [Hl|Hc]; [by left|right].
  clear Hr. destruct s as [c r], Hc as (Hok & Hd & Hc). cbn in *.
  destruct (timed_ok_calls c Hok) as (_ & Hc2 & Hc3). unfold user_calls. cbn.
  destruct r as [r|].
  2: { rewrite Hc in *. split; [cbn; lia|]. split; [|done].
       intros (Hw & Ht & Hq). specialize (Hc2 (Hw _) Ht Hq). cbn in Hc2. lia. }
  destruct Hc as (ec0 & Hu & Hc). unfold request_consistent in Hc. destruct (is_error ec0) eqn:He0.
  - destruct Hc as (l' & ->). rewrite Hu. cbn. split_and!; [lia|by eexists| |].
    + intros ec [= <-] _. split; [done|]. by eexists _, _.
    + intros ec [= <-] He. congruence.
  - destruct Hc as [Hor Hdr]. destruct (timed_ok_calls r Hor) as (Hr1 & Hr2 & Hr3). split_and!; [done| | |].
    + intros _. exists r. split; [done|]. intros (Hw & Ht & Hq). apply Hr2; [exact (Hw for_read)|done|done].
    + intros ec Hec He. congruence.
    + intros ec Hec He. exists r. split; [done|].
      destruct (Hr3 ec Hec) as (ec' & Hh & [->|(_ & Hx)]); [|by apply not_timed_out in Hx].
      split; [exact Hh|]. destruct (Hc3 ec0 Hu) as (ec1 & Ho & [<-|(_ & Hx)]); [|by apply not_timed_out in Hx].
      destruct Hok as (Hok & _). destruct (connect_ok_success _ _ _ ec0 Hok Ho He0) as [Hop Hm].
      split; [done|]. intros Hne. destruct (Hm Hne) as (ro & e & ? & _ & _ & ?). by exists ro.
Qed.

End Request.

(** ** A request to the database of [TimedConnect] *)

#[local] Existing Instance linux_boost.
#[local] Existing Instance TimedRequest.parts_libpq.
#[local] Existing Instance TimedRequest.parts_laws.

Definition sample_connected : @timed (@connect_state unit nat nat AsyncRequest.exec_status) :=
  @run_event _ _ sample_operation (ev_wait for_write no_error) (sample_connect false).

Definition sample_begin : @state unit nat nat AsyncRequest.exec_status :=
  async_request sample_session RequestOidMap.sample_map sample_query sample_oids (fun _ => None)
    AsyncRequest.no_query Deadline.no_constraint (make_connection_info "host=db") Deadline.no_constraint tt.

Definition sample_end : @state unit nat nat AsyncRequest.exec_status :=
  got_connection sample_session (fun _ => None) AsyncRequest.no_query Deadline.no_constraint no_error
    sample_connected.

(** The connection becomes ready, the OIDs and the answer of the request are there at
    once: all in the handler of the first wait. *)
Lemma connected_request_once_witness :
  user_calls sample_end = [no_error] /\
  (late_write sample_session RequestOidMap.sample_map sample_query sample_oids (fun _ => None)
     AsyncRequest.no_query Deadline.no_constraint sample_begin sample_end \/
   is_open (polled (op (connecting_ sample_end))) = true /\
   exists ro, oid_request (op (connecting_ sample_end)) = Some ro /\
     snd (RequestOidMap.set_oid_map RequestOidMap.sample_map (received sample_oids ro)) = Ok tt).
Proof.
  assert (user_calls sample_end = [no_error]) as Hu by (vm_compute; reflexivity).
  split; [exact Hu|].
  destruct (connected_request_once sample_session RequestOidMap.sample_map sample_query sample_oids (fun _ => None)
    AsyncRequest.no_query Deadline.no_constraint (make_connection_info "host=db") Deadline.no_constraint tt sample_end)
    as [Hl|(_ & _ & _ & H4)]; [| |left; exact Hl|right].
  - vm_compute. discriminate.
  - change (async_request _ _ _ _ _ _ _ _ _ _) with (mk_state (sample_connect false) None).
    eapply rtc_l; [eapply step_connecting; by apply (any_wait for_write no_error)|].
    eapply rtc_l; [eapply (step_connecting _ _ _ _ _ _ _ _ _ None);
      by apply (any_run [] (ev_wait for_write no_error) [])|].
    match goal with |- rtc _ ?a ?b => replace a with b by (vm_compute; reflexivity) end. apply rtc_refl.
  - destruct (H4 no_error Hu eq_refl) as (r & _ & _ & Ho & Hm). split; [exact Ho|].
    by apply Hm.
Defined.

End ConnectionInfo.
